(** * Open Wavetable (OWT) string compiler of cirrus-hal: a shallow embedding

    The development follows [owt/owt.c] and the header it is compiled against
    (the 2023 [owt.h], which carries the SVC/EP metadata definitions and the
    inline [dspmem_chunk_create], [dspmem_chunk_end], [dspmem_chunk_bytes]).

    Conventions.
    - C integers are [Z] with the wrap-around of their type written out
      ([u8], [u16], [u32], [s32]).
    - A C function that returns a negative errno returns [Err code] with the
      very [int] it returns; [Fault] marks a run that leaves defined C
      (a NULL or one-past-the-end dereference, a conversion of NaN) or the
      fragment of libc that is modelled here (see [Libc]).
    - Automatic variables that the C code never initialises are explicit
      arguments of the model (record [indeterminate]). *)

From Stdlib Require Import ZArith List String Ascii Bool Lia.
Import ListNotations.
Open Scope Z_scope.

(** ** Results of fallible C calls *)

Inductive result (A : Type) : Type :=
| Ok (a : A)
| Err (code : Z)
| Fault.
Arguments Ok {A} a.
Arguments Err {A} code.
Arguments Fault {A}.

Definition bind {A B} (r : result A) (k : A -> result B) : result B :=
  match r with
  | Ok a => k a
  | Err c => Err c
  | Fault => Fault
  end.

Notation "x <- r ;; k" := (bind r (fun x => k))
  (at level 61, r at next level, right associativity).

Definition EINVAL : Z := 22.
Definition ENOSPC : Z := 28.
Definition ERANGE : Z := 34.
Definition E2BIG : Z := 7.

(** ** Fixed-width integers *)

Definition u8 (x : Z) : Z := x mod 2 ^ 8.
Definition u16 (x : Z) : Z := x mod 2 ^ 16.
Definition u32 (x : Z) : Z := x mod 2 ^ 32.
Definition u64 (x : Z) : Z := x mod 2 ^ 64.
(** Conversion to [int] as gcc does it (reduction modulo 2^32). *)
Definition s32 (x : Z) : Z := (x + 2 ^ 31) mod 2 ^ 32 - 2 ^ 31.

(** ** Constants of owt.h (2023) *)

Definition WT_MAX_SECTIONS : Z := 256.
Definition WT_MAX_DELAY : Z := 10000.
Definition WT_INDEFINITE : Z := 0x00400000.
Definition WT_LEN_CALCD : Z := 0x00800000.
Definition WT_REPEAT_LOOP_MARKER : Z := 0xFF.
Definition WT_INDEF_TIME_VAL : Z := 0xFFFF.
Definition WT_MAX_TIME_VAL : Z := 16383.
Definition WT_SVC_METADATA_ID : Z := 1.
Definition WT_EP_METADATA_ID : Z := 2.
Definition WT_TYPE10_COMP_METADATA_LEN : Z := 2.
Definition WT_TYPE10_COMP_SEG_LEN_MAX : Z := 20.
Definition WT_TYPE10_COMP_DURATION_FLAG : Z := 0x80.
Definition WT_TYPE12_HEADER_WORDS : Z := 3.
Definition WT_TYPE12_METADATA_TERMINATOR : Z := 0xFFFFFF.
Definition WT_TYPE12_PWLE_TOTAL_VALS : Z := 1787.
Definition WT_TYPE12_PWLE_BYTES_MAX : Z := 2302.
Definition WT_TYPE12_PWLE_MAX_RP_VAL : Z := 255.
Definition WT_TYPE12_PWLE_INDEF_TIME_VAL : Z := 65535.
Definition WT_TYPE12_PWLE_MAX_WVFRM_FEAT : Z := 255.
Definition WT_TYPE12_PWLE_WVFRM_FT_SHFT : Z := 8.
Definition WT_TYPE12_PWLE_METADATA_FLAG : Z := Z.shiftl 1 10.
Definition WT_TYPE12_PWLE_CHIRP_BIT : Z := Z.shiftl 1 7.
Definition WT_TYPE12_PWLE_BRAKE_BIT : Z := Z.shiftl 1 6.
Definition WT_TYPE12_PWLE_AMP_REG_BIT : Z := Z.shiftl 1 5.
Definition WT_TYPE12_PWLE_EXT_FREQ_BIT : Z := Z.shiftl 1 4.
Definition WT_TYPE12_PWLE_REL_FREQ_BIT : Z := Z.shiftl 1 3.
Definition WT_TYPE12_PWLE_SINGLE_PACKED_MAX : Z := 1152.
Definition WT_TYPE12_PWLE_MAX_BRAKING_TIME : Z := 1000.
Definition WT_TYPE12_PWLE : Z := 12.

(** ** The bitstream writer ([struct dspmem_chunk])

    [data] and [max] are byte offsets from the start of the caller's buffer;
    [mem] lists the bytes stored through [data] so far, in store order, so
    that [mem] is the content of the buffer from offset 0 on. *)

Record dspmem_chunk : Type := mk_chunk {
  data : Z;
  max : Z;
  bytes : Z;
  cache : Z;
  cachebits : Z;
  mem : list Z
}.

Definition dspmem_chunk_create (size : Z) : dspmem_chunk :=
  {| data := 0; max := 0 + size; bytes := 0; cache := 0; cachebits := 0;
     mem := [] |}.

Definition dspmem_chunk_end (ch : dspmem_chunk) : bool := data ch =? max ch.

Definition dspmem_chunk_bytes (ch : dspmem_chunk) : Z := bytes ch.

(** [sizeof(ch->cache)]: the cache is a [uint32_t]. *)
Definition sizeof_cache : nat := 4.

(** The loop
    [for (i = 0; i < sizeof(ch->cache); i++, ch->cache <<= 8)
       *ch->data++ = (ch->cache & 0xFF000000) >> 24;] *)
Fixpoint emit_cache (n : nat) (ch : dspmem_chunk) : dspmem_chunk :=
  match n with
  | O => ch
  | S n' =>
      let b := Z.shiftr (Z.land (cache ch) 0xFF000000) 24 in
      emit_cache n'
        {| data := data ch + 1; max := max ch; bytes := bytes ch;
           cache := u32 (Z.shiftl (cache ch) 8); cachebits := cachebits ch;
           mem := mem ch ++ [b] |}
  end.

(** [dspmem_chunk_write], recursive as in the source.  The recursion is on the
    bits left to write; [fuel] bounds its depth and [None] is "out of fuel"
    (never reached with the fuel of [dspmem_chunk_write], see
    [dspmem_chunk_write_total]).  The C code needs [0 <= cachebits <= 24] and
    [0 <= nbits - nwrite < 32] for its shifts to be defined. *)
Fixpoint dspmem_chunk_write_rec (fuel : nat) (ch : dspmem_chunk)
    (nbits val : Z) : option (Z * dspmem_chunk) :=
  match fuel with
  | O => None
  | S fuel' =>
      let nwrite := Z.min (24 - cachebits ch) nbits in
      let cache1 := Z.lor (u32 (Z.shiftl (cache ch) nwrite))
                          (Z.shiftr val (nbits - nwrite)) in
      let ch1 := {| data := data ch; max := max ch; bytes := bytes ch;
                    cache := cache1; cachebits := cachebits ch + nwrite;
                    mem := mem ch |} in
      let nbits1 := nbits - nwrite in
      if cachebits ch1 =? 24 then
        if dspmem_chunk_end ch1 then Some (- ENOSPC, ch1)
        else
          let ch2 := emit_cache sizeof_cache
                       {| data := data ch1; max := max ch1; bytes := bytes ch1;
                          cache := Z.land (cache ch1) 0xFFFFFF;
                          cachebits := cachebits ch1; mem := mem ch1 |} in
          let ch3 := {| data := data ch2; max := max ch2;
                        bytes := bytes ch2 + Z.of_nat sizeof_cache;
                        cache := cache ch2; cachebits := 0; mem := mem ch2 |} in
          if nbits1 =? 0 then Some (0, ch3)
          else dspmem_chunk_write_rec fuel' ch3 nbits1 val
      else
        if nbits1 =? 0 then Some (0, ch1)
        else dspmem_chunk_write_rec fuel' ch1 nbits1 val
  end.

Definition write_fuel (nbits : Z) : nat := S (S (Z.to_nat nbits)).

Definition dspmem_chunk_write (ch : dspmem_chunk) (nbits val : Z)
  : option (Z * dspmem_chunk) :=
  dspmem_chunk_write_rec (write_fuel nbits) ch nbits val.

Definition dspmem_chunk_flush (ch : dspmem_chunk) : option (Z * dspmem_chunk) :=
  if cachebits ch =? 0 then Some (0, ch)
  else dspmem_chunk_write ch (24 - cachebits ch) 0.

(** The encoders call the writer for its effect on the chunk and drop the
    [int] it returns. *)
Definition put (nbits val : Z) (ch : dspmem_chunk) : result dspmem_chunk :=
  match dspmem_chunk_write ch nbits val with
  | Some (_, ch') => Ok ch'
  | None => Fault
  end.

Definition put_flush (ch : dspmem_chunk) : result dspmem_chunk :=
  match dspmem_chunk_flush ch with
  | Some (_, ch') => Ok ch'
  | None => Fault
  end.

(** A run of writer calls, in order. *)
Fixpoint put_all (fields : list (Z * Z)) (ch : dspmem_chunk)
  : result dspmem_chunk :=
  match fields with
  | [] => Ok ch
  | (nbits, val) :: rest => ch' <- put nbits val ch ;; put_all rest ch'
  end.

(** ** The fragment of libc the compiler relies on

    C strings are Rocq strings (the text before the terminating NUL); a
    [char *] that may be NULL is an [option string].  Integer parsing follows
    glibc on an LP64 target ([unsigned long] has 64 bits). *)

Module Libc.

Open Scope string_scope.
Open Scope Z_scope.

Definition code (c : ascii) : Z := Z.of_N (N_of_ascii c).

Definition isdigit (c : ascii) : bool := (48 <=? code c) && (code c <=? 57).
Definition isalpha (c : ascii) : bool :=
  ((65 <=? code c) && (code c <=? 90)) || ((97 <=? code c) && (code c <=? 122)).
Definition isspace (c : ascii) : bool :=
  (code c =? 32) || ((9 <=? code c) && (code c <=? 13)).
Definition tolower (c : ascii) : ascii :=
  if (65 <=? code c) && (code c <=? 90)
  then ascii_of_N (N_of_ascii c + 32) else c.

(** The text of a [char] array up to its first NUL. *)
Fixpoint cstr (s : string) : string :=
  match s with
  | EmptyString => EmptyString
  | String c s' => if (code c =? 0) then EmptyString else String c (cstr s')
  end.

Definition strlen (s : string) : Z := Z.of_nat (String.length s).

Fixpoint mem_char (c : ascii) (set : string) : bool :=
  match set with
  | EmptyString => false
  | String d set' => Ascii.eqb c d || mem_char c set'
  end.

(** [str + n]: the string from offset [n] on ([n] within the string). *)
Fixpoint advance (n : nat) (s : string) : string :=
  match n, s with
  | O, _ => s
  | S n', String _ s' => advance n' s'
  | S _, EmptyString => EmptyString
  end.

(** Character at offset [n]; the terminating NUL at and past the end. *)
Definition char_at (n : nat) (s : string) : ascii :=
  match String.get n s with
  | Some c => c
  | None => zero
  end.

(** All the tokens that the loop
    [str = strtok(full_str, delim); while (str != NULL) { ...;
     str = strtok(NULL, delim); }] visits, in order. *)
Fixpoint strtok_loop (delim : string) (s : string) (cur : string)
  : list string :=
  match s with
  | EmptyString => if (String.length cur =? 0)%nat then [] else [cur]
  | String c s' =>
      if mem_char c delim
      then if (String.length cur =? 0)%nat
           then strtok_loop delim s' EmptyString
           else cur :: strtok_loop delim s' EmptyString
      else strtok_loop delim s' (cur ++ String c EmptyString)
  end.

Definition strtok_all (s delim : string) : list string :=
  strtok_loop delim s EmptyString.

(** [strsep(&str, delim)]: the text before the first delimiter, and what
    [str] points to afterwards ([None] is NULL: no delimiter found). *)
Fixpoint strsep (s delim : string) : string * option string :=
  match s with
  | EmptyString => (EmptyString, None)
  | String c s' =>
      if mem_char c delim then (EmptyString, Some s')
      else let '(tok, rest) := strsep s' delim in (String c tok, rest)
  end.

Definition strcmp_eq (a b : string) : bool := String.eqb a b.

(** [strncmp(a, b, n) == 0]. *)
Definition strncmp_eq (a b : string) (n : nat) : bool :=
  String.eqb (substring 0 n a) (substring 0 n b).

(** [strstr(s, needle) != NULL]. *)
Fixpoint strstr (s needle : string) : bool :=
  prefix needle s ||
  match s with
  | EmptyString => false
  | String _ s' => strstr s' needle
  end.

(** [strnchr(s, count, c) != NULL] (owt.c's own helper). *)
Fixpoint strnchr (s : string) (count : nat) (c : ascii) : bool :=
  match count with
  | O => false
  | S count' =>
      match s with
      | EmptyString => Ascii.eqb zero c
      | String d s' => Ascii.eqb d c || strnchr s' count' c
      end
  end.

Fixpoint skip_space (s : string) : string :=
  match s with
  | String c s' => if isspace c then skip_space s' else s
  | EmptyString => s
  end.

(** An optional sign: [true] for '-'. *)
Definition take_sign (s : string) : bool * string :=
  match s with
  | String c s' =>
      if Ascii.eqb c "-" then (true, s')
      else if Ascii.eqb c "+" then (false, s')
      else (false, s)
  | EmptyString => (false, s)
  end.

(** A run of decimal digits: its value, its length, the rest. *)
Fixpoint digits (s : string) (acc : Z) (n : nat) : Z * nat * string :=
  match s with
  | String c s' =>
      if isdigit c then digits s' (10 * acc + (code c - 48)) (S n)
      else (acc, n, s)
  | EmptyString => (acc, n, s)
  end.

Definition ULONG_MAX : Z := 2 ^ 64 - 1.
Definition LONG_MAX : Z := 2 ^ 63 - 1.
Definition LONG_MIN : Z := - 2 ^ 63.

(** [strtoul(s, NULL, 10)]. *)
Definition strtoul (s : string) : Z :=
  let '(neg, s1) := take_sign (skip_space s) in
  let '(v, n, _) := digits s1 0 0 in
  match n with
  | O => 0
  | _ => if ULONG_MAX <? v then ULONG_MAX
         else if neg then u64 (- v) else v
  end.

(** [strtol(s, NULL, 10)]. *)
Definition strtol (s : string) : Z :=
  let '(neg, s1) := take_sign (skip_space s) in
  let '(v, n, _) := digits s1 0 0 in
  match n with
  | O => 0
  | _ => if neg then (if - v <? LONG_MIN then LONG_MIN else - v)
         else (if LONG_MAX <? v then LONG_MAX else v)
  end.

(** [atoi(s)] is [(int) strtol(s, NULL, 10)]; [atoi(NULL)] faults. *)
Definition atoi (s : option string) : result Z :=
  match s with
  | Some s => Ok (s32 (strtol s))
  | None => Fault
  end.

(** One [%u] conversion of [sscanf]: the [unsigned int] stored and the rest
    of the input, or [None] on a matching failure. *)
Definition scan_u (s : string) : option (Z * string) :=
  let '(neg, s1) := take_sign (skip_space s) in
  let '(v, n, rest) := digits s1 0 0 in
  match n with
  | O => None
  | _ => Some (u32 (if ULONG_MAX <? v then ULONG_MAX
                    else if neg then u64 (- v) else v), rest)
  end.

(** A literal character of the format. *)
Definition scan_lit (c : ascii) (s : string) : option string :=
  match s with
  | String d s' => if Ascii.eqb c d then Some s' else None
  | EmptyString => None
  end.

(** Is the input exhausted when a conversion starts (after white space)? *)
Definition at_eof (s : string) : bool :=
  match skip_space s with
  | EmptyString => true
  | _ => false
  end.

(** [sscanf(s, "%u<sep>%u<sep>%u", &a, &b, &c)] for a separator character:
    the value returned and the three variables afterwards ([a0], [b0], [c0]
    are their values before the call). *)
Definition sscanf_uuu (sep : ascii) (s : string) (a0 b0 c0 : Z)
  : Z * (Z * Z * Z) :=
  if at_eof s then (-1, (a0, b0, c0)) else
  match scan_u s with
  | None => (0, (a0, b0, c0))
  | Some (a, s1) =>
      match scan_lit sep s1 with
      | None => (1, (a, b0, c0))
      | Some s2 =>
          match scan_u s2 with
          | None => (1, (a, b0, c0))
          | Some (b, s3) =>
              match scan_lit sep s3 with
              | None => (2, (a, b, c0))
              | Some s4 =>
                  match scan_u s4 with
                  | None => (2, (a, b, c0))
                  | Some (c, _) => (3, (a, b, c))
                  end
              end
          end
      end
  end.

(** A run of at most [n] non-blank characters ([%3s] for [n = 3]). *)
Fixpoint take_word (n : nat) (s : string) : string * string :=
  match n, s with
  | S n', String c s' =>
      if isspace c then (EmptyString, s)
      else let '(w, rest) := take_word n' s' in (String c w, rest)
  | _, _ => (EmptyString, s)
  end.

(** [sscanf(s, "%3s%u.%u.%u", bank, &a, &b, &c)]. *)
Definition sscanf_suuu (s : string) (bank0 : string) (a0 b0 c0 : Z)
  : Z * (string * (Z * Z * Z)) :=
  if at_eof s then (-1, (bank0, (a0, b0, c0))) else
  let '(bank, s1) := take_word 3 (skip_space s) in
  match scan_u s1 with
  | None => (1, (bank, (a0, b0, c0)))
  | Some (a, s2) =>
      match scan_lit "." s2 with
      | None => (2, (bank, (a, b0, c0)))
      | Some s3 =>
          match scan_u s3 with
          | None => (2, (bank, (a, b0, c0)))
          | Some (b, s4) =>
              match scan_lit "." s4 with
              | None => (3, (bank, (a, b, c0)))
              | Some s5 =>
                  match scan_u s5 with
                  | None => (3, (bank, (a, b, c0)))
                  | Some (c, _) => (4, (bank, (a, b, c)))
                  end
              end
          end
      end
  end.

End Libc.

(** ** IEEE 754 binary32 arithmetic, as far as [parse_float] needs it

    A finite [float] is a dyadic number [fm * 2 ^ fe]; conversions and
    products round to nearest, ties to even, with 24 significant bits and
    the least exponent -149 (FLT_EVAL_METHOD 0). *)

Module Float32.

Open Scope string_scope.
Open Scope Z_scope.
Import Libc.

Record float : Type := mk_float { fm : Z; fe : Z }.

Definition float_zero : float := {| fm := 0; fe := 0 |}.

(** The rational value of a float, as numerator and denominator. *)
Definition fnum (x : float) : Z := if 0 <=? fe x then fm x * 2 ^ fe x else fm x.
Definition fden (x : float) : Z := if 0 <=? fe x then 1 else 2 ^ (- fe x).

(** [a / b < c / d], [a / b = c / d] for positive [b], [d]. *)
Definition rat_ltb (a b c d : Z) : bool := a * d <? c * b.
Definition rat_eqb (a b c d : Z) : bool := a * d =? c * b.

Definition float_ltb (x y : float) : bool :=
  rat_ltb (fnum x) (fden x) (fnum y) (fden y).

(** Nearest integer to [n / d] ([0 <= n], [0 < d]), ties to even. *)
Definition round_half_even (n d : Z) : Z :=
  let q := n / d in
  let r := n mod d in
  if 2 * r <? d then q
  else if d <? 2 * r then q + 1
  else if Z.even q then q else q + 1.

(** [floor (log2 (n / d))] for positive [n], [d]. *)
Definition floor_log2 (n d : Z) : Z :=
  let e := Z.log2 n - Z.log2 d in
  let below := if 0 <=? e then n <? d * 2 ^ e else n * 2 ^ (- e) <? d in
  if below then e - 1 else e.

Inductive rounded : Type :=
| R_val (x : float) (inexact tiny : bool)
| R_overflow.

(** Rounding of the non-negative rational [n / d] to binary32. *)
Definition round_pos (n d : Z) : rounded :=
  if n =? 0 then R_val float_zero false false else
  let e := floor_log2 n d in
  let qe := Z.max (e - 23) (-149) in
  let m := if 0 <=? qe then round_half_even n (d * 2 ^ qe)
           else round_half_even (n * 2 ^ (- qe)) d in
  let x := {| fm := m; fe := qe |} in
  if (0 <=? qe) && (2 ^ 128 <=? m * 2 ^ qe) then R_overflow
  else R_val x (negb (rat_eqb (fnum x) (fden x) n d)) (e <? -126).

Definition fneg (x : float) : float := {| fm := - fm x; fe := fe x |}.

(** Rounding of the rational [n / d], [0 < d]. *)
Definition round_rat (n d : Z) : rounded :=
  if 0 <=? n then round_pos n d
  else match round_pos (- n) d with
       | R_val x i t => R_val (fneg x) i t
       | R_overflow => R_overflow
       end.

(** A decimal floating constant of the source ([0.9995118f] is
    [fconst 9995118 10000000]); all the constants used are in range. *)
Definition fconst (n d : Z) : float :=
  match round_rat n d with
  | R_val x _ _ => x
  | R_overflow => float_zero
  end.

(** [x * (float) scale] for an [int scale] of magnitude below 2^24 (the
    conversion is exact); [None] on overflow. *)
Definition fmul_int (x : float) (scale : Z) : option float :=
  match round_rat (fnum x * scale) (fden x) with
  | R_val y _ _ => Some y
  | R_overflow => None
  end.

(** [(int) roundf(x)]: nearest integer, ties away from zero. *)
Definition roundf_int (x : float) : Z :=
  let n := Z.abs (fnum x) in
  let d := fden x in
  let r := (2 * n + d) / (2 * d) in
  if fnum x <? 0 then - r else r.

Inductive strtof_result : Type :=
| F_val (x : float)      (* converted, errno left alone *)
| F_erange               (* overflow or underflow: errno = ERANGE *)
| F_inf (neg : bool)     (* "inf", "infinity" *)
| F_nan                  (* "nan" *)
| F_hex.                 (* hexadecimal constants are not modelled *)

Definition lower (s : string) : string :=
  (fix go (s : string) : string :=
     match s with
     | EmptyString => EmptyString
     | String c s' => String (tolower c) (go s')
     end) s.

(** The decimal exponent part [e[+-]ddd], taken only when digits follow. *)
Definition exponent_part (s : string) : Z :=
  match s with
  | String c s' =>
      if Ascii.eqb (tolower c) "e" then
        let '(neg, s1) := take_sign s' in
        let '(v, n, _) := digits s1 0 0 in
        match n with
        | O => 0
        | _ => if neg then - v else v
        end
      else 0
  | EmptyString => 0
  end.

(** [strtof(s, NULL)] on decimal input.  Hexadecimal constants, which
    [strtof] accepts as well, are outside the model ([F_hex]).  ERANGE is
    set for an inexact result whose exact value is below FLT_MIN in
    magnitude (tininess detected before rounding); a libc that detects
    tininess after rounding differs on the decimals that round up to
    FLT_MIN. *)
Definition strtof (s : string) : strtof_result :=
  let '(neg, s1) := take_sign (skip_space s) in
  let l := lower s1 in
  if prefix "inf" l then F_inf neg
  else if prefix "nan" l then F_nan
  else if prefix "0x" l then F_hex
  else
    let '(ip, n1, s2) := digits s1 0 0 in
    let '(m, n2, s3) :=
      match s2 with
      | String c s2' => if Ascii.eqb c "." then digits s2' ip 0 else (ip, O, s2)
      | EmptyString => (ip, O, s2)
      end in
    match (n1 + n2)%nat with
    | O => F_val float_zero
    | _ =>
        let e10 := exponent_part s3 - Z.of_nat n2 in
        let num := if 0 <=? e10 then m * 10 ^ e10 else m in
        let den := if 0 <=? e10 then 1 else 10 ^ (- e10) in
        match round_rat (if neg then - num else num) den with
        | R_overflow => F_erange
        | R_val x inexact tiny =>
            if inexact && tiny then F_erange else F_val x
        end
    end.

End Float32.

(** ** [parse_float]

    [strtof], the range test against the [float] bounds, and
    [roundf(fres * scale)] stored into an [int].  A NULL string faults, as
    does NaN (its conversion to [int] is undefined). *)
Definition parse_float (frac : option string) (scale : Z)
    (min max : Float32.float) : result Z :=
  match frac with
  | None => Fault
  | Some s =>
      match Float32.strtof s with
      | Float32.F_erange => Err (- ERANGE)
      | Float32.F_inf _ => Err (- ERANGE)
      | Float32.F_nan => Fault
      | Float32.F_hex => Fault
      | Float32.F_val fres =>
          if Float32.float_ltb fres min || Float32.float_ltb max fres
          then Err (- ERANGE)
          else match Float32.fmul_int fres scale with
               | Some p => Ok (Float32.roundf_int p)
               | None => Fault
               end
      end
  end.

(** ** Data model (owt.h) *)

Record wt_ep_metadata : Type := mk_ep {
  ep_id : Z;
  ep_length : Z;
  ep_payload : Z;
  ep_custom_threshold : Z
}.

Record wt_type10_comp_wvfrm : Type := mk_wvfrm {
  index : Z;
  amplitude : Z;
  duration : Z
}.

Record wt_type10_comp_section : Type := mk_comp_section {
  sec_repeat : Z;
  sec_flags : Z;
  wvfrm : wt_type10_comp_wvfrm;
  delay : Z
}.

Record wt_type10_comp : Type := mk_comp {
  comp_nsections : Z;
  comp_repeat : Z;
  inner_loop : bool;
  comp_sections : list wt_type10_comp_section;
  comp_ep_metadata : wt_ep_metadata
}.

Inductive wt_type10_comp_specifier : Type :=
| COMP_SPEC_OUTER_LOOP
| COMP_SPEC_INNER_LOOP_START
| COMP_SPEC_INNER_LOOP_STOP
| COMP_SPEC_OUTER_LOOP_REPETITION
| COMP_SPEC_EP_DATA_START
| COMP_SPEC_WVFRM
| COMP_SPEC_DELAY
| COMP_SPEC_INVALID.

Definition zero_ep : wt_ep_metadata :=
  {| ep_id := 0; ep_length := 0; ep_payload := 0; ep_custom_threshold := 0 |}.

Definition zero_section : wt_type10_comp_section :=
  {| sec_repeat := 0; sec_flags := 0;
     wvfrm := {| index := 0; amplitude := 0; duration := 0 |}; delay := 0 |}.

(** [struct wt_type10_comp comp = { 0 };] *)
Definition zero_comp : wt_type10_comp :=
  {| comp_nsections := 0; comp_repeat := 0; inner_loop := false;
     comp_sections := repeat zero_section (Z.to_nat WT_MAX_SECTIONS);
     comp_ep_metadata := zero_ep |}.

(** *** Arrays of [WT_MAX_SECTIONS] elements

    [elem_at l k] is the object [&l[k]] designates: a pointer may be moved to
    [&l[256]] but not dereferenced there. *)

Fixpoint list_upd {A} (n : nat) (x : A) (l : list A) : list A :=
  match l, n with
  | [], _ => []
  | _ :: t, O => x :: t
  | h :: t, S n' => h :: list_upd n' x t
  end.

Definition elem_at {A} (d : A) (l : list A) (k : Z) : result A :=
  if (0 <=? k) && (k <? WT_MAX_SECTIONS) then Ok (nth (Z.to_nat k) l d)
  else Fault.

Definition elem_set {A} (l : list A) (k : Z) (x : A) : list A :=
  list_upd (Z.to_nat k) x l.

Definition section_at := elem_at zero_section.

(** ** Waveform type 10: Composite *)

Import Libc.
Open Scope string_scope.
Open Scope Z_scope.

Definition section_fields (s : wt_type10_comp_section) : list (Z * Z) :=
  [(8, amplitude (wvfrm s)); (8, index (wvfrm s)); (8, sec_repeat s);
   (8, sec_flags s); (16, delay s)] ++
  (if Z.land (sec_flags s) WT_TYPE10_COMP_DURATION_FLAG =? 0 then []
   else [(8, 0); (16, duration (wvfrm s))]).

(** The calls of [dspmem_chunk_write] that [wt_type10_comp_to_buffer] makes,
    in order, as (nbits, val). *)
Definition comp_fields (comp : wt_type10_comp) : list (Z * Z) :=
  (if ep_id (comp_ep_metadata comp) =? WT_EP_METADATA_ID
   then [(8, ep_id (comp_ep_metadata comp));
         (8, ep_length (comp_ep_metadata comp));
         (8, ep_payload (comp_ep_metadata comp));
         (24, ep_custom_threshold (comp_ep_metadata comp))]
   else []) ++
  [(8, 0); (8, comp_nsections comp); (8, comp_repeat comp)] ++
  flat_map section_fields
    (firstn (Z.to_nat (comp_nsections comp)) (comp_sections comp)).

(** Returns the byte count and the bytes stored in [buf]. *)
Definition wt_type10_comp_to_buffer (comp : wt_type10_comp) (size : Z)
  : result (Z * list Z) :=
  ch <- put_all (comp_fields comp) (dspmem_chunk_create size) ;;
  Ok (dspmem_chunk_bytes ch, mem ch).

Definition wt_type10_comp_specifier_get (str : string)
  : wt_type10_comp_specifier :=
  if strcmp_eq str "~" then COMP_SPEC_OUTER_LOOP
  else if strcmp_eq str "!!" then COMP_SPEC_INNER_LOOP_START
  else if strstr str "!!" then COMP_SPEC_INNER_LOOP_STOP
  else if strnchr str (Z.to_nat WT_TYPE10_COMP_SEG_LEN_MAX) "!"
  then COMP_SPEC_OUTER_LOOP_REPETITION
  else if strnchr str (Z.to_nat WT_TYPE10_COMP_SEG_LEN_MAX) "."
  then COMP_SPEC_WVFRM
  else if strnchr str (Z.to_nat WT_TYPE10_COMP_METADATA_LEN) "["
  then COMP_SPEC_EP_DATA_START
  else COMP_SPEC_DELAY.

(** The value of [i] after
    [isalpha(str[i++]) && isalpha(str[i++]) && isalpha(str[i++])] and whether
    the conjunction holds. *)
Definition alpha_prefix (str : string) : bool * nat :=
  if isalpha (char_at 0 str) then
    if isalpha (char_at 1 str) then
      if isalpha (char_at 2 str) then (true, 3%nat) else (false, 3%nat)
    else (false, 2%nat)
  else (false, 1%nat).

(** [while (j + i < strlen(str) && isalpha(str[j + i])) j++;] from [j = 0];
    the argument is [str + i]. *)
Fixpoint count_alpha (s : string) : nat :=
  match s with
  | String c s' => if isalpha c then S (count_alpha s') else O
  | EmptyString => O
  end.

(** [bank0] is what the array [char bank[4]] holds when the function is
    entered (it has no initialiser); [section] is the object the argument
    points to. *)
Definition wt_type10_comp_waveform_get (bank0 : string) (str : string)
    (section : result wt_type10_comp_section)
  : result wt_type10_comp_section :=
  let duration_tmp := 0 in
  if strlen str <? 3 then Err (- EINVAL) else
  let '(is_bank, i) := alpha_prefix str in
  parsed <-
    (if is_bank then
       let j := count_alpha (advance i str) in
       let '(ret, (bank, (index_tmp, amp_tmp, duration_tmp))) :=
         sscanf_suuu (advance j str) bank0 0 0 duration_tmp in
       if ret <? 3 then Err (- EINVAL)
       else Ok (bank, index_tmp, amp_tmp, duration_tmp)
     else
       let '(ret, (index_tmp, amp_tmp, duration_tmp)) :=
         sscanf_uuu "." (advance (i - 1) str) 0 0 duration_tmp in
       if ret <? 2 then Err (- EINVAL)
       else Ok (bank0, index_tmp, amp_tmp, duration_tmp)) ;;
  let '(bank, index_tmp, amp_tmp, duration_tmp) := parsed in
  let bank :=
    if negb (strncmp_eq bank "RAM" 3) && negb (strncmp_eq bank "ROM" 3)
       && negb (strncmp_eq bank "OWT" 3)
    then "RAM" else bank in
  if (amp_tmp =? 0) || (100 <? amp_tmp) then Err (- EINVAL) else
  dur <-
    (if negb (duration_tmp =? 0) && negb (duration_tmp =? WT_INDEF_TIME_VAL)
     then if WT_MAX_TIME_VAL <? duration_tmp then Err (- EINVAL)
          else Ok (u32 (duration_tmp * 4))
     else Ok duration_tmp) ;;
  s <- section ;;
  let wave := {| index := u8 (Z.land 0xFF index_tmp);
                 amplitude := u8 (Z.land 0xFF amp_tmp);
                 duration := u16 (Z.land 0xFFFF dur) |} in
  let flags :=
    if strncmp_eq bank "ROM" 3 then u8 (Z.lor (sec_flags s) 0x40)
    else if strncmp_eq bank "OWT" 3 then u8 (Z.lor (sec_flags s) 0x20)
    else sec_flags s in
  Ok {| sec_repeat := sec_repeat s; sec_flags := flags; wvfrm := wave;
        delay := delay s |}.

Definition set_section (comp : wt_type10_comp) (nsections k : Z)
    (s : wt_type10_comp_section) : wt_type10_comp :=
  {| comp_nsections := nsections; comp_repeat := comp_repeat comp;
     inner_loop := inner_loop comp;
     comp_sections := elem_set (comp_sections comp) k s;
     comp_ep_metadata := comp_ep_metadata comp |}.

(** [bank0]: see [wt_type10_comp_waveform_get].  [k] below is the index the
    local pointer [section] stands at. *)
Definition wt_type10_comp_decode (bank0 : string) (comp : wt_type10_comp)
    (specifier : wt_type10_comp_specifier) (str : string)
  : result wt_type10_comp :=
  let k := comp_nsections comp in
  match specifier with
  | COMP_SPEC_OUTER_LOOP =>
      if negb (comp_repeat comp =? 0) then Err (- EINVAL)
      else Ok {| comp_nsections := comp_nsections comp;
                 comp_repeat := WT_REPEAT_LOOP_MARKER;
                 inner_loop := inner_loop comp;
                 comp_sections := comp_sections comp;
                 comp_ep_metadata := comp_ep_metadata comp |}
  | COMP_SPEC_OUTER_LOOP_REPETITION =>
      if negb (comp_repeat comp =? 0) then Err (- EINVAL) else
      let l_val := strtoul (fst (strsep str "!")) in
      if l_val =? 0 then Err (- EINVAL)
      else Ok {| comp_nsections := comp_nsections comp;
                 comp_repeat := u8 (Z.land 0xFF l_val);
                 inner_loop := inner_loop comp;
                 comp_sections := comp_sections comp;
                 comp_ep_metadata := comp_ep_metadata comp |}
  | COMP_SPEC_INNER_LOOP_START =>
      if inner_loop comp then Err (- EINVAL) else
      s <- section_at (comp_sections comp) k ;;
      let adv := negb (amplitude (wvfrm s) =? 0) || negb (delay s =? 0) in
      let k' := if adv then k + 1 else k in
      let n' := if adv then u8 (comp_nsections comp + 1)
                else comp_nsections comp in
      s' <- section_at (comp_sections comp) k' ;;
      let comp' := set_section comp n' k'
                     {| sec_repeat := WT_REPEAT_LOOP_MARKER;
                        sec_flags := sec_flags s'; wvfrm := wvfrm s';
                        delay := delay s' |} in
      Ok {| comp_nsections := comp_nsections comp';
            comp_repeat := comp_repeat comp'; inner_loop := true;
            comp_sections := comp_sections comp';
            comp_ep_metadata := comp_ep_metadata comp' |}
  | COMP_SPEC_EP_DATA_START =>
      let ep := comp_ep_metadata comp in
      let '(ret, (len, payload, thresh)) :=
        sscanf_uuu ";" (advance 1 str) (ep_length ep) (ep_payload ep)
          (ep_custom_threshold ep) in
      if ret <? 3 then Err (- EINVAL)
      else Ok {| comp_nsections := comp_nsections comp;
                 comp_repeat := comp_repeat comp;
                 inner_loop := inner_loop comp;
                 comp_sections := comp_sections comp;
                 comp_ep_metadata :=
                   {| ep_id := WT_EP_METADATA_ID; ep_length := len;
                      ep_payload := payload;
                      ep_custom_threshold := thresh |} |}
  | COMP_SPEC_INNER_LOOP_STOP =>
      if negb (inner_loop comp) then Err (- EINVAL) else
      let l_val := strtoul (fst (strsep str "!")) in
      if l_val =? 0 then Err (- EINVAL) else
      s <- section_at (comp_sections comp) k ;;
      let comp' := set_section comp (u8 (comp_nsections comp + 1)) k
                     {| sec_repeat := u8 (Z.land 0xFF l_val);
                        sec_flags := sec_flags s; wvfrm := wvfrm s;
                        delay := delay s |} in
      Ok {| comp_nsections := comp_nsections comp';
            comp_repeat := comp_repeat comp'; inner_loop := false;
            comp_sections := comp_sections comp';
            comp_ep_metadata := comp_ep_metadata comp' |}
  | COMP_SPEC_WVFRM =>
      s <- section_at (comp_sections comp) k ;;
      let adv := negb (amplitude (wvfrm s) =? 0) || negb (delay s =? 0) in
      let k' := if adv then k + 1 else k in
      let n' := if adv then u8 (comp_nsections comp + 1)
                else comp_nsections comp in
      s' <- wt_type10_comp_waveform_get bank0 str
              (section_at (comp_sections comp) k') ;;
      let flags :=
        if negb (duration (wvfrm s') =? 0)
        then u8 (Z.lor (sec_flags s') WT_TYPE10_COMP_DURATION_FLAG)
        else sec_flags s' in
      Ok (set_section comp n' k'
            {| sec_repeat := sec_repeat s'; sec_flags := flags;
               wvfrm := wvfrm s'; delay := delay s' |})
  | COMP_SPEC_DELAY =>
      s <- section_at (comp_sections comp) k ;;
      let adv := negb (delay s =? 0) in
      let k' := if adv then k + 1 else k in
      let n' := if adv then u8 (comp_nsections comp + 1)
                else comp_nsections comp in
      let l_val := strtoul str in
      if l_val =? 0 then Err (- EINVAL) else
      if WT_MAX_DELAY <? l_val then Err (- EINVAL) else
      s' <- section_at (comp_sections comp) k' ;;
      Ok (set_section comp n' k'
            {| sec_repeat := sec_repeat s'; sec_flags := sec_flags s';
               wvfrm := wvfrm s'; delay := u16 (Z.land 0xFFFF l_val) |})
  | COMP_SPEC_INVALID => Err (- EINVAL)
  end.

(** The [strtok] loop of [wt_type10_comp_str_to_bin]; [bank_init n] is the
    indeterminate content of [bank] at the call made for token number [n]. *)
Fixpoint comp_loop (bank_init : nat -> string) (n : nat) (toks : list string)
    (comp : wt_type10_comp) : result wt_type10_comp :=
  match toks with
  | [] => Ok comp
  | str :: rest =>
      let specifier := wt_type10_comp_specifier_get str in
      comp' <- wt_type10_comp_decode (bank_init n) comp specifier str ;;
      comp_loop bank_init (S n) rest comp'
  end.

(** [wt_type10_comp_str_to_bin] up to the call of
    [wt_type10_comp_to_buffer]: the structure that is encoded. *)
Definition wt_type10_comp_parse (bank_init : nat -> string)
    (full_str : string) : result wt_type10_comp :=
  comp <- comp_loop bank_init 0 (strtok_all full_str "], 
") zero_comp ;;
  if inner_loop comp then Err (- EINVAL) else
  s <- section_at (comp_sections comp) (comp_nsections comp) ;;
  if negb (amplitude (wvfrm s) =? 0) || negb (delay s =? 0)
  then Ok {| comp_nsections := u8 (comp_nsections comp + 1);
             comp_repeat := comp_repeat comp; inner_loop := inner_loop comp;
             comp_sections := comp_sections comp;
             comp_ep_metadata := comp_ep_metadata comp |}
  else Ok comp.

Definition wt_type10_comp_str_to_bin (bank_init : nat -> string)
    (full_str : string) : result (Z * list Z) :=
  comp <- wt_type10_comp_parse bank_init full_str ;;
  wt_type10_comp_to_buffer comp WT_TYPE12_PWLE_SINGLE_PACKED_MAX.

(** ** Waveform type 12: PWLE *)

Record wt_type12_pwle_section : Type := mk_pwle_section {
  time : Z;
  level : Z;
  frequency : Z;
  flags : Z;
  vbtarget : Z
}.

Record wt_type12_svc_metadata : Type := mk_svc {
  svc_id : Z;
  svc_length : Z;
  svc_mode : Z;
  braking_time : Z
}.

(** [str_len], which is stored and never read, is left out.
    [nampsections] is a [double] in the source, where it only ever holds
    its initial value plus a count.  The model keeps the contents that are
    integers: below 2^53 in magnitude these are exact doubles and the
    increments are exact, and the conversion of the size word to
    [uint32_t] is defined when the sum lies in [0, 2^32).  Other contents
    of the uninitialised variable (fractions, NaN, infinities, larger
    magnitudes) are outside the model. *)
Record wt_type12_pwle : Type := mk_pwle {
  feature : Z;
  wlength : Z;
  pwle_repeat : Z;
  wait : Z;
  nsections : Z;
  nampsections : Z;
  svc_metadata : wt_type12_svc_metadata;
  ep_metadata : wt_ep_metadata;
  sections : list wt_type12_pwle_section
}.

Inductive wt_type12_pwle_specifier : Type :=
| PWLE_SPEC_SAVE
| PWLE_SPEC_FEATURE
| PWLE_SPEC_REPEAT
| PWLE_SPEC_WAIT
| PWLE_SPEC_SVC_MODE
| PWLE_SPEC_SVC_BRAKING_TIME
| PWLE_SPEC_EP_LENGTH
| PWLE_SPEC_EP_PAYLOAD
| PWLE_SPEC_EP_THRESH
| PWLE_SPEC_NUM_VALS
| PWLE_SPEC_TIME
| PWLE_SPEC_LEVEL
| PWLE_SPEC_FREQ
| PWLE_SPEC_CHIRP
| PWLE_SPEC_BRAKE
| PWLE_SPEC_AR
| PWLE_SPEC_VBT
| PWLE_SPEC_RELFREQ
| PWLE_SPEC_INVALID.

(** The enumeration constant [PWLE_SPEC_NUM_VALS] as an integer. *)
Definition PWLE_SPEC_NUM_VALS_int : Z := 9.

Definition zero_pwle_section : wt_type12_pwle_section :=
  {| time := 0; level := 0; frequency := 0; flags := 0; vbtarget := 0 |}.

Definition pwle_section_at := elem_at zero_pwle_section.

Definition wt_type12_pwle_specifier_get (str : string)
  : wt_type12_pwle_specifier :=
  let c0 := char_at 0 str in
  if Ascii.eqb c0 "S" then PWLE_SPEC_SAVE
  else if strncmp_eq str "WF" 2 then PWLE_SPEC_FEATURE
  else if strncmp_eq str "RP" 2 then PWLE_SPEC_REPEAT
  else if strncmp_eq str "WT" 2 then PWLE_SPEC_WAIT
  else if Ascii.eqb c0 "T" then PWLE_SPEC_TIME
  else if Ascii.eqb c0 "L" then PWLE_SPEC_LEVEL
  else if Ascii.eqb c0 "F" then PWLE_SPEC_FREQ
  else if Ascii.eqb c0 "C" then PWLE_SPEC_CHIRP
  else if Ascii.eqb c0 "B" then PWLE_SPEC_BRAKE
  else if strncmp_eq str "AR" 2 then PWLE_SPEC_AR
  else if Ascii.eqb c0 "V" then PWLE_SPEC_VBT
  else if Ascii.eqb c0 "M" then PWLE_SPEC_SVC_MODE
  else if Ascii.eqb c0 "K" then PWLE_SPEC_SVC_BRAKING_TIME
  else if strncmp_eq str "EM" 2 then PWLE_SPEC_EP_LENGTH
  else if strncmp_eq str "ET" 2 then PWLE_SPEC_EP_PAYLOAD
  else if strncmp_eq str "EC" 2 then PWLE_SPEC_EP_THRESH
  else if Ascii.eqb c0 "R" then PWLE_SPEC_RELFREQ
  else PWLE_SPEC_INVALID.

(** *** Field updates of [struct wt_type12_pwle] *)

Definition set_feature (p : wt_type12_pwle) (x : Z) : wt_type12_pwle :=
  mk_pwle x (wlength p) (pwle_repeat p) (wait p) (nsections p)
    (nampsections p) (svc_metadata p) (ep_metadata p) (sections p).
Definition set_wlength (p : wt_type12_pwle) (x : Z) : wt_type12_pwle :=
  mk_pwle (feature p) x (pwle_repeat p) (wait p) (nsections p)
    (nampsections p) (svc_metadata p) (ep_metadata p) (sections p).
Definition set_repeat (p : wt_type12_pwle) (x : Z) : wt_type12_pwle :=
  mk_pwle (feature p) (wlength p) x (wait p) (nsections p)
    (nampsections p) (svc_metadata p) (ep_metadata p) (sections p).
Definition set_wait (p : wt_type12_pwle) (x : Z) : wt_type12_pwle :=
  mk_pwle (feature p) (wlength p) (pwle_repeat p) x (nsections p)
    (nampsections p) (svc_metadata p) (ep_metadata p) (sections p).
Definition set_nsections (p : wt_type12_pwle) (x : Z) : wt_type12_pwle :=
  mk_pwle (feature p) (wlength p) (pwle_repeat p) (wait p) x
    (nampsections p) (svc_metadata p) (ep_metadata p) (sections p).
Definition set_nampsections (p : wt_type12_pwle) (x : Z) : wt_type12_pwle :=
  mk_pwle (feature p) (wlength p) (pwle_repeat p) (wait p) (nsections p)
    x (svc_metadata p) (ep_metadata p) (sections p).
Definition set_svc (p : wt_type12_pwle) (x : wt_type12_svc_metadata)
  : wt_type12_pwle :=
  mk_pwle (feature p) (wlength p) (pwle_repeat p) (wait p) (nsections p)
    (nampsections p) x (ep_metadata p) (sections p).
Definition set_ep (p : wt_type12_pwle) (x : wt_ep_metadata) : wt_type12_pwle :=
  mk_pwle (feature p) (wlength p) (pwle_repeat p) (wait p) (nsections p)
    (nampsections p) (svc_metadata p) x (sections p).
Definition set_sections (p : wt_type12_pwle)
    (x : list wt_type12_pwle_section) : wt_type12_pwle :=
  mk_pwle (feature p) (wlength p) (pwle_repeat p) (wait p) (nsections p)
    (nampsections p) (svc_metadata p) (ep_metadata p) x.

Definition set_flags (s : wt_type12_pwle_section) (x : Z)
  : wt_type12_pwle_section :=
  mk_pwle_section (time s) (level s) (frequency s) x (vbtarget s).

(** *** The per-key entry functions *)

Definition wt_type12_pwle_save_entry (token : option string) : result unit :=
  val <- atoi token ;;
  if (val =? 1) || (val =? 0) then Ok tt else Err (- EINVAL).

Definition wt_type12_pwle_feature_entry (pwle : wt_type12_pwle)
    (token : option string) : result wt_type12_pwle :=
  val <- atoi token ;;
  if (WT_TYPE12_PWLE_MAX_WVFRM_FEAT <? val) || (val <? 0) then Err (- EINVAL)
  else Ok (set_feature pwle (u16 (Z.shiftl val WT_TYPE12_PWLE_WVFRM_FT_SHFT))).

Definition wt_type12_pwle_repeat_entry (pwle : wt_type12_pwle)
    (token : option string) : result wt_type12_pwle :=
  val <- atoi token ;;
  if (val <? 0) || (WT_TYPE12_PWLE_MAX_RP_VAL <? val) then Err (- EINVAL)
  else Ok (set_repeat pwle (u8 val)).

Definition wt_type12_pwle_svc_mode_entry (pwle : wt_type12_pwle)
    (token : option string) : result wt_type12_pwle :=
  val <- atoi token ;;
  if (val <? -1) || (3 <? val) then Err (- EINVAL)
  else if negb (val =? -1) then
    Ok (set_svc pwle
          {| svc_id := WT_SVC_METADATA_ID; svc_length := 1;
             svc_mode := u8 val;
             braking_time := braking_time (svc_metadata pwle) |})
  else Ok pwle.

Definition wt_type12_pwle_svc_braking_time_entry (pwle : wt_type12_pwle)
    (token : option string) : result wt_type12_pwle :=
  val <- atoi token ;;
  if (val <? 0) || (WT_TYPE12_PWLE_MAX_BRAKING_TIME <? val) then Err (- EINVAL)
  else
    let svc := svc_metadata pwle in
    Ok (set_svc pwle
          {| svc_id := svc_id svc; svc_length := svc_length svc;
             svc_mode := svc_mode svc; braking_time := u32 (val * 8) |}).

(** The test is [val != 1 || val != 0], as in the source. *)
Definition wt_type12_pwle_ep_length_entry (pwle : wt_type12_pwle)
    (token : option string) : result wt_type12_pwle :=
  val <- atoi token ;;
  if negb (val =? 1) || negb (val =? 0) then Err (- EINVAL)
  else
    let ep := ep_metadata pwle in
    Ok (set_ep pwle
          {| ep_id := ep_id ep; ep_length := u32 val;
             ep_payload := ep_payload ep;
             ep_custom_threshold := ep_custom_threshold ep |}).

Definition wt_type12_pwle_ep_payload_entry (pwle : wt_type12_pwle)
    (token : option string) : result wt_type12_pwle :=
  val <- atoi token ;;
  if (val <? 0) || (7 <? val) then Err (- EINVAL)
  else
    let ep := ep_metadata pwle in
    Ok (set_ep pwle
          {| ep_id := if negb (val =? 0) then 2 else ep_id ep;
             ep_length := ep_length ep; ep_payload := u32 val;
             ep_custom_threshold := ep_custom_threshold ep |}).

Definition wt_type12_pwle_ep_threshold_entry (pwle : wt_type12_pwle)
    (token : option string) : result wt_type12_pwle :=
  val <- atoi token ;;
  if val <? 0 then Err (- EINVAL)
  else
    let ep := ep_metadata pwle in
    Ok (set_ep pwle
          {| ep_id := ep_id ep; ep_length := ep_length ep;
             ep_payload := ep_payload ep;
             ep_custom_threshold := u32 val |}).

Import Float32.

Definition wt_type12_pwle_wait_time_entry (pwle : wt_type12_pwle)
    (token : option string) : result wt_type12_pwle :=
  val <- parse_float token 4 (fconst 0 1) (fconst 102375 100) ;;
  let pwle := set_wait pwle (u16 val) in
  Ok (set_wlength pwle (u32 (wlength pwle + wait pwle))).

(** Returns the structure, the section and [*indef] after the call. *)
Definition wt_type12_pwle_time_entry (pwle : wt_type12_pwle)
    (token : option string) (section : wt_type12_pwle_section) (indef : bool)
  : result (wt_type12_pwle * wt_type12_pwle_section * bool) :=
  val <- parse_float token 4 (fconst 0 1) (fconst 1638375 100) ;;
  let section :=
    mk_pwle_section (u16 val) (level section) (frequency section)
      (flags section) (vbtarget section) in
  if val =? WT_TYPE12_PWLE_INDEF_TIME_VAL then Ok (pwle, section, true)
  else Ok (set_wlength pwle (u32 (wlength pwle + time section)), section,
           indef).

Definition wt_type12_pwle_level_entry (token : option string)
    (section : wt_type12_pwle_section) : result wt_type12_pwle_section :=
  val <- parse_float token 2048 (fconst (-1) 1) (fconst 9995118 10000000) ;;
  Ok (mk_pwle_section (time section) (u16 val) (frequency section)
        (flags section) (vbtarget section)).

(** [freq_val] is [None] for a NULL pointer and for the local [freq_val] of
    the caller before any [F] key assigned it. *)
Definition wt_type12_pwle_freq_entry (token freq_val : option string)
    (section : wt_type12_pwle_section) : result wt_type12_pwle_section :=
  rel_val <- atoi token ;;
  if rel_val =? 0 then
    val <-
      match parse_float freq_val 4 (fconst 25 100) (fconst 102375 100) with
      | Ok val => Ok val
      | Fault => Fault
      | Err ret =>
          z <- atoi freq_val ;;
          if z =? 0 then Ok 0 else Err ret
      end ;;
    Ok (mk_pwle_section (time section) (level section) (u16 val)
          (u8 (Z.lor (flags section) WT_TYPE12_PWLE_EXT_FREQ_BIT))
          (vbtarget section))
  else if rel_val =? 1 then
    val <- parse_float freq_val 4 (fconst (-512) 1) (fconst 51175 100) ;;
    Ok (mk_pwle_section (time section) (level section) (u16 val)
          (u8 (Z.lor (flags section) WT_TYPE12_PWLE_REL_FREQ_BIT))
          (vbtarget section))
  else Err (- EINVAL).

Definition wt_type12_pwle_vb_target_entry (token : option string)
    (section : wt_type12_pwle_section) : result wt_type12_pwle_section :=
  val <- parse_float token 0x7FFFFF (fconst 0 1) (fconst 1 1) ;;
  Ok (mk_pwle_section (time section) (level section) (frequency section)
        (flags section) (u32 val)).

(** *** The encoder *)

Definition pwle_section_fields (s : wt_type12_pwle_section) : list (Z * Z) :=
  [(16, time s); (12, level s); (12, frequency s);
   (8, Z.shiftl (Z.lor (flags s) 1) 4)] ++
  (if Z.land (flags s) WT_TYPE12_PWLE_AMP_REG_BIT =? 0 then []
   else [(24, vbtarget s)]).

Definition pwle_metadata_fields (pwle : wt_type12_pwle) : list (Z * Z) :=
  if Z.land (feature pwle) WT_TYPE12_PWLE_METADATA_FLAG =? 0 then []
  else
    (if svc_id (svc_metadata pwle) =? WT_SVC_METADATA_ID
     then [(8, svc_id (svc_metadata pwle));
           (8, svc_length (svc_metadata pwle));
           (8, svc_mode (svc_metadata pwle));
           (24, braking_time (svc_metadata pwle))]
     else []) ++
    (if ep_id (ep_metadata pwle) =? WT_EP_METADATA_ID
     then [(8, ep_id (ep_metadata pwle));
           (8, ep_length (ep_metadata pwle));
           (8, ep_payload (ep_metadata pwle))] ++
          (if ep_length (ep_metadata pwle) =? 1
           then [(24, ep_custom_threshold (ep_metadata pwle))] else [])
     else []) ++
    [(24, WT_TYPE12_METADATA_TERMINATOR)].

(** The calls of [dspmem_chunk_write] that [wt_type12_pwle_write] makes before
    the flush, in order, as (nbits, val). *)
Definition pwle_fields (pwle : wt_type12_pwle) : list (Z * Z) :=
  [(16, feature pwle); (8, WT_TYPE12_PWLE); (24, WT_TYPE12_HEADER_WORDS);
   (24, u32 (nsections pwle * 2 + nampsections pwle + 3))] ++
  [(24, wlength pwle); (8, pwle_repeat pwle); (12, wait pwle);
   (8, nsections pwle)] ++
  flat_map pwle_section_fields
    (firstn (Z.to_nat (nsections pwle)) (sections pwle)) ++
  pwle_metadata_fields pwle.

Definition wt_type12_pwle_write (pwle : wt_type12_pwle) (size : Z)
  : result (Z * list Z) :=
  ch <- put_all (pwle_fields pwle) (dspmem_chunk_create size) ;;
  ch <- put_flush ch ;;
  Ok (dspmem_chunk_bytes ch, mem ch).

(** *** The parser

    The automatic variables of [wt_type12_pwle_str_to_bin]; the local
    pointer [section] always equals [&pwle.sections[num_segs]]. *)
Record pwle_locals : Type := mk_locals {
  v_pwle : wt_type12_pwle;
  v_t : bool; v_l : bool; v_f : bool; v_c : bool; v_b : bool; v_a : bool;
  v_r : bool; v_v : bool;
  v_indef : bool;
  v_num_vals : Z;
  v_num_segs : Z;
  v_freq_val : option string
}.

Definition with_pwle (st : pwle_locals) (p : wt_type12_pwle) : pwle_locals :=
  mk_locals p (v_t st) (v_l st) (v_f st) (v_c st) (v_b st) (v_a st) (v_r st)
    (v_v st) (v_indef st) (v_num_vals st) (v_num_segs st) (v_freq_val st).

(** [*section = s] *)
Definition with_section (st : pwle_locals) (s : wt_type12_pwle_section)
  : pwle_locals :=
  with_pwle st
    (set_sections (v_pwle st)
       (elem_set (sections (v_pwle st)) (v_num_segs st) s)).

Definition cur_section (st : pwle_locals) : result wt_type12_pwle_section :=
  pwle_section_at (sections (v_pwle st)) (v_num_segs st).

(** [val = atoi(str); if (val < 0 || val > 1) return -EINVAL;
     if (val) section->flags |= bit;] *)
Definition flag_entry (st : pwle_locals) (str : option string) (bit : Z)
  : result pwle_locals :=
  val <- atoi str ;;
  if (val <? 0) || (1 <? val) then Err (- EINVAL) else
  if negb (val =? 0) then
    s <- cur_section st ;;
    Ok (with_section st (set_flags s (u8 (Z.lor (flags s) bit))))
  else Ok st.

(** The body of the [switch] for one token, without the final
    [num_vals++]. *)
Definition pwle_switch (st : pwle_locals) (spec : wt_type12_pwle_specifier)
    (str : option string) : result pwle_locals :=
  let header (slot : Z)
        (entry : wt_type12_pwle -> option string -> result wt_type12_pwle) :=
    if negb (v_num_vals st =? slot) then Err (- EINVAL)
    else p <- entry (v_pwle st) str ;; Ok (with_pwle st p) in
  match spec with
  | PWLE_SPEC_SAVE =>
      if negb (v_num_vals st =? 0) then Err (- EINVAL)
      else _ <- wt_type12_pwle_save_entry str ;; Ok st
  | PWLE_SPEC_FEATURE => header 1 wt_type12_pwle_feature_entry
  | PWLE_SPEC_REPEAT => header 2 wt_type12_pwle_repeat_entry
  | PWLE_SPEC_WAIT => header 3 wt_type12_pwle_wait_time_entry
  | PWLE_SPEC_SVC_MODE => header 4 wt_type12_pwle_svc_mode_entry
  | PWLE_SPEC_SVC_BRAKING_TIME =>
      header 5 wt_type12_pwle_svc_braking_time_entry
  | PWLE_SPEC_EP_LENGTH => header 6 wt_type12_pwle_ep_length_entry
  | PWLE_SPEC_EP_PAYLOAD => header 7 wt_type12_pwle_ep_payload_entry
  | PWLE_SPEC_EP_THRESH => header 8 wt_type12_pwle_ep_threshold_entry
  | PWLE_SPEC_TIME =>
      st1 <-
        (if PWLE_SPEC_NUM_VALS_int <? v_num_vals st then
           if negb (v_t st) || negb (v_l st) || negb (v_f st)
              || negb (v_c st) || negb (v_b st) || negb (v_a st)
              || negb (v_v st)
           then Err (- EINVAL)
           else Ok (mk_locals (v_pwle st) false false false false false false
                      (v_r st) false (v_indef st) (v_num_vals st)
                      (v_num_segs st) (v_freq_val st))
         else Ok st) ;;
      s <- cur_section st1 ;;
      r <- wt_type12_pwle_time_entry (v_pwle st1) str s (v_indef st1) ;;
      let '(p, s', indef) := r in
      let st2 := with_section (with_pwle st1 p) s' in
      Ok (mk_locals (v_pwle st2) true (v_l st2) (v_f st2) (v_c st2)
            (v_b st2) (v_a st2) (v_r st2) (v_v st2) indef (v_num_vals st2)
            (v_num_segs st2) (v_freq_val st2))
  | PWLE_SPEC_LEVEL =>
      s <- cur_section st ;;
      s' <- wt_type12_pwle_level_entry str s ;;
      let st2 := with_section st s' in
      Ok (mk_locals (v_pwle st2) (v_t st2) true (v_f st2) (v_c st2)
            (v_b st2) (v_a st2) (v_r st2) (v_v st2) (v_indef st2)
            (v_num_vals st2) (v_num_segs st2) (v_freq_val st2))
  | PWLE_SPEC_FREQ =>
      Ok (mk_locals (v_pwle st) (v_t st) (v_l st) true (v_c st) (v_b st)
            (v_a st) (v_r st) (v_v st) (v_indef st) (v_num_vals st)
            (v_num_segs st) str)
  | PWLE_SPEC_CHIRP =>
      st2 <- flag_entry st str WT_TYPE12_PWLE_CHIRP_BIT ;;
      Ok (mk_locals (v_pwle st2) (v_t st2) (v_l st2) (v_f st2) true
            (v_b st2) (v_a st2) (v_r st2) (v_v st2) (v_indef st2)
            (v_num_vals st2) (v_num_segs st2) (v_freq_val st2))
  | PWLE_SPEC_BRAKE =>
      st2 <- flag_entry st str WT_TYPE12_PWLE_BRAKE_BIT ;;
      Ok (mk_locals (v_pwle st2) (v_t st2) (v_l st2) (v_f st2) (v_c st2)
            true (v_a st2) (v_r st2) (v_v st2) (v_indef st2)
            (v_num_vals st2) (v_num_segs st2) (v_freq_val st2))
  | PWLE_SPEC_AR =>
      val <- atoi str ;;
      if (val <? 0) || (1 <? val) then Err (- EINVAL) else
      st2 <-
        (if negb (val =? 0) then
           s <- cur_section st ;;
           let st1 := with_section st
                        (set_flags s
                           (u8 (Z.lor (flags s) WT_TYPE12_PWLE_AMP_REG_BIT))) in
           Ok (with_pwle st1
                 (set_nampsections (v_pwle st1)
                    (nampsections (v_pwle st1) + 1)))
         else Ok st) ;;
      Ok (mk_locals (v_pwle st2) (v_t st2) (v_l st2) (v_f st2) (v_c st2)
            (v_b st2) true (v_r st2) (v_v st2) (v_indef st2)
            (v_num_vals st2) (v_num_segs st2) (v_freq_val st2))
  | PWLE_SPEC_RELFREQ =>
      s <- cur_section st ;;
      s' <- wt_type12_pwle_freq_entry str (v_freq_val st) s ;;
      let st2 := with_section st s' in
      Ok (mk_locals (v_pwle st2) (v_t st2) (v_l st2) (v_f st2) (v_c st2)
            (v_b st2) (v_a st2) true (v_v st2) (v_indef st2)
            (v_num_vals st2) (v_num_segs st2) (v_freq_val st2))
  | PWLE_SPEC_VBT =>
      s <- cur_section st ;;
      st1 <-
        (if negb (Z.land (flags s) WT_TYPE12_PWLE_AMP_REG_BIT =? 0) then
           s' <- wt_type12_pwle_vb_target_entry str s ;;
           Ok (with_section st s')
         else Ok st) ;;
      let st2 := mk_locals (v_pwle st1) (v_t st1) (v_l st1) (v_f st1)
                   (v_c st1) (v_b st1) (v_a st1) (v_r st1) true (v_indef st1)
                   (v_num_vals st1) (v_num_segs st1 + 1) (v_freq_val st1) in
      next <- cur_section st2 ;;
      Ok (with_section st2 (set_flags next 0))
  | PWLE_SPEC_NUM_VALS => Err (- EINVAL)
  | PWLE_SPEC_INVALID => Err (- EINVAL)
  end.

(** One iteration of the [while (str != NULL)] loop on the token [tok]. *)
Definition pwle_token (st : pwle_locals) (tok : string) : result pwle_locals :=
  if WT_TYPE12_PWLE_TOTAL_VALS <=? v_num_vals st then Err (- E2BIG) else
  let '(key, str) := strsep tok ":" in
  st' <- pwle_switch st (wt_type12_pwle_specifier_get key) str ;;
  Ok (mk_locals (v_pwle st') (v_t st') (v_l st') (v_f st') (v_c st')
        (v_b st') (v_a st') (v_r st') (v_v st') (v_indef st')
        (v_num_vals st' + 1) (v_num_segs st') (v_freq_val st')).

Fixpoint pwle_loop (toks : list string) (st : pwle_locals)
  : result pwle_locals :=
  match toks with
  | [] => Ok st
  | tok :: rest => st' <- pwle_token st tok ;; pwle_loop rest st'
  end.

(** The locals when the loop is entered; [pwle0] is the indeterminate
    content of the uninitialised [struct wt_type12_pwle pwle]. *)
Definition pwle_entry (pwle0 : wt_type12_pwle) : pwle_locals :=
  let pwle := set_wlength pwle0 0 in
  let s0 := nth 0 (sections pwle) zero_pwle_section in
  let pwle := set_sections pwle (elem_set (sections pwle) 0 (set_flags s0 0)) in
  mk_locals pwle false false false false false false false false false 0 0
    None.

(** What follows the loop, up to the call of [wt_type12_pwle_write]. *)
Definition pwle_finish (st : pwle_locals) : result wt_type12_pwle :=
  if negb (v_t st) || negb (v_l st) || negb (v_f st) || negb (v_c st)
     || negb (v_b st) || negb (v_a st) || negb (v_v st) || negb (v_r st)
  then Err (- EINVAL) else
  let pwle := set_nsections (v_pwle st) (u8 (v_num_segs st)) in
  let pwle := set_wlength pwle (u32 (wlength pwle * (pwle_repeat pwle + 1))) in
  let pwle := set_wlength pwle (u32 (wlength pwle - wait pwle)) in
  let pwle := set_wlength pwle (u32 (wlength pwle * 2)) in
  let pwle := if v_indef st
              then set_wlength pwle (Z.lor (wlength pwle) WT_INDEFINITE)
              else pwle in
  Ok (set_wlength pwle (Z.lor (wlength pwle) WT_LEN_CALCD)).

Definition pwle_delim : string := ",
".

(** [wt_type12_pwle_str_to_bin] up to the call of [wt_type12_pwle_write]:
    the structure that is encoded. *)
Definition wt_type12_pwle_parse (pwle0 : wt_type12_pwle) (full_str : string)
  : result wt_type12_pwle :=
  st <- pwle_loop (strtok_all full_str pwle_delim) (pwle_entry pwle0) ;;
  pwle_finish st.

Definition wt_type12_pwle_str_to_bin (pwle0 : wt_type12_pwle)
    (full_str : string) : result (Z * list Z) :=
  pwle <- wt_type12_pwle_parse pwle0 full_str ;;
  wt_type12_pwle_write pwle WT_TYPE12_PWLE_BYTES_MAX.

(** ** The dispatcher *)

(** What the automatic variables without initialiser hold on entry. *)
Record indeterminate : Type := mk_indeterminate {
  bank_init : nat -> string;
  pwle_init : wt_type12_pwle
}.

Inductive owt_type : Type := Composite | PWLE.

(** The test of [get_owt_data]: [full_str[0] == 'S']. *)
Definition owt_select (full_str : string) : owt_type :=
  if Ascii.eqb (char_at 0 full_str) "S" then PWLE else Composite.

Definition get_owt_data (u : indeterminate) (full_str : string)
  : result (Z * list Z) :=
  let full_str := cstr full_str in
  match owt_select full_str with
  | PWLE => wt_type12_pwle_str_to_bin (pwle_init u) full_str
  | Composite => wt_type10_comp_str_to_bin (bank_init u) full_str
  end.

(** ** Trigger configuration and upload ([gpi_config], [owt_upload]) *)

Definition WVFRM_GPI_MASK : Z := 0x7.

Definition WVFRM_GPI_SHIFT : Z := 12.

Definition WVFRM_EDGE_SHIFT : Z := 15.

(** [gpi] is an [unsigned int]. *)
Definition gpi_config (rising_edge : bool) (gpi : Z) : Z :=
  let cfg := 0 in
  let cfg := u16 (Z.lor cfg
                    (Z.shiftl (if rising_edge then 1 else 0) WVFRM_EDGE_SHIFT)) in
  u16 (Z.lor cfg (Z.shiftl (Z.land gpi WVFRM_GPI_MASK) WVFRM_GPI_SHIFT)).

(** [effect->trigger.button] as [owt_upload] sets it; [gpi] is an [int],
    and [abs(INT_MIN)] is undefined. *)
Definition INT_MIN : Z := - 2 ^ 31.

Definition upload_button (gpi : Z) : result Z :=
  if negb (gpi =? 0) then
    if gpi =? INT_MIN then Fault
    else Ok (gpi_config (0 <=? gpi) (u32 (Z.abs gpi)))
  else Ok 0.

Definition ENOMEM : Z := 12.

Definition ENXIO : Z := 6.

Definition FF_PERIODIC : Z := 0x51.

Definition FF_CUSTOM : Z := 0x5d.

(** [struct ff_effect] of <linux/input.h>, with the periodic member of its
    union.  [custom_data] is the content of the buffer the pointer
    designates, in bytes; [None] when it designates no buffer. *)
Record ff_envelope : Type := mk_ff_envelope {
  attack_length : Z; attack_level : Z; fade_length : Z; fade_level : Z
}.

Record ff_periodic_effect : Type := mk_ff_periodic {
  ff_waveform : Z; ff_period : Z; ff_magnitude : Z; ff_offset : Z;
  ff_phase : Z; ff_envelope_f : ff_envelope;
  custom_len : Z; custom_data : option (list Z)
}.

Record ff_effect : Type := mk_ff_effect {
  ff_type : Z; ff_id : Z; ff_direction : Z;
  trigger_button : Z; trigger_interval : Z;
  replay_length : Z; replay_delay : Z;
  periodic : ff_periodic_effect
}.

Definition set_custom (pe : ff_periodic_effect) (len : Z)
    (buf : option (list Z)) : ff_periodic_effect :=
  {| ff_waveform := ff_waveform pe; ff_period := ff_period pe;
     ff_magnitude := ff_magnitude pe; ff_offset := ff_offset pe;
     ff_phase := ff_phase pe; ff_envelope_f := ff_envelope_f pe;
     custom_len := len; custom_data := buf |}.

(** [owt_upload].  [malloc_ok]: does [malloc] return a buffer;
    [EVIOCSFF effect]: the id that the driver stores in [effect->id], or
    [None] when [ioctl] returns -1.  [data] is the content of the caller's
    buffer, [num_bytes] a [uint32_t].  The [memcpy] of [num_bytes] bytes
    faults when it leaves [data] or the [2 * custom_len] bytes allocated. *)
Definition owt_upload (malloc_ok : bool) (EVIOCSFF : ff_effect -> option Z)
    (data : list Z) (num_bytes gpi : Z) (edit : bool) (effect : ff_effect)
  : result (Z * ff_effect) :=
  let effect :=
    if negb edit then
      {| ff_type := FF_PERIODIC; ff_id := -1;
         ff_direction := ff_direction effect;
         trigger_button := trigger_button effect;
         trigger_interval := trigger_interval effect;
         replay_length := 0; replay_delay := replay_delay effect;
         periodic :=
           {| ff_waveform := FF_CUSTOM;
              ff_period := ff_period (periodic effect);
              ff_magnitude := ff_magnitude (periodic effect);
              ff_offset := ff_offset (periodic effect);
              ff_phase := ff_phase (periodic effect);
              ff_envelope_f := ff_envelope_f (periodic effect);
              custom_len := custom_len (periodic effect);
              custom_data := custom_data (periodic effect) |} |}
    else effect in
  button <- upload_button gpi ;;
  let len := u32 (num_bytes / 2) in
  let with_buf (buf : option (list Z)) :=
    {| ff_type := ff_type effect; ff_id := ff_id effect; ff_direction := 0;
       trigger_button := button;
       trigger_interval := trigger_interval effect;
       replay_length := replay_length effect;
       replay_delay := replay_delay effect;
       periodic := set_custom (periodic effect) len buf |} in
  if negb malloc_ok then Ok (- ENOMEM, with_buf None) else
  if (2 * len <? num_bytes) || (Z.of_nat (List.length data) <? num_bytes)
  then Fault else
  let effect := with_buf (Some (firstn (Z.to_nat num_bytes) data)) in
  match EVIOCSFF effect with
  | None => Ok (- ENXIO, with_buf None)
  | Some id =>
      Ok (id,
          {| ff_type := ff_type effect; ff_id := id;
             ff_direction := ff_direction effect;
             trigger_button := trigger_button effect;
             trigger_interval := trigger_interval effect;
             replay_length := replay_length effect;
             replay_delay := replay_delay effect;
             periodic := periodic effect |})
  end.

(** * Properties of the encoders

    The definitions below name the quantities that the statements are
    about: byte layouts, token classifications, the inputs of the examples
    and the formulas of the documentation. *)

Open Scope string_scope.
Open Scope list_scope.
Open Scope Z_scope.

Definition word_bytes (w : Z) : list Z :=
  [0; w / 2 ^ 16; (w / 2 ^ 8) mod 2 ^ 8; w mod 2 ^ 8].

Definition stored (ch : dspmem_chunk) (bs : list Z) : dspmem_chunk :=
  {| data := data ch + Z.of_nat (List.length bs); max := max ch;
     bytes := bytes ch + Z.of_nat (List.length bs); cache := 0; cachebits := 0;
     mem := mem ch ++ bs |}.

(** The word that a write completes: the pending bits followed by the
    leading bits of the value. *)
Definition full_word (ch : dspmem_chunk) (nbits val : Z) : Z :=
  let nwrite := 24 - cachebits ch in
  (cache ch mod 2 ^ cachebits ch) * 2 ^ nwrite + val / 2 ^ (nbits - nwrite).

(** The word that a write completes, whatever the value: the pending bits
    moved to the top, OR-ed with the value shifted right by the number of
    bits that are left over (modulo 2^24).  Bits of a value that is wider
    than [nbits] land on the pending bits. *)
Definition completed_word (ch : dspmem_chunk) (nbits val : Z) : Z :=
  let nwrite := 24 - cachebits ch in
  Z.lor ((cache ch mod 2 ^ cachebits ch) * 2 ^ nwrite)
        ((val / 2 ^ (nbits - nwrite)) mod 2 ^ 24).

Definition aligned (ch : dspmem_chunk) : Prop :=
  cachebits ch = 0 /\ cache ch = 0.

Definition section_wf (s : wt_type10_comp_section) : Prop :=
  0 <= amplitude (wvfrm s) < 2 ^ 8 /\ 0 <= index (wvfrm s) < 2 ^ 8 /\
  0 <= duration (wvfrm s) < 2 ^ 16 /\ 0 <= sec_repeat s < 2 ^ 8 /\
  0 <= sec_flags s < 2 ^ 8 /\ 0 <= delay s < 2 ^ 16.

Definition has_duration (s : wt_type10_comp_section) : bool :=
  negb (Z.land (sec_flags s) WT_TYPE10_COMP_DURATION_FLAG =? 0).

Definition section_bytes (s : wt_type10_comp_section) : list Z :=
  [0; amplitude (wvfrm s); index (wvfrm s); sec_repeat s;
   0; sec_flags s; delay s / 2 ^ 8; delay s mod 2 ^ 8] ++
  (if has_duration s
   then [0; 0; duration (wvfrm s) / 2 ^ 8; duration (wvfrm s) mod 2 ^ 8]
   else []).

Definition ep_word (ep : wt_ep_metadata) : Z :=
  Z.land
    (Z.lor (u32 (Z.shiftl (Z.lor (u32 (Z.shiftl (ep_id ep) 8)) (ep_length ep)) 8))
           (ep_payload ep)) 0xFFFFFF.

Definition ep_bytes (ep : wt_ep_metadata) : list Z :=
  if ep_id ep =? WT_EP_METADATA_ID
  then word_bytes (ep_word ep) ++ word_bytes (ep_custom_threshold ep mod 2 ^ 24)
  else [].

Definition comp_bytes (comp : wt_type10_comp) : list Z :=
  ep_bytes (comp_ep_metadata comp) ++
  [0; 0; comp_nsections comp; comp_repeat comp] ++
  flat_map section_bytes
    (firstn (Z.to_nat (comp_nsections comp)) (comp_sections comp)).

Definition comp_wf (comp : wt_type10_comp) : Prop :=
  0 <= comp_nsections comp < 2 ^ 8 /\
  0 <= comp_repeat comp < 2 ^ 8 /\
  List.length (comp_sections comp) = Z.to_nat WT_MAX_SECTIONS /\
  Forall section_wf (comp_sections comp) /\
  0 <= ep_custom_threshold (comp_ep_metadata comp) < 2 ^ 32.

(** Number of sections encoded with a duration word. *)
Definition comp_durations (comp : wt_type10_comp) : Z :=
  Z.of_nat (List.length (filter has_duration
    (firstn (Z.to_nat (comp_nsections comp)) (comp_sections comp)))).

Definition comp_ep_present (comp : wt_type10_comp) : Z :=
  if ep_id (comp_ep_metadata comp) =? WT_EP_METADATA_ID then 1 else 0.

(** The size of the encoding, in bytes. *)
Definition comp_size (comp : wt_type10_comp) : Z :=
  4 + 8 * comp_nsections comp + 4 * comp_durations comp
  + 8 * comp_ep_present comp.

Definition tok_key (tok : string) : string := fst (strsep tok ":").
Definition tok_str (tok : string) : option string := snd (strsep tok ":").
Definition tok_spec (tok : string) : wt_type12_pwle_specifier :=
  wt_type12_pwle_specifier_get (tok_key tok).

Definition pwle_tokens (full_str : string) : list string :=
  strtok_all full_str pwle_delim.

Definition is_spec (a b : wt_type12_pwle_specifier) : bool :=
  match a, b with
  | PWLE_SPEC_TIME, PWLE_SPEC_TIME
  | PWLE_SPEC_WAIT, PWLE_SPEC_WAIT
  | PWLE_SPEC_RELFREQ, PWLE_SPEC_RELFREQ => true
  | _, _ => false
  end.

Definition is_time (tok : string) : bool := is_spec (tok_spec tok) PWLE_SPEC_TIME.
Definition is_wait (tok : string) : bool := is_spec (tok_spec tok) PWLE_SPEC_WAIT.
Definition is_relfreq (tok : string) : bool :=
  is_spec (tok_spec tok) PWLE_SPEC_RELFREQ.

(** The quantised value of a time token ([ms * 4], rounded). *)
Definition time_val (tok : string) : Z :=
  match parse_float (tok_str tok) 4 (fconst 0 1) (fconst 1638375 100) with
  | Ok v => v
  | _ => 0
  end.

Definition wait_val (tok : string) : Z :=
  match parse_float (tok_str tok) 4 (fconst 0 1) (fconst 102375 100) with
  | Ok v => v
  | _ => 0
  end.

Definition is_indef (tok : string) : bool :=
  is_time tok && (time_val tok =? WT_TYPE12_PWLE_INDEF_TIME_VAL).

(** The section times that count for the length: the 16-bit times of the
    [T] keys, those with the indefinite value left out. *)
Definition counted_times (toks : list string) : list Z :=
  map (fun tok => u16 (time_val tok))
    (filter (fun tok => is_time tok && negb (is_indef tok)) toks).

Definition any_indef (toks : list string) : bool := existsb is_indef toks.
Definition has_wait (toks : list string) : bool := existsb is_wait toks.

Definition zsum (l : list Z) : Z := fold_right Z.add 0 l.

Definition tok_contrib (tok : string) : Z :=
  (if is_time tok && negb (is_indef tok) then u16 (time_val tok) else 0)
  + (if is_wait tok then u16 (wait_val tok) else 0).

(** The total length as the source computes it. *)
Definition pwle_length (times : list Z) (repeat wt : Z) (indef : bool) : Z :=
  let w := u32 (((zsum times + wt) * (repeat + 1) - wt) * 2) in
  Z.lor (if indef then Z.lor w WT_INDEFINITE else w) WT_LEN_CALCD.

(** An all-zero [struct wt_type12_pwle] but for [nampsections]. *)
Definition zero_pwle (namp : Z) : wt_type12_pwle :=
  mk_pwle 0 0 0 0 0 namp (mk_svc 0 0 0 0) (mk_ep 0 0 0 0)
    (repeat zero_pwle_section (Z.to_nat WT_MAX_SECTIONS)).

Definition no_bank (n : nat) : string := EmptyString.

(** [bank] still holds the "ROM" that the preceding call stored. *)
Definition stale_rom (n : nat) : string :=
  match n with
  | O => EmptyString
  | S _ => "ROM"
  end.

Fixpoint repeat_string (n : nat) (s : string) : string :=
  match n with
  | O => EmptyString
  | S n' => String.append s (repeat_string n' s)
  end.

(** A PWLE string of [n] complete sections with amplitude regulation. *)
Definition long_pwle (n : nat) : string :=
  String.append "S:0,WF:0,RP:0,WT:0"
    (repeat_string n ",T:1,L:0.5,F:200,C:0,B:0,AR:1,R:0,V:0.5").

(** A Composite string of [n] waveforms with a duration. *)
Definition long_comp (n : nat) : string := repeat_string n "1.100.5,".

(** Scenario B of the specification. *)
Definition scenario_b : string :=
  "S:0,WF:8,RP:1,WT:399.5,T0:0,L0:0.49152,F0:200,C0:0,B0:0,AR0:0,V0:0,T1:400,L1:0.49152,F1:200,C1:0,B1:0,AR1:1,V1:0.022".

(** Scenario B with the [R] keys that owt.c asks for. *)
Definition scenario_b_relfreq : string :=
  "S:0,WF:8,RP:1,WT:399.5,T0:0,L0:0.49152,F0:200,C0:0,B0:0,AR0:0,R0:0,V0:0,T1:400,L1:0.49152,F1:200,C1:0,B1:0,AR1:1,R1:0,V1:0.022".

(** The PWLE example of main.c, with SVC braking. *)
Definition pwle_svc_example : string :=
  "S:0,WF:4,RP:1,WT:399.5,M:1,K:5,T0:0,L0:0.49152,F0:200,C0:0,B0:0,AR0:0,R0:0,V0:0,T1:400,L1:0.49152,F1:200,C1:0,B1:0,AR1:1,R1:0,V1:0.022".

(** The first character that is not white space (NUL if there is none). *)
Definition first_nonspace (s : string) : ascii := char_at 0 (skip_space s).

(** The length formula as the specification words it. *)
Definition claimed_length (times : list Z) (repeat wt : Z) (indef : bool) : Z :=
  let w := u32 ((zsum times * (repeat + 1) - wt) * 2) in
  Z.lor (if indef then Z.lor w WT_INDEFINITE else w) WT_LEN_CALCD.

(** The size formula as the specification words it. *)
Definition claimed_comp_size (nsections durations ep : Z) : Z :=
  3 + 3 * nsections + 3 * durations + 4 * ep.

(** Decimal numerals: the digits, most significant first. *)
Definition digit_char (d : Z) : ascii := ascii_of_N (Z.to_N (48 + d)).

Fixpoint dec_string (ds : list Z) : string :=
  match ds with
  | [] => EmptyString
  | d :: ds' => String (digit_char d) (dec_string ds')
  end.

Definition dec_value (ds : list Z) : Z :=
  fold_left (fun acc d => 10 * acc + d) ds 0.

Definition is_digit (d : Z) : Prop := 0 <= d <= 9.

(** ** Notions for the further properties *)

(** Total width of a run of writer calls, in bits. *)
Definition field_bits (fs : list (Z * Z)) : Z := zsum (map fst fs).

(** Whether a chunk whose cursor is [d] bytes before [max] runs out of room
    when [w] more words are to be stored: the end test is an equality, so
    only a distance that is a multiple of 4 is ever noticed. *)
Definition runs_out (d w : Z) : bool :=
  (0 <=? d) && (d mod 4 =? 0) && (d / 4 <? w).

(** Width of the fields of one PWLE section, in bits: time, level,
    frequency and flags, and the voltage target under amplitude regulation. *)
Definition pwle_section_bits (s : wt_type12_pwle_section) : Z :=
  if Z.land (flags s) WT_TYPE12_PWLE_AMP_REG_BIT =? 0 then 48 else 72.

Definition pwle_metadata_bits (p : wt_type12_pwle) : Z :=
  if Z.land (feature p) WT_TYPE12_PWLE_METADATA_FLAG =? 0 then 0
  else (if svc_id (svc_metadata p) =? WT_SVC_METADATA_ID then 48 else 0)
       + (if ep_id (ep_metadata p) =? WT_EP_METADATA_ID
          then 24 + (if ep_length (ep_metadata p) =? 1 then 24 else 0)
          else 0)
       + 24.

(** Bits that [wt_type12_pwle_write] hands to the writer: 124 for the
    header and the waveform parameters, then the sections and the
    metadata. *)
Definition pwle_bits (p : wt_type12_pwle) : Z :=
  124
  + zsum (map pwle_section_bits
            (firstn (Z.to_nat (nsections p)) (sections p)))
  + pwle_metadata_bits p.

(** The same chunk over a buffer that ends at [m]. *)
Definition with_max (m : Z) (ch : dspmem_chunk) : dspmem_chunk :=
  {| data := data ch; max := m; bytes := bytes ch; cache := cache ch;
     cachebits := cachebits ch; mem := mem ch |}.

(** The value of a run of fields read as one number, the first field in
    the most significant bits. *)
Definition pack (fs : list (Z * Z)) (acc : Z) : Z :=
  fold_left (fun a f => a * 2 ^ fst f + snd f) fs acc.

Definition field_ok (f : Z * Z) : Prop := 0 < fst f /\ 0 <= snd f < 2 ^ fst f.

(** The string that starts with the characters [l] and goes on with
    [rest]. *)
Definition letters (l : list ascii) (rest : string) : string :=
  fold_right String rest l.

Definition all_alpha (l : list ascii) : Prop :=
  Forall (fun c => isalpha c = true) l.

(** The bank of a waveform token: the last three letters of its
    alphabetic prefix. *)
Definition bank_of (pre : list ascii) : string :=
  letters (skipn (List.length pre - 3) pre) EmptyString.

Definition bank_flags (bank : string) (flags : Z) : Z :=
  if String.eqb bank "ROM" then u8 (Z.lor flags 0x40)
  else if String.eqb bank "OWT" then u8 (Z.lor flags 0x20)
  else flags.

(** The tokens of a Composite string. *)
Definition comp_tokens (full_str : string) : list string :=
  strtok_all full_str "], 
".

(** Do the inner-loop markers of a token sequence alternate, from a state
    where a loop is [open] or not, and end with no loop open? *)
Fixpoint loops_balanced (open : bool) (specs : list wt_type10_comp_specifier)
  : bool :=
  match specs with
  | [] => negb open
  | COMP_SPEC_INNER_LOOP_START :: rest =>
      if open then false else loops_balanced true rest
  | COMP_SPEC_INNER_LOOP_STOP :: rest =>
      if open then loops_balanced false rest else false
  | _ :: rest => loops_balanced open rest
  end.

Definition is_outer (spec : wt_type10_comp_specifier) : bool :=
  match spec with
  | COMP_SPEC_OUTER_LOOP | COMP_SPEC_OUTER_LOOP_REPETITION => true
  | _ => false
  end.

(** The position at which a header key is accepted: the value that
    [num_vals] must have in its [case]. *)
Definition header_slot (spec : wt_type12_pwle_specifier) : option Z :=
  match spec with
  | PWLE_SPEC_SAVE => Some 0
  | PWLE_SPEC_FEATURE => Some 1
  | PWLE_SPEC_REPEAT => Some 2
  | PWLE_SPEC_WAIT => Some 3
  | PWLE_SPEC_SVC_MODE => Some 4
  | PWLE_SPEC_SVC_BRAKING_TIME => Some 5
  | PWLE_SPEC_EP_LENGTH => Some 6
  | PWLE_SPEC_EP_PAYLOAD => Some 7
  | PWLE_SPEC_EP_THRESH => Some 8
  | _ => None
  end.

(** The enumeration value of a specifier. *)
Definition spec_code (spec : wt_type12_pwle_specifier) : Z :=
  match spec with
  | PWLE_SPEC_SAVE => 0
  | PWLE_SPEC_FEATURE => 1
  | PWLE_SPEC_REPEAT => 2
  | PWLE_SPEC_WAIT => 3
  | PWLE_SPEC_SVC_MODE => 4
  | PWLE_SPEC_SVC_BRAKING_TIME => 5
  | PWLE_SPEC_EP_LENGTH => 6
  | PWLE_SPEC_EP_PAYLOAD => 7
  | PWLE_SPEC_EP_THRESH => 8
  | PWLE_SPEC_NUM_VALS => 9
  | PWLE_SPEC_TIME => 10
  | PWLE_SPEC_LEVEL => 11
  | PWLE_SPEC_FREQ => 12
  | PWLE_SPEC_CHIRP => 13
  | PWLE_SPEC_BRAKE => 14
  | PWLE_SPEC_AR => 15
  | PWLE_SPEC_VBT => 16
  | PWLE_SPEC_RELFREQ => 17
  | PWLE_SPEC_INVALID => 18
  end.

(** Is [tok] a token with the key [spec]? *)
Definition has_spec (spec : wt_type12_pwle_specifier) (tok : string) : bool :=
  spec_code (tok_spec tok) =? spec_code spec.

Definition count_spec (spec : wt_type12_pwle_specifier) (toks : list string)
  : Z :=
  Z.of_nat (List.length (filter (has_spec spec) toks)).

(** A PWLE string with the EP keys. *)
Definition pwle_ep_example : string :=
  "S:0,WF:4,RP:1,WT:399.5,M:2,K:7,EM:1,ET:3,EC:100,T0:0,L0:0.49152,F0:200,C0:0,B0:0,AR0:0,R0:0,V0:0".

(** Is [tok] an [AR] key with a value other than 0? *)
Definition ar_enabled (tok : string) : bool :=
  has_spec PWLE_SPEC_AR tok &&
  match atoi (tok_str tok) with
  | Ok v => negb (v =? 0)
  | _ => false
  end.

(** The GPI number and the edge that a trigger configuration holds. *)
Definition cfg_gpi (cfg : Z) : Z :=
  Z.land (Z.shiftr cfg WVFRM_GPI_SHIFT) WVFRM_GPI_MASK.

Definition cfg_rising (cfg : Z) : bool := Z.testbit cfg WVFRM_EDGE_SHIFT.

Definition zero_effect : ff_effect :=
  mk_ff_effect 0 0 0 0 0 0 0
    (mk_ff_periodic 0 0 0 0 0 (mk_ff_envelope 0 0 0 0) 0 None).

(** ** Notions for the bytes of an output *)

(** A run of calls of [dspmem_chunk_write], in order, with the values they
    return. *)
Fixpoint write_all (calls : list (Z * Z)) (ch : dspmem_chunk)
  : option (list Z * dspmem_chunk) :=
  match calls with
  | [] => Some ([], ch)
  | (nbits, val) :: rest =>
      match dspmem_chunk_write ch nbits val with
      | Some (r, ch') =>
          match write_all rest ch' with
          | Some (rs, ch'') => Some (r :: rs, ch'')
          | None => None
          end
      | None => None
      end
  end.

(** The 24 bits of the word number [i] of an output: the three bytes after
    the padding byte at offset [4 * i]. *)
Definition word_at (bs : list Z) (i : Z) : Z :=
  nth (Z.to_nat (4 * i + 1)) bs 0 * 2 ^ 16
  + nth (Z.to_nat (4 * i + 2)) bs 0 * 2 ^ 8
  + nth (Z.to_nat (4 * i + 3)) bs 0.

(** The [len] bits ([len <= 24]) that start at bit [off] of the stream made
    of the 24-bit words of an output. *)
Definition bits_at (bs : list Z) (off len : Z) : Z :=
  let i := off / 24 in
  let c := off mod 24 in
  ((word_at bs i * 2 ^ 24 + word_at bs (i + 1)) / 2 ^ (48 - c - len))
  mod 2 ^ len.

(** A field whose value fits its width. *)
Definition field_fits (f : Z * Z) : Prop := 0 <= fst f /\ 0 <= snd f < 2 ^ fst f.

(** The bit at which the braking time of the SVC block starts in the
    stream that [wt_type12_pwle_write] produces: 124 bits of header and
    parameters, the sections, and the 24 bits of id, length and mode. *)
Definition braking_time_offset (p : wt_type12_pwle) : Z :=
  148 + zsum (map pwle_section_bits
                (firstn (Z.to_nat (nsections p)) (sections p))).

(** No EP block is written, or its length and payload fit their 8 bits. *)
Definition ep_block_fits (p : wt_type12_pwle) : Prop :=
  ep_id (ep_metadata p) <> WT_EP_METADATA_ID \/
  (0 <= ep_length (ep_metadata p) < 2 ^ 8 /\
   0 <= ep_payload (ep_metadata p) < 2 ^ 8).

(** A PWLE string with an SVC block and, through its ET key, an EP block.
    The EM key cannot be given (no value of it is accepted), so the place
    between K and ET holds the first T key. *)
Definition pwle_svc_ep_example : string :=
  "S:0,WF:4,RP:1,WT:399.5,M:1,K:5,T0:0,ET:3,EC:100,L0:0.49152,F0:200,C0:0,B0:0,AR0:0,R0:0,V0:0".

(** An all-zero [struct wt_type12_pwle] but for the id and the length of
    its EP metadata. *)
Definition stale_ep (id len : Z) : wt_type12_pwle :=
  set_ep (zero_pwle 0) (mk_ep id len 0 0).

(** * Lemmas *)

Lemma top_byte (x : Z) :
  0 <= x < 2 ^ 32 -> Z.shiftr (Z.land x 0xFF000000) 24 = x / 2 ^ 24.
Proof.
  intros Hx.
  rewrite Z.shiftr_land.
  change (Z.shiftr 0xFF000000 24) with (Z.ones 8).
  rewrite Z.land_ones by lia.
  rewrite Z.shiftr_div_pow2 by lia.
  apply Z.mod_small.
  split.
  - apply Z.div_pos; lia.
  - apply Z.div_lt_upper_bound; lia.
Qed.

Lemma shl8 (x : Z) : u32 (Z.shiftl x 8) = (x * 2 ^ 8) mod 2 ^ 32.
Proof. unfold u32. rewrite Z.shiftl_mul_pow2 by lia. reflexivity. Qed.

Lemma emit_cache_word (d m b cb w : Z) (bs : list Z) :
  0 <= w < 2 ^ 24 ->
  emit_cache sizeof_cache
    {| data := d; max := m; bytes := b; cache := w; cachebits := cb;
       mem := bs |} =
  {| data := d + 4; max := m; bytes := b; cache := 0; cachebits := cb;
     mem := bs ++ word_bytes w |}.
Proof.
  intros Hw. unfold sizeof_cache, emit_cache; cbn [data max bytes cache cachebits mem].
  rewrite !shl8.
  assert (H1 : 0 <= (w * 2 ^ 8) mod 2 ^ 32 < 2 ^ 32) by (apply Z.mod_pos_bound; lia).
  assert (H2 : 0 <= (((w * 2 ^ 8) mod 2 ^ 32) * 2 ^ 8) mod 2 ^ 32 < 2 ^ 32)
    by (apply Z.mod_pos_bound; lia).
  assert (H3 : 0 <= ((((w * 2 ^ 8) mod 2 ^ 32) * 2 ^ 8) mod 2 ^ 32 * 2 ^ 8) mod 2 ^ 32 < 2 ^ 32)
    by (apply Z.mod_pos_bound; lia).
  rewrite !top_byte by lia.
  rewrite <- !app_assoc. cbn [app]. unfold word_bytes.
  change (2 ^ 32) with 4294967296 in *. change (2 ^ 8) with 256 in *.
  change (2 ^ 24) with 16777216 in *. change (2 ^ 16) with 65536.
  assert (E0 : w / 16777216 = 0) by (Z.div_mod_to_equations; lia).
  assert (E1 : (w * 256) mod 4294967296 / 16777216 = w / 65536)
    by (Z.div_mod_to_equations; lia).
  assert (E2 : ((w * 256) mod 4294967296 * 256) mod 4294967296 / 16777216
               = (w / 256) mod 256) by (Z.div_mod_to_equations; lia).
  assert (E3 : (((w * 256) mod 4294967296 * 256) mod 4294967296 * 256)
                 mod 4294967296 / 16777216 = w mod 256)
    by (Z.div_mod_to_equations; lia).
  assert (E4 : ((((w * 256) mod 4294967296 * 256) mod 4294967296 * 256)
                 mod 4294967296 * 256) mod 4294967296 = 0)
    by (Z.div_mod_to_equations; lia).
  rewrite E0, E1, E2, E3, E4.
  f_equal. lia.
Qed.

Lemma write_rec_S (f : nat) (ch : dspmem_chunk) (nbits val : Z) :
  dspmem_chunk_write_rec (S f) ch nbits val =
  let nwrite := Z.min (24 - cachebits ch) nbits in
  let cache1 := Z.lor (u32 (Z.shiftl (cache ch) nwrite))
                      (Z.shiftr val (nbits - nwrite)) in
  if cachebits ch + nwrite =? 24 then
    if data ch =? max ch
    then Some (- ENOSPC,
               {| data := data ch; max := max ch; bytes := bytes ch;
                  cache := cache1; cachebits := cachebits ch + nwrite;
                  mem := mem ch |})
    else
      let ch2 := emit_cache sizeof_cache
                   {| data := data ch; max := max ch; bytes := bytes ch;
                      cache := Z.land cache1 0xFFFFFF;
                      cachebits := cachebits ch + nwrite; mem := mem ch |} in
      let ch3 := {| data := data ch2; max := max ch2;
                    bytes := bytes ch2 + Z.of_nat sizeof_cache;
                    cache := cache ch2; cachebits := 0; mem := mem ch2 |} in
      if nbits - nwrite =? 0 then Some (0, ch3)
      else dspmem_chunk_write_rec f ch3 (nbits - nwrite) val
  else
    if nbits - nwrite =? 0
    then Some (0, {| data := data ch; max := max ch; bytes := bytes ch;
                     cache := cache1; cachebits := cachebits ch + nwrite;
                     mem := mem ch |})
    else dspmem_chunk_write_rec f
           {| data := data ch; max := max ch; bytes := bytes ch;
              cache := cache1; cachebits := cachebits ch + nwrite;
              mem := mem ch |} (nbits - nwrite) val.
Proof. reflexivity. Qed.

Lemma write_rec_mono (f : nat) :
  forall ch nbits val r,
    dspmem_chunk_write_rec f ch nbits val = Some r ->
    forall f', (f <= f')%nat -> dspmem_chunk_write_rec f' ch nbits val = Some r.
Proof.
  induction f as [|f IH]; intros ch nbits val r H f' Hle; [discriminate|].
  destruct f' as [|f']; [lia|].
  cbn [dspmem_chunk_write_rec] in *.
  repeat match goal with
         | H : context [if ?c then _ else _] |- _ => destruct c
         end; auto; eapply IH; eauto; lia.
Qed.

Lemma emit_cache_cachebits (n : nat) :
  forall ch, cachebits (emit_cache n ch) = cachebits ch.
Proof. induction n; intros; cbn; [reflexivity|]. rewrite IHn. reflexivity. Qed.

Lemma write_rec_total (f : nat) :
  forall ch nbits val,
    0 <= cachebits ch <= 24 -> 0 <= nbits ->
    (Z.to_nat nbits + (if (cachebits ch =? 24)%Z then 1 else 0) < f)%nat ->
    exists r, dspmem_chunk_write_rec f ch nbits val = Some r.
Proof.
  induction f as [|f IH]; intros ch nbits val Hcb Hn Hf; [lia|].
  cbn [dspmem_chunk_write_rec cachebits data max bytes cache mem].
  destruct (Z.eqb_spec (cachebits ch + Z.min (24 - cachebits ch) nbits) 24) as [E|E].
  - destruct (dspmem_chunk_end _); [eauto|].
    destruct (Z.eqb_spec (nbits - Z.min (24 - cachebits ch) nbits) 0); [eauto|].
    apply IH; cbn [cachebits]; try lia.
    change (0 =? 24) with false.
    destruct (Z.eqb_spec (cachebits ch) 24) as [E'|E'].
    + rewrite E', Z.sub_diag, Z.min_l, Z.sub_0_r in * by lia. lia.
    + assert (0 < Z.min (24 - cachebits ch) nbits) by lia. lia.
  - destruct (Z.eqb_spec (nbits - Z.min (24 - cachebits ch) nbits) 0); [eauto|].
    lia.
Qed.

Lemma dspmem_chunk_write_total (ch : dspmem_chunk) (nbits val : Z) :
  0 <= cachebits ch <= 24 -> 0 <= nbits ->
  exists r, dspmem_chunk_write ch nbits val = Some r.
Proof.
  intros. apply write_rec_total; auto. unfold write_fuel.
  destruct (cachebits ch =? 24); lia.
Qed.

Lemma write_rec_enough (f : nat) (ch : dspmem_chunk) (nbits val : Z) :
  0 <= cachebits ch <= 24 -> 0 <= nbits ->
  (Z.to_nat nbits + (if (cachebits ch =? 24)%Z then 1 else 0) < f)%nat ->
  dspmem_chunk_write_rec f ch nbits val = dspmem_chunk_write ch nbits val.
Proof.
  intros Hcb Hn Hf.
  destruct (write_rec_total (S (Z.to_nat nbits + (if (cachebits ch =? 24)%Z then 1 else 0))) ch nbits val Hcb Hn)
    as [r Hr]; [lia|].
  rewrite (write_rec_mono _ _ _ _ _ Hr) by lia.
  unfold dspmem_chunk_write, write_fuel.
  rewrite (write_rec_mono _ _ _ _ _ Hr); [reflexivity|].
  destruct (cachebits ch =? 24); lia.
Qed.

Lemma testbit_small (b k n : Z) :
  0 <= b < 2 ^ k -> 0 <= k <= n -> Z.testbit b n = false.
Proof.
  intros Hb Hk. rewrite <- (Z.mod_small b (2 ^ k)) by lia.
  apply Z.mod_pow2_bits_high; lia.
Qed.

Lemma land_shifted_small (a b k : Z) :
  0 <= k -> 0 <= b < 2 ^ k -> Z.land (a * 2 ^ k) b = 0.
Proof.
  intros Hk Hb. apply Z.bits_inj'; intros n Hn.
  rewrite Z.land_spec, Z.bits_0. destruct (Z.ltb_spec n k).
  - rewrite Z.mul_pow2_bits_low; auto.
  - rewrite (testbit_small b k n), andb_false_r by lia. reflexivity.
Qed.

Lemma lor_add (a b k : Z) :
  0 <= k -> 0 <= b < 2 ^ k -> Z.lor (a * 2 ^ k) b = a * 2 ^ k + b.
Proof.
  intros Hk Hb.
  rewrite <- Z.lxor_lor, <- Z.add_nocarry_lxor;
    auto using land_shifted_small.
Qed.

Lemma land_lor_low (x v : Z) :
  0 <= v < 2 ^ 24 ->
  Z.land (Z.lor x v) 0xFFFFFF = Z.lor (x mod 2 ^ 24) v.
Proof.
  intros Hv. change 0xFFFFFF with (Z.ones 24).
  rewrite Z.land_lor_distr_l, !Z.land_ones by lia.
  rewrite (Z.mod_small v) by lia. reflexivity.
Qed.

Lemma full_word_range (ch : dspmem_chunk) (nbits val : Z) :
  0 <= cachebits ch < 24 -> 24 - cachebits ch <= nbits ->
  0 <= val < 2 ^ nbits -> 0 <= full_word ch nbits val < 2 ^ 24.
Proof.
  intros Hcb Hn Hv. unfold full_word.
  set (k := cachebits ch) in *. set (r := nbits - (24 - k)).
  assert (Hp : 0 <= cache ch mod 2 ^ k < 2 ^ k) by (apply Z.mod_pos_bound; lia).
  assert (Hq : 0 <= val / 2 ^ r < 2 ^ (24 - k)).
  { split; [apply Z.div_pos; lia|].
    apply Z.div_lt_upper_bound; [lia|].
    rewrite <- Z.pow_add_r by lia. replace (r + (24 - k)) with nbits by lia. lia. }
  assert (E : 2 ^ 24 = 2 ^ k * 2 ^ (24 - k))
    by (rewrite <- Z.pow_add_r by lia; f_equal; lia).
  rewrite E. nia.
Qed.

Lemma cache_step (ch : dspmem_chunk) (nbits val : Z) :
  0 <= cachebits ch < 24 -> 24 - cachebits ch <= nbits ->
  0 <= val < 2 ^ nbits ->
  Z.land (Z.lor (u32 (Z.shiftl (cache ch) (24 - cachebits ch)))
                (Z.shiftr val (nbits - (24 - cachebits ch)))) 0xFFFFFF
  = full_word ch nbits val.
Proof.
  intros Hcb Hn Hv. unfold full_word, u32.
  set (k := cachebits ch) in *. set (r := nbits - (24 - k)).
  assert (Hq : 0 <= val / 2 ^ r < 2 ^ (24 - k)).
  { split; [apply Z.div_pos; lia|].
    apply Z.div_lt_upper_bound; [lia|].
    rewrite <- Z.pow_add_r by lia. replace (r + (24 - k)) with nbits by lia. lia. }
  assert (H24 : 2 ^ (24 - k) <= 2 ^ 24) by (apply Z.pow_le_mono_r; lia).
  rewrite Z.shiftr_div_pow2, Z.shiftl_mul_pow2 by lia.
  rewrite land_lor_low by lia.
  replace ((cache ch * 2 ^ (24 - k)) mod 2 ^ 32 mod 2 ^ 24)
    with ((cache ch mod 2 ^ k) * 2 ^ (24 - k)).
  - apply lor_add; lia.
  - rewrite Z.mod_mod_divide by (exists (2 ^ 8); reflexivity).
    replace (2 ^ 24) with (2 ^ k * 2 ^ (24 - k))
      by (rewrite <- Z.pow_add_r by lia; f_equal; lia).
    rewrite Z.mul_mod_distr_r by lia. reflexivity.
Qed.

Lemma write_full_word_step (ch : dspmem_chunk) (nbits val : Z) :
  0 <= cachebits ch < 24 ->
  24 - cachebits ch <= nbits ->
  0 <= val < 2 ^ nbits ->
  data ch <> max ch ->
  let rest := nbits - (24 - cachebits ch) in
  let ch' := stored ch (word_bytes (full_word ch nbits val)) in
  List.length (word_bytes (full_word ch nbits val)) = 4%nat /\
  data ch' = data ch + 4 /\ bytes ch' = bytes ch + 4 /\
  cachebits ch' = 0 /\
  dspmem_chunk_write ch nbits val =
    if rest =? 0 then Some (0, ch') else dspmem_chunk_write ch' rest val.
Proof.
  intros Hcb Hn Hv Hd rest ch'.
  repeat split; try reflexivity.
  unfold dspmem_chunk_write at 1, write_fuel.
  rewrite write_rec_S. cbv zeta.
  rewrite Z.min_l by lia.
  replace (cachebits ch + (24 - cachebits ch)) with 24 by lia.
  change (24 =? 24) with true. cbv iota.
  destruct (Z.eqb_spec (data ch) (max ch)) as [|_]; [contradiction|].
  rewrite cache_step by lia.
  rewrite emit_cache_word by (apply full_word_range; lia).
  cbn [data max bytes cache mem].
  fold rest.
  assert (E : {| data := data ch + 4; max := max ch;
                 bytes := bytes ch + Z.of_nat sizeof_cache; cache := 0;
                 cachebits := 0;
                 mem := mem ch ++ word_bytes (full_word ch nbits val) |} = ch')
    by reflexivity.
  rewrite E.
  destruct (Z.eqb_spec rest 0); [reflexivity|].
  apply write_rec_enough; subst ch'; cbn [cachebits stored]; try lia.
  change (0 =? 24) with false. cbv iota. subst rest. lia.
Qed.

Lemma completed_word_range (ch : dspmem_chunk) (nbits val : Z) :
  0 <= cachebits ch < 24 ->
  0 <= completed_word ch nbits val < 2 ^ 24.
Proof.
  intros Hcb. unfold completed_word.
  set (k := cachebits ch) in *.
  set (a := (cache ch mod 2 ^ k) * 2 ^ (24 - k)).
  set (b := (val / 2 ^ (nbits - (24 - k))) mod 2 ^ 24).
  assert (Ha : 0 <= a < 2 ^ 24).
  { subst a.
    assert (Hp : 0 <= cache ch mod 2 ^ k < 2 ^ k)
      by (apply Z.mod_pos_bound; lia).
    assert (E : 2 ^ 24 = 2 ^ k * 2 ^ (24 - k))
      by (rewrite <- Z.pow_add_r by lia; f_equal; lia).
    assert (0 < 2 ^ (24 - k)) by (apply Z.pow_pos_nonneg; lia).
    rewrite E. nia. }
  assert (Hb : 0 <= b < 2 ^ 24) by (subst b; apply Z.mod_pos_bound; lia).
  split; [apply Z.lor_nonneg; lia|].
  destruct (Z.eq_dec (Z.lor a b) 0) as [->|Hz]; [reflexivity|].
  assert (Hn : 0 <= Z.lor a b) by (apply Z.lor_nonneg; lia).
  apply Z.log2_lt_pow2; [lia|].
  rewrite Z.log2_lor by lia.
  assert (Hl : forall x, 0 <= x < 2 ^ 24 -> Z.log2 x < 24).
  { intros x Hx. destruct (Z.eq_dec x 0) as [->|]; [reflexivity|].
    apply Z.log2_lt_pow2; lia. }
  specialize (Hl a Ha) as La. specialize (Hl b Hb) as Lb. lia.
Qed.

Lemma cache_step_any (ch : dspmem_chunk) (nbits val : Z) :
  0 <= cachebits ch < 24 -> 24 - cachebits ch <= nbits ->
  Z.land (Z.lor (u32 (Z.shiftl (cache ch) (24 - cachebits ch)))
                (Z.shiftr val (nbits - (24 - cachebits ch)))) 0xFFFFFF
  = completed_word ch nbits val.
Proof.
  intros Hcb Hn. unfold completed_word, u32.
  set (k := cachebits ch) in *.
  rewrite Z.shiftr_div_pow2, Z.shiftl_mul_pow2 by lia.
  change 0xFFFFFF with (Z.ones 24).
  rewrite Z.land_lor_distr_l, !Z.land_ones by lia.
  f_equal.
  rewrite Z.mod_mod_divide by (exists (2 ^ 8); reflexivity).
  replace (2 ^ 24) with (2 ^ k * 2 ^ (24 - k))
    by (rewrite <- Z.pow_add_r by lia; f_equal; lia).
  rewrite Z.mul_mod_distr_r by lia. reflexivity.
Qed.

Lemma completed_word_full (ch : dspmem_chunk) (nbits val : Z) :
  0 <= cachebits ch < 24 -> 24 - cachebits ch <= nbits ->
  0 <= val < 2 ^ nbits ->
  completed_word ch nbits val = full_word ch nbits val.
Proof.
  intros Hcb Hn Hv.
  rewrite <- cache_step_any by assumption. apply cache_step; assumption.
Qed.

Lemma write_word_step (ch : dspmem_chunk) (nbits val : Z) :
  0 <= cachebits ch < 24 ->
  24 - cachebits ch <= nbits ->
  data ch <> max ch ->
  let rest := nbits - (24 - cachebits ch) in
  let ch' := stored ch (word_bytes (completed_word ch nbits val)) in
  dspmem_chunk_write ch nbits val =
    if rest =? 0 then Some (0, ch') else dspmem_chunk_write ch' rest val.
Proof.
  intros Hcb Hn Hd rest ch'.
  unfold dspmem_chunk_write at 1, write_fuel.
  rewrite write_rec_S. cbv zeta.
  rewrite Z.min_l by lia.
  replace (cachebits ch + (24 - cachebits ch)) with 24 by lia.
  change (24 =? 24) with true. cbv iota.
  destruct (Z.eqb_spec (data ch) (max ch)) as [|_]; [contradiction|].
  rewrite cache_step_any by lia.
  rewrite emit_cache_word by (apply completed_word_range; lia).
  cbn [data max bytes cache mem].
  fold rest.
  assert (E : {| data := data ch + 4; max := max ch;
                 bytes := bytes ch + Z.of_nat sizeof_cache; cache := 0;
                 cachebits := 0;
                 mem := mem ch ++ word_bytes (completed_word ch nbits val) |}
              = ch')
    by reflexivity.
  rewrite E.
  destruct (Z.eqb_spec rest 0); [reflexivity|].
  apply write_rec_enough; subst ch'; cbn [cachebits stored]; try lia.
  change (0 =? 24) with false. cbv iota. subst rest. lia.
Qed.

Lemma put_small (ch : dspmem_chunk) (nbits val : Z) :
  0 <= cachebits ch -> 0 < nbits -> cachebits ch + nbits < 24 ->
  0 <= cache ch < 2 ^ cachebits ch -> 0 <= val < 2 ^ nbits ->
  put nbits val ch =
  Ok {| data := data ch; max := max ch; bytes := bytes ch;
        cache := cache ch * 2 ^ nbits + val;
        cachebits := cachebits ch + nbits; mem := mem ch |}.
Proof.
  intros Hcb Hn Hlt Hc Hv.
  unfold put, dspmem_chunk_write, write_fuel.
  rewrite write_rec_S. cbv zeta.
  rewrite Z.min_r by lia.
  destruct (Z.eqb_spec (cachebits ch + nbits) 24); [lia|].
  rewrite Z.sub_diag. change (0 =? 0) with true. cbv iota.
  rewrite Z.shiftr_0_r. unfold u32.
  rewrite Z.shiftl_mul_pow2 by lia.
  assert (Hb : cache ch * 2 ^ nbits < 2 ^ 24).
  { apply Z.lt_le_trans with (2 ^ cachebits ch * 2 ^ nbits); [nia|].
    rewrite <- Z.pow_add_r by lia. apply Z.pow_le_mono_r; lia. }
  rewrite Z.mod_small by (change (2 ^ 24) with 16777216 in Hb; change (2 ^ 32) with 4294967296; nia).
  rewrite lor_add by lia. reflexivity.
Qed.

Lemma put_fill (ch : dspmem_chunk) (nbits val : Z) :
  0 <= cachebits ch -> 0 < nbits -> cachebits ch + nbits = 24 ->
  0 <= cache ch < 2 ^ cachebits ch -> 0 <= val < 2 ^ nbits ->
  data ch <> max ch ->
  put nbits val ch =
  Ok (stored ch (word_bytes (cache ch * 2 ^ nbits + val))).
Proof.
  intros Hcb Hn He Hc Hv Hd.
  destruct (write_full_word_step ch nbits val) as (_ & _ & _ & _ & E);
    try lia.
  unfold put. rewrite E.
  replace (nbits - (24 - cachebits ch)) with 0 by lia.
  change (0 =? 0) with true. cbv iota.
  unfold full_word. rewrite Z.mod_small by lia.
  replace (nbits - (24 - cachebits ch)) with 0 by lia.
  replace (24 - cachebits ch) with nbits by lia.
  change (2 ^ 0) with 1. rewrite Z.div_1_r. reflexivity.
Qed.

(** A 24-bit write on a word boundary stores the low 24 bits of the
    value. *)
Lemma put_word24 (ch : dspmem_chunk) (val : Z) :
  cachebits ch = 0 -> cache ch = 0 -> data ch <> max ch ->
  put 24 val ch = Ok (stored ch (word_bytes (val mod 2 ^ 24))).
Proof.
  intros Hcb Hc Hd.
  unfold put, dspmem_chunk_write, write_fuel.
  rewrite write_rec_S. cbv zeta.
  rewrite Hcb, Hc.
  change (Z.min (24 - 0) 24) with 24. change (0 + 24 =? 24) with true.
  change (24 - 24) with 0. change (0 =? 0) with true. cbv iota.
  destruct (Z.eqb_spec (data ch) (max ch)) as [|_]; [contradiction|].
  rewrite Z.shiftr_0_r, Z.shiftl_0_l. change (u32 0) with 0.
  rewrite Z.lor_0_l.
  change 0xFFFFFF with (Z.ones 24). rewrite Z.land_ones by lia.
  rewrite emit_cache_word by (apply Z.mod_pos_bound; lia).
  reflexivity.
Qed.

Lemma stored_aligned ch bs : aligned (stored ch bs).
Proof. split; reflexivity. Qed.

Lemma stored_stored ch a b : stored (stored ch a) b = stored ch (a ++ b).
Proof.
  unfold stored; cbn [data max bytes mem].
  rewrite length_app, Nat2Z.inj_add, !Z.add_assoc, app_assoc. reflexivity.
Qed.

Lemma stored_nil ch : aligned ch -> stored ch [] = ch.
Proof.
  intros [H1 H2]. destruct ch; cbn in *; subst. unfold stored; cbn.
  rewrite !Z.add_0_r, app_nil_r. reflexivity.
Qed.

Lemma put_all_app (f1 f2 : list (Z * Z)) :
  forall ch, put_all (f1 ++ f2) ch = (ch' <- put_all f1 ch ;; put_all f2 ch').
Proof.
  induction f1 as [|[n v] f1 IH]; intros ch; cbn [put_all app bind]; [reflexivity|].
  destruct (put n v ch); cbn [bind]; auto.
Qed.

Lemma word_bytes_3 (a b c : Z) :
  0 <= a < 2 ^ 8 -> 0 <= b < 2 ^ 8 -> 0 <= c < 2 ^ 8 ->
  word_bytes ((a * 2 ^ 8 + b) * 2 ^ 8 + c) = [0; a; b; c].
Proof.
  intros. unfold word_bytes.
  change (2 ^ 8) with 256 in *. change (2 ^ 16) with 65536.
  replace (((a * 256 + b) * 256 + c) / 65536) with a
    by (Z.div_mod_to_equations; lia).
  replace ((((a * 256 + b) * 256 + c) / 256) mod 256) with b
    by (Z.div_mod_to_equations; lia).
  replace (((a * 256 + b) * 256 + c) mod 256) with c
    by (Z.div_mod_to_equations; lia).
  reflexivity.
Qed.

Lemma word_bytes_8_16 (a d : Z) :
  0 <= a < 2 ^ 8 -> 0 <= d < 2 ^ 16 ->
  word_bytes (a * 2 ^ 16 + d) = [0; a; d / 2 ^ 8; d mod 2 ^ 8].
Proof.
  intros. unfold word_bytes.
  change (2 ^ 8) with 256 in *. change (2 ^ 16) with 65536 in *.
  replace ((a * 65536 + d) / 65536) with a by (Z.div_mod_to_equations; lia).
  replace (((a * 65536 + d) / 256) mod 256) with (d / 256)
    by (Z.div_mod_to_equations; lia).
  replace ((a * 65536 + d) mod 256) with (d mod 256)
    by (Z.div_mod_to_equations; lia).
  reflexivity.
Qed.

Lemma put_word3 (ch : dspmem_chunk) (a b c : Z) :
  aligned ch -> 0 <= a < 2 ^ 8 -> 0 <= b < 2 ^ 8 -> 0 <= c < 2 ^ 8 ->
  data ch + 4 <= max ch ->
  put_all [(8, a); (8, b); (8, c)] ch = Ok (stored ch [0; a; b; c]).
Proof.
  intros [Hcb Hc] Ha Hb Hc' Hd. cbn [put_all].
  rewrite put_small by (rewrite ?Hcb, ?Hc; change (2 ^ 0) with 1; lia).
  cbn [bind].
  rewrite put_small
    by (cbn [cachebits cache]; rewrite ?Hcb, ?Hc;
        change (2 ^ (0 + 8)) with (2 ^ 8); lia).
  cbn [bind cachebits cache data max bytes mem].
  rewrite put_fill
    by (cbn [cachebits cache data max]; rewrite ?Hcb, ?Hc;
        change (2 ^ (0 + 8 + 8)) with (2 ^ 8 * 2 ^ 8); try nia; lia).
  cbn [bind cachebits cache]. rewrite Hc. rewrite Z.mul_0_l, Z.add_0_l.
  rewrite word_bytes_3 by assumption.
  destruct ch; cbn in *; subst; reflexivity.
Qed.

Lemma put_word_8_16 (ch : dspmem_chunk) (a d : Z) :
  aligned ch -> 0 <= a < 2 ^ 8 -> 0 <= d < 2 ^ 16 ->
  data ch + 4 <= max ch ->
  put_all [(8, a); (16, d)] ch = Ok (stored ch [0; a; d / 2 ^ 8; d mod 2 ^ 8]).
Proof.
  intros [Hcb Hc] Ha Hd Hm. cbn [put_all].
  rewrite put_small by (rewrite ?Hcb, ?Hc; change (2 ^ 0) with 1; lia).
  cbn [bind].
  rewrite put_fill
    by (cbn [cachebits cache data max]; rewrite ?Hcb, ?Hc;
        change (2 ^ (0 + 8)) with (2 ^ 8); lia).
  cbn [bind cachebits cache]. rewrite Hc. rewrite Z.mul_0_l, Z.add_0_l.
  rewrite word_bytes_8_16 by assumption.
  destruct ch; cbn in *; subst; reflexivity.
Qed.

Lemma put_section (s : wt_type10_comp_section) (ch : dspmem_chunk) :
  aligned ch -> section_wf s ->
  data ch + Z.of_nat (List.length (section_bytes s)) <= max ch ->
  put_all (section_fields s) ch = Ok (stored ch (section_bytes s)).
Proof.
  intros Hal (Ha & Hi & Hdu & Hr & Hf & Hde) Hcap.
  unfold section_fields, section_bytes, has_duration in *.
  change ([(8, amplitude (wvfrm s)); (8, index (wvfrm s)); (8, sec_repeat s);
           (8, sec_flags s); (16, delay s)])
    with ([(8, amplitude (wvfrm s)); (8, index (wvfrm s)); (8, sec_repeat s)] ++
          [(8, sec_flags s); (16, delay s)]).
  rewrite <- app_assoc, put_all_app.
  assert (Hlen : 8 <= Z.of_nat (List.length
            ([0; amplitude (wvfrm s); index (wvfrm s); sec_repeat s; 0;
              sec_flags s; delay s / 2 ^ 8; delay s mod 2 ^ 8] ++
             (if negb (Z.land (sec_flags s) WT_TYPE10_COMP_DURATION_FLAG =? 0)
              then [0; 0; duration (wvfrm s) / 2 ^ 8; duration (wvfrm s) mod 2 ^ 8]
              else [])))) by (rewrite length_app; cbn [List.length]; lia).
  rewrite put_word3 by (auto; lia). cbn [bind]. rewrite put_all_app.
  rewrite put_word_8_16 by (auto using stored_aligned; cbn [stored data max List.length]; lia).
  cbn [bind]. rewrite stored_stored.
  destruct (Z.land (sec_flags s) WT_TYPE10_COMP_DURATION_FLAG =? 0); cbn [negb] in *.
  - cbn [put_all]. rewrite app_nil_r. reflexivity.
  - rewrite put_word_8_16; auto using stored_aligned; try lia.
    + rewrite stored_stored. reflexivity.
    + cbn [stored data max List.length app] in *. lia.
Qed.

Lemma put_sections (l : list wt_type10_comp_section) :
  forall ch,
    aligned ch -> Forall section_wf l ->
    data ch + Z.of_nat (List.length (flat_map section_bytes l)) <= max ch ->
    put_all (flat_map section_fields l) ch =
    Ok (stored ch (flat_map section_bytes l)).
Proof.
  induction l as [|s l IH]; intros ch Hal Hwf Hcap; cbn [flat_map].
  - cbn [put_all]. rewrite stored_nil; auto.
  - inversion Hwf; subst.
    cbn [flat_map] in Hcap. rewrite length_app, Nat2Z.inj_add in Hcap.
    rewrite put_all_app, put_section; auto; try lia.
    cbn [bind]. rewrite IH; auto using stored_aligned.
    + rewrite stored_stored. reflexivity.
    + cbn [stored data max]. lia.
Qed.

Lemma put_dirty_small (ch : dspmem_chunk) (nbits val : Z) :
  0 < nbits -> cachebits ch + nbits < 24 ->
  put nbits val ch =
  Ok {| data := data ch; max := max ch; bytes := bytes ch;
        cache := Z.lor (u32 (Z.shiftl (cache ch) nbits)) val;
        cachebits := cachebits ch + nbits; mem := mem ch |}.
Proof.
  intros Hn Hlt.
  unfold put, dspmem_chunk_write, write_fuel.
  rewrite write_rec_S. cbv zeta.
  rewrite Z.min_r by lia.
  destruct (Z.eqb_spec (cachebits ch + nbits) 24); [lia|].
  rewrite Z.sub_diag. change (0 =? 0) with true. cbv iota.
  rewrite Z.shiftr_0_r. reflexivity.
Qed.

Lemma put_dirty_fill (ch : dspmem_chunk) (nbits val : Z) :
  0 < nbits -> cachebits ch + nbits = 24 -> data ch <> max ch ->
  put nbits val ch =
  Ok (stored ch (word_bytes
        (Z.land (Z.lor (u32 (Z.shiftl (cache ch) nbits)) val) 0xFFFFFF))).
Proof.
  intros Hn He Hd.
  unfold put, dspmem_chunk_write, write_fuel.
  rewrite write_rec_S. cbv zeta.
  rewrite Z.min_r by lia.
  destruct (Z.eqb_spec (cachebits ch + nbits) 24); [|lia].
  destruct (Z.eqb_spec (data ch) (max ch)) as [|_]; [contradiction|].
  rewrite Z.sub_diag. change (0 =? 0) with true. cbv iota.
  rewrite Z.shiftr_0_r.
  rewrite emit_cache_word; [reflexivity|].
  change 0xFFFFFF with (Z.ones 24). rewrite Z.land_ones by lia.
  apply Z.mod_pos_bound; lia.
Qed.

Lemma put_ep (ep : wt_ep_metadata) (ch : dspmem_chunk) :
  aligned ch -> 0 <= ep_custom_threshold ep < 2 ^ 32 ->
  data ch + 8 <= max ch ->
  put_all [(8, ep_id ep); (8, ep_length ep); (8, ep_payload ep);
           (24, ep_custom_threshold ep)] ch =
  Ok (stored ch (word_bytes (ep_word ep) ++
                 word_bytes (ep_custom_threshold ep mod 2 ^ 24))).
Proof.
  intros [Hcb Hc] Ht Hd. cbn [put_all].
  rewrite put_dirty_small by lia. cbn [bind].
  rewrite put_dirty_small by (cbn [cachebits]; lia).
  cbn [bind cachebits cache data max bytes mem].
  rewrite put_dirty_fill by (cbn [cachebits data max]; lia).
  cbn [bind cache].
  rewrite put_word24; auto; try reflexivity.
  - rewrite stored_stored. unfold ep_word. rewrite Hc.
    rewrite Z.shiftl_0_l. change (u32 0) with 0. rewrite Z.lor_0_l.
    unfold stored; cbn [data max bytes mem]; reflexivity.
  - cbn [stored data max List.length word_bytes]. lia.
Qed.

Lemma section_bytes_length (l : list wt_type10_comp_section) :
  Z.of_nat (List.length (flat_map section_bytes l)) =
  8 * Z.of_nat (List.length l) +
  4 * Z.of_nat (List.length (filter has_duration l)).
Proof.
  induction l as [|s l IH]; [reflexivity|].
  cbn [flat_map filter]. rewrite length_app, Nat2Z.inj_add, IH.
  unfold section_bytes. rewrite length_app.
  destruct (has_duration s); cbn [List.length]; lia.
Qed.

Lemma comp_bytes_length (comp : wt_type10_comp) :
  comp_wf comp ->
  Z.of_nat (List.length (comp_bytes comp)) = comp_size comp.
Proof.
  intros (Hn & _ & Hlen & _ & _).
  unfold comp_bytes, comp_size, comp_durations, comp_ep_present, ep_bytes.
  rewrite !length_app, !Nat2Z.inj_add, section_bytes_length.
  rewrite length_firstn, Hlen.
  change (2 ^ 8) with 256 in Hn. unfold WT_MAX_SECTIONS.
  rewrite Nat.min_l by lia. rewrite Z2Nat.id by lia.
  destruct (ep_id (comp_ep_metadata comp) =? WT_EP_METADATA_ID);
    cbn [List.length word_bytes app]; lia.
Qed.

Lemma Forall_firstn {A} (P : A -> Prop) (n : nat) (l : list A) :
  Forall P l -> Forall P (firstn n l).
Proof.
  intros H. rewrite <- (firstn_skipn n l) in H.
  apply Forall_app in H. tauto.
Qed.

Lemma comp_to_buffer_layout (comp : wt_type10_comp) (size : Z) :
  comp_wf comp -> comp_size comp <= size ->
  wt_type10_comp_to_buffer comp size = Ok (comp_size comp, comp_bytes comp).
Proof.
  intros Hwf Hsize. pose proof (comp_bytes_length comp Hwf) as Hlen.
  destruct Hwf as (Hn & Hr & Hl & Hs & Ht).
  unfold wt_type10_comp_to_buffer, comp_fields.
  set (ch0 := dspmem_chunk_create size).
  assert (Hal : aligned ch0) by (split; reflexivity).
  assert (E : exists ch1, put_all
              (if ep_id (comp_ep_metadata comp) =? WT_EP_METADATA_ID
               then [(8, ep_id (comp_ep_metadata comp));
                     (8, ep_length (comp_ep_metadata comp));
                     (8, ep_payload (comp_ep_metadata comp));
                     (24, ep_custom_threshold (comp_ep_metadata comp))]
               else []) ch0 = Ok ch1 /\
              ch1 = stored ch0 (ep_bytes (comp_ep_metadata comp))).
  { unfold ep_bytes. unfold comp_bytes, ep_bytes in Hlen.
    destruct (ep_id (comp_ep_metadata comp) =? WT_EP_METADATA_ID).
    - eexists; split; [apply put_ep; auto|reflexivity].
      rewrite !length_app, !Nat2Z.inj_add in Hlen.
      cbn [List.length word_bytes] in Hlen. subst ch0. cbn [data max dspmem_chunk_create]. lia.
    - exists ch0; split; [reflexivity|]. symmetry; apply stored_nil; auto. }
  destruct E as (ch1 & E1 & ->).
  rewrite put_all_app, E1. cbn [bind].
  unfold comp_bytes in Hlen. rewrite !length_app, !Nat2Z.inj_add in Hlen.
  change ([(8, 0); (8, comp_nsections comp); (8, comp_repeat comp)])
    with ([(8, 0); (8, comp_nsections comp); (8, comp_repeat comp)] ++ []).
  rewrite <- app_assoc, put_all_app. cbn [app].
  rewrite put_word3; auto using stored_aligned; try lia.
  2: { cbn [stored data max dspmem_chunk_create ch0 List.length] in *. lia. }
  cbn [bind]. rewrite stored_stored.
  rewrite put_sections; auto using stored_aligned.
  - cbn [bind]. rewrite stored_stored.
    unfold dspmem_chunk_bytes, stored, ch0, dspmem_chunk_create, comp_bytes;
      cbn [bytes mem data max app].
    rewrite <- Hlen. rewrite !length_app, !Nat2Z.inj_add.
    rewrite <- app_assoc. cbn [app]. f_equal. f_equal. lia.
  - apply Forall_firstn; assumption.
  - cbn [stored data max dspmem_chunk_create ch0] in *.
    rewrite length_app, Nat2Z.inj_add. cbn [List.length] in *. lia.
Qed.

Lemma u8_range x : 0 <= u8 x < 2 ^ 8.
Proof. apply Z.mod_pos_bound; lia. Qed.
Lemma u16_range x : 0 <= u16 x < 2 ^ 16.
Proof. apply Z.mod_pos_bound; lia. Qed.
Lemma u32_range x : 0 <= u32 x < 2 ^ 32.
Proof. apply Z.mod_pos_bound; lia. Qed.

Lemma list_upd_length {A} (x : A) (l : list A) :
  forall n, List.length (list_upd n x l) = List.length l.
Proof.
  induction l as [|h t IH]; intros [|n]; cbn [list_upd List.length]; auto.
Qed.

Lemma Forall_list_upd {A} (P : A -> Prop) (x : A) (l : list A) :
  P x -> Forall P l -> forall n, Forall P (list_upd n x l).
Proof.
  intros Hx Hl. induction Hl as [|h t Hh Ht IH]; intros [|n];
    cbn [list_upd]; auto.
Qed.

Lemma elem_at_Forall {A} (P : A -> Prop) (d : A) (l : list A) (k : Z) (x : A) :
  P d -> Forall P l -> elem_at d l k = Ok x -> P x.
Proof.
  intros Hd Hl. unfold elem_at.
  destruct ((0 <=? k) && (k <? WT_MAX_SECTIONS)); [|discriminate].
  intros E; inversion E; subst.
  destruct (nth_in_or_default (Z.to_nat k) l d) as [Hin| ->]; auto.
  rewrite Forall_forall in Hl; auto.
Qed.

Lemma zero_section_wf : section_wf zero_section.
Proof. unfold section_wf; cbn; lia. Qed.

Lemma Ok_inj {A} (a b : A) : Ok a = Ok b -> a = b.
Proof. intros H; injection H; auto. Qed.

(** Inversion of a successful run through the result monad. *)
Ltac inv_ok :=
  repeat match goal with
    | H : Ok _ = Ok _ |- _ => apply Ok_inj in H; subst
    | H : Err _ = Ok _ |- _ => discriminate H
    | H : Fault = Ok _ |- _ => discriminate H
    | H : bind ?r _ = Ok _ |- _ =>
        let E := fresh "E" in destruct r eqn:E; cbn [bind] in H
    | H : (if ?c then _ else _) = Ok _ |- _ =>
        let E := fresh "E" in destruct c eqn:E
    | H : (let '(_, _) := ?x in _) = Ok _ |- _ =>
        let E := fresh "E" in destruct x eqn:E
    end.

Ltac range :=
  match goal with
  | |- 0 <= u8 _ < _ => apply u8_range
  | |- 0 <= u16 _ < _ => apply u16_range
  | |- 0 <= u32 _ < _ => apply u32_range
  | |- 0 <= ?x < _ => first [assumption | cbv; split; congruence]
  end.

Lemma waveform_get_wf bank0 str section s' :
  (forall s, section = Ok s -> section_wf s) ->
  wt_type10_comp_waveform_get bank0 str section = Ok s' ->
  section_wf s'.
Proof.
  intros Hs H. unfold wt_type10_comp_waveform_get in H.
  destruct (Libc.strlen str <? 3); [discriminate|].
  destruct (alpha_prefix str) as [is_bank i].
  match type of H with bind ?r _ = _ => destruct r as [[[[bank idx] amp] dur]| |] end;
    cbn [bind] in H; try discriminate.
  cbv zeta in H.
  destruct ((amp =? 0) || (100 <? amp)); [discriminate|].
  match type of H with bind ?r _ = _ => destruct r as [d| |] end;
    cbn [bind] in H; try discriminate.
  destruct section as [s| |]; cbn [bind] in H; try discriminate.
  destruct (Hs s eq_refl) as (? & ? & ? & ? & ? & ?).
  apply Ok_inj in H. subst s'.
  unfold section_wf; cbn [amplitude index duration wvfrm sec_repeat sec_flags delay].
  split; [|split; [|split; [|split; [|split]]]]; try range.
  repeat match goal with
         | |- context [if ?c then _ else _] => destruct c
         end; range.
Qed.

Lemma section_at_wf l k s :
  Forall section_wf l -> section_at l k = Ok s -> section_wf s.
Proof. apply elem_at_Forall, zero_section_wf. Qed.

Lemma set_section_wf comp n k s :
  comp_wf comp -> 0 <= n < 2 ^ 8 -> section_wf s ->
  comp_wf (set_section comp n k s).
Proof.
  intros (Hn & Hr & Hl & Hs & Ht) Hn' Hs'.
  unfold comp_wf, set_section, elem_set;
    cbn [comp_nsections comp_repeat inner_loop comp_sections comp_ep_metadata].
  rewrite list_upd_length.
  split; [|split; [|split; [|split]]]; auto using Forall_list_upd.
Qed.

Lemma scan_u_range s z rest : Libc.scan_u s = Some (z, rest) -> 0 <= z < 2 ^ 32.
Proof.
  unfold Libc.scan_u.
  destruct (Libc.take_sign _) as [neg s1].
  destruct (Libc.digits _ _ _) as [[v n] r].
  destruct n; [discriminate|].
  intros H; injection H as <- _. apply u32_range.
Qed.

Lemma sscanf_uuu_range sep s a0 b0 c0 a b c :
  Libc.sscanf_uuu sep s a0 b0 c0 = (3, (a, b, c)) -> 0 <= c < 2 ^ 32.
Proof.
  unfold Libc.sscanf_uuu.
  destruct (Libc.at_eof s); [discriminate|].
  destruct (Libc.scan_u s) as [[x s1]|]; [|discriminate].
  destruct (Libc.scan_lit sep s1) as [s2|]; [|discriminate].
  destruct (Libc.scan_u s2) as [[y s3]|]; [|discriminate].
  destruct (Libc.scan_lit sep s3) as [s4|]; [|discriminate].
  destruct (Libc.scan_u s4) as [[z s5]|] eqn:E; [|discriminate].
  intros H; injection H as <- <- <-. eapply scan_u_range; eauto.
Qed.

Lemma decode_wf bank0 comp spec str comp' :
  comp_wf comp ->
  wt_type10_comp_decode bank0 comp spec str = Ok comp' ->
  comp_wf comp'.
Proof.
  intros Hwf H. pose proof Hwf as (Hn & Hr & Hl & Hs & Ht).
  unfold wt_type10_comp_decode in H.
  destruct spec.
  - inv_ok. unfold comp_wf;
      cbn [comp_nsections comp_repeat comp_sections comp_ep_metadata].
    split; [|split; [|split; [|split]]]; auto; range.
  - inv_ok.
    match goal with E : section_at _ ?k = Ok ?s |- _ =>
      pose proof (section_at_wf _ _ _ Hs E) as (? & ? & ? & ? & ? & ?) end.
    match goal with |- comp_wf {| comp_nsections := comp_nsections ?c |} =>
      assert (W : comp_wf c) end.
    { apply set_section_wf; auto.
      - destruct (_ || _); [apply u8_range|assumption].
      - unfold section_wf; cbn [amplitude index duration wvfrm sec_repeat sec_flags delay].
        split; [|split; [|split; [|split; [|split]]]]; range. }
    exact W.
  - inv_ok.
    match goal with E : section_at _ ?k = Ok ?s |- _ =>
      pose proof (section_at_wf _ _ _ Hs E) as (? & ? & ? & ? & ? & ?) end.
    match goal with |- comp_wf {| comp_nsections := comp_nsections ?c |} =>
      assert (W : comp_wf c) end.
    { apply set_section_wf; auto; [apply u8_range|].
      unfold section_wf; cbn [amplitude index duration wvfrm sec_repeat sec_flags delay].
      split; [|split; [|split; [|split; [|split]]]]; range. }
    exact W.
  - inv_ok. unfold comp_wf;
      cbn [comp_nsections comp_repeat comp_sections comp_ep_metadata].
    split; [|split; [|split; [|split]]]; auto; range.
  - destruct (Libc.sscanf_uuu _ _ _ _ _) as [ret [[len payload] thresh]] eqn:E.
    destruct (Z.ltb_spec ret 3); [discriminate|].
    apply Ok_inj in H; subst comp'.
    unfold comp_wf; cbn [comp_nsections comp_repeat comp_sections comp_ep_metadata ep_custom_threshold].
    split; [|split; [|split; [|split]]]; auto.
    assert (ret = 3).
    { unfold Libc.sscanf_uuu in E.
      repeat match type of E with
        | (if ?c then _ else _) = _ => destruct c
        | match ?x with _ => _ end = _ => destruct x
        end; injection E as <- _; lia. }
    subst ret. apply (sscanf_uuu_range _ _ _ _ _ _ _ _ E).
  - inv_ok.
    match goal with E : wt_type10_comp_waveform_get _ _ _ = Ok ?s |- _ =>
      assert (W : section_wf s)
        by (eapply waveform_get_wf; [|exact E];
            intros; eapply section_at_wf; eauto);
      destruct W as (? & ? & ? & ? & ? & ?) end.
    apply set_section_wf; auto.
    + destruct (_ || _); [apply u8_range|assumption].
    + unfold section_wf; cbn [amplitude index duration wvfrm sec_repeat sec_flags delay].
      split; [|split; [|split; [|split; [|split]]]]; try range.
      destruct (negb (duration _ =? 0)); range.
  - inv_ok.
    match goal with E : section_at _ (if _ then _ else _) = Ok ?s |- _ =>
      pose proof (section_at_wf _ _ _ Hs E) as (? & ? & ? & ? & ? & ?) end.
    apply set_section_wf; auto.
    + destruct (negb (delay _ =? 0)); [apply u8_range|assumption].
    + unfold section_wf; cbn [amplitude index duration wvfrm sec_repeat sec_flags delay].
      split; [|split; [|split; [|split; [|split]]]]; range.
  - discriminate.
Qed.

Lemma comp_loop_wf bank_init toks :
  forall n comp comp',
    comp_wf comp -> comp_loop bank_init n toks comp = Ok comp' -> comp_wf comp'.
Proof.
  induction toks as [|tok toks IH]; intros n comp comp' Hwf H; cbn [comp_loop] in H.
  - apply Ok_inj in H; subst; auto.
  - destruct (wt_type10_comp_decode _ _ _ _) eqn:E; cbn [bind] in H; try discriminate.
    eapply IH; [|exact H]. eapply decode_wf; eauto.
Qed.

Lemma zero_comp_wf : comp_wf zero_comp.
Proof.
  unfold comp_wf, zero_comp; cbn [comp_nsections comp_repeat comp_sections comp_ep_metadata zero_ep ep_custom_threshold].
  split; [|split; [|split; [|split]]]; try range.
  - apply repeat_length.
  - apply Forall_forall. intros x Hx. apply repeat_spec in Hx. subst. apply zero_section_wf.
Qed.

Lemma comp_parse_wf bank_init full_str comp :
  wt_type10_comp_parse bank_init full_str = Ok comp -> comp_wf comp.
Proof.
  unfold wt_type10_comp_parse. intros H.
  destruct (comp_loop _ _ _ _) as [c| |] eqn:E; cbn [bind] in H; try discriminate.
  apply comp_loop_wf in E; [|apply zero_comp_wf].
  destruct (inner_loop c); [discriminate|].
  destruct (section_at _ _); cbn [bind] in H; try discriminate.
  destruct (_ || _); apply Ok_inj in H; subst; auto.
  destruct E as (Hn & Hr & Hl & Hs & Ht).
  unfold comp_wf; cbn [comp_nsections comp_repeat comp_sections comp_ep_metadata].
  split; [|split; [|split; [|split]]]; auto; range.
Qed.

Ltac unfold_entries H :=
  unfold wt_type12_pwle_save_entry, wt_type12_pwle_feature_entry,
    wt_type12_pwle_repeat_entry, wt_type12_pwle_wait_time_entry,
    wt_type12_pwle_svc_mode_entry, wt_type12_pwle_svc_braking_time_entry,
    wt_type12_pwle_ep_length_entry, wt_type12_pwle_ep_payload_entry,
    wt_type12_pwle_ep_threshold_entry, wt_type12_pwle_time_entry,
    wt_type12_pwle_level_entry, wt_type12_pwle_freq_entry,
    wt_type12_pwle_vb_target_entry, flag_entry in H.

Ltac simpl_locals :=
  cbn [v_pwle v_t v_l v_f v_c v_b v_a v_r v_v v_indef v_num_vals v_num_segs
       v_freq_val with_pwle with_section set_feature set_wlength set_repeat
       set_wait set_nsections set_nampsections set_svc set_ep set_sections
       feature wlength pwle_repeat wait nsections nampsections svc_metadata
       ep_metadata sections] in *.

Lemma u32_add_l a b : u32 (u32 a + b) = u32 (a + b).
Proof. unfold u32. apply Zplus_mod_idemp_l. Qed.

(** What one token does to the locals that the total length depends on. *)
Lemma pwle_token_effect st tok st' :
  pwle_token st tok = Ok st' ->
  v_num_vals st' = v_num_vals st + 1 /\
  (forall acc, wlength (v_pwle st) = u32 acc ->
     wlength (v_pwle st') = u32 (acc + tok_contrib tok)) /\
  v_indef st' = v_indef st || is_indef tok /\
  wait (v_pwle st') = (if is_wait tok then u16 (wait_val tok)
                       else wait (v_pwle st)) /\
  (is_wait tok = true -> v_num_vals st = 3) /\
  (is_relfreq tok = false -> v_r st' = v_r st).
Proof.
  unfold pwle_token. intros H.
  destruct (WT_TYPE12_PWLE_TOTAL_VALS <=? v_num_vals st); [discriminate|].
  unfold tok_contrib, is_indef, is_time, is_wait, is_relfreq, time_val, wait_val, tok_spec, tok_key, tok_str.
  destruct (strsep tok ":") as [key str]. cbn [fst snd].
  destruct (pwle_switch st (wt_type12_pwle_specifier_get key) str) as [st1| |] eqn:E;
    cbn [bind] in H; try discriminate.
  apply Ok_inj in H; subst st'. cbn [v_num_vals v_pwle v_indef v_r].
  unfold pwle_switch in E.
  destruct (wt_type12_pwle_specifier_get key); cbn [is_spec andb];
    unfold_entries E; inv_ok; simpl_locals;
    repeat match goal with
      | |- _ /\ _ => split
      | |- forall _, _ => intro
      end;
    rewrite ?orb_false_r, ?Z.add_0_r; auto; try discriminate; try lia.
  all: try match goal with
       | H : negb (_ =? _) = false |- _ = 3 =>
           apply negb_false_iff, Z.eqb_eq in H; exact H
       end.
  all: try match goal with
       | H : wlength _ = u32 _ |- _ => rewrite H, ?u32_add_l; cbn [andb negb]
       end.
  all: rewrite ?E0, ?E1, ?E2, ?E3, ?E4, ?E5; cbn [andb negb orb];
    rewrite ?Z.add_0_r, ?Z.add_0_l, ?orb_true_r; auto.
Qed.

Lemma pwle_loop_effect toks :
  forall st st',
    pwle_loop toks st = Ok st' ->
    v_num_vals st' = v_num_vals st + Z.of_nat (List.length toks) /\
    (forall acc, wlength (v_pwle st) = u32 acc ->
       wlength (v_pwle st') = u32 (acc + zsum (map tok_contrib toks))) /\
    v_indef st' = v_indef st || any_indef toks /\
    (3 < v_num_vals st ->
       has_wait toks = false /\ wait (v_pwle st') = wait (v_pwle st)) /\
    (existsb is_relfreq toks = false -> v_r st' = v_r st).
Proof.
  induction toks as [|tok toks IH]; intros st st' H; cbn [pwle_loop] in H.
  - apply Ok_inj in H; subst st'.
    cbn [List.length map zsum fold_right any_indef has_wait existsb].
    rewrite orb_false_r.
    repeat split; auto; try lia. intros acc ->. f_equal; lia.
  - destruct (pwle_token st tok) as [st1| |] eqn:E; cbn [bind] in H;
      try discriminate.
    apply pwle_token_effect in E.
    destruct E as (En & Ew & Ei & Ewt & Ew3 & Er).
    apply IH in H. destruct H as (Hn & Hw & Hi & Hwt & Hr).
    cbn [List.length map zsum fold_right any_indef has_wait existsb].
    split; [lia|]. split; [|split; [|split]].
    + intros acc Hacc. rewrite (Hw _ (Ew _ Hacc)). unfold zsum. f_equal; lia.
    + rewrite Hi, Ei. unfold any_indef. symmetry. apply orb_assoc.
    + intros H3. destruct (is_wait tok) eqn:Eis.
      * specialize (Ew3 eq_refl). lia.
      * destruct Hwt as [Hh Hwt]; [lia|].
        cbn [orb]. split; [exact Hh|]. rewrite Hwt, Ewt. reflexivity.
    + intros Hex. apply orb_false_iff in Hex. destruct Hex as [H1 H2].
      rewrite (Hr H2). auto.
Qed.

(** In a successful run the wait added to the length is the encoded wait. *)
Lemma pwle_loop_wait toks :
  forall st st',
    pwle_loop toks st = Ok st' -> has_wait toks = true ->
    zsum (map (fun tok => if is_wait tok then u16 (wait_val tok) else 0) toks)
    = wait (v_pwle st').
Proof.
  induction toks as [|tok toks IH]; intros st st' H Hw;
    cbn [has_wait existsb] in Hw; [discriminate|].
  cbn [pwle_loop] in H.
  destruct (pwle_token st tok) as [st1| |] eqn:E; cbn [bind] in H;
    try discriminate.
  apply pwle_token_effect in E.
  destruct E as (En & _ & _ & Ewt & Ew3 & _).
  cbn [map zsum fold_right].
  destruct (is_wait tok) eqn:Eis.
  - specialize (Ew3 eq_refl).
    apply pwle_loop_effect in H. destruct H as (_ & _ & _ & Hwt & _).
    destruct Hwt as [Hh Hwt]; [lia|].
    rewrite Hwt, Ewt.
    assert (Z0 : forall l, existsb is_wait l = false ->
              fold_right Z.add 0
                (map (fun tok => if is_wait tok then u16 (wait_val tok) else 0) l) = 0).
    { induction l as [|x l IHl]; cbn [existsb map fold_right]; auto.
      intros Hx. apply orb_false_iff in Hx. destruct Hx as [-> Hx].
      rewrite IHl; auto. }
    rewrite Z0; [lia|exact Hh].
  - cbn [orb] in Hw. rewrite Z.add_0_l. eapply IH; eauto.
Qed.

Lemma zsum_app a b : zsum (a ++ b) = zsum a + zsum b.
Proof. unfold zsum. induction a; cbn [app fold_right]; lia. Qed.

Lemma contrib_split toks :
  zsum (map tok_contrib toks) =
  zsum (counted_times toks) +
  zsum (map (fun tok => if is_wait tok then u16 (wait_val tok) else 0) toks).
Proof.
  unfold counted_times, zsum.
  induction toks as [|tok toks IH]; cbn [map filter fold_right]; [reflexivity|].
  rewrite IH. unfold tok_contrib.
  destruct (is_time tok && negb (is_indef tok)); cbn [map fold_right]; lia.
Qed.

Lemma pwle_entry_wlength pwle0 : wlength (v_pwle (pwle_entry pwle0)) = u32 0.
Proof. reflexivity. Qed.

Lemma u32_length_arith a b w :
  u32 (u32 (u32 (u32 a * b) - w) * 2) = u32 ((a * b - w) * 2).
Proof.
  unfold u32.
  rewrite (Zmult_mod_idemp_l a b), Zminus_mod_idemp_l, Zmult_mod_idemp_l.
  reflexivity.
Qed.

Lemma pwle_parse_wlength pwle0 full_str p :
  wt_type12_pwle_parse pwle0 full_str = Ok p ->
  has_wait (pwle_tokens full_str) = true ->
  wlength p =
  pwle_length (counted_times (pwle_tokens full_str)) (pwle_repeat p) (wait p)
    (any_indef (pwle_tokens full_str)).
Proof.
  unfold wt_type12_pwle_parse. fold (pwle_tokens full_str).
  intros H Hw.
  destruct (pwle_loop _ _) as [st| |] eqn:E; cbn [bind] in H; try discriminate.
  pose proof (pwle_loop_wait _ _ _ E Hw) as Hwait.
  apply pwle_loop_effect in E. destruct E as (_ & Hlen & Hi & _ & _).
  specialize (Hlen 0 (pwle_entry_wlength pwle0)).
  unfold pwle_finish in H.
  match type of H with (if ?c then _ else _) = _ => destruct c end;
    [discriminate|].
  apply Ok_inj in H. subst p.
  cbn [v_indef pwle_entry orb] in Hi.
  unfold pwle_length.
  rewrite contrib_split, Hwait, Z.add_0_l in Hlen.
  destruct (v_indef st); rewrite <- Hi;
    cbn [wlength pwle_repeat wait set_wlength set_nsections];
    rewrite Hlen, u32_length_arith; reflexivity.
Qed.

Lemma emit_cache_inv (n : nat) :
  forall ch, max (emit_cache n ch) = max ch /\
             exists suf, mem (emit_cache n ch) = mem ch ++ suf.
Proof.
  induction n as [|n IH]; intros ch; cbn [emit_cache].
  - split; [reflexivity|]. exists []. symmetry; apply app_nil_r.
  - destruct (IH {| data := data ch + 1; max := max ch; bytes := bytes ch;
                    cache := u32 (Z.shiftl (cache ch) 8);
                    cachebits := cachebits ch;
                    mem := mem ch ++ [Z.shiftr (Z.land (cache ch) 4278190080) 24] |})
      as (Hm & suf & Hs).
    cbn [max mem] in *. split; [exact Hm|].
    eexists. rewrite Hs, <- app_assoc. reflexivity.
Qed.

Lemma write_rec_inv (f : nat) :
  forall ch nbits val r ch',
    dspmem_chunk_write_rec f ch nbits val = Some (r, ch') ->
    0 <= cachebits ch <= 24 -> 0 <= nbits ->
    0 <= cachebits ch' <= 24 /\ max ch' = max ch /\
    exists suf, mem ch' = mem ch ++ suf.
Proof.
  induction f as [|f IH]; intros ch nbits val r ch' H Hcb Hn; [discriminate|].
  rewrite write_rec_S in H. cbv zeta in H.
  set (nwrite := Z.min (24 - cachebits ch) nbits) in *.
  assert (Hnw : 0 <= nwrite <= 24 - cachebits ch) by (subst nwrite; lia).
  assert (Hrest : 0 <= nbits - nwrite) by (subst nwrite; lia).
  destruct (cachebits ch + nwrite =? 24) eqn:E24.
  - destruct (data ch =? max ch).
    + injection H as _ <-. cbn [cachebits max mem].
      split; [lia|]. split; [reflexivity|]. exists []. symmetry; apply app_nil_r.
    + match type of H with
      | context [emit_cache ?n ?c] =>
          destruct (emit_cache_inv n c) as (Hm & suf & Hs)
      end.
      cbn [max mem] in Hm, Hs.
      destruct (nbits - nwrite =? 0).
      * injection H as _ <-. cbn [cachebits max mem].
        split; [lia|]. split; [exact Hm|]. exists suf. exact Hs.
      * apply IH in H; cbn [cachebits]; try lia.
        cbn [max mem] in H. destruct H as (H1 & H2 & suf' & H3).
        split; [exact H1|]. split; [congruence|].
        exists (suf ++ suf'). rewrite H3, Hs, app_assoc. reflexivity.
  - destruct (nbits - nwrite =? 0).
    + injection H as _ <-. cbn [cachebits max mem].
      split; [lia|]. split; [reflexivity|]. exists []. symmetry; apply app_nil_r.
    + apply IH in H; cbn [cachebits]; try lia.
      cbn [max mem] in H. exact H.
Qed.

Lemma put_inv (ch : dspmem_chunk) (nbits val : Z) :
  0 <= cachebits ch <= 24 -> 0 <= nbits ->
  exists ch', put nbits val ch = Ok ch' /\
              0 <= cachebits ch' <= 24 /\ max ch' = max ch /\
              exists suf, mem ch' = mem ch ++ suf.
Proof.
  intros Hcb Hn.
  destruct (dspmem_chunk_write_total ch nbits val Hcb Hn) as [[r ch'] H].
  exists ch'. unfold put. rewrite H. split; [reflexivity|].
  eapply write_rec_inv; eauto.
Qed.

Lemma put_all_inv (fields : list (Z * Z)) :
  Forall (fun f => 0 <= fst f) fields ->
  forall ch,
    0 <= cachebits ch <= 24 ->
    exists ch', put_all fields ch = Ok ch' /\
                0 <= cachebits ch' <= 24 /\ max ch' = max ch /\
                exists suf, mem ch' = mem ch ++ suf.
Proof.
  induction 1 as [|[n v] fields Hn Hf IH]; intros ch Hcb; cbn [put_all].
  - exists ch. repeat split; try lia. exists []. symmetry; apply app_nil_r.
  - cbn [fst] in Hn.
    destruct (put_inv ch n v Hcb Hn) as (ch1 & E & Hcb1 & Hm1 & suf1 & Hs1).
    rewrite E. cbn [bind].
    destruct (IH ch1 Hcb1) as (ch2 & E2 & Hcb2 & Hm2 & suf2 & Hs2).
    exists ch2. split; [exact E2|]. split; [exact Hcb2|]. split; [congruence|].
    exists (suf1 ++ suf2). rewrite Hs2, Hs1, app_assoc. reflexivity.
Qed.

Lemma put_flush_inv (ch : dspmem_chunk) :
  0 <= cachebits ch <= 24 ->
  exists ch', put_flush ch = Ok ch' /\ exists suf, mem ch' = mem ch ++ suf.
Proof.
  intros Hcb. unfold put_flush, dspmem_chunk_flush.
  destruct (cachebits ch =? 0).
  - exists ch. split; [reflexivity|]. exists []. symmetry; apply app_nil_r.
  - destruct (put_inv ch (24 - cachebits ch) 0) as (ch' & E & _ & _ & Hs);
      try lia.
    unfold put in E. destruct (dspmem_chunk_write _ _ _) as [[r c]|];
      [|discriminate].
    apply Ok_inj in E; subst c. exists ch'. auto.
Qed.

Lemma pwle_section_fields_nonneg l :
  Forall (fun f : Z * Z => 0 <= fst f) (flat_map pwle_section_fields l).
Proof.
  induction l as [|s l IH]; cbn [flat_map]; [constructor|].
  apply Forall_app. split; [|exact IH].
  unfold pwle_section_fields.
  destruct (Z.land (flags s) WT_TYPE12_PWLE_AMP_REG_BIT =? 0);
    repeat constructor; cbn; lia.
Qed.

Lemma pwle_metadata_fields_nonneg p :
  Forall (fun f : Z * Z => 0 <= fst f) (pwle_metadata_fields p).
Proof.
  unfold pwle_metadata_fields.
  repeat match goal with
         | |- context [if ?c then _ else _] => destruct c
         end;
    repeat (apply Forall_app; split); repeat constructor; cbn; lia.
Qed.

(** The first five words: the three header words, the word count and the
    total length. *)
Lemma put_pwle_header (f t h x wl : Z) (ch : dspmem_chunk) :
  aligned ch -> data ch + 20 <= max ch ->
  exists pre,
    List.length pre = 12%nat /\
    put_all [(16, f); (8, t); (24, h); (24, x); (24, wl)] ch =
    Ok (stored ch (pre ++ word_bytes (wl mod 2 ^ 24))).
Proof.
  intros [Hcb Hc] Hcap. cbn [put_all].
  rewrite put_dirty_small by lia. cbn [bind].
  rewrite put_dirty_fill by (cbn [cachebits data max]; lia). cbn [bind].
  rewrite put_word24
    by (cbn [stored cachebits cache data max List.length word_bytes]; lia).
  cbn [bind]. rewrite stored_stored.
  rewrite put_word24
    by (cbn [stored cachebits cache data max List.length word_bytes app]; lia).
  cbn [bind]. rewrite stored_stored.
  rewrite put_word24
    by (cbn [stored cachebits cache data max List.length word_bytes app]; lia).
  cbn [bind]. rewrite stored_stored.
  eexists. split; [|unfold stored; cbn [data max bytes mem]; reflexivity].
  reflexivity.
Qed.

(** The encoder never fails, and the fifth word of its output is the total
    length. *)
Lemma pwle_write_length_word (p : wt_type12_pwle) :
  exists n pre rest,
    List.length pre = 12%nat /\
    wt_type12_pwle_write p WT_TYPE12_PWLE_BYTES_MAX =
    Ok (n, pre ++ word_bytes (wlength p mod 2 ^ 24) ++ rest).
Proof.
  unfold wt_type12_pwle_write, pwle_fields.
  set (tail := flat_map pwle_section_fields _ ++ pwle_metadata_fields p).
  change ([(16, feature p); (8, WT_TYPE12_PWLE); (24, WT_TYPE12_HEADER_WORDS);
           (24, u32 (nsections p * 2 + nampsections p + 3))] ++
          [(24, wlength p); (8, pwle_repeat p); (12, wait p);
           (8, nsections p)] ++ tail)
    with ([(16, feature p); (8, WT_TYPE12_PWLE); (24, WT_TYPE12_HEADER_WORDS);
           (24, u32 (nsections p * 2 + nampsections p + 3));
           (24, wlength p)] ++
          ((8, pwle_repeat p) :: (12, wait p) :: (8, nsections p) :: tail)).
  rewrite put_all_app.
  destruct (put_pwle_header (feature p) WT_TYPE12_PWLE WT_TYPE12_HEADER_WORDS
              (u32 (nsections p * 2 + nampsections p + 3)) (wlength p)
              (dspmem_chunk_create WT_TYPE12_PWLE_BYTES_MAX))
    as (pre & Hpre & E).
  { split; reflexivity. }
  { unfold dspmem_chunk_create, WT_TYPE12_PWLE_BYTES_MAX; cbn [data max]; lia. }
  rewrite E. cbn [bind].
  match goal with |- context [put_all _ ?c] => set (ch5 := c) end.
  destruct (put_all_inv ((8, pwle_repeat p) :: (12, wait p)
                           :: (8, nsections p) :: tail)) with (ch := ch5)
    as (ch6 & E6 & Hcb6 & _ & suf6 & Hs6).
  { repeat (constructor; [cbn [fst]; lia|]).
    subst tail. apply Forall_app. split;
      [apply pwle_section_fields_nonneg|apply pwle_metadata_fields_nonneg]. }
  { subst ch5. cbn [stored cachebits]. lia. }
  rewrite E6. cbn [bind].
  destruct (put_flush_inv ch6 Hcb6) as (ch7 & E7 & suf7 & Hs7).
  rewrite E7. cbn [bind].
  exists (dspmem_chunk_bytes ch7), pre, (suf6 ++ suf7).
  split; [exact Hpre|].
  rewrite Hs7, Hs6. subst ch5. cbn [stored mem dspmem_chunk_create].
  rewrite <- !app_assoc. reflexivity.
Qed.

Lemma pwle_token_svc st tok st' :
  pwle_token st tok = Ok st' ->
  v_num_vals st <> 4 -> v_num_vals st <> 5 ->
  svc_metadata (v_pwle st') = svc_metadata (v_pwle st).
Proof.
  unfold pwle_token. intros H H4 H5.
  destruct (WT_TYPE12_PWLE_TOTAL_VALS <=? v_num_vals st); [discriminate|].
  destruct (strsep tok ":") as [key str].
  destruct (pwle_switch st (wt_type12_pwle_specifier_get key) str) as [st1| |] eqn:E;
    cbn [bind] in H; try discriminate.
  apply Ok_inj in H; subst st'. cbn [v_pwle].
  unfold pwle_switch in E.
  destruct (wt_type12_pwle_specifier_get key);
    unfold_entries E; inv_ok; simpl_locals; auto;
    match goal with
    | H : negb (_ =? _) = false |- _ =>
        apply negb_false_iff, Z.eqb_eq in H; contradiction
    end.
Qed.

Lemma pwle_loop_svc toks :
  forall st st',
    pwle_loop toks st = Ok st' -> 5 < v_num_vals st ->
    svc_metadata (v_pwle st') = svc_metadata (v_pwle st).
Proof.
  induction toks as [|tok toks IH]; intros st st' H Hn; cbn [pwle_loop] in H.
  - apply Ok_inj in H; subst; reflexivity.
  - destruct (pwle_token st tok) as [st1| |] eqn:E; cbn [bind] in H;
      try discriminate.
    pose proof (pwle_token_effect _ _ _ E) as (En & _).
    rewrite (IH _ _ H) by lia.
    apply (pwle_token_svc _ _ _ E); lia.
Qed.

Lemma pwle_token_svc_mode st tok st' m :
  pwle_token st tok = Ok st' ->
  tok_spec tok = PWLE_SPEC_SVC_MODE ->
  atoi (tok_str tok) = Ok m -> 0 <= m <= 3 ->
  svc_id (svc_metadata (v_pwle st')) = WT_SVC_METADATA_ID /\
  svc_length (svc_metadata (v_pwle st')) = 1 /\
  svc_mode (svc_metadata (v_pwle st')) = m.
Proof.
  unfold pwle_token, tok_spec, tok_key, tok_str. intros H Hs Ha Hm.
  destruct (WT_TYPE12_PWLE_TOTAL_VALS <=? v_num_vals st); [discriminate|].
  destruct (strsep tok ":") as [key str]. cbn [fst snd] in *.
  rewrite Hs in H. unfold pwle_switch in H.
  unfold wt_type12_pwle_svc_mode_entry in H. rewrite Ha in H. cbn [bind] in H.
  destruct (negb (v_num_vals st =? 4)); [discriminate|].
  destruct ((m <? -1) || (3 <? m)); [discriminate|].
  destruct (Z.eqb_spec m (-1)); [lia|]. cbn [negb bind] in H.
  apply Ok_inj in H; subst st'. simpl_locals. cbn [svc_id svc_length svc_mode].
  repeat split. unfold u8. apply Z.mod_small. lia.
Qed.

Lemma pwle_token_svc_braking_time st tok st' k :
  pwle_token st tok = Ok st' ->
  tok_spec tok = PWLE_SPEC_SVC_BRAKING_TIME ->
  atoi (tok_str tok) = Ok k ->
  svc_id (svc_metadata (v_pwle st')) = svc_id (svc_metadata (v_pwle st)) /\
  svc_length (svc_metadata (v_pwle st')) = svc_length (svc_metadata (v_pwle st)) /\
  svc_mode (svc_metadata (v_pwle st')) = svc_mode (svc_metadata (v_pwle st)) /\
  braking_time (svc_metadata (v_pwle st')) = k * 8 /\
  0 <= k <= WT_TYPE12_PWLE_MAX_BRAKING_TIME.
Proof.
  unfold pwle_token, tok_spec, tok_key, tok_str. intros H Hs Ha.
  destruct (WT_TYPE12_PWLE_TOTAL_VALS <=? v_num_vals st); [discriminate|].
  destruct (strsep tok ":") as [key str]. cbn [fst snd] in *.
  rewrite Hs in H. unfold pwle_switch in H.
  unfold wt_type12_pwle_svc_braking_time_entry in H. rewrite Ha in H.
  cbn [bind] in H.
  destruct (negb (v_num_vals st =? 5)); [discriminate|].
  destruct (Z.ltb_spec k 0); [discriminate|].
  destruct (Z.ltb_spec WT_TYPE12_PWLE_MAX_BRAKING_TIME k); [discriminate|].
  cbn [orb bind] in H.
  apply Ok_inj in H; subst st'. simpl_locals.
  cbn [svc_id svc_length svc_mode braking_time].
  repeat split; auto. unfold u32. apply Z.mod_small.
  unfold WT_TYPE12_PWLE_MAX_BRAKING_TIME in *. lia.
Qed.

Lemma pwle_finish_fields st p :
  pwle_finish st = Ok p ->
  svc_metadata p = svc_metadata (v_pwle st) /\
  feature p = feature (v_pwle st) /\ v_r st = true.
Proof.
  unfold pwle_finish. intros H.
  destruct (v_r st); [|rewrite !orb_true_r in H; discriminate].
  match type of H with (if ?c then _ else _) = _ => destruct c end;
    [discriminate|].
  apply Ok_inj in H; subst p.
  destruct (v_indef st); repeat split.
Qed.

Lemma pwle_loop_svc_block toks st0 st tokM tokK m k :
  pwle_loop toks st0 = Ok st -> v_num_vals st0 = 0 ->
  nth_error toks 4 = Some tokM ->
  tok_spec tokM = PWLE_SPEC_SVC_MODE ->
  atoi (tok_str tokM) = Ok m -> 0 <= m <= 3 ->
  nth_error toks 5 = Some tokK ->
  tok_spec tokK = PWLE_SPEC_SVC_BRAKING_TIME ->
  atoi (tok_str tokK) = Ok k ->
  0 <= k <= 1000 /\
  svc_metadata (v_pwle st) =
  {| svc_id := WT_SVC_METADATA_ID; svc_length := 1; svc_mode := m;
     braking_time := k * 8 |}.
Proof.
  intros H N HM HsM HaM Hm HK HsK HaK.
  destruct toks as [|t0 [|t1 [|t2 [|t3 [|t4 [|t5 rest]]]]]];
    try discriminate.
  cbn [nth_error] in HM, HK.
  injection HM as ->. injection HK as ->.
  cbn [pwle_loop] in H.
  destruct (pwle_token st0 t0) as [st1| |] eqn:E0;
    cbn [bind] in H; try discriminate.
  destruct (pwle_token st1 t1) as [st2| |] eqn:E1; cbn [bind] in H;
    try discriminate.
  destruct (pwle_token st2 t2) as [st3| |] eqn:E2; cbn [bind] in H;
    try discriminate.
  destruct (pwle_token st3 t3) as [st4| |] eqn:E3; cbn [bind] in H;
    try discriminate.
  destruct (pwle_token st4 tokM) as [st5| |] eqn:E4; cbn [bind] in H;
    try discriminate.
  destruct (pwle_token st5 tokK) as [st6| |] eqn:E5; cbn [bind] in H;
    try discriminate.
  pose proof (pwle_token_effect _ _ _ E0) as (N0 & _).
  pose proof (pwle_token_effect _ _ _ E1) as (N1 & _).
  pose proof (pwle_token_effect _ _ _ E2) as (N2 & _).
  pose proof (pwle_token_effect _ _ _ E3) as (N3 & _).
  pose proof (pwle_token_effect _ _ _ E4) as (N4 & _).
  pose proof (pwle_token_effect _ _ _ E5) as (N5 & _).
  pose proof (pwle_token_svc_mode _ _ _ _ E4 HsM HaM Hm) as (Sid & Slen & Smode).
  pose proof (pwle_token_svc_braking_time _ _ _ _ E5 HsK HaK)
    as (Bid & Blen & Bmode & Bt & Bk).
  pose proof (pwle_loop_svc _ _ _ H) as Hsvc.
  split; [exact Bk|].
  rewrite Hsvc by lia.
  destruct (svc_metadata (v_pwle st6)) as [i l md bt].
  cbn [svc_id svc_length svc_mode braking_time] in *. congruence.
Qed.

Lemma list_as_map {A} (d : A) (l : list A) :
  l = map (fun i => nth i l d) (seq 0 (List.length l)).
Proof.
  induction l as [|x l IH]; [reflexivity|].
  cbn [List.length seq map nth]. f_equal.
  rewrite <- seq_shift, map_map. exact IH.
Qed.

Lemma digit_cases d : is_digit d ->
  d = 0 \/ d = 1 \/ d = 2 \/ d = 3 \/ d = 4 \/ d = 5 \/ d = 6 \/ d = 7 \/
  d = 8 \/ d = 9.
Proof. unfold is_digit; lia. Qed.

Ltac each_digit d H :=
  destruct (digit_cases d H) as [->|[->|[->|[->|[->|[->|[->|[->|[->| ->]]]]]]]]].

Lemma digit_char_facts d : is_digit d ->
  isdigit (digit_char d) = true /\ code (digit_char d) - 48 = d /\
  isspace (digit_char d) = false /\
  Ascii.eqb (digit_char d) "-" = false /\
  Ascii.eqb (digit_char d) "+" = false /\
  Ascii.eqb (digit_char d) "!" = false /\
  Ascii.eqb (digit_char d) "~" = false.
Proof. intros H. each_digit d H; repeat split. Qed.

Lemma digits_dec ds rest :
  Forall is_digit ds ->
  (forall acc n, digits rest acc n = (acc, n, rest)) ->
  forall acc n,
    digits (String.append (dec_string ds) rest) acc n =
    (fold_left (fun acc d => 10 * acc + d) ds acc, (n + List.length ds)%nat,
     rest).
Proof.
  intros Hds Hrest. induction Hds as [|d ds Hd Hds IH]; intros acc n.
  - cbn [dec_string String.append fold_left List.length].
    rewrite Hrest, Nat.add_0_r. reflexivity.
  - cbn [dec_string String.append fold_left List.length digits].
    destruct (digit_char_facts d Hd) as (-> & -> & _).
    rewrite IH. f_equal. f_equal. lia.
Qed.

Lemma strtoul_dec ds rest :
  ds <> [] -> Forall is_digit ds ->
  (forall acc n, digits rest acc n = (acc, n, rest)) ->
  strtoul (String.append (dec_string ds) rest) = Z.min (dec_value ds) ULONG_MAX.
Proof.
  intros Hne Hds Hrest. unfold strtoul.
  destruct ds as [|d ds]; [contradiction|].
  inversion Hds as [|? ? Hd Hds']; subst.
  destruct (digit_char_facts d Hd) as (_ & _ & Hsp & Hm & Hp & _).
  cbn [dec_string String.append skip_space]. rewrite Hsp.
  unfold take_sign. rewrite Hm, Hp.
  change (String (digit_char d) (String.append (dec_string ds) rest))
    with (String.append (dec_string (d :: ds)) rest).
  rewrite digits_dec by assumption.
  cbn [List.length Nat.add]. fold (dec_value (d :: ds)).
  destruct (Z.ltb_spec ULONG_MAX (dec_value (d :: ds))); lia.
Qed.

Lemma strsep_dec ds rest :
  Forall is_digit ds ->
  strsep (String.append (dec_string ds) (String "!" rest)) "!" =
  (dec_string ds, Some rest).
Proof.
  induction 1 as [|d ds Hd Hds IH]; cbn [dec_string String.append strsep].
  - reflexivity.
  - cbn [mem_char]. destruct (digit_char_facts d Hd) as (_ & _ & _ & _ & _ & -> & _).
    cbn [orb]. rewrite IH. reflexivity.
Qed.

Lemma specifier_inner_stop ds :
  ds <> [] -> Forall is_digit ds ->
  wt_type10_comp_specifier_get (String.append (dec_string ds) "!!") =
  COMP_SPEC_INNER_LOOP_STOP.
Proof.
  intros Hne Hds. unfold wt_type10_comp_specifier_get.
  destruct ds as [|d ds]; [contradiction|].
  inversion Hds as [|? ? Hd Hds']; subst.
  destruct (digit_char_facts d Hd) as (_ & _ & _ & _ & _ & Hb & Ht).
  cbn [dec_string String.append]. unfold strcmp_eq.
  cbn [String.eqb]. rewrite Ht, Hb.
  replace (strstr _ "!!") with true; [reflexivity|].
  symmetry.
  change (String (digit_char d) (String.append (dec_string ds) "!!"))
    with (String.append (dec_string (d :: ds)) "!!").
  generalize (d :: ds). intros l. induction l as [|x l IH].
  - reflexivity.
  - cbn [dec_string String.append strstr]. rewrite IH. apply orb_true_r.
Qed.

Lemma strstr_outer ds :
  Forall is_digit ds -> strstr (String.append (dec_string ds) "!") "!!" = false.
Proof.
  induction 1 as [|d ds Hd Hds IH].
  - reflexivity.
  - cbn [dec_string String.append strstr prefix].
    destruct (digit_char_facts d Hd) as (_ & _ & _ & _ & _ & Hb & _).
    rewrite IH, orb_false_r.
    destruct (ascii_dec "!" (digit_char d)) as [E|E]; [|reflexivity].
    rewrite <- E in Hb. discriminate.
Qed.

Lemma strnchr_outer ds :
  Forall is_digit ds ->
  forall n, (List.length ds < n)%nat ->
  strnchr (String.append (dec_string ds) "!") n "!" = true.
Proof.
  induction 1 as [|d ds Hd Hds IH]; intros n Hn;
    (destruct n as [|n]; [cbn [List.length] in Hn; lia|]).
  - reflexivity.
  - cbn [dec_string String.append strnchr]. rewrite IH.
    + apply orb_true_r.
    + cbn [List.length] in Hn. lia.
Qed.

Lemma specifier_outer_repetition ds :
  ds <> [] -> Forall is_digit ds -> (List.length ds < 20)%nat ->
  wt_type10_comp_specifier_get (String.append (dec_string ds) "!") =
  COMP_SPEC_OUTER_LOOP_REPETITION.
Proof.
  intros Hne Hds Hlen. unfold wt_type10_comp_specifier_get.
  rewrite strstr_outer by assumption.
  rewrite strnchr_outer by (auto; exact Hlen).
  destruct ds as [|d ds]; [contradiction|].
  inversion Hds as [|? ? Hd Hds']; subst.
  destruct (digit_char_facts d Hd) as (_ & _ & _ & _ & _ & Hb & Ht).
  cbn [dec_string String.append]. unfold strcmp_eq.
  cbn [String.eqb]. rewrite Ht, Hb. reflexivity.
Qed.

Lemma strnchr_beyond ds rest (c : ascii) :
  Forall is_digit ds ->
  (forall d, is_digit d -> Ascii.eqb (digit_char d) c = false) ->
  forall n, (n <= List.length ds)%nat ->
  strnchr (String.append (dec_string ds) rest) n c = false.
Proof.
  intros Hds Hc. induction Hds as [|d ds Hd Hds IH]; intros n Hn.
  - cbn [List.length] in Hn. replace n with 0%nat by lia.
    cbn [dec_string String.append]. destruct rest; reflexivity.
  - destruct n as [|n]; [reflexivity|].
    cbn [List.length] in Hn.
    cbn [dec_string String.append strnchr].
    rewrite (Hc d Hd), IH by lia. reflexivity.
Qed.

Lemma specifier_long_count ds :
  Forall is_digit ds -> (20 <= List.length ds)%nat ->
  wt_type10_comp_specifier_get (String.append (dec_string ds) "!") =
  COMP_SPEC_DELAY.
Proof.
  intros Hds Hlen. unfold wt_type10_comp_specifier_get.
  rewrite strstr_outer by assumption.
  rewrite !strnchr_beyond; try assumption;
    try (intros d Hd; first
           [apply (digit_char_facts d Hd) | each_digit d Hd; reflexivity]);
    try (unfold WT_TYPE10_COMP_SEG_LEN_MAX, WT_TYPE10_COMP_METADATA_LEN; lia).
  destruct ds as [|d ds]; [cbn [List.length] in Hlen; lia|].
  inversion Hds as [|? ? Hd Hds']; subst.
  destruct (digit_char_facts d Hd) as (_ & _ & _ & _ & _ & Hb & Ht).
  cbn [dec_string String.append]. unfold strcmp_eq.
  cbn [String.eqb]. rewrite Ht, Hb. reflexivity.
Qed.

Lemma no_digits_bang rest :
  forall acc n, digits (String "!" rest) acc n = (acc, n, String "!" rest).
Proof. reflexivity. Qed.

Lemma no_digits_empty : forall acc n, digits "" acc n = (acc, n, "").
Proof. reflexivity. Qed.

Lemma strtoul_count ds tail :
  ds <> [] -> Forall is_digit ds ->
  strtoul (fst (strsep (String.append (dec_string ds) (String "!" tail)) "!"))
  = Z.min (dec_value ds) ULONG_MAX.
Proof.
  intros Hne Hds. rewrite strsep_dec by assumption. cbn [fst].
  rewrite <- (strtoul_dec ds "" Hne Hds no_digits_empty).
  f_equal. generalize (dec_string ds). intros s.
  induction s; cbn [String.append]; [reflexivity|]. f_equal. exact IHs.
Qed.

Lemma nth_list_upd {A} (x d : A) (l : list A) :
  forall n, (n < List.length l)%nat -> nth n (list_upd n x l) d = x.
Proof.
  induction l as [|h t IH]; intros [|n] Hn; cbn [List.length] in Hn;
    cbn [list_upd nth]; try lia; auto. apply IH. lia.
Qed.

Lemma dec_value_bound ds :
  Forall is_digit ds -> 0 <= dec_value ds < 10 ^ Z.of_nat (List.length ds).
Proof.
  unfold dec_value. intros Hds.
  assert (G : forall acc, 0 <= acc ->
            0 <= fold_left (fun acc d => 10 * acc + d) ds acc
            < (acc + 1) * 10 ^ Z.of_nat (List.length ds)).
  { induction Hds as [|d ds Hd Hds IH]; intros acc Hacc;
      cbn [fold_left List.length].
    - change (10 ^ Z.of_nat 0) with 1. lia.
    - unfold is_digit in Hd. specialize (IH (10 * acc + d)).
      rewrite Nat2Z.inj_succ, Z.pow_succ_r by lia.
      assert (0 < 10 ^ Z.of_nat (List.length ds)) by (apply Z.pow_pos_nonneg; lia).
      nia. }
  specialize (G 0). lia.
Qed.

(** * The statements of the documentation *)

(** ** C1 *)

(** C1 (amended).  When a call on a writer with fewer than 24 pending bits
    brings the accumulator to exactly 24 pending bits and the cursor is not
    at the end of the buffer, the writer stores exactly 4 bytes - a zero
    byte, then the 24 accumulated bits, most significant byte first -,
    advances the cursor and the byte count by 4, resets the accumulator to
    0 pending bits and goes on with the bits of the value that are left.
    This holds for every value: the 24 accumulated bits are the pending
    bits moved to the top, OR-ed with the value shifted right by the number
    of bits left over; when the value fits in [nbits] bits they are the
    pending bits followed by the leading bits of the value. *)
Theorem dspmem_chunk_write_full_word (ch : dspmem_chunk) (nbits val : Z) :
  0 <= cachebits ch < 24 ->
  24 - cachebits ch <= nbits ->
  data ch <> max ch ->
  let w := completed_word ch nbits val in
  let ch' := {| data := data ch + 4; max := max ch; bytes := bytes ch + 4;
                cache := 0; cachebits := 0;
                mem := mem ch ++ [0; w / 2 ^ 16; (w / 2 ^ 8) mod 2 ^ 8;
                                  w mod 2 ^ 8] |} in
  0 <= w < 2 ^ 24 /\
  (0 <= val < 2 ^ nbits -> w = full_word ch nbits val) /\
  dspmem_chunk_write ch nbits val =
    if nbits - (24 - cachebits ch) =? 0 then Some (0, ch')
    else dspmem_chunk_write ch' (nbits - (24 - cachebits ch)) val.
Proof.
  intros Hcb Hn Hd w ch'.
  split; [apply completed_word_range; assumption|].
  split; [intros Hv; apply completed_word_full; assumption|].
  exact (write_word_step ch nbits val Hcb Hn Hd).
Qed.

Lemma dspmem_chunk_write_full_word_witness :
  let ch := {| data := 0; max := 8; bytes := 0; cache := 0x0032;
               cachebits := 16; mem := [] |} in
  (0 <= cachebits ch < 24) /\ (24 - cachebits ch <= 8) /\
  data ch <> max ch /\
  dspmem_chunk_write ch 8 0x110 =
  Some (0, {| data := 4; max := 8; bytes := 4; cache := 0; cachebits := 0;
              mem := [0; 0x00; 0x33; 0x10] |}).
Proof.
  intros ch.
  assert (H1 : 0 <= cachebits ch < 24) by (cbn; lia).
  assert (H2 : 24 - cachebits ch <= 8) by (cbn; lia).
  assert (H3 : data ch <> max ch) by (cbn; lia).
  refine (conj H1 (conj H2 (conj H3 _))).
  exact (proj2 (proj2 (dspmem_chunk_write_full_word ch 8 0x110 H1 H2 H3))).
Defined.

(** Counterexample to C1 as stated: a full accumulator makes the writer
    store 4 bytes and advance by 4, not 3. *)
Lemma write_emits_four_not_three :
  exists ch',
    dspmem_chunk_write (dspmem_chunk_create 8) 24 0x123456 = Some (0, ch') /\
    mem ch' = [0; 0x12; 0x34; 0x56] /\ data ch' = 4 /\ bytes ch' = 4 /\
    cachebits ch' = 0 /\
    List.length (mem ch') <> 3%nat /\ data ch' <> 3.
Proof.
  eexists. split; [vm_compute; reflexivity|].
  cbn [mem data bytes cachebits List.length].
  repeat split; discriminate.
Qed.

(** ** C2 *)

(** C2 (amended).  For every Composite input that parses and whose encoding
    fits the 1152-byte buffer, the byte count is
    4 (header word) + 8 x sectionCount + 4 x (sections with the duration
    flag) + 8 if EP metadata is present: every 24-bit word takes 4 bytes, a
    zero byte first.  The bytes are the EP words, the header word
    [0; 0; nsections; repeat] and, per section, [0; amplitude; index;
    repeat], [0; flags; delay high; delay low] and, with the duration flag,
    [0; 0; duration high; duration low]: each field exactly as parsed. *)
Theorem comp_str_to_bin_size (bank_init : nat -> string) (full_str : string)
    (comp : wt_type10_comp) :
  wt_type10_comp_parse bank_init full_str = Ok comp ->
  4 + 8 * comp_nsections comp + 4 * comp_durations comp
    + 8 * comp_ep_present comp <= WT_TYPE12_PWLE_SINGLE_PACKED_MAX ->
  wt_type10_comp_str_to_bin bank_init full_str =
    Ok (4 + 8 * comp_nsections comp + 4 * comp_durations comp
          + 8 * comp_ep_present comp,
        ep_bytes (comp_ep_metadata comp) ++
        [0; 0; comp_nsections comp; comp_repeat comp] ++
        flat_map section_bytes
          (firstn (Z.to_nat (comp_nsections comp)) (comp_sections comp))).
Proof.
  intros Hp Hcap. unfold wt_type10_comp_str_to_bin. rewrite Hp. cbn [bind].
  apply comp_to_buffer_layout; [eapply comp_parse_wf; eauto|exact Hcap].
Qed.

Lemma comp_str_to_bin_size_witness :
  exists comp,
    wt_type10_comp_parse no_bank "1.100, 500, ROM2.100.20" = Ok comp /\
    4 + 8 * comp_nsections comp + 4 * comp_durations comp
      + 8 * comp_ep_present comp <= WT_TYPE12_PWLE_SINGLE_PACKED_MAX /\
    wt_type10_comp_str_to_bin no_bank "1.100, 500, ROM2.100.20" =
      Ok (24, [0; 0; 2; 0;  0; 100; 1; 0;  0; 0; 1; 244;
               0; 100; 2; 0;  0; 192; 0; 0;  0; 0; 0; 80]).
Proof.
  eexists.
  assert (H1 : wt_type10_comp_parse no_bank "1.100, 500, ROM2.100.20" = Ok _)
    by (vm_compute; reflexivity).
  refine (conj H1 _).
  match type of H1 with _ = Ok ?c =>
    assert (H2 : 4 + 8 * comp_nsections c + 4 * comp_durations c
                 + 8 * comp_ep_present c <= WT_TYPE12_PWLE_SINGLE_PACKED_MAX)
      by (vm_compute; discriminate)
  end.
  refine (conj H2 _).
  exact (comp_str_to_bin_size no_bank "1.100, 500, ROM2.100.20" _ H1 H2).
Defined.

(** Counterexample to C2 as stated: one section without duration and
    without EP metadata is encoded in 12 bytes, not in 3 + 3 = 6. *)
Lemma comp_size_not_three_per_word :
  exists comp bs,
    wt_type10_comp_parse no_bank "1.100" = Ok comp /\
    comp_nsections comp = 1 /\ comp_durations comp = 0 /\
    comp_ep_present comp = 0 /\
    wt_type10_comp_str_to_bin no_bank "1.100" = Ok (12, bs) /\
    claimed_comp_size 1 0 0 = 6 /\ 12 <> claimed_comp_size 1 0 0.
Proof.
  eexists. eexists. split; [vm_compute; reflexivity|].
  split; [reflexivity|]. split; [reflexivity|]. split; [reflexivity|].
  split; [vm_compute; reflexivity|]. split; [reflexivity|discriminate].
Qed.

(** ** C3 *)

(** With two bytes left before [max], a 24-bit write stores four: the end
    test [data == max] only fires on a multiple of 4. *)
Lemma write_past_capacity (ch : dspmem_chunk) (val : Z) :
  aligned ch -> data ch + 2 = max ch ->
  exists ch',
    put 24 val ch = Ok ch' /\ data ch' = max ch + 2 /\
    mem ch' = mem ch ++ word_bytes (val mod 2 ^ 24).
Proof.
  intros [Hcb Hc] Hd. eexists.
  split; [apply put_word24; auto; lia|].
  cbn [stored data mem List.length word_bytes]. split; [lia|reflexivity].
Qed.

(** C3 (code defect).  A PWLE string of 190 sections with amplitude
    regulation is encoded in 2304 bytes by a writer created with the
    capacity WT_TYPE12_PWLE_BYTES_MAX = 2302: the last word is stored past
    the capacity and no error is returned. *)
Theorem pwle_write_overruns_capacity :
  exists bs,
    wt_type12_pwle_str_to_bin (zero_pwle 0) (long_pwle 190) = Ok (2304, bs) /\
    List.length bs = 2304%nat /\
    WT_TYPE12_PWLE_BYTES_MAX < 2304.
Proof.
  eexists. split; [vm_compute; reflexivity|].
  split; [vm_compute; reflexivity|reflexivity].
Qed.

(** The Composite encoder does stop at its capacity (1152 is a multiple of
    4), but drops the writer's -ENOSPC: a string of 150 sections, 1804 bytes
    of encoding, returns 1152 as if it had succeeded. *)
Lemma comp_truncates_silently :
  exists comp bs,
    wt_type10_comp_parse no_bank (long_comp 150) = Ok comp /\
    comp_nsections comp = 150 /\ comp_size comp = 1804 /\
    wt_type10_comp_str_to_bin no_bank (long_comp 150) = Ok (1152, bs) /\
    List.length bs = 1152%nat.
Proof.
  eexists. eexists. split; [vm_compute; reflexivity|].
  split; [reflexivity|]. split; [vm_compute; reflexivity|].
  split; [vm_compute; reflexivity|]. vm_compute; reflexivity.
Qed.

(** ** C4 *)

(** C4 (amended).  For every PWLE input that parses and has its WT key, the
    total length is: the sum of the section times (sections with the
    indefinite value left out) PLUS THE WAIT, multiplied by (repeat + 1),
    minus the wait, doubled (modulo 2^32); the indefinite bit is or-ed in
    exactly when some T key had the indefinite value, and the
    length-calculated bit always.  Its low 24 bits are bytes 12 to 15 of
    the output (a zero byte first). *)
Theorem pwle_total_length (pwle0 : wt_type12_pwle) (full_str : string)
    (p : wt_type12_pwle) :
  wt_type12_pwle_parse pwle0 full_str = Ok p ->
  has_wait (pwle_tokens full_str) = true ->
  wlength p =
    Z.lor
      (let w := u32 (((zsum (counted_times (pwle_tokens full_str)) + wait p)
                      * (pwle_repeat p + 1) - wait p) * 2) in
       if any_indef (pwle_tokens full_str) then Z.lor w WT_INDEFINITE else w)
      WT_LEN_CALCD /\
  exists n pre rest,
    List.length pre = 12%nat /\
    wt_type12_pwle_str_to_bin pwle0 full_str =
      Ok (n, pre ++ [0; (wlength p mod 2 ^ 24) / 2 ^ 16;
                     ((wlength p mod 2 ^ 24) / 2 ^ 8) mod 2 ^ 8;
                     (wlength p mod 2 ^ 24) mod 2 ^ 8] ++ rest).
Proof.
  intros Hp Hw. split.
  - exact (pwle_parse_wlength pwle0 full_str p Hp Hw).
  - unfold wt_type12_pwle_str_to_bin. rewrite Hp. cbn [bind].
    exact (pwle_write_length_word p).
Qed.

Lemma pwle_total_length_witness :
  exists p,
    wt_type12_pwle_parse (zero_pwle 0) scenario_b_relfreq = Ok p /\
    has_wait (pwle_tokens scenario_b_relfreq) = true /\
    wlength p =
      Z.lor (u32 (((zsum [0; 1600] + 1598) * (1 + 1) - 1598) * 2))
        WT_LEN_CALCD /\
    wlength p = 9596 + 0x800000.
Proof.
  eexists.
  assert (H1 : wt_type12_pwle_parse (zero_pwle 0) scenario_b_relfreq = Ok _)
    by (vm_compute; reflexivity).
  assert (H2 : has_wait (pwle_tokens scenario_b_relfreq) = true)
    by (vm_compute; reflexivity).
  refine (conj H1 (conj H2 (conj _ _))).
  - exact (proj1 (pwle_total_length (zero_pwle 0) scenario_b_relfreq _ H1 H2)).
  - reflexivity.
Defined.

(** Counterexample to C4 as stated: with the times 0 and 400 ms, repeat 1
    and a wait of 399.5 ms the field holds 9596 (and the tag bit); the
    formula without the wait in the sum gives 3204. *)
Lemma total_length_counts_the_wait :
  exists p,
    wt_type12_pwle_parse (zero_pwle 0) scenario_b_relfreq = Ok p /\
    counted_times (pwle_tokens scenario_b_relfreq) = [0; 1600] /\
    pwle_repeat p = 1 /\ wait p = 1598 /\
    any_indef (pwle_tokens scenario_b_relfreq) = false /\
    wlength p = 9596 + WT_LEN_CALCD /\
    claimed_length [0; 1600] 1 1598 false = 3204 + WT_LEN_CALCD /\
    wlength p <> claimed_length [0; 1600] 1 1598 false.
Proof.
  eexists. split; [vm_compute; reflexivity|].
  split; [vm_compute; reflexivity|].
  split; [reflexivity|]. split; [reflexivity|].
  split; [vm_compute; reflexivity|].
  split; [reflexivity|]. split; [reflexivity|].
  vm_compute. discriminate.
Qed.

(** ** C5 *)

(** A PWLE string without any R key never parses, whatever the
    uninitialised structure holds. *)
Lemma pwle_requires_relfreq (pwle0 : wt_type12_pwle) (full_str : string)
    (p : wt_type12_pwle) :
  wt_type12_pwle_parse pwle0 full_str = Ok p ->
  existsb is_relfreq (pwle_tokens full_str) = true.
Proof.
  unfold wt_type12_pwle_parse. fold (pwle_tokens full_str). intros H.
  destruct (pwle_loop _ _) as [st| |] eqn:E; cbn [bind] in H; try discriminate.
  apply pwle_loop_effect in E. destruct E as (_ & _ & _ & _ & Hr).
  apply pwle_finish_fields in H. destruct H as (_ & _ & Hv).
  destruct (existsb is_relfreq (pwle_tokens full_str)); [reflexivity|].
  rewrite (Hr eq_refl) in Hv. discriminate.
Qed.

(** C5 (amended).  Whatever the uninitialised structure holds, compiling the
    string of scenario B is rejected with -EINVAL (no R key is present, and
    the final completeness test asks for one); with R0:0 and R1:0 added
    before V0 and V1 the string parses into exactly 2 sections, repeat 1,
    wait raw 1598 and a vbtarget raw of 184549 for section 1. *)
Theorem scenario_b_needs_relfreq (pwle0 : wt_type12_pwle) :
  List.length (sections pwle0) = Z.to_nat WT_MAX_SECTIONS ->
  wt_type12_pwle_str_to_bin pwle0 scenario_b = Err (- EINVAL) /\
  exists p,
    wt_type12_pwle_parse pwle0 scenario_b_relfreq = Ok p /\
    nsections p = 2 /\ pwle_repeat p = 1 /\ wait p = 1598 /\
    vbtarget (nth 1 (sections p) zero_pwle_section) = 184549.
Proof.
  destruct pwle0 as [f w r wt n na svc ep secs]. cbn [sections].
  intros Hlen.
  rewrite (list_as_map zero_pwle_section secs), Hlen.
  generalize (fun i => nth i secs zero_pwle_section). intros g.
  split; [vm_compute; reflexivity|].
  eexists. split; [vm_compute; reflexivity|].
  repeat split.
Qed.

Lemma scenario_b_needs_relfreq_witness :
  List.length (sections (zero_pwle 7)) = Z.to_nat WT_MAX_SECTIONS /\
  wt_type12_pwle_str_to_bin (zero_pwle 7) scenario_b = Err (- EINVAL).
Proof.
  assert (H : List.length (sections (zero_pwle 7)) = Z.to_nat WT_MAX_SECTIONS)
    by reflexivity.
  refine (conj H _).
  exact (proj1 (scenario_b_needs_relfreq (zero_pwle 7) H)).
Defined.

(** Counterexample to C5 as stated: the string does not compile. *)
Lemma scenario_b_rejected :
  wt_type12_pwle_str_to_bin (zero_pwle 0) scenario_b = Err (- EINVAL) /\
  existsb is_relfreq (pwle_tokens scenario_b) = false.
Proof. split; vm_compute; reflexivity. Qed.

(** ** C6 *)

(** C6 (amended).  The dispatcher routes to the PWLE compiler exactly when
    the first character of the input is 'S' - no white space is skipped -
    and to the Composite compiler otherwise. *)
Theorem get_owt_data_first_char (u : indeterminate) (full_str : string) :
  get_owt_data u full_str =
    (if Ascii.eqb (char_at 0 (cstr full_str)) "S"
     then wt_type12_pwle_str_to_bin (pwle_init u) (cstr full_str)
     else wt_type10_comp_str_to_bin (bank_init u) (cstr full_str)) /\
  owt_select full_str =
    (if Ascii.eqb (char_at 0 full_str) "S" then PWLE else Composite).
Proof.
  unfold get_owt_data, owt_select.
  destruct (Ascii.eqb (char_at 0 (cstr full_str)) "S"); split; reflexivity.
Qed.

(** Counterexample to C6 as stated: after a leading blank the first
    character that is not white space is 'S', and the input goes to the
    Composite compiler (which accepts it; the PWLE compiler rejects it). *)
Lemma leading_space_routes_to_composite :
  first_nonspace " S1.100:2" = "S"%char /\
  owt_select " S1.100:2" = Composite /\
  get_owt_data (mk_indeterminate no_bank (zero_pwle 0)) " S1.100:2" =
    Ok (12, [0; 0; 1; 0;  0; 100; 1; 0;  0; 0; 0; 0]) /\
  wt_type12_pwle_str_to_bin (zero_pwle 0) " S1.100:2" = Err (- EINVAL).
Proof. repeat split; vm_compute; reflexivity. Qed.

(** ** C7 *)

(** C7 (amended).  A repeat count written in decimal digits is accepted
    exactly when it is not 0, as long as its token is read as a loop
    marker; no upper bound is tested.  For the inner-loop stop "n!!" (an
    inner loop being open) a count of 0 is rejected with -EINVAL and any
    other count n is accepted, the section's repeat being
    min(n, ULONG_MAX) modulo 256.  For the finite outer loop "n!" (no
    outer loop given before) of fewer than 20 digits, 0 is rejected with
    -EINVAL and any other n is accepted, the repeat being n modulo 256.
    With 20 digits or more the "!" lies beyond the 20 characters that are
    searched, and the token "n!" is a delay, not a loop marker: it is
    rejected with -EINVAL when n is 0 or above 10000, and otherwise
    (leading zeros) n becomes a delay and the repeat stays as it was. *)
Theorem loop_count_accepted_iff_nonzero bank0 comp ds :
  comp_wf comp -> ds <> [] -> Forall is_digit ds ->
  let n := dec_value ds in
  (* inner loop stop "n!!", while an inner loop is open *)
  (inner_loop comp = true ->
   wt_type10_comp_specifier_get (String.append (dec_string ds) "!!")
     = COMP_SPEC_INNER_LOOP_STOP /\
   (n = 0 ->
    wt_type10_comp_decode bank0 comp COMP_SPEC_INNER_LOOP_STOP
      (String.append (dec_string ds) "!!") = Err (- EINVAL)) /\
   (n <> 0 ->
    exists comp',
      wt_type10_comp_decode bank0 comp COMP_SPEC_INNER_LOOP_STOP
        (String.append (dec_string ds) "!!") = Ok comp' /\
      sec_repeat (nth (Z.to_nat (comp_nsections comp)) (comp_sections comp')
                    zero_section)
      = (Z.min n ULONG_MAX) mod 256)) /\
  (* finite outer loop "n!" of fewer than 20 digits, when no outer loop was
     given before *)
  (comp_repeat comp = 0 -> (List.length ds < 20)%nat ->
   wt_type10_comp_specifier_get (String.append (dec_string ds) "!")
     = COMP_SPEC_OUTER_LOOP_REPETITION /\
   (n = 0 ->
    wt_type10_comp_decode bank0 comp COMP_SPEC_OUTER_LOOP_REPETITION
      (String.append (dec_string ds) "!") = Err (- EINVAL)) /\
   (n <> 0 ->
    exists comp',
      wt_type10_comp_decode bank0 comp COMP_SPEC_OUTER_LOOP_REPETITION
        (String.append (dec_string ds) "!") = Ok comp' /\
      comp_repeat comp' = n mod 256)) /\
  (* "n!" of 20 digits or more: the token is a delay, not a loop marker *)
  ((20 <= List.length ds)%nat ->
   wt_type10_comp_specifier_get (String.append (dec_string ds) "!")
     = COMP_SPEC_DELAY /\
   (n = 0 \/ WT_MAX_DELAY < n ->
    wt_type10_comp_decode bank0 comp COMP_SPEC_DELAY
      (String.append (dec_string ds) "!") = Err (- EINVAL)) /\
   (1 <= n <= WT_MAX_DELAY -> comp_nsections comp < 255 ->
    exists comp',
      wt_type10_comp_decode bank0 comp COMP_SPEC_DELAY
        (String.append (dec_string ds) "!") = Ok comp' /\
      comp_repeat comp' = comp_repeat comp /\
      delay (nth (Z.to_nat (comp_nsections comp')) (comp_sections comp')
               zero_section) = n)).
Proof.
  intros Hwf Hne Hds n.
  pose proof (dec_value_bound ds Hds) as Hb. fold n in Hb.
  destruct Hwf as (Hn & Hr & Hl & Hs & Ht).
  assert (Hmask : forall v, 0 <= v -> u8 (Z.land 255 v) = v mod 256).
  { intros v Hv. rewrite Z.land_comm. change 255 with (Z.ones 8).
    rewrite Z.land_ones by lia. unfold u8. apply Z.mod_mod. lia. }
  split; [|split].
  - intros Hin. split; [apply specifier_inner_stop; assumption|].
    unfold wt_type10_comp_decode. rewrite Hin. cbn [negb].
    change "!!"%string with (String "!" (String "!" EmptyString)).
    rewrite strtoul_count by assumption. fold n.
    split.
    + intros ->. reflexivity.
    + intros Hnz.
      destruct (Z.eqb_spec (Z.min n ULONG_MAX) 0) as [E|_];
        [unfold ULONG_MAX in E; lia|].
      unfold section_at, elem_at.
      change (2 ^ 8) with 256 in Hn. unfold WT_MAX_SECTIONS.
      destruct (Z.leb_spec 0 (comp_nsections comp)); [|lia].
      destruct (Z.ltb_spec (comp_nsections comp) 256); [|lia].
      cbn [andb bind]. eexists. split; [reflexivity|].
      cbn [comp_sections set_section]. unfold elem_set.
      rewrite nth_list_upd by (rewrite Hl; unfold WT_MAX_SECTIONS; lia).
      cbn [sec_repeat]. apply Hmask. unfold ULONG_MAX. lia.
  - intros Hrep Hlen.
    split; [apply specifier_outer_repetition; assumption|].
    unfold wt_type10_comp_decode. rewrite Hrep. cbn [Z.eqb negb].
    change "!"%string with (String "!" EmptyString).
    rewrite strtoul_count by assumption. fold n.
    assert (Hsmall : n < ULONG_MAX).
    { apply Z.lt_le_trans with (10 ^ 19); [|unfold ULONG_MAX; cbv; congruence].
      apply Z.lt_le_trans with (10 ^ Z.of_nat (List.length ds)); [lia|].
      apply Z.pow_le_mono_r; lia. }
    rewrite Z.min_l by lia.
    split.
    + intros ->. reflexivity.
    + intros Hnz. destruct (Z.eqb_spec n 0) as [E|_]; [contradiction|].
      eexists. split; [reflexivity|]. cbn [comp_repeat]. apply Hmask. lia.
  - intros Hlen.
    split; [apply specifier_long_count; assumption|].
    unfold wt_type10_comp_decode.
    change "!"%string with (String "!" EmptyString).
    rewrite (strtoul_dec ds (String "!" EmptyString) Hne Hds
               (no_digits_bang EmptyString)).
    fold n. set (k := comp_nsections comp) in *.
    change (2 ^ 8) with 256 in Hn.
    unfold section_at, elem_at, WT_MAX_SECTIONS.
    destruct (Z.leb_spec 0 k); [|lia].
    destruct (Z.ltb_spec k 256); [|lia].
    cbn [andb bind].
    set (s := nth (Z.to_nat k) (comp_sections comp) zero_section) in *.
    unfold WT_MAX_DELAY.
    assert (HU : ULONG_MAX = 18446744073709551615) by reflexivity.
    split.
    + intros [E|E].
      * rewrite E. reflexivity.
      * destruct (Z.eqb_spec (Z.min n ULONG_MAX) 0) as [_|_];
          [reflexivity|].
        destruct (Z.ltb_spec 10000 (Z.min n ULONG_MAX)) as [_|X];
          [reflexivity|lia].
    + intros Hr' H255. rewrite Z.min_l by lia.
      destruct (Z.eqb_spec n 0) as [X|_]; [lia|].
      destruct (Z.ltb_spec 10000 n) as [X|_]; [lia|].
      set (k' := if negb (delay s =? 0) then k + 1 else k).
      assert (Hk' : 0 <= k' < 256).
      { subst k'. destruct (delay s =? 0); cbn [negb]; lia. }
      destruct (Z.leb_spec 0 k'); [|lia].
      destruct (Z.ltb_spec k' 256); [|lia].
      cbn [andb bind]. eexists. split; [reflexivity|].
      cbn [set_section comp_nsections comp_sections comp_repeat].
      split; [reflexivity|].
      assert (En : (if negb (delay s =? 0) then u8 (k + 1) else k) = k').
      { subst k'. destruct (delay s =? 0); cbn [negb]; [reflexivity|].
        unfold u8. apply Z.mod_small. lia. }
      rewrite En. unfold elem_set.
      rewrite nth_list_upd by (rewrite Hl; unfold WT_MAX_SECTIONS; lia).
      cbn [delay].
      rewrite Z.land_comm. change 65535 with (Z.ones 16).
      rewrite Z.land_ones by lia. unfold u16.
      rewrite Z.mod_mod by lia. apply Z.mod_small. lia.
Qed.

Lemma loop_count_accepted_iff_nonzero_witness :
  comp_wf zero_comp /\ [3; 3] <> [] /\ Forall is_digit [3; 3] /\
  exists comp',
    wt_type10_comp_decode EmptyString zero_comp
      COMP_SPEC_OUTER_LOOP_REPETITION "33!" = Ok comp' /\
    comp_repeat comp' = 33.
Proof.
  assert (H1 : comp_wf zero_comp) by exact zero_comp_wf.
  assert (H2 : [3; 3] <> []) by discriminate.
  assert (H3 : Forall is_digit [3; 3])
    by (repeat constructor; unfold is_digit; lia).
  refine (conj H1 (conj H2 (conj H3 _))).
  destruct (loop_count_accepted_iff_nonzero EmptyString zero_comp [3; 3]
              H1 H2 H3) as (_ & Hout & _).
  destruct (Hout eq_refl ltac:(cbn; lia)) as (_ & _ & Hn).
  exact (Hn ltac:(discriminate)).
Defined.

(** Counterexample to C7 as stated: the counts 33 and 300 are accepted, for
    the inner loop and for the outer loop; 300 is stored as 44. *)
Lemma loop_count_above_32_accepted :
  wt_type10_comp_str_to_bin no_bank "!!, 1.100, 33!!" =
    Ok (12, [0; 0; 1; 0;  0; 100; 1; 33;  0; 0; 0; 0]) /\
  wt_type10_comp_str_to_bin no_bank "1.100, 33!" =
    Ok (12, [0; 0; 1; 33;  0; 100; 1; 0;  0; 0; 0; 0]) /\
  wt_type10_comp_str_to_bin no_bank "1.100, 300!" =
    Ok (12, [0; 0; 1; 44;  0; 100; 1; 0;  0; 0; 0; 0]).
Proof. repeat split; vm_compute; reflexivity. Qed.

(** A count of 20 digits is not read as a loop count: the compiler rejects
    10000000000000000000! and takes 00000000000000000005! for a delay of
    5. *)
Lemma outer_loop_count_of_20_digits :
  wt_type10_comp_str_to_bin no_bank "1.100, 10000000000000000000!" =
    Err (- EINVAL) /\
  wt_type10_comp_str_to_bin no_bank "1.100, 00000000000000000005!" =
    Ok (12, [0; 0; 1; 0;  0; 100; 1; 0;  0; 0; 0; 5]).
Proof. split; vm_compute; reflexivity. Qed.

(** ** C8 *)

(** A bank prefix that is present is what decides: an unrecognised one
    gives the RAM bank, whatever the array held. *)
Lemma unrecognised_bank_is_ram (bank0 : string) :
  wt_type10_comp_waveform_get bank0 "XYZ2.100" (Ok zero_section) =
    Ok {| sec_repeat := 0; sec_flags := 0;
          wvfrm := {| index := 2; amplitude := 100; duration := 0 |};
          delay := 0 |}.
Proof. vm_compute. reflexivity. Qed.

Ltac bank_cases bank0 :=
  let E0 := fresh "E" in
  let E1 := fresh "E" in
  let E2 := fresh "E" in
  destruct (strncmp_eq bank0 "RAM" 3) eqn:E0;
  destruct (strncmp_eq bank0 "ROM" 3) eqn:E1;
  destruct (strncmp_eq bank0 "OWT" 3) eqn:E2;
  cbn [negb andb]; rewrite ?E0, ?E1, ?E2; reflexivity.

(** C8 (the code against the claim).  With the bank prefix absent, the
    array [bank] is never written before it is compared: the flags of the
    section are decided by what the array holds on entry.  It gets the ROM
    bit when that starts with ROM and the OWT bit when that starts with
    OWT. *)
Theorem absent_bank_reads_uninitialised (bank0 str : string)
    (s s' : wt_type10_comp_section) :
  fst (alpha_prefix str) = false ->
  wt_type10_comp_waveform_get bank0 str (Ok s) = Ok s' ->
  sec_flags s' =
    (if strncmp_eq bank0 "ROM" 3 then u8 (Z.lor (sec_flags s) 0x40)
     else if strncmp_eq bank0 "OWT" 3 then u8 (Z.lor (sec_flags s) 0x20)
     else sec_flags s).
Proof.
  unfold wt_type10_comp_waveform_get. intros Ha H.
  destruct (strlen str <? 3); [discriminate|].
  destruct (alpha_prefix str) as [b i]. cbn [fst] in Ha. subst b.
  destruct (sscanf_uuu _ _ _ _ _) as [ret [[ix am] du]].
  destruct (ret <? 2); cbn [bind] in H; [discriminate|].
  destruct ((am =? 0) || (100 <? am)); [discriminate|].
  destruct (negb (du =? 0) && negb (du =? WT_INDEF_TIME_VAL)).
  - destruct (WT_MAX_TIME_VAL <? du); cbn [bind] in H; [discriminate|].
    apply Ok_inj in H. subst s'. cbn [sec_flags]. bank_cases bank0.
  - cbn [bind] in H.
    apply Ok_inj in H. subst s'. cbn [sec_flags]. bank_cases bank0.
Qed.

Lemma absent_bank_reads_uninitialised_witness :
  exists s',
    fst (alpha_prefix "1.100") = false /\
    wt_type10_comp_waveform_get "ROM" "1.100" (Ok zero_section) = Ok s' /\
    sec_flags s' = 0x40.
Proof.
  eexists.
  assert (H1 : fst (alpha_prefix "1.100") = false) by reflexivity.
  assert (H2 : wt_type10_comp_waveform_get "ROM" "1.100" (Ok zero_section)
               = Ok _) by (vm_compute; reflexivity).
  refine (conj H1 (conj H2 _)).
  exact (absent_bank_reads_uninitialised "ROM" "1.100" zero_section _ H1 H2).
Defined.

(** The same string, with and without the bytes that the preceding call
    left in the array: the token "1.100" has no prefix, and its section
    carries the ROM bit (0x40) in the first case. *)
Lemma stale_bank_marks_rom :
  wt_type10_comp_str_to_bin stale_rom "ROM2.100, 1.100" =
    Ok (20, [0; 0; 2; 0;  0; 100; 2; 0;  0; 64; 0; 0;
             0; 100; 1; 0;  0; 64; 0; 0]) /\
  wt_type10_comp_str_to_bin no_bank "ROM2.100, 1.100" =
    Ok (20, [0; 0; 2; 0;  0; 100; 2; 0;  0; 64; 0; 0;
             0; 100; 1; 0;  0; 0; 0; 0]).
Proof. split; vm_compute; reflexivity. Qed.

(** ** C9 *)

(** C9 (the code against the claim).  [get_owt_data] compiles a PWLE string
    into a structure that has no initialiser, and the third header word
    adds its [nampsections]: two runs on the same string that find
    different bytes there return the same count and different buffers.
    (The Composite structure is zero-initialised.) *)
Theorem pwle_output_depends_on_uninitialised :
  exists n bs1 bs2,
    get_owt_data (mk_indeterminate no_bank (zero_pwle 0)) scenario_b_relfreq
      = Ok (n, bs1) /\
    get_owt_data (mk_indeterminate no_bank (zero_pwle 1)) scenario_b_relfreq
      = Ok (n, bs2) /\
    nth 11 bs1 0 = 8 /\ nth 11 bs2 0 = 9 /\ bs1 <> bs2.
Proof.
  eexists. eexists. eexists.
  split; [vm_compute; reflexivity|].
  split; [vm_compute; reflexivity|].
  split; [reflexivity|]. split; [reflexivity|]. discriminate.
Qed.

(** ** C10 *)

(** C10 (the code against the claim).  The structure holds the braking
    time k * 8, but the 24 bits that the encoder emits for it can differ.
    The field starts 4 bits into a word, so its last 4 bits are still
    pending when the EP block is written; the EP length is never assigned
    by the parser (no value of its key is accepted) and holds what the
    structure, which has no initialiser, held on entry; written on 8 bits,
    its bits 16 to 19 are OR-ed over the pending bits of the braking time.
    For K:5 the emitted field reads 47 instead of 40 when the stale length
    is 0xF0000: on the example of main.c when the structure holds the EP
    id by chance, and on an input that sets the EP id with its ET key. *)
Theorem pwle_braking_time_takes_stale_bits :
  (* the example of main.c, the structure holding an EP id by chance *)
  (exists p n1 bs1 n2 bs2,
     wt_type12_pwle_parse (stale_ep 2 0xF0000) pwle_svc_example = Ok p /\
     braking_time (svc_metadata p) = 5 * 8 /\
     braking_time_offset p = 268 /\
     get_owt_data (mk_indeterminate no_bank (zero_pwle 0)) pwle_svc_example
       = Ok (n1, bs1) /\
     get_owt_data (mk_indeterminate no_bank (stale_ep 2 0xF0000))
       pwle_svc_example = Ok (n2, bs2) /\
     bits_at bs1 268 24 = 5 * 8 /\ bits_at bs2 268 24 = 47) /\
  (* an input with an ET key *)
  (exists p n bs1 bs2,
     wt_type12_pwle_parse (stale_ep 0 0xF0000) pwle_svc_ep_example = Ok p /\
     braking_time (svc_metadata p) = 5 * 8 /\
     braking_time_offset p = 196 /\
     get_owt_data (mk_indeterminate no_bank (zero_pwle 0))
       pwle_svc_ep_example = Ok (n, bs1) /\
     get_owt_data (mk_indeterminate no_bank (stale_ep 0 0xF0000))
       pwle_svc_ep_example = Ok (n, bs2) /\
     bits_at bs1 196 24 = 5 * 8 /\ bits_at bs2 196 24 = 47).
Proof.
  split.
  - eexists. eexists. eexists. eexists. eexists.
    split; [vm_compute; reflexivity|].
    split; [reflexivity|]. split; [vm_compute; reflexivity|].
    split; [vm_compute; reflexivity|].
    split; [vm_compute; reflexivity|].
    split; vm_compute; reflexivity.
  - eexists. eexists. eexists. eexists.
    split; [vm_compute; reflexivity|].
    split; [reflexivity|]. split; [vm_compute; reflexivity|].
    split; [vm_compute; reflexivity|].
    split; [vm_compute; reflexivity|].
    split; vm_compute; reflexivity.
Qed.

(** * Further properties of the code *)

(** ** String helpers *)

(** X1 ([strnchr]).  For a character [c] other than NUL, [strnchr(s, count,
    c)] finds [c] exactly when [c] is one of the first [count] characters of
    [s]: an occurrence at position [count] or later is not seen. *)
Theorem strnchr_within_count (s : string) (count : nat) (c : ascii) :
  c <> zero ->
  (strnchr s count c = true <->
   exists k, (k < count)%nat /\ String.get k s = Some c).
Proof.
  intros Hc. revert count.
  induction s as [|d s IH]; intros count.
  - split.
    + destruct count as [|n]; cbn [strnchr]; [discriminate|].
      intros H. apply Ascii.eqb_eq in H. congruence.
    + intros (k & _ & H). destruct k; discriminate H.
  - destruct count as [|n]; cbn [strnchr].
    + split; [discriminate|]. intros (k & Hk & _). lia.
    + split.
      * intros H. apply orb_true_iff in H. destruct H as [H|H].
        -- apply Ascii.eqb_eq in H. subst d. exists 0%nat.
           split; [lia|reflexivity].
        -- apply IH in H. destruct H as (k & Hk & G).
           exists (S k). split; [lia|exact G].
      * intros (k & Hk & G). apply orb_true_iff.
        destruct k as [|k]; cbn [String.get] in G.
        -- left. apply Ascii.eqb_eq. congruence.
        -- right. apply IH. exists k. split; [lia|exact G].
Qed.

Lemma strnchr_within_count_witness :
  "."%char <> zero /\
  (strnchr "ROM2.100" 19 "." = true <->
   exists k, (k < 19)%nat /\ String.get k "ROM2.100" = Some "."%char).
Proof.
  assert (H1 : "."%char <> zero) by discriminate.
  exact (conj H1 (strnchr_within_count "ROM2.100" 19 "." H1)).
Defined.

(** ** The bitstream writer *)

Lemma emit_cache_shape (n : nat) :
  forall ch,
    data (emit_cache n ch) = data ch + Z.of_nat n /\
    bytes (emit_cache n ch) = bytes ch /\
    max (emit_cache n ch) = max ch /\
    List.length (mem (emit_cache n ch)) = (List.length (mem ch) + n)%nat.
Proof.
  induction n as [|n IH]; intros ch; cbn [emit_cache].
  - repeat split; lia.
  - destruct (IH {| data := data ch + 1; max := max ch; bytes := bytes ch;
                    cache := u32 (Z.shiftl (cache ch) 8);
                    cachebits := cachebits ch;
                    mem := mem ch ++
                      [Z.shiftr (Z.land (cache ch) 0xFF000000) 24] |})
      as (Hd & Hb & Hm & Hl).
    cbn [data bytes max mem] in *. rewrite Hd, Hb, Hm, Hl.
    rewrite length_app. cbn [List.length]. repeat split; lia.
Qed.

Lemma runs_out_false_small d : runs_out d 0 = false.
Proof.
  unfold runs_out.
  destruct (0 <=? d) eqn:E1; [|reflexivity].
  destruct (d mod 4 =? 0) eqn:E2; [|reflexivity].
  cbn [andb]. apply Z.ltb_ge. apply Z.leb_le in E1.
  apply Z.div_pos; lia.
Qed.

Lemma runs_out_spec d w :
  runs_out d w = true <-> (0 <= d /\ d mod 4 = 0 /\ d / 4 < w).
Proof.
  unfold runs_out. rewrite !andb_true_iff, Z.leb_le, Z.eqb_eq, Z.ltb_lt.
  tauto.
Qed.

Lemma write_rec_count (f : nat) :
  forall ch nbits val r ch',
    dspmem_chunk_write_rec f ch nbits val = Some (r, ch') ->
    0 <= cachebits ch < 24 -> 0 <= nbits ->
    let w := (cachebits ch + nbits) / 24 in
    let d := max ch - data ch in
    max ch' = max ch /\
    if runs_out d w
    then r = - ENOSPC /\ data ch' = max ch /\ cachebits ch' = 24 /\
         bytes ch' = bytes ch + d /\
         Z.of_nat (List.length (mem ch')) = Z.of_nat (List.length (mem ch)) + d
    else r = 0 /\ data ch' = data ch + 4 * w /\
         cachebits ch' = (cachebits ch + nbits) mod 24 /\
         bytes ch' = bytes ch + 4 * w /\
         Z.of_nat (List.length (mem ch')) =
           Z.of_nat (List.length (mem ch)) + 4 * w.
Proof.
  induction f as [|f IH]; intros ch nbits val r ch' H Hcb Hn w d;
    [discriminate|].
  rewrite write_rec_S in H. cbv zeta in H. cbn [cachebits data max bytes mem] in H.
  destruct (Z.lt_ge_cases (cachebits ch + nbits) 24) as [Hlt|Hge];
    [rewrite Z.min_r in H by lia|rewrite Z.min_l in H by lia]; cycle 1.
  - (* the word is completed *)
    replace (cachebits ch + (24 - cachebits ch)) with 24 in H by lia.
    change (24 =? 24) with true in H. cbv iota in H.
    unfold dspmem_chunk_end in H. cbn [data max] in H.
    assert (Hw : 1 <= w) by (subst w; apply Z.div_le_lower_bound; lia).
    destruct (data ch =? max ch) eqn:Ee.
    + apply Z.eqb_eq in Ee. inversion H; subst r ch'; clear H.
      cbn [max data cachebits bytes mem]. split; [reflexivity|].
      assert (Hr : runs_out d w = true).
      { apply runs_out_spec. subst d. rewrite Ee, Z.sub_diag.
        change (0 mod 4) with 0. change (0 / 4) with 0. lia. }
      rewrite Hr. subst d. repeat split; lia.
    + apply Z.eqb_neq in Ee.
      match type of H with context [emit_cache sizeof_cache ?c] =>
        destruct (emit_cache_shape sizeof_cache c) as (Ed & Eb & Em & El);
        generalize dependent (emit_cache sizeof_cache c); intros e H Ed Eb Em El
      end.
      cbn [data bytes max mem] in Ed, Eb, Em, El.
      change (Z.of_nat sizeof_cache) with 4 in *.
      change sizeof_cache with 4%nat in El.
      destruct (nbits - (24 - cachebits ch) =? 0) eqn:Ez.
      * apply Z.eqb_eq in Ez. inversion H; subst r ch'; clear H.
        cbn [max data cachebits bytes mem].
        assert (Hw1 : w = 1).
        { subst w. replace (cachebits ch + nbits) with 24 by lia. reflexivity. }
        assert (Hr : runs_out d w = false).
        { destruct (runs_out d w) eqn:Er; [|reflexivity].
          apply runs_out_spec in Er. subst d.
          destruct Er as (E1 & E2 & E3).
          assert (max ch - data ch = 0) by (Z.div_mod_to_equations; lia). lia. }
        rewrite Hr. split; [exact Em|]. rewrite Hw1.
        replace (cachebits ch + nbits) with 24 by lia.
        change (24 mod 24) with 0. rewrite El. repeat split; lia.
      * apply Z.eqb_neq in Ez.
        apply IH in H; cbn [cachebits data max bytes mem] in *; try lia.
        destruct H as (Hm & H). split; [congruence|].
        rewrite Em, Ed, Eb, El in H.
        replace (0 + (nbits - (24 - cachebits ch)))
          with (cachebits ch + nbits - 24) in H by lia.
        assert (Ew : (cachebits ch + nbits - 24) / 24 = w - 1).
        { subst w. Z.div_mod_to_equations. lia. }
        assert (Emod : (cachebits ch + nbits - 24) mod 24
                       = (cachebits ch + nbits) mod 24).
        { Z.div_mod_to_equations. lia. }
        rewrite Ew, Emod in H.
        assert (Er : runs_out (max ch - (data ch + 4)) (w - 1) = runs_out d w).
        { subst d. apply eq_true_iff_eq. rewrite !runs_out_spec.
          split; intros (E1 & E2 & E3).
          - repeat split; Z.div_mod_to_equations; lia.
          - assert (max ch - data ch <> 0) by lia.
            repeat split; Z.div_mod_to_equations; lia. }
        rewrite Er in H. destruct (runs_out d w).
        -- destruct H as (H1 & H2 & H3 & H4 & H5).
           subst d. repeat split; lia.
        -- destruct H as (H1 & H2 & H3 & H4 & H5). repeat split; lia.
  - (* the bits fit into the cache *)
    assert (Hz : (cachebits ch + nbits =? 24) = false) by (apply Z.eqb_neq; lia).
    rewrite Hz, Z.sub_diag in H. change (0 =? 0) with true in H. cbv iota in H.
    inversion H; subst r ch'; clear H. cbn [max data cachebits bytes mem].
    split; [reflexivity|].
    assert (Hw0 : w = 0) by (subst w; apply Z.div_small; lia).
    rewrite Hw0, runs_out_false_small.
    rewrite Z.mod_small by lia. repeat split; lia.
Qed.

Lemma write_stuck (ch : dspmem_chunk) (nbits val : Z) :
  cachebits ch = 24 -> data ch = max ch -> 0 <= nbits ->
  exists ch',
    dspmem_chunk_write ch nbits val = Some (- ENOSPC, ch') /\
    cachebits ch' = 24 /\ data ch' = data ch /\ max ch' = max ch /\
    bytes ch' = bytes ch /\ mem ch' = mem ch.
Proof.
  intros Hcb Hd Hn. unfold dspmem_chunk_write, write_fuel.
  rewrite write_rec_S. cbv zeta. cbn [cachebits data max bytes mem].
  rewrite Hcb. change (24 - 24) with 0. rewrite Z.min_l by lia.
  change (24 + 0 =? 24) with true. cbv iota.
  unfold dspmem_chunk_end. cbn [data max]. rewrite Hd, Z.eqb_refl.
  eexists. split; [reflexivity|]. cbn [cachebits data max bytes mem].
  repeat split.
Qed.

Lemma put_count (ch ch' : dspmem_chunk) (nbits val : Z) :
  put nbits val ch = Ok ch' ->
  0 <= cachebits ch < 24 -> 0 <= nbits ->
  let w := (cachebits ch + nbits) / 24 in
  let d := max ch - data ch in
  max ch' = max ch /\
  if runs_out d w
  then data ch' = max ch /\ cachebits ch' = 24 /\ bytes ch' = bytes ch + d /\
       Z.of_nat (List.length (mem ch')) = Z.of_nat (List.length (mem ch)) + d
  else data ch' = data ch + 4 * w /\
       cachebits ch' = (cachebits ch + nbits) mod 24 /\
       bytes ch' = bytes ch + 4 * w /\
       Z.of_nat (List.length (mem ch')) =
         Z.of_nat (List.length (mem ch)) + 4 * w.
Proof.
  intros H Hcb Hn w d. unfold put, dspmem_chunk_write in H.
  destruct (dspmem_chunk_write_rec _ _ _ _) as [[r c]|] eqn:E; [|discriminate].
  apply Ok_inj in H. subst c.
  destruct (write_rec_count _ _ _ _ _ _ E Hcb Hn) as (Hm & Hc).
  split; [exact Hm|]. fold w d in Hc. destruct (runs_out d w); tauto.
Qed.

Lemma put_all_stuck (fs : list (Z * Z)) :
  Forall (fun f => 0 <= fst f) fs ->
  forall ch,
    cachebits ch = 24 -> data ch = max ch ->
    exists ch',
      put_all fs ch = Ok ch' /\
      cachebits ch' = 24 /\ data ch' = data ch /\ max ch' = max ch /\
      bytes ch' = bytes ch /\ mem ch' = mem ch.
Proof.
  induction 1 as [|[n v] fs Hn _ IH]; intros ch Hcb Hd.
  - exists ch. repeat split; assumption.
  - cbn [put_all fst] in *. unfold put.
    destruct (write_stuck ch n v Hcb Hd Hn) as (c & E & H1 & H2 & H3 & H4 & H5).
    rewrite E. cbn [bind].
    destruct (IH c H1 ltac:(congruence)) as (c' & E' & G1 & G2 & G3 & G4 & G5).
    exists c'. split; [exact E'|]. repeat split; congruence.
Qed.

Lemma field_bits_cons (n v : Z) (fs : list (Z * Z)) :
  field_bits ((n, v) :: fs) = n + field_bits fs.
Proof. reflexivity. Qed.

Lemma field_bits_app (f1 f2 : list (Z * Z)) :
  field_bits (f1 ++ f2) = field_bits f1 + field_bits f2.
Proof.
  induction f1 as [|[n v] f1 IH]; [reflexivity|].
  cbn [app]. rewrite !field_bits_cons, IH. lia.
Qed.

Lemma field_bits_nonneg (fs : list (Z * Z)) :
  Forall (fun f => 0 <= fst f) fs -> 0 <= field_bits fs.
Proof.
  induction 1 as [|[n v] fs Hn _ IH]; [unfold field_bits; cbn; lia|].
  rewrite field_bits_cons. cbn [fst] in Hn. lia.
Qed.

Lemma put_all_count (fs : list (Z * Z)) :
  Forall (fun f => 0 <= fst f) fs ->
  forall ch ch',
    put_all fs ch = Ok ch' ->
    0 <= cachebits ch < 24 ->
    let w := (cachebits ch + field_bits fs) / 24 in
    let d := max ch - data ch in
    max ch' = max ch /\
    if runs_out d w
    then data ch' = max ch /\ cachebits ch' = 24 /\ bytes ch' = bytes ch + d /\
         Z.of_nat (List.length (mem ch')) = Z.of_nat (List.length (mem ch)) + d
    else data ch' = data ch + 4 * w /\
         cachebits ch' = (cachebits ch + field_bits fs) mod 24 /\
         bytes ch' = bytes ch + 4 * w /\
         Z.of_nat (List.length (mem ch')) =
           Z.of_nat (List.length (mem ch)) + 4 * w.
Proof.
  induction 1 as [|[n v] fs Hn Hfs IH]; intros ch ch' H Hcb w d.
  - cbn [put_all] in H. apply Ok_inj in H. subst ch'.
    unfold field_bits in *. cbn [map zsum fold_right] in *.
    subst w. rewrite Z.add_0_r, Z.div_small, runs_out_false_small by lia.
    rewrite Z.mod_small by lia. repeat split; lia.
  - cbn [put_all fst] in *.
    destruct (put n v ch) as [c| |] eqn:E; cbn [bind] in H; try discriminate.
    destruct (put_count _ _ _ _ E Hcb Hn) as (Hm & Hc).
    assert (Hb : field_bits ((n, v) :: fs) = n + field_bits fs) by reflexivity.
    pose proof (field_bits_nonneg fs Hfs) as Hfb.
    subst w. rewrite Hb. fold d in Hc.
    set (w1 := (cachebits ch + n) / 24) in *.
    set (w := (cachebits ch + (n + field_bits fs)) / 24).
    destruct (runs_out d w1) eqn:R1.
    + (* stuck at this field *)
      destruct Hc as (H1 & H2 & H3 & H4).
      destruct (put_all_stuck fs Hfs c H2 ltac:(congruence))
        as (c' & E' & G1 & G2 & G3 & G4 & G5).
      rewrite E' in H. apply Ok_inj in H. subst c'.
      split; [congruence|].
      assert (R : runs_out d w = true).
      { apply runs_out_spec. apply runs_out_spec in R1.
        destruct R1 as (A1 & A2 & A3). repeat split; try assumption.
        assert (w1 <= w); [|lia].
        subst w1 w. apply Z.div_le_mono; lia. }
      rewrite R. rewrite G5. repeat split; congruence.
    + destruct Hc as (H1 & H2 & H3 & H4).
      assert (Hcb' : 0 <= cachebits c < 24).
      { rewrite H2. apply Z.mod_pos_bound. lia. }
      specialize (IH c ch' H Hcb'). cbv zeta in IH.
      destruct IH as (Im & IH). split; [congruence|].
      rewrite H2, Hm, H1 in IH.
      assert (Ew : ((cachebits ch + n) mod 24 + field_bits fs) / 24 = w - w1).
      { subst w w1. Z.div_mod_to_equations. lia. }
      assert (Emod : ((cachebits ch + n) mod 24 + field_bits fs) mod 24
                     = (cachebits ch + (n + field_bits fs)) mod 24).
      { Z.div_mod_to_equations. lia. }
      rewrite Ew, Emod in IH.
      assert (Er : runs_out (max ch - (data ch + 4 * w1)) (w - w1)
                   = runs_out d w).
      { assert (R1' : ~ (0 <= d /\ d mod 4 = 0 /\ d / 4 < w1)).
        { rewrite <- runs_out_spec. rewrite R1. discriminate. }
        subst d. apply eq_true_iff_eq. rewrite !runs_out_spec.
        split; intros (A1 & A2 & A3).
        - repeat split; Z.div_mod_to_equations; lia.
        - assert (w1 <= (max ch - data ch) / 4).
          { apply Z.nlt_ge. intros Hc. apply R1'.
            repeat split; Z.div_mod_to_equations; lia. }
          repeat split; Z.div_mod_to_equations; lia. }
      rewrite Er in IH. destruct (runs_out d w).
      * destruct IH as (I1 & I2 & I3 & I4). subst d.
        repeat split; lia.
      * destruct IH as (I1 & I2 & I3 & I4). repeat split; lia.
Qed.

Lemma put_flush_count (ch ch' : dspmem_chunk) :
  put_flush ch = Ok ch' -> 0 <= cachebits ch < 24 ->
  let w := (cachebits ch + 23) / 24 in
  let d := max ch - data ch in
  max ch' = max ch /\
  if runs_out d w
  then data ch' = max ch /\ cachebits ch' = 24 /\ bytes ch' = bytes ch + d /\
       Z.of_nat (List.length (mem ch')) = Z.of_nat (List.length (mem ch)) + d
  else data ch' = data ch + 4 * w /\ cachebits ch' = 0 /\
       bytes ch' = bytes ch + 4 * w /\
       Z.of_nat (List.length (mem ch')) =
         Z.of_nat (List.length (mem ch)) + 4 * w.
Proof.
  intros H Hcb w d. unfold put_flush, dspmem_chunk_flush in H.
  destruct (cachebits ch =? 0) eqn:Ez.
  - apply Z.eqb_eq in Ez. apply Ok_inj in H. subst ch'.
    assert (Hw : w = 0) by (subst w; rewrite Ez; reflexivity).
    rewrite Hw, runs_out_false_small. repeat split; lia.
  - apply Z.eqb_neq in Ez.
    assert (Hp : put (24 - cachebits ch) 0 ch = Ok ch') by exact H.
    destruct (put_count _ _ _ _ Hp Hcb ltac:(lia)) as (Hm & Hc).
    replace (cachebits ch + (24 - cachebits ch)) with 24 in Hc by lia.
    change (24 / 24) with 1 in Hc. change (24 mod 24) with 0 in Hc.
    assert (Hw : w = 1) by (subst w; Z.div_mod_to_equations; lia).
    rewrite Hw. split; [exact Hm|]. exact Hc.
Qed.

Lemma pwle_sections_bits (l : list wt_type12_pwle_section) :
  field_bits (flat_map pwle_section_fields l) = zsum (map pwle_section_bits l).
Proof.
  induction l as [|s l IH]; [reflexivity|].
  cbn [flat_map map zsum fold_right]. rewrite field_bits_app, IH.
  unfold pwle_section_fields, pwle_section_bits.
  destruct (Z.land (flags s) WT_TYPE12_PWLE_AMP_REG_BIT =? 0); reflexivity.
Qed.

Lemma pwle_metadata_fields_bits (p : wt_type12_pwle) :
  field_bits (pwle_metadata_fields p) = pwle_metadata_bits p.
Proof.
  unfold pwle_metadata_fields, pwle_metadata_bits.
  destruct (Z.land (feature p) WT_TYPE12_PWLE_METADATA_FLAG =? 0);
    [reflexivity|].
  destruct (svc_id (svc_metadata p) =? WT_SVC_METADATA_ID);
    destruct (ep_id (ep_metadata p) =? WT_EP_METADATA_ID);
    destruct (ep_length (ep_metadata p) =? 1); reflexivity.
Qed.

Lemma pwle_fields_bits (p : wt_type12_pwle) :
  field_bits (pwle_fields p) = pwle_bits p.
Proof.
  unfold pwle_fields, pwle_bits.
  rewrite !field_bits_app, pwle_sections_bits, pwle_metadata_fields_bits.
  change (field_bits [(16, feature p); (8, WT_TYPE12_PWLE);
                      (24, WT_TYPE12_HEADER_WORDS);
                      (24, u32 (nsections p * 2 + nampsections p + 3))])
    with 72.
  change (field_bits [(24, wlength p); (8, pwle_repeat p); (12, wait p);
                      (8, nsections p)]) with 52.
  lia.
Qed.

Lemma pwle_fields_nonneg (p : wt_type12_pwle) :
  Forall (fun f : Z * Z => 0 <= fst f) (pwle_fields p).
Proof.
  unfold pwle_fields.
  apply Forall_app; split; [|apply Forall_app; split; [|apply Forall_app; split]].
  - repeat (constructor; [cbn [fst]; lia|]). constructor.
  - repeat (constructor; [cbn [fst]; lia|]). constructor.
  - apply pwle_section_fields_nonneg.
  - apply pwle_metadata_fields_nonneg.
Qed.

Lemma put_all_then_flush (fs : list (Z * Z)) (size : Z) :
  Forall (fun f => 0 <= fst f) fs ->
  exists ch1 ch2,
    put_all fs (dspmem_chunk_create size) = Ok ch1 /\
    put_flush ch1 = Ok ch2 /\
    Z.of_nat (List.length (mem ch2)) = bytes ch2 /\
    data ch2 = bytes ch2 /\
    bytes ch2 =
      if (0 <=? size) && (size mod 4 =? 0)
      then Z.min (4 * ((field_bits fs + 23) / 24)) size
      else 4 * ((field_bits fs + 23) / 24).
Proof.
  intros Hfs.
  destruct (put_all_inv fs Hfs (dspmem_chunk_create size))
    as (ch1 & E1 & Hcb1 & _); [cbn; lia|].
  pose proof (field_bits_nonneg fs Hfs) as HB.
  destruct (put_all_count fs Hfs _ _ E1) as (Hm1 & Hc1); [cbn; lia|].
  cbn [dspmem_chunk_create cachebits max data bytes mem List.length] in Hm1, Hc1.
  set (B := field_bits fs) in *.
  change (Z.of_nat 0) with 0 in Hc1.
  repeat rewrite Z.add_0_l in Hc1. rewrite Z.add_0_l in Hm1.
  rewrite Z.sub_0_r in Hc1.
  destruct (runs_out size (B / 24)) eqn:R1; try rewrite R1 in Hc1.
  - (* out of room before the flush *)
    destruct Hc1 as (H1 & H2 & H3 & H4).
    destruct (write_stuck ch1 (24 - cachebits ch1) 0 H2 ltac:(congruence)
                ltac:(lia)) as (ch2 & E2 & G1 & G2 & G3 & G4 & G5).
    exists ch1, ch2. split; [exact E1|].
    split.
    { unfold put_flush, dspmem_chunk_flush. rewrite H2.
      change (24 =? 0) with false. cbv iota.
      rewrite H2 in E2. rewrite E2. reflexivity. }
    apply runs_out_spec in R1. destruct R1 as (A1 & A2 & A3).
    assert (C : (0 <=? size) && (size mod 4 =? 0) = true).
    { apply andb_true_iff. split; [apply Z.leb_le|apply Z.eqb_eq]; lia. }
    rewrite C, G4, G5, G2. repeat split; try lia.
    rewrite Z.min_r; [lia|]. Z.div_mod_to_equations. lia.
  - destruct Hc1 as (H1 & H2 & H3 & H4).
    assert (Hcb : 0 <= cachebits ch1 < 24)
      by (rewrite H2; apply Z.mod_pos_bound; lia).
    destruct (put_flush_inv ch1 ltac:(lia)) as (ch2 & E2 & _).
    destruct (put_flush_count _ _ E2 Hcb) as (Hm2 & Hc2).
    exists ch1, ch2. split; [exact E1|]. split; [exact E2|].
    rewrite Hm1, H1, H2, H3, H4 in Hc2. cbn [Z.add] in Hc2.
    assert (NR : ~ (0 <= size /\ size mod 4 = 0 /\ size / 4 < B / 24)).
    { rewrite <- runs_out_spec, R1. discriminate. }
    assert (Ew : B / 24 + (B mod 24 + 23) / 24 = (B + 23) / 24).
    { Z.div_mod_to_equations. lia. }
    destruct (runs_out (size - 4 * (B / 24)) ((B mod 24 + 23) / 24)) eqn:R2;
      try rewrite R2 in Hc2.
    + apply runs_out_spec in R2. destruct R2 as (A1 & A2 & A3).
      destruct Hc2 as (I1 & I2 & I3 & I4).
      assert (C : (0 <=? size) && (size mod 4 =? 0) = true).
      { apply andb_true_iff.
        split; [apply Z.leb_le|apply Z.eqb_eq]; Z.div_mod_to_equations; lia. }
      rewrite C. repeat split; try lia.
      rewrite Z.min_r; [lia|]. Z.div_mod_to_equations. lia.
    + destruct Hc2 as (I1 & I2 & I3 & I4).
      assert (NR2 : ~ (0 <= size - 4 * (B / 24) /\
                       (size - 4 * (B / 24)) mod 4 = 0 /\
                       (size - 4 * (B / 24)) / 4 < (B mod 24 + 23) / 24)).
      { rewrite <- runs_out_spec, R2. discriminate. }
      repeat split; try lia.
      rewrite I3, <- Ew.
      destruct ((0 <=? size) && (size mod 4 =? 0)) eqn:C; [|lia].
      apply andb_true_iff in C. destruct C as [C1 C2].
      apply Z.leb_le in C1. apply Z.eqb_eq in C2.
      rewrite Z.min_l; [lia|].
      assert (B / 24 <= size / 4) by (apply Z.nlt_ge; intros X; apply NR; lia).
      assert (~ (size - 4 * (B / 24)) / 4 < (B mod 24 + 23) / 24).
      { intros X. apply NR2. repeat split; Z.div_mod_to_equations; lia. }
      Z.div_mod_to_equations. lia.
Qed.

Lemma pwle_write_size_aux (p : wt_type12_pwle) :
  exists bs,
    wt_type12_pwle_write p WT_TYPE12_PWLE_BYTES_MAX =
      Ok (4 * ((pwle_bits p + 23) / 24), bs) /\
    Z.of_nat (List.length bs) = 4 * ((pwle_bits p + 23) / 24).
Proof.
  destruct (put_all_then_flush (pwle_fields p) WT_TYPE12_PWLE_BYTES_MAX
              (pwle_fields_nonneg p)) as (ch1 & ch2 & E1 & E2 & Hl & _ & Hb).
  change ((0 <=? WT_TYPE12_PWLE_BYTES_MAX)
          && (WT_TYPE12_PWLE_BYTES_MAX mod 4 =? 0)) with false in Hb.
  cbv iota in Hb. rewrite pwle_fields_bits in Hb.
  exists (mem ch2). unfold wt_type12_pwle_write. rewrite E1. cbn [bind].
  rewrite E2. cbn [bind]. unfold dspmem_chunk_bytes. rewrite Hb.
  split; [reflexivity|]. rewrite Hl, Hb. reflexivity.
Qed.

Lemma emit_cache_with_max (m : Z) (n : nat) :
  forall ch, emit_cache n (with_max m ch) = with_max m (emit_cache n ch).
Proof.
  induction n as [|n IH]; intros ch; [reflexivity|].
  cbn [emit_cache]. rewrite <- IH. reflexivity.
Qed.

Lemma runs_out_unaligned (d w : Z) : d mod 4 <> 0 -> runs_out d w = false.
Proof.
  intros H. unfold runs_out. apply Z.eqb_neq in H. rewrite H.
  rewrite andb_false_r. reflexivity.
Qed.

Lemma write_rec_sim (f : nat) :
  forall ch nbits val m r1 c1,
    dspmem_chunk_write_rec f ch nbits val = Some (r1, c1) ->
    0 <= cachebits ch < 24 -> 0 <= nbits -> (Z.to_nat nbits < f)%nat ->
    (m - data ch) mod 4 <> 0 ->
    exists c2,
      dspmem_chunk_write_rec f (with_max m ch) nbits val = Some (0, c2) /\
      ((r1 = 0 /\ c2 = with_max m c1) \/
       (r1 = - ENOSPC /\ exists suf, mem c2 = mem c1 ++ suf)).
Proof.
  induction f as [|f IH]; intros ch nbits val m r1 c1 H Hcb Hn Hf Hm;
    [discriminate|].
  assert (Big : exists c2,
             dspmem_chunk_write_rec (S f) (with_max m ch) nbits val
             = Some (0, c2) /\ exists suf, mem c2 = mem ch ++ suf).
  { destruct (write_rec_total (S f) (with_max m ch) nbits val) as [[r2 c2] E];
      [cbn [with_max cachebits]; lia|lia| |].
    - cbn [with_max cachebits].
      replace (cachebits ch =? 24) with false by (symmetry; apply Z.eqb_neq; lia).
      lia.
    - destruct (write_rec_count _ _ _ _ _ _ E) as (_ & Hc);
        [cbn [with_max cachebits]; lia|lia|].
      cbn [with_max cachebits max data] in Hc.
      rewrite runs_out_unaligned in Hc by exact Hm.
      destruct Hc as (Hr & _). subst r2.
      destruct (write_rec_inv _ _ _ _ _ _ E) as (_ & _ & suf & Hs);
        [cbn [with_max cachebits]; lia|lia|].
      exists c2. split; [exact E|]. exists suf. exact Hs. }
  rewrite write_rec_S in H. cbv zeta in H.
  destruct (Z.lt_ge_cases (cachebits ch + nbits) 24) as [Hlt|Hge];
    [rewrite Z.min_r in H by lia|rewrite Z.min_l in H by lia].
  - (* the bits fit into the cache *)
    replace (cachebits ch + nbits =? 24) with false in H
      by (symmetry; apply Z.eqb_neq; lia).
    rewrite Z.sub_diag in H. change (0 =? 0) with true in H. cbv iota in H.
    inversion H; subst r1 c1; clear H.
    rewrite write_rec_S. cbv zeta. cbn [with_max cachebits data max bytes cache mem].
    rewrite Z.min_r by lia.
    replace (cachebits ch + nbits =? 24) with false
      by (symmetry; apply Z.eqb_neq; lia).
    rewrite Z.sub_diag. change (0 =? 0) with true. cbv iota.
    eexists. split; [reflexivity|]. left. split; reflexivity.
  - replace (cachebits ch + (24 - cachebits ch)) with 24 in H by lia.
    change (24 =? 24) with true in H. cbv iota in H.
    destruct (data ch =? max ch) eqn:Ee.
    + (* the small buffer is full *)
      inversion H; subst r1 c1; clear H. cbn [mem].
      destruct Big as (c2 & E & suf & Hs).
      exists c2. split; [exact E|]. right. split; [reflexivity|].
      exists suf. exact Hs.
    + clear Big.
      assert (Hdm : (data ch =? m) = false).
      { apply Z.eqb_neq. intros X. apply Hm. rewrite X, Z.sub_diag.
        reflexivity. }
      rewrite write_rec_S. cbv zeta.
      cbn [with_max cachebits data max bytes cache mem].
      rewrite Z.min_l by lia.
      replace (cachebits ch + (24 - cachebits ch)) with 24 by lia.
      change (24 =? 24) with true. cbv iota. rewrite Hdm.
      match goal with
      | |- context [emit_cache sizeof_cache ?c] =>
          change c with
            (with_max m
               {| data := data ch; max := max ch; bytes := bytes ch;
                  cache := Z.land
                    (Z.lor (u32 (Z.shiftl (cache ch) (24 - cachebits ch)))
                       (Z.shiftr val (nbits - (24 - cachebits ch)))) 0xFFFFFF;
                  cachebits := 24; mem := mem ch |})
      end.
      rewrite emit_cache_with_max.
      match type of H with context [emit_cache sizeof_cache ?c] =>
        destruct (emit_cache_shape sizeof_cache c) as (Ed & _);
        generalize dependent (emit_cache sizeof_cache c); intros e H Ed
      end.
      cbn [data] in Ed. change (Z.of_nat sizeof_cache) with 4 in *.
      cbn [with_max data max bytes cache cachebits mem].
      destruct (nbits - (24 - cachebits ch) =? 0) eqn:Ez.
      * inversion H; subst r1 c1; clear H.
        eexists. split; [reflexivity|]. left. split; reflexivity.
      * apply Z.eqb_neq in Ez.
        apply (IH _ _ _ m) in H; cbn [cachebits data]; try lia.
        -- exact H.
        -- rewrite Ed. intros X. apply Hm.
           Z.div_mod_to_equations. lia.
Qed.

Lemma put_all_sim (fs : list (Z * Z)) :
  Forall (fun f => 0 <= fst f) fs ->
  forall ch m c1,
    put_all fs ch = Ok c1 ->
    0 <= cachebits ch < 24 -> (m - data ch) mod 4 <> 0 ->
    exists c2 suf,
      put_all fs (with_max m ch) = Ok c2 /\ mem c2 = mem c1 ++ suf.
Proof.
  induction 1 as [|[n v] fs Hn Hfs IH]; intros ch m c1 H Hcb Hm.
  - cbn [put_all] in *. apply Ok_inj in H. subst c1.
    exists (with_max m ch), []. split; [reflexivity|].
    cbn [with_max mem]. rewrite app_nil_r. reflexivity.
  - cbn [put_all fst] in *.
    destruct (put n v ch) as [c| |] eqn:E; cbn [bind] in H; try discriminate.
    pose proof (put_count _ _ _ _ E Hcb Hn) as (Hmax & Hc).
    unfold put, dspmem_chunk_write in E |- *.
    destruct (dspmem_chunk_write_rec (write_fuel n) ch n v) as [[r c']|] eqn:Ew;
      [|discriminate].
    apply Ok_inj in E. subst c'.
    destruct (write_rec_sim _ _ _ _ m _ _ Ew Hcb Hn) as (c2 & E2 & Hrel);
      [unfold write_fuel; lia|exact Hm|].
    rewrite E2. cbn [bind].
    destruct Hrel as [[Hr Hc2]|[Hr (suf & Hs)]].
    + (* both runs store the same *)
      subst r c2.
      destruct (write_rec_count _ _ _ _ _ _ Ew Hcb Hn) as (_ & Hc').
      destruct (runs_out (max ch - data ch) ((cachebits ch + n) / 24)).
      * destruct Hc' as (Hr & _). discriminate Hr.
      * destruct Hc as (H1 & H2 & _).
        apply (IH c m c1 H).
        -- rewrite H2. apply Z.mod_pos_bound. lia.
        -- rewrite H1. intros X. apply Hm. Z.div_mod_to_equations. lia.
    + (* the small buffer is full: nothing more is stored in it *)
      subst r.
      destruct (write_rec_count _ _ _ _ _ _ Ew Hcb Hn) as (_ & Hc').
      destruct (runs_out (max ch - data ch) ((cachebits ch + n) / 24)).
      * destruct Hc as (H1 & H2 & _).
        destruct (put_all_stuck fs Hfs c H2 ltac:(congruence))
          as (c1' & E1 & _ & _ & _ & _ & G).
        rewrite E1 in H. apply Ok_inj in H. subst c1'.
        destruct (write_rec_count _ _ _ _ _ _ E2) as (_ & Hc2);
          [cbn [with_max cachebits]; lia|lia|].
        cbn [with_max cachebits max data] in Hc2.
        rewrite runs_out_unaligned in Hc2 by exact Hm.
        destruct Hc2 as (_ & _ & Hcb2 & _).
        destruct (put_all_inv fs Hfs c2) as (c3 & E3 & _ & _ & suf' & Hs').
        { rewrite Hcb2.
          pose proof (Z.mod_pos_bound (cachebits ch + n) 24 ltac:(lia)). lia. }
        exists c3, (suf ++ suf'). split; [exact E3|].
        rewrite Hs', Hs, G, app_assoc. reflexivity.
      * destruct Hc' as (Hr & _). discriminate Hr.
Qed.

Lemma comp_size_mod (comp : wt_type10_comp) : comp_size comp mod 4 = 0.
Proof.
  unfold comp_size.
  replace (4 + 8 * comp_nsections comp + 4 * comp_durations comp
           + 8 * comp_ep_present comp)
    with ((1 + 2 * comp_nsections comp + comp_durations comp
           + 2 * comp_ep_present comp) * 4) by lia.
  apply Z.mod_mul. lia.
Qed.

Lemma section_fields_nonneg (l : list wt_type10_comp_section) :
  Forall (fun f : Z * Z => 0 <= fst f) (flat_map section_fields l).
Proof.
  induction l as [|s l IH]; cbn [flat_map]; [constructor|].
  apply Forall_app. split; [|exact IH].
  unfold section_fields. apply Forall_app. split.
  - repeat (constructor; [cbn [fst]; lia|]). constructor.
  - destruct (Z.land (sec_flags s) WT_TYPE10_COMP_DURATION_FLAG =? 0);
      repeat (constructor; [cbn [fst]; lia|]); constructor.
Qed.

Lemma comp_fields_nonneg (comp : wt_type10_comp) :
  Forall (fun f : Z * Z => 0 <= fst f) (comp_fields comp).
Proof.
  unfold comp_fields.
  apply Forall_app; split; [|apply Forall_app; split].
  - destruct (ep_id (comp_ep_metadata comp) =? WT_EP_METADATA_ID);
      repeat (constructor; [cbn [fst]; lia|]); constructor.
  - repeat (constructor; [cbn [fst]; lia|]). constructor.
  - apply section_fields_nonneg.
Qed.

Lemma section_fields_bits (l : list wt_type10_comp_section) :
  field_bits (flat_map section_fields l) =
  48 * Z.of_nat (List.length l)
  + 24 * Z.of_nat (List.length (filter has_duration l)).
Proof.
  induction l as [|s l IH]; [reflexivity|].
  cbn [flat_map filter]. rewrite field_bits_app, IH.
  unfold section_fields, has_duration.
  destruct (Z.land (sec_flags s) WT_TYPE10_COMP_DURATION_FLAG =? 0);
    cbn [negb List.length]; rewrite ?Nat2Z.inj_succ;
    unfold field_bits; cbn [app map fst zsum fold_right]; lia.
Qed.

Lemma comp_fields_bits (comp : wt_type10_comp) :
  comp_wf comp -> field_bits (comp_fields comp) = 6 * comp_size comp.
Proof.
  intros (Hn & _ & Hlen & _ & _).
  unfold comp_fields, comp_size, comp_durations, comp_ep_present.
  rewrite !field_bits_app, section_fields_bits.
  rewrite length_firstn, Hlen.
  change (2 ^ 8) with 256 in Hn. unfold WT_MAX_SECTIONS.
  rewrite Nat.min_l by lia. rewrite Z2Nat.id by lia.
  destruct (ep_id (comp_ep_metadata comp) =? WT_EP_METADATA_ID);
    unfold field_bits; cbn [map fst zsum fold_right]; lia.
Qed.

Lemma comp_to_buffer_prefix (comp : wt_type10_comp) (size : Z) :
  comp_wf comp -> 0 <= size -> size mod 4 = 0 ->
  let n := Z.min (comp_size comp) size in
  wt_type10_comp_to_buffer comp size =
    Ok (n, firstn (Z.to_nat n) (comp_bytes comp)).
Proof.
  intros Hwf Hsize Hmod n.
  pose proof (comp_fields_nonneg comp) as Hnn.
  pose proof (comp_fields_bits comp Hwf) as Hbits.
  pose proof (comp_size_mod comp) as Hcm.
  assert (Hpos : 0 <= comp_size comp).
  { rewrite <- (comp_bytes_length comp Hwf). lia. }
  destruct (put_all_inv _ Hnn (dspmem_chunk_create size))
    as (c1 & E1 & _); [cbn; lia|].
  destruct (put_all_count _ Hnn _ _ E1) as (_ & Hc); [cbn; lia|].
  cbn [dspmem_chunk_create cachebits max data bytes mem List.length] in Hc.
  change (Z.of_nat 0) with 0 in Hc.
  repeat rewrite Z.add_0_l in Hc. rewrite Z.sub_0_r in Hc.
  rewrite Hbits in Hc.
  replace (6 * comp_size comp / 24) with (comp_size comp / 4) in Hc
    by (Z.div_mod_to_equations; lia).
  assert (Hb : bytes c1 = n /\ Z.of_nat (List.length (mem c1)) = n).
  { subst n. destruct (runs_out size (comp_size comp / 4)) eqn:R.
    - apply runs_out_spec in R. destruct Hc as (_ & _ & H3 & H4).
      rewrite Z.min_r by (Z.div_mod_to_equations; lia). lia.
    - assert (NR : ~ (0 <= size /\ size mod 4 = 0
                      /\ size / 4 < comp_size comp / 4)).
      { rewrite <- runs_out_spec, R. discriminate. }
      destruct Hc as (_ & _ & H3 & H4).
      assert (comp_size comp / 4 <= size / 4)
        by (apply Z.nlt_ge; intros X; apply NR; lia).
      rewrite Z.min_l by (Z.div_mod_to_equations; lia).
      split; Z.div_mod_to_equations; lia. }
  destruct Hb as (Hb & Hl).
  destruct (put_all_sim _ Hnn (dspmem_chunk_create size) (comp_size comp + 1)
              c1 E1) as (c2 & suf & E2 & Hs).
  { cbn; lia. }
  { cbn [dspmem_chunk_create data]. rewrite Z.sub_0_r.
    Z.div_mod_to_equations. lia. }
  pose proof (comp_to_buffer_layout comp (comp_size comp + 1) Hwf ltac:(lia))
    as Hlay.
  unfold wt_type10_comp_to_buffer in Hlay |- *.
  change (with_max (comp_size comp + 1) (dspmem_chunk_create size))
    with (dspmem_chunk_create (comp_size comp + 1)) in E2.
  rewrite E2 in Hlay. cbn [bind] in Hlay. apply Ok_inj in Hlay.
  injection Hlay as _ Hmem.
  rewrite E1. cbn [bind]. unfold dspmem_chunk_bytes. rewrite Hb.
  f_equal. f_equal.
  rewrite <- Hmem, Hs.
  replace (Z.to_nat n) with (List.length (mem c1)) by lia.
  rewrite firstn_app, Nat.sub_diag, firstn_all. cbn [firstn].
  rewrite app_nil_r. reflexivity.
Qed.

Lemma field_ok_nonneg (fs : list (Z * Z)) :
  Forall field_ok fs -> Forall (fun f => 0 <= fst f) fs.
Proof.
  intros H. eapply Forall_impl; [|exact H]. intros f [Hf _]. lia.
Qed.

Lemma put_all_pending (fs : list (Z * Z)) :
  Forall field_ok fs ->
  forall ch,
    0 <= cachebits ch -> cachebits ch + field_bits fs < 24 ->
    0 <= cache ch < 2 ^ cachebits ch ->
    put_all fs ch =
    Ok {| data := data ch; max := max ch; bytes := bytes ch;
          cache := pack fs (cache ch);
          cachebits := cachebits ch + field_bits fs; mem := mem ch |} /\
    0 <= pack fs (cache ch) < 2 ^ (cachebits ch + field_bits fs).
Proof.
  induction 1 as [|[n v] fs [Hn Hv] Hfs IH]; intros ch Hcb Hb Hc.
  - unfold field_bits, pack. cbn [put_all map zsum fold_right fold_left].
    rewrite Z.add_0_r. split; [destruct ch; reflexivity|exact Hc].
  - cbn [fst snd] in Hn, Hv. rewrite field_bits_cons in *.
    pose proof (field_bits_nonneg fs (field_ok_nonneg fs Hfs)) as HB.
    cbn [put_all]. rewrite put_small by lia. cbn [bind].
    assert (Hc' : 0 <= cache ch * 2 ^ n + v < 2 ^ (cachebits ch + n)).
    { rewrite Z.pow_add_r by lia.
      assert (0 < 2 ^ n) by (apply Z.pow_pos_nonneg; lia). nia. }
    destruct (IH {| data := data ch; max := max ch; bytes := bytes ch;
                    cache := cache ch * 2 ^ n + v;
                    cachebits := cachebits ch + n; mem := mem ch |})
      as (E & R); cbn [cachebits cache]; try lia.
    cbn [data max bytes cache cachebits mem] in E, R.
    rewrite E. unfold pack. cbn [fold_left fst snd].
    rewrite !Z.add_assoc in *. split; [reflexivity|exact R].
Qed.

Lemma pack_app (f1 f2 : list (Z * Z)) (acc : Z) :
  pack (f1 ++ f2) acc = pack f2 (pack f1 acc).
Proof. unfold pack. apply fold_left_app. Qed.

(** X2 ([dspmem_chunk_write]).  A call with [c] pending bits ([0 <= c < 24])
    and [nbits >= 0] terminates, keeps [max], and completes [w = (c + nbits) /
    24] words of 4 bytes. It returns [-ENOSPC] exactly when the distance from
    the cursor to [max] is a non-negative multiple of 4 below [4 * w]: the
    cursor then stops at [max] with 24 bits pending. Otherwise it returns 0,
    the cursor and the byte count advance by [4 * w], and [(c + nbits) mod 24]
    bits stay pending. *)
Theorem dspmem_chunk_write_return (ch : dspmem_chunk) (nbits val : Z) :
  0 <= cachebits ch < 24 -> 0 <= nbits ->
  exists r ch',
    dspmem_chunk_write ch nbits val = Some (r, ch') /\
    max ch' = max ch /\
    if runs_out (max ch - data ch) ((cachebits ch + nbits) / 24)
    then r = - ENOSPC /\ data ch' = max ch /\ cachebits ch' = 24 /\
         bytes ch' = bytes ch + (max ch - data ch)
    else r = 0 /\
         data ch' = data ch + 4 * ((cachebits ch + nbits) / 24) /\
         bytes ch' = bytes ch + 4 * ((cachebits ch + nbits) / 24) /\
         cachebits ch' = (cachebits ch + nbits) mod 24.
Proof.
  intros Hcb Hn.
  destruct (dspmem_chunk_write_total ch nbits val) as [[r ch'] E]; try lia.
  exists r, ch'. split; [exact E|].
  destruct (write_rec_count _ _ _ _ _ _ E Hcb Hn) as (Hm & Hc).
  split; [exact Hm|].
  destruct (runs_out (max ch - data ch) ((cachebits ch + nbits) / 24)); tauto.
Qed.

Lemma dspmem_chunk_write_return_witness :
  let ch := {| data := 8; max := 8; bytes := 8; cache := 0xAB;
               cachebits := 8; mem := [0; 1; 2; 3; 0; 4; 5; 6] |} in
  0 <= cachebits ch < 24 /\ 0 <= 16 /\
  exists ch', dspmem_chunk_write ch 16 0xCDEF = Some (- ENOSPC, ch').
Proof.
  intros ch.
  assert (H1 : 0 <= cachebits ch < 24) by (cbn; lia).
  assert (H2 : 0 <= 16) by lia.
  refine (conj H1 (conj H2 _)).
  destruct (dspmem_chunk_write_return ch 16 0xCDEF H1 H2)
    as (r & ch' & E & _ & Hc).
  change (runs_out (max ch - data ch) ((cachebits ch + 16) / 24)) with true
    in Hc.
  destruct Hc as (Hr & _). subst r. exists ch'. exact E.
Defined.

(** X3 ([dspmem_chunk_create], [dspmem_chunk_write]).  Over a fresh buffer
    whose size is a multiple of 4, calls of the writer with [B] bits in total
    store [min (4 * (B / 24), size)] bytes, and the cursor never passes the
    end of the buffer. *)
Theorem writer_stops_at_aligned_capacity (fs : list (Z * Z)) (size : Z) :
  Forall (fun f => 0 <= fst f) fs -> 0 <= size -> size mod 4 = 0 ->
  exists ch',
    put_all fs (dspmem_chunk_create size) = Ok ch' /\
    dspmem_chunk_bytes ch' = Z.min (4 * (field_bits fs / 24)) size /\
    data ch' = dspmem_chunk_bytes ch' /\
    Z.of_nat (List.length (mem ch')) = dspmem_chunk_bytes ch' /\
    data ch' <= max ch'.
Proof.
  intros Hfs Hsize Hmod.
  destruct (put_all_inv fs Hfs (dspmem_chunk_create size))
    as (ch' & E & _); [cbn; lia|].
  exists ch'. split; [exact E|].
  destruct (put_all_count fs Hfs _ _ E) as (Hm & Hc); [cbn; lia|].
  cbn [dspmem_chunk_create cachebits max data bytes mem List.length] in Hm, Hc.
  change (Z.of_nat 0) with 0 in Hc.
  repeat rewrite Z.add_0_l in Hc. rewrite Z.add_0_l in Hm.
  rewrite Z.sub_0_r in Hc. unfold dspmem_chunk_bytes.
  destruct (runs_out size (field_bits fs / 24)) eqn:R.
  - apply runs_out_spec in R. destruct Hc as (H1 & _ & H3 & H4).
    rewrite Z.min_r by (Z.div_mod_to_equations; lia).
    repeat split; lia.
  - assert (NR : ~ (0 <= size /\ size mod 4 = 0
                    /\ size / 4 < field_bits fs / 24)).
    { rewrite <- runs_out_spec, R. discriminate. }
    destruct Hc as (H1 & _ & H3 & H4).
    assert (field_bits fs / 24 <= size / 4)
      by (apply Z.nlt_ge; intros X; apply NR; lia).
    rewrite Z.min_l by (Z.div_mod_to_equations; lia).
    repeat split; try lia. Z.div_mod_to_equations. lia.
Qed.

Lemma writer_stops_at_aligned_capacity_witness :
  Forall (fun f : Z * Z => 0 <= fst f) [(24, 1); (24, 2); (24, 3)] /\
  0 <= 8 /\ 8 mod 4 = 0 /\
  exists ch',
    put_all [(24, 1); (24, 2); (24, 3)] (dspmem_chunk_create 8) = Ok ch' /\
    dspmem_chunk_bytes ch' = 8.
Proof.
  assert (H1 : Forall (fun f : Z * Z => 0 <= fst f) [(24, 1); (24, 2); (24, 3)])
    by (repeat constructor; cbn; lia).
  assert (H2 : 0 <= 8) by lia.
  assert (H3 : 8 mod 4 = 0) by reflexivity.
  refine (conj H1 (conj H2 (conj H3 _))).
  destruct (writer_stops_at_aligned_capacity _ 8 H1 H2 H3)
    as (ch' & E & Hb & _).
  exists ch'. split; [exact E|]. rewrite Hb. reflexivity.
Defined.

(** X4 ([dspmem_chunk_create], [dspmem_chunk_write]).  Over a fresh buffer
    whose size is not a multiple of 4 the end of the buffer is never noticed:
    calls with [B] bits in total store [4 * (B / 24)] bytes whatever the size
    is. *)
Theorem writer_ignores_unaligned_capacity (fs : list (Z * Z)) (size : Z) :
  Forall (fun f => 0 <= fst f) fs -> size mod 4 <> 0 ->
  exists ch',
    put_all fs (dspmem_chunk_create size) = Ok ch' /\
    dspmem_chunk_bytes ch' = 4 * (field_bits fs / 24) /\
    data ch' = dspmem_chunk_bytes ch' /\
    Z.of_nat (List.length (mem ch')) = dspmem_chunk_bytes ch'.
Proof.
  intros Hfs Hmod.
  destruct (put_all_inv fs Hfs (dspmem_chunk_create size))
    as (ch' & E & _); [cbn; lia|].
  exists ch'. split; [exact E|].
  destruct (put_all_count fs Hfs _ _ E) as (Hm & Hc); [cbn; lia|].
  cbn [dspmem_chunk_create cachebits max data bytes mem List.length] in Hm, Hc.
  change (Z.of_nat 0) with 0 in Hc.
  repeat rewrite Z.add_0_l in Hc. rewrite Z.sub_0_r in Hc.
  rewrite runs_out_unaligned in Hc by exact Hmod.
  unfold dspmem_chunk_bytes. destruct Hc as (H1 & _ & H3 & H4).
  repeat split; lia.
Qed.

Lemma writer_ignores_unaligned_capacity_witness :
  Forall (fun f : Z * Z => 0 <= fst f) [(24, 1); (24, 2); (24, 3)] /\
  6 mod 4 <> 0 /\
  exists ch',
    put_all [(24, 1); (24, 2); (24, 3)] (dspmem_chunk_create 6) = Ok ch' /\
    dspmem_chunk_bytes ch' = 12 /\ max ch' = 6.
Proof.
  assert (H1 : Forall (fun f : Z * Z => 0 <= fst f) [(24, 1); (24, 2); (24, 3)])
    by (repeat constructor; cbn; lia).
  assert (H2 : 6 mod 4 <> 0) by (cbn; lia).
  refine (conj H1 (conj H2 _)).
  destruct (writer_ignores_unaligned_capacity _ 6 H1 H2)
    as (ch' & E & Hb & _).
  exists ch'. split; [exact E|]. rewrite Hb.
  split; [reflexivity|].
  assert (E' : put_all [(24, 1); (24, 2); (24, 3)] (dspmem_chunk_create 6)
               = Ok {| data := 12; max := 6; bytes := 12; cache := 0;
                       cachebits := 0;
                       mem := [0; 0; 0; 1; 0; 0; 0; 2; 0; 0; 0; 3] |})
    by (vm_compute; reflexivity).
  rewrite E' in E. apply Ok_inj in E. subst ch'. reflexivity.
Defined.

(** A call that returns [-ENOSPC] leaves the chunk at the end of its buffer
    with a full accumulator. *)
Lemma write_enospc_state (ch ch1 : dspmem_chunk) (nbits val : Z) :
  dspmem_chunk_write ch nbits val = Some (- ENOSPC, ch1) ->
  0 <= cachebits ch <= 24 -> 0 <= nbits ->
  cachebits ch1 = 24 /\ data ch1 = max ch1.
Proof.
  intros E Hcb Hn.
  assert (Small : forall f c n r c1,
            dspmem_chunk_write_rec f c n val = Some (r, c1) ->
            r = - ENOSPC -> 0 <= cachebits c < 24 -> 0 <= n ->
            cachebits c1 = 24 /\ data c1 = max c1).
  { intros f c n r c1 H Hr Hc Hn'.
    destruct (write_rec_count _ _ _ _ _ _ H Hc Hn') as (Hm & Hx).
    destruct (runs_out (max c - data c) ((cachebits c + n) / 24)).
    - destruct Hx as (_ & Hd & Hc24 & _). split; [exact Hc24|congruence].
    - destruct Hx as (Hr0 & _). rewrite Hr in Hr0. discriminate Hr0. }
  destruct (Z.eq_dec (cachebits ch) 24) as [E24|N24];
    [|apply (Small _ _ _ _ _ E eq_refl); lia].
  unfold dspmem_chunk_write, write_fuel in E.
  rewrite write_rec_S in E. cbv zeta in E.
  rewrite E24 in E. change (24 - 24) with 0 in E.
  rewrite Z.min_l in E by lia.
  change (24 + 0 =? 24) with true in E. cbv iota in E.
  rewrite Z.sub_0_r in E.
  destruct (data ch =? max ch) eqn:Ed.
  - apply Z.eqb_eq in Ed. inversion E; subst ch1.
    cbn [cachebits data max]. split; [reflexivity|exact Ed].
  - destruct (nbits =? 0); [discriminate E|].
    match type of E with
    | dspmem_chunk_write_rec ?f ?c ?n _ = _ =>
        apply (Small f c n _ _ E eq_refl); [cbn [cachebits]; lia|lia]
    end.
Qed.

Lemma write_all_stuck (calls : list (Z * Z)) :
  Forall (fun f => 0 <= fst f) calls ->
  forall ch,
    cachebits ch = 24 -> data ch = max ch ->
    exists ch',
      write_all calls ch = Some (map (fun _ => - ENOSPC) calls, ch') /\
      cachebits ch' = 24 /\ data ch' = data ch /\ max ch' = max ch /\
      bytes ch' = bytes ch /\ mem ch' = mem ch.
Proof.
  induction 1 as [|[n v] fs Hn _ IH]; intros ch Hcb Hd.
  - exists ch. repeat split; assumption.
  - cbn [fst] in Hn.
    destruct (write_stuck ch n v Hcb Hd Hn) as (c & E & H1 & H2 & H3 & H4 & H5).
    destruct (IH c H1 ltac:(congruence)) as (c' & E' & G1 & G2 & G3 & G4 & G5).
    exists c'. cbn [write_all map]. rewrite E, E'.
    repeat split; congruence.
Qed.

(** X5 ([dspmem_chunk_write], [dspmem_chunk_flush]).  Once a call has
    returned [-ENOSPC], every later call returns [-ENOSPC] too, whatever
    the sequence of calls, and so does the flush; none of them stores
    anything: the bytes, the byte count and the cursor stay as they are. *)
Theorem enospc_is_sticky (ch ch1 : dspmem_chunk) (nbits val : Z) :
  dspmem_chunk_write ch nbits val = Some (- ENOSPC, ch1) ->
  0 <= cachebits ch <= 24 -> 0 <= nbits ->
  forall calls : list (Z * Z),
    Forall (fun f => 0 <= fst f) calls ->
    exists ch2 ch3,
      write_all calls ch1 = Some (map (fun _ => - ENOSPC) calls, ch2) /\
      dspmem_chunk_flush ch2 = Some (- ENOSPC, ch3) /\
      mem ch2 = mem ch1 /\ mem ch3 = mem ch1 /\
      dspmem_chunk_bytes ch2 = dspmem_chunk_bytes ch1 /\
      dspmem_chunk_bytes ch3 = dspmem_chunk_bytes ch1 /\
      data ch2 = data ch1 /\ data ch3 = data ch1.
Proof.
  intros E Hcb Hn calls Hcalls.
  destruct (write_enospc_state ch ch1 nbits val E Hcb Hn) as (Hc1 & Hd1).
  destruct (write_all_stuck calls Hcalls ch1 Hc1 Hd1)
    as (ch2 & E2 & G1 & G2 & G3 & G4 & G5).
  destruct (write_stuck ch2 (24 - cachebits ch2) 0 G1 ltac:(congruence)
              ltac:(lia)) as (ch3 & E3 & K1 & K2 & K3 & K4 & K5).
  exists ch2, ch3. unfold dspmem_chunk_bytes, dspmem_chunk_flush.
  rewrite G1. change (24 =? 0) with false. cbv iota.
  rewrite G1 in E3.
  repeat split; try assumption; congruence.
Qed.

Lemma enospc_is_sticky_witness :
  let ch := dspmem_chunk_create 0 in
  let ch1 := {| data := 0; max := 0; bytes := 0; cache := 7;
                cachebits := 24; mem := [] |} in
  let calls := [(8, 1); (24, 0xABCDEF); (16, 2)] in
  dspmem_chunk_write ch 24 7 = Some (- ENOSPC, ch1) /\
  0 <= cachebits ch <= 24 /\ 0 <= 24 /\
  Forall (fun f => 0 <= fst f) calls /\
  exists ch2,
    write_all calls ch1 = Some ([- ENOSPC; - ENOSPC; - ENOSPC], ch2) /\
    mem ch2 = [].
Proof.
  intros ch ch1 calls.
  assert (H1 : dspmem_chunk_write ch 24 7 = Some (- ENOSPC, ch1))
    by (vm_compute; reflexivity).
  assert (H2 : 0 <= cachebits ch <= 24) by (cbn; lia).
  assert (H3 : 0 <= 24) by lia.
  assert (H4 : Forall (fun f => 0 <= fst f) calls)
    by (repeat constructor; cbn [fst]; lia).
  refine (conj H1 (conj H2 (conj H3 (conj H4 _)))).
  destruct (enospc_is_sticky ch ch1 24 7 H1 H2 H3 calls H4)
    as (ch2 & _ & E & _ & Hmem & _).
  exists ch2. split; [exact E|exact Hmem].
Defined.

(** X6 ([dspmem_chunk_write]).  Fields of positive widths that add up to 24
    bits, each value within its width, written to a chunk with nothing pending
    and room left, are stored as one word of 4 bytes: a zero byte, then the 24
    bits with the first field in the most significant position. *)
Theorem fields_pack_into_word (fs : list (Z * Z)) (ch : dspmem_chunk) :
  Forall field_ok fs -> field_bits fs = 24 ->
  aligned ch -> data ch <> max ch ->
  put_all fs ch =
    Ok {| data := data ch + 4; max := max ch; bytes := bytes ch + 4;
          cache := 0; cachebits := 0;
          mem := mem ch ++ [0; pack fs 0 / 2 ^ 16;
                            (pack fs 0 / 2 ^ 8) mod 2 ^ 8;
                            pack fs 0 mod 2 ^ 8] |}.
Proof.
  intros Hfs Hb [Hcb Hc] Hd.
  destruct (exists_last (l := fs)) as (init & [n v] & ->).
  { intros ->. discriminate Hb. }
  apply Forall_app in Hfs. destruct Hfs as [Hi Hl].
  inversion Hl as [|? ? [Hn Hv] _]; subst. cbn [fst snd] in Hn, Hv.
  rewrite field_bits_app, field_bits_cons in Hb.
  change (field_bits []) with 0 in Hb.
  destruct (put_all_pending init Hi ch) as (E & R);
    [lia|lia|rewrite Hc, Hcb; change (2 ^ 0) with 1; lia|].
  rewrite put_all_app, E. cbn [bind put_all].
  rewrite Hcb, Hc, Z.add_0_l in *.
  pose proof (field_bits_nonneg init (field_ok_nonneg init Hi)) as HB.
  rewrite put_fill; cbn [cachebits cache data max]; try lia.
  cbn [bind]. rewrite pack_app. unfold pack at 1. cbn [fold_left fst snd].
  reflexivity.
Qed.

Lemma fields_pack_into_word_witness :
  Forall field_ok [(8, 0x12); (4, 0x3); (12, 0x456)] /\
  field_bits [(8, 0x12); (4, 0x3); (12, 0x456)] = 24 /\
  aligned (dspmem_chunk_create 4) /\
  data (dspmem_chunk_create 4) <> max (dspmem_chunk_create 4) /\
  put_all [(8, 0x12); (4, 0x3); (12, 0x456)] (dspmem_chunk_create 4) =
    Ok {| data := 4; max := 4; bytes := 4; cache := 0; cachebits := 0;
          mem := [0; 0x12; 0x34; 0x56] |}.
Proof.
  assert (H1 : Forall field_ok [(8, 0x12); (4, 0x3); (12, 0x456)])
    by (repeat constructor; cbn; lia).
  assert (H2 : field_bits [(8, 0x12); (4, 0x3); (12, 0x456)] = 24)
    by reflexivity.
  assert (H3 : aligned (dspmem_chunk_create 4)) by (split; reflexivity).
  assert (H4 : data (dspmem_chunk_create 4) <> max (dspmem_chunk_create 4))
    by (cbn; lia).
  refine (conj H1 (conj H2 (conj H3 (conj H4 _)))).
  exact (fields_pack_into_word _ _ H1 H2 H3 H4).
Defined.

(** X7 ([dspmem_chunk_flush]).  When fewer than 24 bits are pending, the
    flush completes them with zero bits on the right and stores the word,
    again as a zero byte and three bytes of data. *)
Theorem flush_pads_with_zero_bits (fs : list (Z * Z)) (ch : dspmem_chunk) :
  Forall field_ok fs -> 0 < field_bits fs < 24 ->
  aligned ch -> data ch <> max ch ->
  let w := pack fs 0 * 2 ^ (24 - field_bits fs) in
  (ch' <- put_all fs ch ;; put_flush ch') =
    Ok {| data := data ch + 4; max := max ch; bytes := bytes ch + 4;
          cache := 0; cachebits := 0;
          mem := mem ch ++ [0; w / 2 ^ 16; (w / 2 ^ 8) mod 2 ^ 8;
                            w mod 2 ^ 8] |}.
Proof.
  intros Hfs Hb [Hcb Hc] Hd w.
  destruct (put_all_pending fs Hfs ch) as (E & R);
    [lia|lia|rewrite Hc, Hcb; change (2 ^ 0) with 1; lia|].
  rewrite E. cbn [bind]. rewrite Hcb, Hc, Z.add_0_l in *.
  unfold put_flush, dspmem_chunk_flush. cbn [cachebits].
  replace (field_bits fs =? 0) with false by (symmetry; apply Z.eqb_neq; lia).
  match goal with
  | |- match dspmem_chunk_write ?c ?n ?v with _ => _ end = _ =>
      change (put n v c = Ok
        {| data := data ch + 4; max := max ch; bytes := bytes ch + 4;
           cache := 0; cachebits := 0;
           mem := mem ch ++ [0; w / 2 ^ 16; (w / 2 ^ 8) mod 2 ^ 8;
                             w mod 2 ^ 8] |})
  end.
  rewrite put_fill; cbn [cachebits cache data max]; try lia.
  rewrite Z.add_0_r. reflexivity.
Qed.

Lemma flush_pads_with_zero_bits_witness :
  Forall field_ok [(8, 0xAB); (12, 0xCDE)] /\
  0 < field_bits [(8, 0xAB); (12, 0xCDE)] < 24 /\
  aligned (dspmem_chunk_create 4) /\
  data (dspmem_chunk_create 4) <> max (dspmem_chunk_create 4) /\
  (ch' <- put_all [(8, 0xAB); (12, 0xCDE)] (dspmem_chunk_create 4) ;;
   put_flush ch') =
    Ok {| data := 4; max := 4; bytes := 4; cache := 0; cachebits := 0;
          mem := [0; 0xAB; 0xCD; 0xE0] |}.
Proof.
  assert (H1 : Forall field_ok [(8, 0xAB); (12, 0xCDE)])
    by (repeat constructor; cbn; lia).
  assert (H2 : 0 < field_bits [(8, 0xAB); (12, 0xCDE)] < 24)
    by (cbn; lia).
  assert (H3 : aligned (dspmem_chunk_create 4)) by (split; reflexivity).
  assert (H4 : data (dspmem_chunk_create 4) <> max (dspmem_chunk_create 4))
    by (cbn; lia).
  refine (conj H1 (conj H2 (conj H3 (conj H4 _)))).
  exact (flush_pads_with_zero_bits _ _ H1 H2 H3 H4).
Defined.

(** ** Composite strings *)

Lemma pwle_bits_lower (p : wt_type12_pwle) : 124 <= pwle_bits p.
Proof.
  unfold pwle_bits.
  assert (H1 : forall l, 0 <= zsum (map pwle_section_bits l)).
  { induction l as [|s l IH]; cbn [map zsum fold_right]; [lia|].
    unfold pwle_section_bits at 1.
    destruct (Z.land (flags s) WT_TYPE12_PWLE_AMP_REG_BIT =? 0);
      unfold zsum in IH; lia. }
  assert (H2 : 0 <= pwle_metadata_bits p).
  { unfold pwle_metadata_bits.
    destruct (Z.land (feature p) WT_TYPE12_PWLE_METADATA_FLAG =? 0); [lia|].
    destruct (svc_id (svc_metadata p) =? WT_SVC_METADATA_ID);
      destruct (ep_id (ep_metadata p) =? WT_EP_METADATA_ID);
      destruct (ep_length (ep_metadata p) =? 1); lia. }
  specialize (H1 (firstn (Z.to_nat (nsections p)) (sections p))). lia.
Qed.

(** X8 ([wt_type10_comp_to_buffer], [wt_type10_comp_str_to_bin]).  For a
    Composite string that parses, the compiler returns the size of the
    encoding or 1152 ([WT_TYPE12_PWLE_SINGLE_PACKED_MAX]), whichever is
    smaller, and stores that many leading bytes of the encoding: an encoding
    longer than 1152 bytes is cut off and no error is reported. *)
Theorem comp_str_to_bin_truncates (bank_init : nat -> string)
    (full_str : string) (comp : wt_type10_comp) :
  wt_type10_comp_parse bank_init full_str = Ok comp ->
  let n := Z.min (comp_size comp) WT_TYPE12_PWLE_SINGLE_PACKED_MAX in
  wt_type10_comp_str_to_bin bank_init full_str =
    Ok (n, firstn (Z.to_nat n) (comp_bytes comp)).
Proof.
  intros Hp n. unfold wt_type10_comp_str_to_bin. rewrite Hp. cbn [bind].
  apply comp_to_buffer_prefix.
  - eapply comp_parse_wf; eauto.
  - unfold WT_TYPE12_PWLE_SINGLE_PACKED_MAX. lia.
  - reflexivity.
Qed.

Lemma comp_str_to_bin_truncates_witness :
  exists comp,
    wt_type10_comp_parse no_bank (long_comp 150) = Ok comp /\
    comp_size comp = 1804 /\
    wt_type10_comp_str_to_bin no_bank (long_comp 150) =
      Ok (1152, firstn 1152 (comp_bytes comp)).
Proof.
  eexists.
  assert (H1 : wt_type10_comp_parse no_bank (long_comp 150) = Ok _)
    by (vm_compute; reflexivity).
  refine (conj H1 (conj _ _)).
  - vm_compute. reflexivity.
  - exact (comp_str_to_bin_truncates no_bank (long_comp 150) _ H1).
Defined.

Lemma digit_char_punct d : is_digit d ->
  Ascii.eqb (digit_char d) "." = false /\
  Ascii.eqb (digit_char d) "[" = false /\
  Ascii.eqb (digit_char d) ";" = false /\
  isalpha (digit_char d) = false /\
  Ascii.eqb (digit_char d) zero = false.
Proof. intros H. each_digit d H; repeat split. Qed.

Lemma strstr_digits ds :
  Forall is_digit ds -> strstr (dec_string ds) "!!" = false.
Proof.
  induction 1 as [|d ds Hd Hds IH].
  - reflexivity.
  - cbn [dec_string strstr prefix].
    destruct (digit_char_facts d Hd) as (_ & _ & _ & _ & _ & Hb & _).
    rewrite IH, orb_false_r.
    destruct (ascii_dec "!" (digit_char d)) as [E|E]; [|reflexivity].
    rewrite <- E in Hb. discriminate.
Qed.

Lemma strnchr_digits ds (c : ascii) :
  Forall is_digit ds ->
  (forall d, is_digit d -> Ascii.eqb (digit_char d) c = false) ->
  Ascii.eqb zero c = false ->
  forall n, strnchr (dec_string ds) n c = false.
Proof.
  intros Hds Hc Hz. induction Hds as [|d ds Hd Hds IH]; intros [|n];
    cbn [dec_string strnchr]; try reflexivity.
  - exact Hz.
  - rewrite (Hc d Hd), IH. reflexivity.
Qed.

Lemma specifier_delay ds :
  ds <> [] -> Forall is_digit ds ->
  wt_type10_comp_specifier_get (dec_string ds) = COMP_SPEC_DELAY.
Proof.
  intros Hne Hds. unfold wt_type10_comp_specifier_get.
  rewrite strstr_digits by assumption.
  rewrite !strnchr_digits; try assumption; try reflexivity;
    try (intros d Hd; first
           [apply (digit_char_facts d Hd) | apply (digit_char_punct d Hd)]).
  destruct ds as [|d ds]; [contradiction|].
  inversion Hds as [|? ? Hd Hds']; subst.
  destruct (digit_char_facts d Hd) as (_ & _ & _ & _ & _ & Hb & Ht).
  cbn [dec_string]. unfold strcmp_eq. cbn [String.eqb]. rewrite Ht, Hb.
  reflexivity.
Qed.

Lemma strtoul_digits ds :
  ds <> [] -> Forall is_digit ds ->
  strtoul (dec_string ds) = Z.min (dec_value ds) ULONG_MAX.
Proof.
  intros Hne Hds.
  pose proof (strtoul_dec ds "" Hne Hds no_digits_empty) as H.
  replace (String.append (dec_string ds) "") with (dec_string ds) in H;
    [exact H|].
  clear. induction ds as [|d ds IH]; [reflexivity|].
  cbn [dec_string String.append]. rewrite <- IH. reflexivity.
Qed.

(** X9 ([wt_type10_comp_specifier_get], [wt_type10_comp_decode]).  A
    Composite token made of decimal digits only is a delay. It is rejected
    with [-EINVAL] when its value is 0 or above 10000 ([WT_MAX_DELAY]);
    otherwise the value becomes the delay of the current section, or of the
    next section when the current one has a delay already. *)
Theorem delay_token_range (bank0 : string) (comp : wt_type10_comp)
    (ds : list Z) :
  comp_wf comp -> comp_nsections comp < 255 ->
  ds <> [] -> Forall is_digit ds ->
  let n := dec_value ds in
  let k := comp_nsections comp in
  let k' := if delay (nth (Z.to_nat k) (comp_sections comp) zero_section) =? 0
            then k else k + 1 in
  wt_type10_comp_specifier_get (dec_string ds) = COMP_SPEC_DELAY /\
  (n = 0 \/ WT_MAX_DELAY < n ->
   wt_type10_comp_decode bank0 comp COMP_SPEC_DELAY (dec_string ds)
     = Err (- EINVAL)) /\
  (1 <= n <= WT_MAX_DELAY ->
   exists comp',
     wt_type10_comp_decode bank0 comp COMP_SPEC_DELAY (dec_string ds)
       = Ok comp' /\
     comp_nsections comp' = k' /\
     delay (nth (Z.to_nat k') (comp_sections comp') zero_section) = n).
Proof.
  intros Hwf H255 Hne Hds n k k'.
  pose proof (dec_value_bound ds Hds) as Hb. fold n in Hb.
  destruct Hwf as (Hn & Hr & Hl & Hs & Ht).
  change (2 ^ 8) with 256 in Hn. fold k in Hn, H255.
  split; [apply specifier_delay; assumption|].
  unfold wt_type10_comp_decode. fold k.
  rewrite strtoul_digits by assumption. fold n.
  unfold section_at, elem_at, WT_MAX_SECTIONS.
  destruct (Z.leb_spec 0 k); [|lia].
  destruct (Z.ltb_spec k 256); [|lia].
  cbn [andb bind].
  set (s := nth (Z.to_nat k) (comp_sections comp) zero_section) in *.
  unfold WT_MAX_DELAY.
  assert (HU : ULONG_MAX = 18446744073709551615) by reflexivity.
  split.
  - intros [E|E].
    + rewrite E. reflexivity.
    + destruct (Z.eqb_spec (Z.min n ULONG_MAX) 0) as [_|_];
        [reflexivity|].
      destruct (Z.ltb_spec 10000 (Z.min n ULONG_MAX)) as [_|X];
        [reflexivity|lia].
  - intros Hr'. rewrite Z.min_l by lia.
    destruct (Z.eqb_spec n 0) as [X|_]; [lia|].
    destruct (Z.ltb_spec 10000 n) as [X|_]; [lia|].
    assert (Hk' : 0 <= k' < 256).
    { subst k'. destruct (delay s =? 0); lia. }
    assert (Ek : (if negb (delay s =? 0) then k + 1 else k) = k').
    { subst k'. destruct (delay s =? 0); reflexivity. }
    rewrite Ek.
    destruct (Z.leb_spec 0 k'); [|lia].
    destruct (Z.ltb_spec k' 256); [|lia].
    cbn [andb bind]. eexists. split; [reflexivity|].
    cbn [set_section comp_nsections comp_sections]. unfold elem_set.
    rewrite nth_list_upd by (rewrite Hl; unfold WT_MAX_SECTIONS; lia).
    cbn [delay]. split.
    + subst k'. destruct (delay s =? 0); cbn [negb]; [reflexivity|].
      unfold u8. apply Z.mod_small. lia.
    + rewrite Z.land_comm. change 65535 with (Z.ones 16).
      rewrite Z.land_ones by lia. unfold u16.
      rewrite Z.mod_mod by lia. apply Z.mod_small. lia.
Qed.

Lemma delay_token_range_witness :
  comp_wf zero_comp /\ comp_nsections zero_comp < 255 /\
  [5; 0; 0] <> [] /\ Forall is_digit [5; 0; 0] /\
  exists comp',
    wt_type10_comp_decode EmptyString zero_comp COMP_SPEC_DELAY "500"
      = Ok comp' /\
    delay (nth 0 (comp_sections comp') zero_section) = 500.
Proof.
  assert (H1 : comp_wf zero_comp) by exact zero_comp_wf.
  assert (H2 : comp_nsections zero_comp < 255) by (cbn; lia).
  assert (H3 : [5; 0; 0] <> []) by discriminate.
  assert (H4 : Forall is_digit [5; 0; 0])
    by (repeat constructor; unfold is_digit; lia).
  refine (conj H1 (conj H2 (conj H3 (conj H4 _)))).
  destruct (delay_token_range EmptyString zero_comp [5; 0; 0] H1 H2 H3 H4)
    as (_ & _ & Hok).
  destruct (Hok ltac:(cbv; split; congruence)) as (comp' & E & _ & Hd).
  exists comp'. split; [exact E|exact Hd].
Defined.

Lemma alpha_not_space c : isalpha c = true -> isspace c = false.
Proof.
  unfold isalpha, isspace. intros H.
  apply orb_true_iff in H.
  apply orb_false_iff. split.
  - apply Z.eqb_neq. destruct H as [H|H]; apply andb_true_iff in H;
      destruct H as [H1 H2]; apply Z.leb_le in H1; lia.
  - apply andb_false_iff.
    destruct H as [H|H]; apply andb_true_iff in H; destruct H as [H1 H2];
      apply Z.leb_le in H1; right; apply Z.leb_gt; lia.
Qed.

Lemma strlen_letters l rest :
  strlen (letters l rest) = Z.of_nat (List.length l) + strlen rest.
Proof.
  unfold strlen. induction l as [|c l IH]; cbn [letters fold_right String.length List.length].
  - lia.
  - unfold letters in IH. lia.
Qed.

Lemma advance_letters l rest :
  forall n, (n <= List.length l)%nat ->
    advance n (letters l rest) = letters (skipn n l) rest.
Proof.
  induction l as [|c l IH]; intros [|n] Hn; cbn [List.length] in Hn;
    try reflexivity; try lia.
  cbn [letters fold_right advance skipn]. apply IH. lia.
Qed.

Lemma count_alpha_letters l d rest :
  all_alpha l -> isalpha d = false ->
  count_alpha (letters l (String d rest)) = List.length l.
Proof.
  intros Hl Hd. induction Hl as [|c l Hc Hl IH];
    cbn [letters fold_right count_alpha List.length].
  - rewrite Hd. reflexivity.
  - rewrite Hc. unfold letters in IH. rewrite IH. reflexivity.
Qed.

Lemma take_word_letters l rest :
  all_alpha l ->
  take_word (List.length l) (letters l rest) = (letters l EmptyString, rest).
Proof.
  induction 1 as [|c l Hc Hl IH]; cbn [List.length letters fold_right take_word].
  - destruct rest; reflexivity.
  - rewrite (alpha_not_space c Hc). unfold letters in IH. rewrite IH.
    reflexivity.
Qed.

Lemma skip_space_letters c l rest :
  isalpha c = true -> skip_space (letters (c :: l) rest) = letters (c :: l) rest.
Proof.
  intros Hc. cbn [letters fold_right skip_space].
  rewrite (alpha_not_space c Hc). reflexivity.
Qed.

Lemma dec_string_app_cons d ds rest :
  String.append (dec_string (d :: ds)) rest =
  String (digit_char d) (String.append (dec_string ds) rest).
Proof. reflexivity. Qed.

Lemma scan_u_dec ds rest :
  ds <> [] -> Forall is_digit ds -> (List.length ds <= 9)%nat ->
  (forall acc n, digits rest acc n = (acc, n, rest)) ->
  scan_u (String.append (dec_string ds) rest) = Some (dec_value ds, rest).
Proof.
  intros Hne Hds Hlen Hrest. unfold scan_u.
  destruct ds as [|d ds]; [contradiction|].
  inversion Hds as [|? ? Hd Hds']; subst.
  destruct (digit_char_facts d Hd) as (_ & _ & Hsp & Hm & Hp & _ & _).
  rewrite dec_string_app_cons. cbn [skip_space]. rewrite Hsp.
  cbn [take_sign]. rewrite Hm, Hp.
  rewrite <- dec_string_app_cons.
  rewrite (digits_dec (d :: ds) rest Hds Hrest).
  cbn [List.length Nat.add].
  pose proof (dec_value_bound (d :: ds) Hds) as Hb.
  fold (dec_value (d :: ds)).
  assert (Hsmall : dec_value (d :: ds) < 10 ^ 9).
  { apply Z.lt_le_trans with (10 ^ Z.of_nat (List.length (d :: ds))); [lia|].
    apply Z.pow_le_mono_r; lia. }
  change (10 ^ 9) with 1000000000 in Hsmall.
  assert (HU : ULONG_MAX = 18446744073709551615) by reflexivity.
  destruct (Z.ltb_spec ULONG_MAX (dec_value (d :: ds))); [lia|].
  unfold u32. rewrite Z.mod_small by (change (2 ^ 32) with 4294967296; lia).
  reflexivity.
Qed.

Lemma no_digits_dot rest :
  forall acc n, digits (String "." rest) acc n = (acc, n, String "." rest).
Proof. reflexivity. Qed.

Lemma at_eof_letters c l rest :
  isalpha c = true -> at_eof (letters (c :: l) rest) = false.
Proof.
  intros Hc. unfold at_eof. rewrite skip_space_letters by assumption.
  reflexivity.
Qed.

Lemma list_length_3 {A} (l : list A) :
  List.length l = 3%nat -> exists x y z, l = [x; y; z].
Proof.
  destruct l as [|x [|y [|z [|w l]]]]; cbn; intros H; try discriminate.
  exists x, y, z. reflexivity.
Qed.

(** The values that [sscanf(str + j, "%3s%u.%u.%u", ...)] stores for a
    token made of a bank of three letters, an index, an amplitude and,
    optionally, a duration. *)
Lemma sscanf_suuu_token x y z di da tail bank0 a0 b0 c0 :
  all_alpha [x; y; z] ->
  di <> [] -> da <> [] -> Forall is_digit di -> Forall is_digit da ->
  (List.length di <= 9)%nat -> (List.length da <= 9)%nat ->
  (forall acc n, digits tail acc n = (acc, n, tail)) ->
  let s := letters [x; y; z]
             (String.append (dec_string di)
                (String "." (String.append (dec_string da) tail))) in
  fst (sscanf_suuu s bank0 a0 b0 c0) =
    match scan_lit "." tail with
    | None => 3
    | Some t => match scan_u t with None => 3 | Some _ => 4 end
    end /\
  snd (sscanf_suuu s bank0 a0 b0 c0) =
    (letters [x; y; z] EmptyString,
     (dec_value di, dec_value da,
      match scan_lit "." tail with
      | None => c0
      | Some t => match scan_u t with None => c0 | Some (c, _) => c end
      end)).
Proof.
  intros Ha Hdi Hda Fdi Fda Ldi Lda Htail s.
  inversion Ha as [|? ? Hx Ha']; subst.
  unfold sscanf_suuu. subst s.
  rewrite at_eof_letters by assumption.
  rewrite skip_space_letters by assumption.
  change 3%nat with (List.length [x; y; z]).
  rewrite take_word_letters by assumption.
  rewrite scan_u_dec; try assumption; [|apply no_digits_dot].
  cbn [scan_lit]. change (Ascii.eqb "." ".") with true. cbv iota.
  rewrite scan_u_dec; try assumption.
  destruct (scan_lit "." tail) as [t|]; [|split; reflexivity].
  destruct (scan_u t) as [[c r]|]; split; reflexivity.
Qed.

Lemma Forall_skipn {A} (P : A -> Prop) (n : nat) (l : list A) :
  Forall P l -> Forall P (skipn n l).
Proof.
  intros H. rewrite <- (firstn_skipn n l) in H.
  apply Forall_app in H. tauto.
Qed.

Lemma land_byte (v : Z) : 0 <= v -> u8 (Z.land 0xFF v) = v mod 256.
Proof.
  intros Hv. rewrite Z.land_comm. change 255 with (Z.ones 8).
  rewrite Z.land_ones by lia. unfold u8. apply Z.mod_mod. lia.
Qed.

Lemma waveform_get_bank_general bank0 pre di da tail s :
  all_alpha pre -> (3 <= List.length pre)%nat ->
  di <> [] -> da <> [] -> Forall is_digit di -> Forall is_digit da ->
  (List.length di <= 9)%nat -> (List.length da <= 9)%nat ->
  (forall acc n, digits tail acc n = (acc, n, tail)) ->
  let dur := match scan_lit "." tail with
             | None => 0
             | Some t => match scan_u t with None => 0 | Some (c, _) => c end
             end in
  let a := dec_value da in
  wt_type10_comp_waveform_get bank0
    (letters pre (String.append (dec_string di)
                    (String "." (String.append (dec_string da) tail))))
    (Ok s) =
  if (a =? 0) || (100 <? a) then Err (- EINVAL) else
  dur' <- (if negb (dur =? 0) && negb (dur =? WT_INDEF_TIME_VAL)
           then if WT_MAX_TIME_VAL <? dur then Err (- EINVAL)
                else Ok (u32 (dur * 4))
           else Ok dur) ;;
  Ok {| sec_repeat := sec_repeat s;
        sec_flags := bank_flags (bank_of pre) (sec_flags s);
        wvfrm := {| index := dec_value di mod 256; amplitude := a;
                    duration := u16 (Z.land 0xFFFF dur') |};
        delay := delay s |}.
Proof.
  intros Hal Hlen Hdi Hda Fdi Fda Ldi Lda Htail dur a.
  destruct pre as [|c1 [|c2 [|c3 pre']]]; cbn [List.length] in Hlen; try lia.
  set (rest := String.append (dec_string di)
                 (String "." (String.append (dec_string da) tail))).
  assert (Hrest : exists d r, rest = String d r /\ isalpha d = false).
  { subst rest. destruct di as [|d di']; [contradiction|].
    inversion Fdi as [|? ? Hd _]; subst.
    eexists _, _. rewrite dec_string_app_cons. split; [reflexivity|].
    apply (digit_char_punct d Hd). }
  destruct Hrest as (d0 & r0 & Erest & Hd0).
  inversion Hal as [|? ? H1 Hal1]; subst.
  inversion Hal1 as [|? ? H2 Hal2]; subst.
  inversion Hal2 as [|? ? H3 Hal3]; subst.
  unfold wt_type10_comp_waveform_get.
  rewrite strlen_letters.
  assert (Hsl : 0 <= strlen rest) by (unfold strlen; lia).
  destruct (Z.ltb_spec (Z.of_nat (List.length (c1 :: c2 :: c3 :: pre'))
                        + strlen rest) 3) as [X|_];
    [cbn [List.length] in X; lia|].
  assert (Hap : alpha_prefix (letters (c1 :: c2 :: c3 :: pre') rest)
                = (true, 3%nat)).
  { unfold alpha_prefix, char_at. cbn [letters fold_right String.get].
    rewrite H1, H2, H3. reflexivity. }
  rewrite Hap.
  assert (Hadv : advance 3 (letters (c1 :: c2 :: c3 :: pre') rest)
                 = letters pre' rest) by reflexivity.
  rewrite Hadv, Erest, count_alpha_letters by assumption. rewrite <- Erest.
  rewrite advance_letters by (cbn [List.length]; lia).
  assert (Hl3 : List.length (skipn (List.length pre') (c1 :: c2 :: c3 :: pre'))
                = 3%nat).
  { rewrite length_skipn. cbn [List.length]. lia. }
  assert (Ha3 : all_alpha (skipn (List.length pre') (c1 :: c2 :: c3 :: pre')))
    by (apply Forall_skipn; exact Hal).
  assert (Ebank : bank_of (c1 :: c2 :: c3 :: pre') =
                  letters (skipn (List.length pre') (c1 :: c2 :: c3 :: pre'))
                    EmptyString).
  { unfold bank_of. cbn [List.length Nat.sub]. rewrite Nat.sub_0_r.
    reflexivity. }
  rewrite Ebank.
  destruct (list_length_3 _ Hl3) as (x & y & z & E3). rewrite E3 in *.
  destruct (sscanf_suuu_token x y z di da tail bank0 0 0 0 Ha3 Hdi Hda Fdi Fda
              Ldi Lda Htail) as (Ef & Es).
  fold rest in Ef, Es.
  destruct (sscanf_suuu (letters [x; y; z] rest) bank0 0 0 0)
    as [ret [bk [[i am] du]]].
  cbn [fst snd] in Ef, Es.
  assert (Hret : (ret <? 3) = false).
  { rewrite Ef. destruct (scan_lit "." tail) as [t|]; [|reflexivity].
    destruct (scan_u t); reflexivity. }
  rewrite Hret.
  inversion Es; subst bk i am du. clear Es. cbn [bind].
  fold a. fold dur.
  pose proof (dec_value_bound da Fda) as Hba. fold a in Hba.
  pose proof (dec_value_bound di Fdi) as Hbi.
  destruct ((a =? 0) || (100 <? a)) eqn:Eamp.
  { reflexivity. }
  apply orb_false_iff in Eamp. destruct Eamp as [Ea0 Ea1].
  apply Z.eqb_neq in Ea0. apply Z.ltb_ge in Ea1.
  assert (Eamp' : u8 (Z.land 0xFF a) = a).
  { rewrite land_byte by lia. apply Z.mod_small. lia. }
  assert (Eidx : u8 (Z.land 0xFF (dec_value di)) = dec_value di mod 256)
    by (apply land_byte; lia).
  assert (Eflags : forall fl,
    (if strncmp_eq
          (if negb (strncmp_eq (letters [x; y; z] EmptyString) "RAM" 3)
              && negb (strncmp_eq (letters [x; y; z] EmptyString) "ROM" 3)
              && negb (strncmp_eq (letters [x; y; z] EmptyString) "OWT" 3)
           then "RAM" else letters [x; y; z] EmptyString) "ROM" 3
     then u8 (Z.lor fl 0x40)
     else if strncmp_eq
          (if negb (strncmp_eq (letters [x; y; z] EmptyString) "RAM" 3)
              && negb (strncmp_eq (letters [x; y; z] EmptyString) "ROM" 3)
              && negb (strncmp_eq (letters [x; y; z] EmptyString) "OWT" 3)
           then "RAM" else letters [x; y; z] EmptyString) "OWT" 3
     then u8 (Z.lor fl 0x20) else fl)
    = bank_flags (letters [x; y; z] EmptyString) fl).
  { intros fl. unfold bank_flags.
    change (strncmp_eq (letters [x; y; z] EmptyString) "RAM" 3)
      with (String.eqb (letters [x; y; z] EmptyString) "RAM").
    change (strncmp_eq (letters [x; y; z] EmptyString) "ROM" 3)
      with (String.eqb (letters [x; y; z] EmptyString) "ROM").
    change (strncmp_eq (letters [x; y; z] EmptyString) "OWT" 3)
      with (String.eqb (letters [x; y; z] EmptyString) "OWT").
    destruct (String.eqb (letters [x; y; z] EmptyString) "RAM") eqn:E0;
      destruct (String.eqb (letters [x; y; z] EmptyString) "ROM") eqn:E1;
      destruct (String.eqb (letters [x; y; z] EmptyString) "OWT") eqn:E2;
      cbn [negb andb];
      change (strncmp_eq (letters [x; y; z] EmptyString) "ROM" 3)
        with (String.eqb (letters [x; y; z] EmptyString) "ROM");
      change (strncmp_eq (letters [x; y; z] EmptyString) "OWT" 3)
        with (String.eqb (letters [x; y; z] EmptyString) "OWT");
      rewrite ?E1, ?E2; reflexivity. }
  destruct (negb (dur =? 0) && negb (dur =? WT_INDEF_TIME_VAL)).
  - destruct (WT_MAX_TIME_VAL <? dur); cbn [bind]; [reflexivity|].
    rewrite Eflags, Eamp', Eidx. reflexivity.
  - cbn [bind]. rewrite Eflags, Eamp', Eidx. reflexivity.
Qed.

Lemma append_empty (s : string) : String.append s EmptyString = s.
Proof. induction s as [|c s IH]; [reflexivity|]. cbn. rewrite IH. reflexivity. Qed.

(** X10 ([wt_type10_comp_waveform_get]).  A waveform token of three or more
    letters followed by [index.amplitude] (1 to 9 digits each) is rejected
    with [-EINVAL] exactly when the amplitude is 0 or above 100. Otherwise the
    index is stored modulo 256, the duration is 0, and the bank is read from
    the last three letters before the index: ROM sets bit 0x40, OWT sets bit
    0x20, any other letters leave the flags as they are. *)
Theorem waveform_token_bank (bank0 : string) (pre : list ascii)
    (di da : list Z) (s : wt_type10_comp_section) :
  all_alpha pre -> (3 <= List.length pre)%nat ->
  di <> [] -> da <> [] -> Forall is_digit di -> Forall is_digit da ->
  (List.length di <= 9)%nat -> (List.length da <= 9)%nat ->
  let a := dec_value da in
  wt_type10_comp_waveform_get bank0
    (letters pre (String.append (dec_string di) (String "." (dec_string da))))
    (Ok s) =
  if (a =? 0) || (100 <? a) then Err (- EINVAL)
  else Ok {| sec_repeat := sec_repeat s;
             sec_flags := bank_flags (bank_of pre) (sec_flags s);
             wvfrm := {| index := dec_value di mod 256; amplitude := a;
                         duration := 0 |};
             delay := delay s |}.
Proof.
  intros Hal Hlen Hdi Hda Fdi Fda Ldi Lda a.
  pose proof (waveform_get_bank_general bank0 pre di da EmptyString s
                Hal Hlen Hdi Hda Fdi Fda Ldi Lda no_digits_empty) as H.
  cbv zeta in H. rewrite append_empty in H. rewrite H. fold a.
  destruct ((a =? 0) || (100 <? a)); reflexivity.
Qed.

Lemma waveform_token_bank_witness :
  all_alpha ["X"; "R"; "O"; "M"]%char /\
  (3 <= List.length ["X"; "R"; "O"; "M"]%char)%nat /\
  [2] <> [] /\ [1; 0; 0] <> [] /\ Forall is_digit [2] /\
  Forall is_digit [1; 0; 0] /\
  (List.length [2] <= 9)%nat /\ (List.length [1; 0; 0] <= 9)%nat /\
  wt_type10_comp_waveform_get EmptyString "XROM2.100" (Ok zero_section) =
    Ok {| sec_repeat := 0; sec_flags := 0x40;
          wvfrm := {| index := 2; amplitude := 100; duration := 0 |};
          delay := 0 |}.
Proof.
  assert (H1 : all_alpha ["X"; "R"; "O"; "M"]%char)
    by (repeat constructor).
  assert (H2 : (3 <= List.length ["X"; "R"; "O"; "M"]%char)%nat)
    by (cbn; lia).
  assert (H3 : [2] <> []) by discriminate.
  assert (H4 : [1; 0; 0] <> []) by discriminate.
  assert (H5 : Forall is_digit [2])
    by (repeat constructor; unfold is_digit; lia).
  assert (H6 : Forall is_digit [1; 0; 0])
    by (repeat constructor; unfold is_digit; lia).
  assert (H7 : (List.length [2] <= 9)%nat) by (cbn; lia).
  assert (H8 : (List.length [1; 0; 0] <= 9)%nat) by (cbn; lia).
  refine (conj H1 (conj H2 (conj H3 (conj H4 (conj H5 (conj H6
            (conj H7 (conj H8 _)))))))).
  exact (waveform_token_bank EmptyString _ _ _ zero_section
           H1 H2 H3 H4 H5 H6 H7 H8).
Defined.

(** X11 ([wt_type10_comp_waveform_get]).  With a third number [d] after the
    amplitude: 0 and 65535 ([WT_INDEF_TIME_VAL]) are stored as they are, a
    value from 1 to 16383 ([WT_MAX_TIME_VAL]) is stored as [4 * d], and any
    other value is rejected with [-EINVAL]. *)
Theorem waveform_token_duration (bank0 : string) (pre : list ascii)
    (di da dd : list Z) (s : wt_type10_comp_section) :
  all_alpha pre -> (3 <= List.length pre)%nat ->
  di <> [] -> da <> [] -> dd <> [] ->
  Forall is_digit di -> Forall is_digit da -> Forall is_digit dd ->
  (List.length di <= 9)%nat -> (List.length da <= 9)%nat ->
  (List.length dd <= 9)%nat ->
  let a := dec_value da in
  let d := dec_value dd in
  let section (dur : Z) :=
    {| sec_repeat := sec_repeat s;
       sec_flags := bank_flags (bank_of pre) (sec_flags s);
       wvfrm := {| index := dec_value di mod 256; amplitude := a;
                   duration := dur |};
       delay := delay s |} in
  wt_type10_comp_waveform_get bank0
    (letters pre
       (String.append (dec_string di)
          (String "." (String.append (dec_string da)
                         (String "." (dec_string dd))))))
    (Ok s) =
  if (a =? 0) || (100 <? a) then Err (- EINVAL)
  else if (d =? 0) || (d =? WT_INDEF_TIME_VAL) then Ok (section d)
  else if WT_MAX_TIME_VAL <? d then Err (- EINVAL)
  else Ok (section (4 * d)).
Proof.
  intros Hal Hlen Hdi Hda Hdd Fdi Fda Fdd Ldi Lda Ldd a d section.
  pose proof (waveform_get_bank_general bank0 pre di da
                (String "." (dec_string dd)) s
                Hal Hlen Hdi Hda Fdi Fda Ldi Lda (no_digits_dot _)) as H.
  cbv zeta in H. rewrite H. clear H. fold a.
  cbn [scan_lit]. change (Ascii.eqb "." ".") with true. cbv iota.
  pose proof (scan_u_dec dd EmptyString Hdd Fdd Ldd no_digits_empty) as Hs.
  rewrite append_empty in Hs. rewrite Hs. fold d.
  pose proof (dec_value_bound dd Fdd) as Hb. fold d in Hb.
  destruct ((a =? 0) || (100 <? a)); [reflexivity|].
  unfold WT_INDEF_TIME_VAL, WT_MAX_TIME_VAL.
  assert (Hm : forall v, 0 <= v < 65536 -> u16 (Z.land 65535 v) = v).
  { intros v Hv. rewrite Z.land_comm. change 65535 with (Z.ones 16).
    rewrite Z.land_ones by lia. unfold u16.
    rewrite Z.mod_mod by lia. apply Z.mod_small.
    change (2 ^ 16) with 65536. lia. }
  destruct (Z.eqb_spec d 0) as [E0|E0]; cbn [negb andb orb].
  - cbn [bind]. rewrite Hm by lia. reflexivity.
  - destruct (Z.eqb_spec d 65535) as [E1|E1]; cbn [negb].
    + cbn [bind]. rewrite Hm by lia. reflexivity.
    + destruct (Z.ltb_spec 16383 d) as [E2|E2]; cbn [bind]; [reflexivity|].
      unfold u32. rewrite (Z.mod_small (d * 4))
        by (change (2 ^ 32) with 4294967296; lia).
      rewrite Hm by lia. subst section. cbv beta.
      replace (d * 4) with (4 * d) by lia. reflexivity.
Qed.

Lemma waveform_token_duration_witness :
  all_alpha ["O"; "W"; "T"]%char /\
  (3 <= List.length ["O"; "W"; "T"]%char)%nat /\
  [7] <> [] /\ [5; 0] <> [] /\ [2; 0] <> [] /\
  Forall is_digit [7] /\ Forall is_digit [5; 0] /\ Forall is_digit [2; 0] /\
  (List.length [7] <= 9)%nat /\ (List.length [5; 0] <= 9)%nat /\
  (List.length [2; 0] <= 9)%nat /\
  wt_type10_comp_waveform_get EmptyString "OWT7.50.20" (Ok zero_section) =
    Ok {| sec_repeat := 0; sec_flags := 0x20;
          wvfrm := {| index := 7; amplitude := 50; duration := 80 |};
          delay := 0 |}.
Proof.
  assert (H1 : all_alpha ["O"; "W"; "T"]%char) by (repeat constructor).
  assert (H2 : (3 <= List.length ["O"; "W"; "T"]%char)%nat) by (cbn; lia).
  assert (H3 : [7] <> []) by discriminate.
  assert (H4 : [5; 0] <> []) by discriminate.
  assert (H5 : [2; 0] <> []) by discriminate.
  assert (H6 : Forall is_digit [7])
    by (repeat constructor; unfold is_digit; lia).
  assert (H7 : Forall is_digit [5; 0])
    by (repeat constructor; unfold is_digit; lia).
  assert (H8 : Forall is_digit [2; 0])
    by (repeat constructor; unfold is_digit; lia).
  assert (H9 : (List.length [7] <= 9)%nat) by (cbn; lia).
  assert (H10 : (List.length [5; 0] <= 9)%nat) by (cbn; lia).
  assert (H11 : (List.length [2; 0] <= 9)%nat) by (cbn; lia).
  refine (conj H1 (conj H2 (conj H3 (conj H4 (conj H5 (conj H6 (conj H7
            (conj H8 (conj H9 (conj H10 (conj H11 _))))))))))).
  exact (waveform_token_duration EmptyString _ _ _ _ zero_section
           H1 H2 H3 H4 H5 H6 H7 H8 H9 H10 H11).
Defined.

(** What one token does to the loop state of the structure. *)
Lemma decode_loops bank0 comp spec str comp' :
  wt_type10_comp_decode bank0 comp spec str = Ok comp' ->
  match spec with
  | COMP_SPEC_INNER_LOOP_START =>
      inner_loop comp = false /\ inner_loop comp' = true /\
      comp_repeat comp' = comp_repeat comp
  | COMP_SPEC_INNER_LOOP_STOP =>
      inner_loop comp = true /\ inner_loop comp' = false /\
      comp_repeat comp' = comp_repeat comp
  | COMP_SPEC_OUTER_LOOP =>
      inner_loop comp' = inner_loop comp /\ comp_repeat comp = 0 /\
      comp_repeat comp' = WT_REPEAT_LOOP_MARKER
  | COMP_SPEC_OUTER_LOOP_REPETITION =>
      inner_loop comp' = inner_loop comp /\ comp_repeat comp = 0
  | _ =>
      inner_loop comp' = inner_loop comp /\
      comp_repeat comp' = comp_repeat comp
  end.
Proof.
  unfold wt_type10_comp_decode. intros H.
  destruct spec.
  all: try (destruct (negb (comp_repeat comp =? 0)) eqn:Er;
            [discriminate|apply negb_false_iff, Z.eqb_eq in Er]).
  all: try (destruct (inner_loop comp) eqn:Ei; cbn [negb] in H;
            try discriminate).
  all: repeat match type of H with
         | (if ?c then Err _ else _) = Ok _ => destruct c; [discriminate|]
         | bind ?r _ = Ok _ =>
             let E := fresh "E" in
             destruct r eqn:E; cbn [bind] in H; [|discriminate|discriminate]
         | (let '(_, _) := ?x in _) = Ok _ =>
             let a := fresh in let b := fresh in let c := fresh in
             let d := fresh in
             destruct x as [a [[b c] d]]
         end.
  all: try (apply Ok_inj in H; subst comp';
            cbn [inner_loop comp_repeat set_section]; auto).
Qed.

Lemma comp_loop_loops bank_init toks :
  forall n comp comp',
    comp_loop bank_init n toks comp = Ok comp' ->
    loops_balanced (inner_loop comp) (map wt_type10_comp_specifier_get toks)
    = negb (inner_loop comp').
Proof.
  induction toks as [|tok toks IH]; intros n comp comp' H.
  - cbn [comp_loop] in H. apply Ok_inj in H. subst comp'. reflexivity.
  - cbn [comp_loop] in H.
    destruct (wt_type10_comp_decode _ _ _ _) as [c| |] eqn:E;
      cbn [bind] in H; [|discriminate|discriminate].
    apply decode_loops in E. apply IH in H.
    cbn [map loops_balanced].
    destruct (wt_type10_comp_specifier_get tok);
      try (destruct E as (E1 & E2 & _)); try (destruct E as (E1 & E2));
      try (rewrite <- E1; exact H);
      rewrite E1; rewrite E2 in H; exact H.
Qed.

(** X12 ([wt_type10_comp_decode], [wt_type10_comp_str_to_bin]).  In a
    Composite string that parses, the inner-loop markers alternate: every
    start [!!] is followed by a stop [n!!] before the next start, no stop
    comes without a start, and no loop is open at the end. *)
Theorem comp_inner_loops_balanced (bank_init : nat -> string)
    (full_str : string) (comp : wt_type10_comp) :
  wt_type10_comp_parse bank_init full_str = Ok comp ->
  loops_balanced false
    (map wt_type10_comp_specifier_get (comp_tokens full_str)) = true.
Proof.
  unfold wt_type10_comp_parse. fold (comp_tokens full_str). intros H.
  destruct (comp_loop _ _ _ _) as [c| |] eqn:E; cbn [bind] in H;
    [|discriminate|discriminate].
  apply comp_loop_loops in E. cbn [zero_comp inner_loop] in E.
  rewrite E. destruct (inner_loop c); [discriminate|reflexivity].
Qed.

Lemma comp_inner_loops_balanced_witness :
  exists comp,
    wt_type10_comp_parse no_bank "!!, 1.100, 2!!, 5" = Ok comp /\
    loops_balanced false
      (map wt_type10_comp_specifier_get
         (comp_tokens "!!, 1.100, 2!!, 5")) = true.
Proof.
  eexists.
  assert (H1 : wt_type10_comp_parse no_bank "!!, 1.100, 2!!, 5" = Ok _)
    by (vm_compute; reflexivity).
  refine (conj H1 _).
  exact (comp_inner_loops_balanced no_bank _ _ H1).
Defined.

Lemma comp_loop_repeat bank_init toks :
  forall n comp comp',
    comp_loop bank_init n toks comp = Ok comp' ->
    comp_repeat comp = WT_REPEAT_LOOP_MARKER ->
    existsb is_outer (map wt_type10_comp_specifier_get toks) = false.
Proof.
  induction toks as [|tok toks IH]; intros n comp comp' H Hr; [reflexivity|].
  cbn [comp_loop] in H.
  destruct (wt_type10_comp_decode _ _ _ _) as [c| |] eqn:E;
    cbn [bind] in H; [|discriminate|discriminate].
  apply decode_loops in E. cbn [map existsb].
  destruct (wt_type10_comp_specifier_get tok); cbn [is_outer orb];
    try (destruct E as (_ & E0 & _); rewrite Hr in E0; discriminate E0);
    try (destruct E as (_ & E0); rewrite Hr in E0; discriminate E0).
  all: apply (IH _ _ _ H).
  all: try (destruct E as (_ & _ & E2); congruence).
  all: destruct E as (_ & E2); congruence.
Qed.

(** X13 ([wt_type10_comp_decode], [wt_type10_comp_str_to_bin]).  In a
    Composite string that parses, no outer-loop marker ([~] or [n!]) comes
    after a [~] token, and the repeat field of the result is the loop-forever
    value ([WT_REPEAT_LOOP_MARKER]). *)
Theorem comp_outer_loop_marker_is_last (bank_init : nat -> string)
    (full_str : string) (comp : wt_type10_comp) (before after : list string)
    (tok : string) :
  wt_type10_comp_parse bank_init full_str = Ok comp ->
  comp_tokens full_str = before ++ tok :: after ->
  wt_type10_comp_specifier_get tok = COMP_SPEC_OUTER_LOOP ->
  existsb is_outer (map wt_type10_comp_specifier_get after) = false /\
  comp_repeat comp = WT_REPEAT_LOOP_MARKER.
Proof.
  unfold wt_type10_comp_parse. fold (comp_tokens full_str).
  intros H Htoks Hspec. rewrite Htoks in H.
  destruct (comp_loop _ _ _ _) as [c| |] eqn:E; cbn [bind] in H;
    [|discriminate|discriminate].
  assert (Split : forall l1 n c0 c1 l2,
            comp_loop bank_init n (l1 ++ l2) c0 = Ok c1 ->
            exists m cm, comp_loop bank_init n l1 c0 = Ok cm /\
                         comp_loop bank_init m l2 cm = Ok c1).
  { induction l1 as [|t l1 IH1]; intros n c0 c1 l2 G.
    - exists n, c0. split; [reflexivity|exact G].
    - cbn [app comp_loop] in G |- *.
      destruct (wt_type10_comp_decode _ _ _ _) as [c'| |];
        cbn [bind] in G |- *; [|discriminate|discriminate].
      apply IH1 in G. exact G. }
  apply Split in E. destruct E as (m & cm & _ & E).
  cbn [comp_loop] in E. rewrite Hspec in E.
  destruct (wt_type10_comp_decode _ _ _ _) as [c'| |] eqn:Ed;
    cbn [bind] in E; [|discriminate|discriminate].
  apply decode_loops in Ed. destruct Ed as (_ & _ & Hr).
  split; [exact (comp_loop_repeat _ _ _ _ _ E Hr)|].
  assert (Keep : forall l n c0 c1,
            comp_loop bank_init n l c0 = Ok c1 ->
            comp_repeat c0 = WT_REPEAT_LOOP_MARKER ->
            comp_repeat c1 = WT_REPEAT_LOOP_MARKER).
  { induction l as [|t l IHl]; intros n c0 c1 G G0.
    - cbn [comp_loop] in G. apply Ok_inj in G. congruence.
    - cbn [comp_loop] in G.
      destruct (wt_type10_comp_decode _ _ _ _) as [c2| |] eqn:Ed2;
        cbn [bind] in G; [|discriminate|discriminate].
      apply decode_loops in Ed2. apply (IHl _ _ _ G).
      destruct (wt_type10_comp_specifier_get t);
        try (destruct Ed2 as (_ & E0 & _); rewrite G0 in E0; discriminate E0);
        try (destruct Ed2 as (_ & E0); rewrite G0 in E0; discriminate E0).
      all: try (destruct Ed2 as (_ & _ & E2); congruence).
      all: destruct Ed2 as (_ & E2); congruence. }
  pose proof (Keep _ _ _ _ E Hr) as Hc.
  destruct (inner_loop c); [discriminate|].
  destruct (section_at _ _) as [s| |]; cbn [bind] in H;
    [|discriminate|discriminate].
  destruct (negb (amplitude (wvfrm s) =? 0) || negb (delay s =? 0));
    apply Ok_inj in H; subst comp; exact Hc.
Qed.

Lemma comp_outer_loop_marker_is_last_witness :
  exists comp,
    wt_type10_comp_parse no_bank "1.100, ~, 500" = Ok comp /\
    comp_tokens "1.100, ~, 500" = ["1.100"] ++ "~" :: ["500"] /\
    wt_type10_comp_specifier_get "~" = COMP_SPEC_OUTER_LOOP /\
    comp_repeat comp = 255.
Proof.
  eexists.
  assert (H1 : wt_type10_comp_parse no_bank "1.100, ~, 500" = Ok _)
    by (vm_compute; reflexivity).
  assert (H2 : comp_tokens "1.100, ~, 500" = ["1.100"] ++ "~" :: ["500"])
    by (vm_compute; reflexivity).
  assert (H3 : wt_type10_comp_specifier_get "~" = COMP_SPEC_OUTER_LOOP)
    by reflexivity.
  refine (conj H1 (conj H2 (conj H3 _))).
  exact (proj2 (comp_outer_loop_marker_is_last no_bank _ _ _ _ _ H1 H2 H3)).
Defined.

(** ** Numbers in PWLE strings *)

Lemma fden_pos (x : float) : 0 < fden x.
Proof.
  unfold fden. destruct (Z.leb_spec 0 (fe x)); [lia|].
  apply Z.pow_pos_nonneg; lia.
Qed.

Lemma round_half_even_exact (q d : Z) :
  0 < d -> round_half_even (q * d) d = q.
Proof.
  intros Hd. unfold round_half_even.
  rewrite Z.mod_mul, Z.div_mul by lia.
  destruct (Z.ltb_spec (2 * 0) d); [reflexivity|lia].
Qed.

(** An integer below 2^24 is a binary32 number: rounding leaves it as it
    is. *)
Lemma round_pos_exact (a k : Z) :
  0 < a < 2 ^ 24 -> 0 <= k ->
  exists x,
    round_pos (a * 2 ^ k) (2 ^ k) = R_val x false false /\
    fnum x = a * fden x.
Proof.
  intros Ha Hk.
  assert (Hp : 0 < 2 ^ k) by (apply Z.pow_pos_nonneg; lia).
  unfold round_pos. cbv zeta.
  destruct (Z.eqb_spec (a * 2 ^ k) 0) as [X|_]; [nia|].
  assert (HL : 0 <= Z.log2 a < 24).
  { split; [apply Z.log2_nonneg|]. apply Z.log2_lt_pow2; lia. }
  assert (Hlog : 2 ^ Z.log2 a <= a < 2 ^ (Z.log2 a + 1)).
  { replace (Z.log2 a + 1) with (Z.succ (Z.log2 a)) by lia.
    apply Z.log2_spec. lia. }
  assert (He : floor_log2 (a * 2 ^ k) (2 ^ k) = Z.log2 a).
  { unfold floor_log2.
    rewrite Z.log2_mul_pow2 by lia. rewrite Z.log2_pow2 by lia.
    replace (k + Z.log2 a - k) with (Z.log2 a) by lia.
    destruct (Z.leb_spec 0 (Z.log2 a)); [|lia].
    destruct (Z.ltb_spec (a * 2 ^ k) (2 ^ k * 2 ^ Z.log2 a)); [nia|reflexivity]. }
  rewrite He. set (L := Z.log2 a) in *.
  rewrite Z.max_l by lia.
  destruct (Z.leb_spec 0 (L - 23)) as [H0|H0].
  - (* 2^23 <= a *)
    assert (L = 23) by lia.
    replace (L - 23) with 0 by lia. change (2 ^ 0) with 1.
    rewrite !Z.mul_1_r. rewrite round_half_even_exact by lia.
    cbn [andb].
    destruct (Z.leb_spec (2 ^ 128) a) as [X|_].
    { change (2 ^ 24) with 16777216 in Ha.
      change (2 ^ 128) with 340282366920938463463374607431768211456 in X. lia. }
    eexists. split.
    + f_equal.
      * unfold rat_eqb, fnum, fden. cbn [fm fe]. change (0 <=? 0) with true. cbv iota.
        change (2 ^ 0) with 1. rewrite !Z.mul_1_r.
        rewrite Z.eqb_refl. reflexivity.
      * apply Z.ltb_ge. lia.
    + unfold fnum, fden. cbn [fm fe]. change (0 <=? 0) with true. cbv iota. change (2 ^ 0) with 1. lia.
  - cbn [andb].
    replace (a * 2 ^ k * 2 ^ (- (L - 23)))
      with (a * 2 ^ (23 - L) * 2 ^ k)
      by (replace (- (L - 23)) with (23 - L) by lia; ring).
    rewrite round_half_even_exact by lia.
    assert (Hq : 0 < 2 ^ (23 - L)) by (apply Z.pow_pos_nonneg; lia).
    eexists. split.
    + f_equal.
      * unfold rat_eqb, fnum, fden. cbn [fm fe].
        destruct (Z.leb_spec 0 (L - 23)); [lia|].
        replace (- (L - 23)) with (23 - L) by lia.
        apply negb_false_iff, Z.eqb_eq. ring.
      * apply Z.ltb_ge. lia.
    + unfold fnum, fden. cbn [fm fe].
      destruct (Z.leb_spec 0 (L - 23)); [lia|].
      replace (- (L - 23)) with (23 - L) by lia. reflexivity.
Qed.

Lemma fden_pow2 (x : float) : exists k, 0 <= k /\ fden x = 2 ^ k.
Proof.
  unfold fden. destruct (Z.leb_spec 0 (fe x)).
  - exists 0. split; [lia|reflexivity].
  - exists (- fe x). split; [lia|reflexivity].
Qed.

Lemma round_rat_exact (a d : Z) :
  0 <= a < 2 ^ 24 -> (exists k, 0 <= k /\ d = 2 ^ k) ->
  exists x, round_rat (a * d) d = R_val x false false /\ fnum x = a * fden x.
Proof.
  intros Ha (k & Hk & ->).
  assert (Hp : 0 < 2 ^ k) by (apply Z.pow_pos_nonneg; lia).
  unfold round_rat. destruct (Z.leb_spec 0 (a * 2 ^ k)); [|nia].
  destruct (Z.eq_dec a 0) as [->|Hz].
  - exists float_zero. split; reflexivity.
  - apply round_pos_exact; lia.
Qed.

Lemma strtof_integer (ds : list Z) :
  ds <> [] -> Forall is_digit ds -> dec_value ds < 2 ^ 24 ->
  exists x, strtof (dec_string ds) = F_val x /\
            fnum x = dec_value ds * fden x.
Proof.
  intros Hne Hds Hv.
  pose proof (dec_value_bound ds Hds) as Hb.
  destruct (round_rat_exact (dec_value ds) 1) as (x & Ex & Hx);
    [lia|exists 0; split; [lia|reflexivity]|].
  rewrite Z.mul_1_r in Ex.
  exists x. split; [|exact Hx].
  unfold strtof.
  pose proof (digits_dec ds EmptyString Hds no_digits_empty 0 0%nat) as Hd.
  rewrite append_empty in Hd. fold (dec_value ds) in Hd.
  destruct ds as [|d ds']; [contradiction|].
  inversion Hds as [|? ? Hd0 Hds']; subst.
  assert (Hpre : skip_space (dec_string (d :: ds')) = dec_string (d :: ds') /\
                 take_sign (dec_string (d :: ds')) =
                   (false, dec_string (d :: ds')) /\
                 prefix "inf" (lower (dec_string (d :: ds'))) = false /\
                 prefix "nan" (lower (dec_string (d :: ds'))) = false /\
                 prefix "0x" (lower (dec_string (d :: ds'))) = false).
  { destruct ds' as [|d1 ds'']; [each_digit d Hd0; repeat split|].
    inversion Hds' as [|? ? Hd1 _]; subst.
    each_digit d Hd0; try (repeat split; fail);
      each_digit d1 Hd1; repeat split. }
  destruct Hpre as (P1 & P2 & P3 & P4 & P5).
  rewrite P1, P2, P3, P4, P5, Hd.
  cbn [List.length Nat.add exponent_part].
  change (0 - Z.of_nat 0) with 0. change (0 <=? 0) with true. cbv iota.
  change (10 ^ 0) with 1. rewrite Z.mul_1_r, Ex. reflexivity.
Qed.

Lemma fmul_int_exact (x : float) (v scale : Z) :
  fnum x = v * fden x -> 0 <= v * scale < 2 ^ 24 ->
  exists y, fmul_int x scale = Some y /\ fnum y = v * scale * fden y.
Proof.
  intros Hx Hr. unfold fmul_int. rewrite Hx.
  replace (v * fden x * scale) with (v * scale * fden x) by ring.
  destruct (round_rat_exact (v * scale) (fden x) Hr (fden_pow2 x))
    as (y & Ey & Hy).
  rewrite Ey. exists y. split; [reflexivity|exact Hy].
Qed.

Lemma roundf_int_exact (y : float) (a : Z) :
  fnum y = a * fden y -> 0 <= a -> roundf_int y = a.
Proof.
  intros Hy Ha. pose proof (fden_pos y) as Hd.
  unfold roundf_int. rewrite Hy.
  destruct (Z.ltb_spec (a * fden y) 0); [nia|].
  rewrite Z.abs_eq by nia.
  symmetry. apply (Z.div_unique _ _ a (fden y)); [lia|ring].
Qed.

Lemma parse_float_integer_aux (ds : list Z) (scale : Z) (min max : float) :
  ds <> [] -> Forall is_digit ds ->
  let v := dec_value ds in
  v < 2 ^ 24 -> 0 <= scale -> v * scale < 2 ^ 24 ->
  parse_float (Some (dec_string ds)) scale min max =
    if (v * fden min <? fnum min) || (fnum max <? v * fden max)
    then Err (- ERANGE) else Ok (v * scale).
Proof.
  intros Hne Hds v Hv Hs Hvs.
  pose proof (dec_value_bound ds Hds) as Hb. fold v in Hb.
  destruct (strtof_integer ds Hne Hds Hv) as (x & Ex & Hx). fold v in Hx.
  unfold parse_float. rewrite Ex.
  pose proof (fden_pos x) as Dx. pose proof (fden_pos min) as Dmin.
  pose proof (fden_pos max) as Dmax.
  assert (E1 : float_ltb x min = (v * fden min <? fnum min)).
  { unfold float_ltb, rat_ltb. rewrite Hx.
    destruct (Z.ltb_spec (v * fden x * fden min) (fnum min * fden x));
      destruct (Z.ltb_spec (v * fden min) (fnum min)); try reflexivity; nia. }
  assert (E2 : float_ltb max x = (fnum max <? v * fden max)).
  { unfold float_ltb, rat_ltb. rewrite Hx.
    destruct (Z.ltb_spec (fnum max * fden x) (v * fden x * fden max));
      destruct (Z.ltb_spec (fnum max) (v * fden max)); try reflexivity; nia. }
  rewrite E1, E2.
  destruct ((v * fden min <? fnum min) || (fnum max <? v * fden max));
    [reflexivity|].
  destruct (fmul_int_exact x v scale Hx ltac:(nia)) as (y & Ey & Hy).
  rewrite Ey, (roundf_int_exact y (v * scale) Hy ltac:(nia)). reflexivity.
Qed.

(** X14 ([parse_float]).  For a string of decimal digits of value [v < 2^24]
    and a scale [>= 0] with [v * scale < 2^24], the binary32 computation is
    exact: the call fails with [-ERANGE] exactly when [v] is below the minimum
    or above the maximum, and otherwise yields [v * scale]. *)
Theorem parse_float_integer (ds : list Z) (scale : Z) (min max : float) :
  ds <> [] -> Forall is_digit ds ->
  let v := dec_value ds in
  v < 2 ^ 24 -> 0 <= scale -> v * scale < 2 ^ 24 ->
  parse_float (Some (dec_string ds)) scale min max =
    if (v * fden min <? fnum min) || (fnum max <? v * fden max)
    then Err (- ERANGE) else Ok (v * scale).
Proof. exact (parse_float_integer_aux ds scale min max). Qed.

Lemma parse_float_integer_witness :
  [4; 0; 0] <> [] /\ Forall is_digit [4; 0; 0] /\
  dec_value [4; 0; 0] < 2 ^ 24 /\ 0 <= 4 /\ dec_value [4; 0; 0] * 4 < 2 ^ 24 /\
  parse_float (Some "400") 4 (fconst 0 1) (fconst 1638375 100) = Ok 1600.
Proof.
  assert (H1 : [4; 0; 0] <> []) by discriminate.
  assert (H2 : Forall is_digit [4; 0; 0])
    by (repeat constructor; unfold is_digit; lia).
  assert (H3 : dec_value [4; 0; 0] < 2 ^ 24) by reflexivity.
  assert (H4 : 0 <= 4) by lia.
  assert (H5 : dec_value [4; 0; 0] * 4 < 2 ^ 24) by reflexivity.
  refine (conj H1 (conj H2 (conj H3 (conj H4 (conj H5 _))))).
  exact (parse_float_integer [4; 0; 0] 4 (fconst 0 1) (fconst 1638375 100)
           H1 H2 H3 H4 H5).
Defined.

(** X15 ([wt_type12_pwle_time_entry]).  A time of 1 to 6 decimal digits and
    value [t] is rejected with [-ERANGE] exactly when [t > 16383]; otherwise
    the section time becomes [4 * t], the total length grows by [4 * t] (as a
    32-bit number) and the indefinite mark is left as it was. *)
Theorem pwle_time_entry_integer (pwle : wt_type12_pwle) (ds : list Z)
    (section : wt_type12_pwle_section) (indef : bool) :
  ds <> [] -> Forall is_digit ds -> (List.length ds <= 6)%nat ->
  let t := dec_value ds in
  wt_type12_pwle_time_entry pwle (Some (dec_string ds)) section indef =
    if 16383 <? t then Err (- ERANGE)
    else Ok (set_wlength pwle (u32 (wlength pwle + 4 * t)),
             mk_pwle_section (4 * t) (level section) (frequency section)
               (flags section) (vbtarget section),
             indef).
Proof.
  intros Hne Hds Hlen t.
  pose proof (dec_value_bound ds Hds) as Hb. fold t in Hb.
  assert (Ht : t < 10 ^ 6).
  { apply Z.lt_le_trans with (10 ^ Z.of_nat (List.length ds)); [lia|].
    apply Z.pow_le_mono_r; lia. }
  change (10 ^ 6) with 1000000 in Ht.
  unfold wt_type12_pwle_time_entry.
  rewrite parse_float_integer_aux; try assumption; fold t;
    try (change (2 ^ 24) with 16777216; lia).
  assert (E0 : fnum (fconst 0 1) = 0 /\ fden (fconst 0 1) = 1)
    by (split; vm_compute; reflexivity).
  assert (Emax : fnum (fconst 1638375 100) = 16776960 /\
                 fden (fconst 1638375 100) = 1024)
    by (split; vm_compute; reflexivity).
  destruct E0 as (-> & ->). destruct Emax as (-> & ->).
  destruct (Z.ltb_spec (t * 1) 0); [lia|]. cbn [orb].
  destruct (Z.ltb_spec 16776960 (t * 1024));
    destruct (Z.ltb_spec 16383 t); try lia; [reflexivity|].
  cbn [bind time].
  unfold WT_TYPE12_PWLE_INDEF_TIME_VAL.
  destruct (Z.eqb_spec (t * 4) 65535); [lia|].
  unfold u16 at 1 2. rewrite Z.mod_small by (change (2 ^ 16) with 65536; lia).
  replace (t * 4) with (4 * t) by lia. reflexivity.
Qed.

Lemma pwle_time_entry_integer_witness :
  [4; 0; 0] <> [] /\ Forall is_digit [4; 0; 0] /\
  (List.length [4; 0; 0] <= 6)%nat /\
  wt_type12_pwle_time_entry (zero_pwle 0) (Some "400") zero_pwle_section false
  = Ok (set_wlength (zero_pwle 0) 1600,
        mk_pwle_section 1600 0 0 0 0, false).
Proof.
  assert (H1 : [4; 0; 0] <> []) by discriminate.
  assert (H2 : Forall is_digit [4; 0; 0])
    by (repeat constructor; unfold is_digit; lia).
  assert (H3 : (List.length [4; 0; 0] <= 6)%nat) by (cbn; lia).
  refine (conj H1 (conj H2 (conj H3 _))).
  exact (pwle_time_entry_integer (zero_pwle 0) [4; 0; 0] zero_pwle_section
           false H1 H2 H3).
Defined.

Lemma atoi_digits (ds : list Z) :
  ds <> [] -> Forall is_digit ds -> dec_value ds < 2 ^ 31 ->
  atoi (Some (dec_string ds)) = Ok (dec_value ds).
Proof.
  intros Hne Hds Hv.
  pose proof (dec_value_bound ds Hds) as Hb.
  unfold atoi. f_equal.
  assert (E : strtol (dec_string ds) = dec_value ds).
  { unfold strtol.
    pose proof (digits_dec ds EmptyString Hds no_digits_empty 0 0%nat) as Hd.
    rewrite append_empty in Hd. fold (dec_value ds) in Hd.
    destruct ds as [|d ds']; [contradiction|].
    inversion Hds as [|? ? Hd0 Hds']; subst.
    destruct (digit_char_facts d Hd0) as (_ & _ & Hsp & Hm & Hp & _).
    cbn [dec_string skip_space]. rewrite Hsp.
    unfold take_sign. rewrite Hm, Hp.
    change (String (digit_char d) (dec_string ds'))
      with (dec_string (d :: ds')).
    rewrite Hd. cbn [List.length Nat.add].
    assert (HL : LONG_MAX = 9223372036854775807) by reflexivity.
    destruct (Z.ltb_spec LONG_MAX (dec_value (d :: ds'))); [|reflexivity].
    change (2 ^ 31) with 2147483648 in Hv. lia. }
  rewrite E. unfold s32.
  change (2 ^ 31) with 2147483648 in *. change (2 ^ 32) with 4294967296.
  rewrite Z.mod_small by lia. lia.
Qed.

(** X16 ([wt_type12_pwle_freq_entry]).  A frequency of 1 to 6 decimal digits
    and value [f] is stored as [4 * f]. With the relative setting 0 it is
    rejected with [-ERANGE] exactly when [f > 1023], and the EXT_FREQ bit is
    set; 0, which is below the minimum 0.25, is accepted all the same because
    [atoi] reads it as 0. With the setting 1 it is rejected exactly when [f >
    511], and the REL_FREQ bit is set. *)
Theorem pwle_freq_entry_integer (ds : list Z) (relative : bool)
    (section : wt_type12_pwle_section) :
  ds <> [] -> Forall is_digit ds -> (List.length ds <= 6)%nat ->
  0 <= flags section < 2 ^ 8 ->
  let f := dec_value ds in
  wt_type12_pwle_freq_entry (Some (if relative then "1" else "0"))
    (Some (dec_string ds)) section =
    if (if relative then 511 else 1023) <? f then Err (- ERANGE)
    else Ok (mk_pwle_section (time section) (level section) (4 * f)
               (Z.lor (flags section)
                  (if relative then WT_TYPE12_PWLE_REL_FREQ_BIT
                   else WT_TYPE12_PWLE_EXT_FREQ_BIT))
               (vbtarget section)).
Proof.
  intros Hne Hds Hlen Hfl f.
  pose proof (dec_value_bound ds Hds) as Hb. fold f in Hb.
  assert (Hf : f < 10 ^ 6).
  { apply Z.lt_le_trans with (10 ^ Z.of_nat (List.length ds)); [lia|].
    apply Z.pow_le_mono_r; lia. }
  change (10 ^ 6) with 1000000 in Hf.
  assert (Ha : atoi (Some (dec_string ds)) = Ok f)
    by (apply atoi_digits; try assumption; fold f;
        change (2 ^ 31) with 2147483648; lia).
  assert (Hu8 : forall b, b = 8 \/ b = 16 ->
                 u8 (Z.lor (flags section) b) = Z.lor (flags section) b).
  { intros b Hbb. unfold u8. apply Z.mod_small. split.
    - apply Z.lor_nonneg. lia.
    - assert (Hlog : forall x, 0 <= x < 2 ^ 8 -> Z.log2 x < 8).
      { intros x Hx. destruct (Z.eq_dec x 0) as [->|]; [reflexivity|].
        apply Z.log2_lt_pow2; lia. }
      destruct (Z.eq_dec (Z.lor (flags section) b) 0) as [->|Hz];
        [reflexivity|].
      apply Z.log2_lt_pow2; [pose proof (Z.lor_nonneg (flags section) b); lia|].
      rewrite Z.log2_lor by lia.
      specialize (Hlog _ Hfl).
      destruct Hbb as [-> | ->]; change (Z.log2 8) with 3;
        change (Z.log2 16) with 4; lia. }
  unfold wt_type12_pwle_freq_entry.
  assert (E25 : fnum (fconst 25 100) = 8388608 /\
                fden (fconst 25 100) = 33554432)
    by (split; vm_compute; reflexivity).
  assert (Emax0 : fnum (fconst 102375 100) = 16773120 /\
                  fden (fconst 102375 100) = 16384)
    by (split; vm_compute; reflexivity).
  assert (Emin1 : fnum (fconst (-512) 1) = -8388608 /\
                  fden (fconst (-512) 1) = 16384)
    by (split; vm_compute; reflexivity).
  assert (Emax1 : fnum (fconst 51175 100) = 16769024 /\
                  fden (fconst 51175 100) = 32768)
    by (split; vm_compute; reflexivity).
  destruct relative.
  - change (atoi (Some "1")) with (Ok 1 : result Z). cbn [bind].
    change (1 =? 0) with false. change (1 =? 1) with true. cbv iota.
    rewrite parse_float_integer_aux; try assumption; fold f;
      try (change (2 ^ 24) with 16777216; lia).
    destruct Emin1 as (-> & ->). destruct Emax1 as (-> & ->).
    destruct (Z.ltb_spec (f * 16384) (-8388608)); [lia|]. cbn [orb].
    destruct (Z.ltb_spec 16769024 (f * 32768));
      destruct (Z.ltb_spec 511 f); try lia; [reflexivity|].
    cbn [bind]. rewrite Hu8 by (left; reflexivity).
    unfold u16. rewrite Z.mod_small by (change (2 ^ 16) with 65536; lia).
    replace (f * 4) with (4 * f) by lia. reflexivity.
  - change (atoi (Some "0")) with (Ok 0 : result Z). cbn [bind].
    change (0 =? 0) with true. cbv iota.
    rewrite parse_float_integer_aux; try assumption; fold f;
      try (change (2 ^ 24) with 16777216; lia).
    destruct E25 as (-> & ->). destruct Emax0 as (-> & ->).
    rewrite Ha. cbn [bind].
    rewrite Hu8 by (right; reflexivity).
    destruct (Z.ltb_spec (f * 33554432) 8388608) as [Hlo|Hlo].
    + (* f = 0: out of range, and [atoi] gives 0 *)
      assert (f = 0) by lia. cbn [orb].
      replace (f =? 0) with true by (symmetry; apply Z.eqb_eq; assumption).
      cbn [bind].
      destruct (Z.ltb_spec 1023 f); [lia|].
      replace (4 * f) with 0 by lia. reflexivity.
    + cbn [orb].
      destruct (Z.ltb_spec 16773120 (f * 16384));
        destruct (Z.ltb_spec 1023 f); try lia.
      * replace (f =? 0) with false by (symmetry; apply Z.eqb_neq; lia).
        reflexivity.
      * cbn [bind].
        unfold u16. rewrite Z.mod_small by (change (2 ^ 16) with 65536; lia).
        replace (f * 4) with (4 * f) by lia. reflexivity.
Qed.

Lemma pwle_freq_entry_integer_witness :
  [2; 0; 0] <> [] /\ Forall is_digit [2; 0; 0] /\
  (List.length [2; 0; 0] <= 6)%nat /\
  0 <= flags zero_pwle_section < 2 ^ 8 /\
  wt_type12_pwle_freq_entry (Some "0") (Some "200") zero_pwle_section
  = Ok (mk_pwle_section 0 0 800 16 0).
Proof.
  assert (H1 : [2; 0; 0] <> []) by discriminate.
  assert (H2 : Forall is_digit [2; 0; 0])
    by (repeat constructor; unfold is_digit; lia).
  assert (H3 : (List.length [2; 0; 0] <= 6)%nat) by (cbn; lia).
  assert (H4 : 0 <= flags zero_pwle_section < 2 ^ 8) by (cbn; lia).
  refine (conj H1 (conj H2 (conj H3 (conj H4 _)))).
  exact (pwle_freq_entry_integer [2; 0; 0] false zero_pwle_section
           H1 H2 H3 H4).
Defined.

(** ** PWLE strings *)

Lemma ep_length_entry_fails pwle token p :
  wt_type12_pwle_ep_length_entry pwle token <> Ok p.
Proof.
  unfold wt_type12_pwle_ep_length_entry. intros H.
  destruct (atoi token) as [val| |]; cbn [bind] in H; try discriminate.
  destruct (Z.eqb_spec val 1) as [E1|E1]; destruct (Z.eqb_spec val 0) as [E0|E0];
    cbn [negb orb] in H; try discriminate. lia.
Qed.

Lemma pwle_token_slot st tok st' :
  pwle_token st tok = Ok st' ->
  v_num_vals st < WT_TYPE12_PWLE_TOTAL_VALS /\
  (forall k, header_slot (tok_spec tok) = Some k -> v_num_vals st = k) /\
  tok_spec tok <> PWLE_SPEC_EP_LENGTH.
Proof.
  unfold pwle_token. intros H.
  destruct (Z.leb_spec WT_TYPE12_PWLE_TOTAL_VALS (v_num_vals st));
    [discriminate|].
  split; [assumption|].
  unfold tok_spec, tok_key.
  destruct (strsep tok ":") as [key str]. cbn [fst snd].
  destruct (pwle_switch st (wt_type12_pwle_specifier_get key) str)
    as [st1| |] eqn:E; cbn [bind] in H; try discriminate.
  clear H. unfold pwle_switch in E.
  destruct (wt_type12_pwle_specifier_get key); cbn [header_slot];
    cbv beta zeta in E; (split; [intros k Hk|]); try discriminate.
  all: try (injection Hk as Hk; subst k).
  all: match type of E with
       | context [negb (?a =? ?b)] =>
           destruct (Z.eqb_spec a b) as [X|X]; cbn [negb] in E;
           [|discriminate E]
       end.
  all: try exact X.
  intros _.
  destruct (wt_type12_pwle_ep_length_entry (v_pwle st) str) as [p| |] eqn:Ep;
    cbn [bind] in E; try discriminate.
  exact (ep_length_entry_fails _ _ _ Ep).
Qed.

Lemma elem_at_range {A} (d : A) (l : list A) (k : Z) (x : A) :
  elem_at d l k = Ok x -> 0 <= k < WT_MAX_SECTIONS.
Proof.
  unfold elem_at.
  destruct (Z.leb_spec 0 k); destruct (Z.ltb_spec k WT_MAX_SECTIONS);
    cbn [andb]; intros G; try discriminate. lia.
Qed.

Lemma pwle_token_flags st tok st' :
  pwle_token st tok = Ok st' ->
  v_num_segs st' =
    v_num_segs st + (if has_spec PWLE_SPEC_VBT tok then 1 else 0) /\
  (has_spec PWLE_SPEC_VBT tok = true ->
   0 <= v_num_segs st' < WT_MAX_SECTIONS) /\
  (v_t st' = true -> v_t st = true \/ has_spec PWLE_SPEC_TIME tok = true) /\
  (v_l st' = true -> v_l st = true \/ has_spec PWLE_SPEC_LEVEL tok = true) /\
  (v_f st' = true -> v_f st = true \/ has_spec PWLE_SPEC_FREQ tok = true) /\
  (v_c st' = true -> v_c st = true \/ has_spec PWLE_SPEC_CHIRP tok = true) /\
  (v_b st' = true -> v_b st = true \/ has_spec PWLE_SPEC_BRAKE tok = true) /\
  (v_a st' = true -> v_a st = true \/ has_spec PWLE_SPEC_AR tok = true) /\
  (v_v st' = true -> v_v st = true \/ has_spec PWLE_SPEC_VBT tok = true) /\
  (v_r st' = true -> v_r st = true \/ has_spec PWLE_SPEC_RELFREQ tok = true).
Proof.
  unfold pwle_token. intros H.
  destruct (WT_TYPE12_PWLE_TOTAL_VALS <=? v_num_vals st); [discriminate|].
  unfold has_spec, tok_spec, tok_key.
  destruct (strsep tok ":") as [key str]. cbn [fst snd].
  destruct (pwle_switch st (wt_type12_pwle_specifier_get key) str)
    as [st1| |] eqn:E; cbn [bind] in H; try discriminate.
  apply Ok_inj in H; subst st'.
  cbn [v_num_segs v_t v_l v_f v_c v_b v_a v_v v_r].
  unfold pwle_switch in E.
  destruct (wt_type12_pwle_specifier_get key);
    cbn [spec_code Z.eqb Pos.eqb];
    unfold_entries E; inv_ok; simpl_locals.
  all: repeat match goal with
       | H : cur_section _ = Ok _ |- _ =>
           unfold cur_section, pwle_section_at in H; cbn [v_num_segs] in H;
           apply elem_at_range in H
       end.
  all: repeat match goal with
       | |- _ /\ _ => split
       end.
  all: try (intros; discriminate).
  all: try lia.
  all: auto.
Qed.

Lemma count_spec_cons spec tok toks :
  count_spec spec (tok :: toks) =
  (if has_spec spec tok then 1 else 0) + count_spec spec toks.
Proof.
  unfold count_spec. cbn [filter].
  destruct (has_spec spec tok); cbn [List.length]; lia.
Qed.

Lemma count_spec_nonneg spec toks : 0 <= count_spec spec toks.
Proof. unfold count_spec. lia. Qed.

Lemma pwle_loop_order toks :
  forall st st',
    pwle_loop toks st = Ok st' ->
    v_num_vals st <= WT_TYPE12_PWLE_TOTAL_VALS ->
    v_num_vals st + Z.of_nat (List.length toks) <= WT_TYPE12_PWLE_TOTAL_VALS /\
    (forall i tok k,
       nth_error toks i = Some tok -> header_slot (tok_spec tok) = Some k ->
       v_num_vals st + Z.of_nat i = k) /\
    (forall tok, In tok toks -> tok_spec tok <> PWLE_SPEC_EP_LENGTH) /\
    v_num_segs st' = v_num_segs st + count_spec PWLE_SPEC_VBT toks /\
    (0 <= v_num_segs st < WT_MAX_SECTIONS ->
     0 <= v_num_segs st' < WT_MAX_SECTIONS).
Proof.
  induction toks as [|tok toks IH]; intros st st' H Hv; cbn [pwle_loop] in H.
  - apply Ok_inj in H. subst st'. unfold count_spec.
    cbn [List.length filter].
    split; [lia|]. split; [|split; [|split]]; try lia.
    + intros [|i] tok k Hn; discriminate Hn.
    + intros tok [].
  - destruct (pwle_token st tok) as [st1| |] eqn:E; cbn [bind] in H;
      try discriminate.
    pose proof (pwle_token_effect _ _ _ E) as (En & _).
    pose proof (pwle_token_slot _ _ _ E) as (Hlt & Hslot & Hep).
    pose proof (pwle_token_flags _ _ _ E) as (Hseg & Hrange & _).
    destruct (IH _ _ H ltac:(lia)) as (I1 & I2 & I3 & I4 & I5).
    rewrite count_spec_cons. cbn [List.length].
    split; [lia|]. split; [|split; [|split]].
    + intros [|i] t k Hn Hk; cbn [nth_error] in Hn.
      * injection Hn as Hn. subst t. rewrite (Hslot k Hk). lia.
      * rewrite <- (I2 i t k Hn Hk). lia.
    + intros t [<-|Hin]; [exact Hep|exact (I3 t Hin)].
    + lia.
    + intros Hr. apply I5.
      destruct (has_spec PWLE_SPEC_VBT tok) eqn:Ev.
      * exact (Hrange eq_refl).
      * lia.
Qed.

Lemma pwle_loop_flags toks :
  forall st st',
    pwle_loop toks st = Ok st' ->
    (v_t st' = true ->
     v_t st = true \/ existsb (has_spec PWLE_SPEC_TIME) toks = true) /\
    (v_l st' = true ->
     v_l st = true \/ existsb (has_spec PWLE_SPEC_LEVEL) toks = true) /\
    (v_f st' = true ->
     v_f st = true \/ existsb (has_spec PWLE_SPEC_FREQ) toks = true) /\
    (v_c st' = true ->
     v_c st = true \/ existsb (has_spec PWLE_SPEC_CHIRP) toks = true) /\
    (v_b st' = true ->
     v_b st = true \/ existsb (has_spec PWLE_SPEC_BRAKE) toks = true) /\
    (v_a st' = true ->
     v_a st = true \/ existsb (has_spec PWLE_SPEC_AR) toks = true) /\
    (v_v st' = true ->
     v_v st = true \/ existsb (has_spec PWLE_SPEC_VBT) toks = true) /\
    (v_r st' = true ->
     v_r st = true \/ existsb (has_spec PWLE_SPEC_RELFREQ) toks = true).
Proof.
  induction toks as [|tok toks IH]; intros st st' H; cbn [pwle_loop] in H.
  - apply Ok_inj in H. subst st'. repeat split; auto.
  - destruct (pwle_token st tok) as [st1| |] eqn:E; cbn [bind] in H;
      try discriminate.
    pose proof (pwle_token_flags _ _ _ E)
      as (_ & _ & F1 & F2 & F3 & F4 & F5 & F6 & F7 & F8).
    destruct (IH _ _ H) as (G1 & G2 & G3 & G4 & G5 & G6 & G7 & G8).
    cbn [existsb].
    repeat split; intros X;
      [destruct (G1 X) as [Y|Y]; [destruct (F1 Y) as [Z|Z]|]
      |destruct (G2 X) as [Y|Y]; [destruct (F2 Y) as [Z|Z]|]
      |destruct (G3 X) as [Y|Y]; [destruct (F3 Y) as [Z|Z]|]
      |destruct (G4 X) as [Y|Y]; [destruct (F4 Y) as [Z|Z]|]
      |destruct (G5 X) as [Y|Y]; [destruct (F5 Y) as [Z|Z]|]
      |destruct (G6 X) as [Y|Y]; [destruct (F6 Y) as [Z|Z]|]
      |destruct (G7 X) as [Y|Y]; [destruct (F7 Y) as [Z|Z]|]
      |destruct (G8 X) as [Y|Y]; [destruct (F8 Y) as [Z|Z]|]];
      auto; right; rewrite ?Z, ?Y, ?orb_true_r; reflexivity.
Qed.

Lemma pwle_finish_flags st p :
  pwle_finish st = Ok p ->
  v_t st = true /\ v_l st = true /\ v_f st = true /\ v_c st = true /\
  v_b st = true /\ v_a st = true /\ v_v st = true /\ v_r st = true /\
  nsections p = u8 (v_num_segs st) /\
  nampsections p = nampsections (v_pwle st) /\
  ep_metadata p = ep_metadata (v_pwle st).
Proof.
  unfold pwle_finish. intros H.
  destruct (v_t st); destruct (v_l st); destruct (v_f st); destruct (v_c st);
    destruct (v_b st); destruct (v_a st); destruct (v_v st);
    destruct (v_r st); cbn [negb orb] in H; try discriminate.
  apply Ok_inj in H. subst p.
  destruct (v_indef st); simpl_locals; repeat split; reflexivity.
Qed.

Lemma pwle_parse_loop pwle0 full_str p :
  wt_type12_pwle_parse pwle0 full_str = Ok p ->
  exists st,
    pwle_loop (pwle_tokens full_str) (pwle_entry pwle0) = Ok st /\
    pwle_finish st = Ok p.
Proof.
  unfold wt_type12_pwle_parse. fold (pwle_tokens full_str). intros H.
  destruct (pwle_loop _ _) as [st| |] eqn:E; cbn [bind] in H;
    try discriminate.
  exists st. split; [reflexivity|exact H].
Qed.

Lemma existsb_count spec toks :
  existsb (has_spec spec) toks = true -> 1 <= count_spec spec toks.
Proof.
  induction toks as [|tok toks IH]; cbn [existsb]; [discriminate|].
  rewrite count_spec_cons. pose proof (count_spec_nonneg spec toks).
  destruct (has_spec spec tok); cbn [orb]; intros G; [lia|].
  specialize (IH G). lia.
Qed.

(** X17 ([wt_type12_pwle_str_to_bin]).  In a PWLE string that parses, a
    header key occurs only at its own position among the tokens: S at 0, WF at
    1, RP at 2, WT at 3, M at 4, K at 5, EM at 6, ET at 7 and EC at 8. *)
Theorem pwle_header_keys_in_slot (pwle0 : wt_type12_pwle) (full_str : string)
    (p : wt_type12_pwle) (i : nat) (tok : string) (k : Z) :
  wt_type12_pwle_parse pwle0 full_str = Ok p ->
  nth_error (pwle_tokens full_str) i = Some tok ->
  header_slot (tok_spec tok) = Some k ->
  Z.of_nat i = k.
Proof.
  intros H Hn Hk. destruct (pwle_parse_loop _ _ _ H) as (st & E & _).
  destruct (pwle_loop_order _ _ _ E) as (_ & Hs & _);
    [cbn; unfold WT_TYPE12_PWLE_TOTAL_VALS; lia|].
  exact (Hs i tok k Hn Hk).
Qed.

Lemma pwle_header_keys_in_slot_witness :
  exists p,
    wt_type12_pwle_parse (zero_pwle 0) pwle_svc_example = Ok p /\
    nth_error (pwle_tokens pwle_svc_example) 5 = Some "K:5" /\
    header_slot (tok_spec "K:5") = Some 5 /\
    Z.of_nat 5 = 5.
Proof.
  eexists.
  assert (H1 : wt_type12_pwle_parse (zero_pwle 0) pwle_svc_example = Ok _)
    by (vm_compute; reflexivity).
  assert (H2 : nth_error (pwle_tokens pwle_svc_example) 5 = Some "K:5")
    by (vm_compute; reflexivity).
  assert (H3 : header_slot (tok_spec "K:5") = Some 5)
    by (vm_compute; reflexivity).
  refine (conj H1 (conj H2 (conj H3 _))).
  exact (pwle_header_keys_in_slot _ _ _ _ _ _ H1 H2 H3).
Defined.

(** X18 ([wt_type12_pwle_ep_length_entry], [wt_type12_pwle_str_to_bin]).  A
    PWLE string with an EM key never parses, whatever the value of the key:
    the entry tests [val != 1 || val != 0], which holds for every [val]. *)
Theorem pwle_ep_length_key_rejected (pwle0 : wt_type12_pwle)
    (full_str tok : string) :
  In tok (pwle_tokens full_str) ->
  tok_spec tok = PWLE_SPEC_EP_LENGTH ->
  forall p, wt_type12_pwle_parse pwle0 full_str <> Ok p.
Proof.
  intros Hin Hs p H. destruct (pwle_parse_loop _ _ _ H) as (st & E & _).
  destruct (pwle_loop_order _ _ _ E) as (_ & _ & Hep & _);
    [cbn; unfold WT_TYPE12_PWLE_TOTAL_VALS; lia|].
  exact (Hep tok Hin Hs).
Qed.

Lemma pwle_ep_length_key_rejected_witness :
  In "EM:1" (pwle_tokens pwle_ep_example) /\
  tok_spec "EM:1" = PWLE_SPEC_EP_LENGTH /\
  wt_type12_pwle_parse (zero_pwle 0) pwle_ep_example <> Ok (zero_pwle 0).
Proof.
  assert (H1 : In "EM:1" (pwle_tokens pwle_ep_example)).
  { assert (E : pwle_tokens pwle_ep_example =
                ["S:0"; "WF:4"; "RP:1"; "WT:399.5"; "M:2"; "K:7"; "EM:1";
                 "ET:3"; "EC:100"; "T0:0"; "L0:0.49152"; "F0:200"; "C0:0";
                 "B0:0"; "AR0:0"; "R0:0"; "V0:0"]) by (vm_compute; reflexivity).
    rewrite E. cbn [In]. tauto. }
  assert (H2 : tok_spec "EM:1" = PWLE_SPEC_EP_LENGTH) by reflexivity.
  refine (conj H1 (conj H2 _)).
  exact (pwle_ep_length_key_rejected (zero_pwle 0) _ _ H1 H2 (zero_pwle 0)).
Defined.

Lemma pwle_entry_segs pwle0 toks st :
  pwle_loop toks (pwle_entry pwle0) = Ok st ->
  v_num_segs st = count_spec PWLE_SPEC_VBT toks /\
  0 <= v_num_segs st < WT_MAX_SECTIONS.
Proof.
  intros E.
  destruct (pwle_loop_order _ _ _ E) as (_ & _ & _ & Hseg & Hr);
    [cbn; unfold WT_TYPE12_PWLE_TOTAL_VALS; lia|].
  cbn [pwle_entry v_num_segs] in Hseg, Hr.
  split; [lia|]. apply Hr. unfold WT_MAX_SECTIONS. lia.
Qed.

(** X19 ([wt_type12_pwle_str_to_bin]).  In a PWLE string that parses, the
    number of sections of the result is the number of V tokens, and it lies
    between 1 and 255. *)
Theorem pwle_section_count (pwle0 : wt_type12_pwle) (full_str : string)
    (p : wt_type12_pwle) :
  wt_type12_pwle_parse pwle0 full_str = Ok p ->
  nsections p = count_spec PWLE_SPEC_VBT (pwle_tokens full_str) /\
  1 <= nsections p <= 255.
Proof.
  intros H. destruct (pwle_parse_loop _ _ _ H) as (st & E & F).
  destruct (pwle_entry_segs _ _ _ E) as (Hseg & Hr).
  destruct (pwle_loop_flags _ _ _ E) as (_ & _ & _ & _ & _ & _ & Hv & _).
  destruct (pwle_finish_flags _ _ F)
    as (_ & _ & _ & _ & _ & _ & Fv & _ & Fn & _).
  cbn [pwle_entry v_v] in Hv.
  unfold WT_MAX_SECTIONS in Hr.
  destruct (Hv Fv) as [X|X]; [discriminate|].
  apply existsb_count in X.
  rewrite Fn. unfold u8. rewrite Z.mod_small by (change (2 ^ 8) with 256; lia).
  lia.
Qed.

Lemma pwle_section_count_witness :
  exists p,
    wt_type12_pwle_parse (zero_pwle 0) scenario_b_relfreq = Ok p /\
    nsections p = 2 /\
    count_spec PWLE_SPEC_VBT (pwle_tokens scenario_b_relfreq) = 2.
Proof.
  eexists.
  assert (H1 : wt_type12_pwle_parse (zero_pwle 0) scenario_b_relfreq = Ok _)
    by (vm_compute; reflexivity).
  refine (conj H1 (conj eq_refl _)).
  rewrite <- (proj1 (pwle_section_count _ _ _ H1)). reflexivity.
Defined.

(** X20 ([wt_type12_pwle_str_to_bin]).  A PWLE string that parses has at most
    1787 ([WT_TYPE12_PWLE_TOTAL_VALS]) tokens. *)
Theorem pwle_token_limit (pwle0 : wt_type12_pwle) (full_str : string)
    (p : wt_type12_pwle) :
  wt_type12_pwle_parse pwle0 full_str = Ok p ->
  Z.of_nat (List.length (pwle_tokens full_str)) <= WT_TYPE12_PWLE_TOTAL_VALS.
Proof.
  intros H. destruct (pwle_parse_loop _ _ _ H) as (st & E & _).
  destruct (pwle_loop_order _ _ _ E) as (Hl & _);
    [cbn; unfold WT_TYPE12_PWLE_TOTAL_VALS; lia|].
  cbn [pwle_entry v_num_vals] in Hl. lia.
Qed.

Lemma pwle_token_limit_witness :
  exists p,
    wt_type12_pwle_parse (zero_pwle 0) scenario_b_relfreq = Ok p /\
    Z.of_nat (List.length (pwle_tokens scenario_b_relfreq)) <= 1787.
Proof.
  eexists.
  assert (H1 : wt_type12_pwle_parse (zero_pwle 0) scenario_b_relfreq = Ok _)
    by (vm_compute; reflexivity).
  refine (conj H1 _).
  exact (pwle_token_limit _ _ _ H1).
Defined.

(** X21 ([wt_type12_pwle_str_to_bin]).  A PWLE string that parses has at
    least one token of each of the section keys T, L, F, C, B, AR, V and R. *)
Theorem pwle_required_keys (pwle0 : wt_type12_pwle) (full_str : string)
    (p : wt_type12_pwle) :
  wt_type12_pwle_parse pwle0 full_str = Ok p ->
  let present spec := existsb (has_spec spec) (pwle_tokens full_str) in
  present PWLE_SPEC_TIME = true /\ present PWLE_SPEC_LEVEL = true /\
  present PWLE_SPEC_FREQ = true /\ present PWLE_SPEC_CHIRP = true /\
  present PWLE_SPEC_BRAKE = true /\ present PWLE_SPEC_AR = true /\
  present PWLE_SPEC_VBT = true /\ present PWLE_SPEC_RELFREQ = true.
Proof.
  intros H present. destruct (pwle_parse_loop _ _ _ H) as (st & E & F).
  destruct (pwle_loop_flags _ _ _ E)
    as (G1 & G2 & G3 & G4 & G5 & G6 & G7 & G8).
  destruct (pwle_finish_flags _ _ F)
    as (F1 & F2 & F3 & F4 & F5 & F6 & F7 & F8 & _).
  cbn [pwle_entry v_t v_l v_f v_c v_b v_a v_v v_r] in *.
  subst present. cbv beta.
  destruct (G1 F1) as [X1|X1]; [discriminate|].
  destruct (G2 F2) as [X2|X2]; [discriminate|].
  destruct (G3 F3) as [X3|X3]; [discriminate|].
  destruct (G4 F4) as [X4|X4]; [discriminate|].
  destruct (G5 F5) as [X5|X5]; [discriminate|].
  destruct (G6 F6) as [X6|X6]; [discriminate|].
  destruct (G7 F7) as [X7|X7]; [discriminate|].
  destruct (G8 F8) as [X8|X8]; [discriminate|].
  repeat split; assumption.
Qed.

Lemma pwle_required_keys_witness :
  exists p,
    wt_type12_pwle_parse (zero_pwle 0) scenario_b_relfreq = Ok p /\
    existsb (has_spec PWLE_SPEC_RELFREQ) (pwle_tokens scenario_b_relfreq)
    = true.
Proof.
  eexists.
  assert (H1 : wt_type12_pwle_parse (zero_pwle 0) scenario_b_relfreq = Ok _)
    by (vm_compute; reflexivity).
  refine (conj H1 _).
  destruct (pwle_required_keys _ _ _ H1) as (_ & _ & _ & _ & _ & _ & _ & R).
  exact R.
Defined.

Lemma pwle_token_namp st tok st' :
  pwle_token st tok = Ok st' ->
  nampsections (v_pwle st') =
    nampsections (v_pwle st) + (if ar_enabled tok then 1 else 0).
Proof.
  unfold pwle_token. intros H.
  destruct (WT_TYPE12_PWLE_TOTAL_VALS <=? v_num_vals st); [discriminate|].
  unfold ar_enabled, has_spec, tok_spec, tok_key, tok_str.
  destruct (strsep tok ":") as [key str]. cbn [fst snd].
  destruct (pwle_switch st (wt_type12_pwle_specifier_get key) str)
    as [st1| |] eqn:E; cbn [bind] in H; try discriminate.
  apply Ok_inj in H; subst st'. cbn [v_pwle].
  unfold pwle_switch in E.
  destruct (wt_type12_pwle_specifier_get key);
    cbn [spec_code Z.eqb Pos.eqb andb];
    unfold_entries E; inv_ok; simpl_locals;
    rewrite ?Z.add_0_r; try reflexivity.
  all: try match goal with
       | H : atoi ?s = Ok ?v |- context [atoi ?s] => rewrite H
       end.
  all: try match goal with
       | H : negb (?v =? 0) = _ |- _ => rewrite H
       end.
  all: try lia; try reflexivity.
Qed.

Lemma pwle_loop_namp toks :
  forall st st',
    pwle_loop toks st = Ok st' ->
    nampsections (v_pwle st') =
      nampsections (v_pwle st)
      + Z.of_nat (List.length (filter ar_enabled toks)).
Proof.
  induction toks as [|tok toks IH]; intros st st' H; cbn [pwle_loop] in H.
  - apply Ok_inj in H. subst st'. cbn [filter List.length]. lia.
  - destruct (pwle_token st tok) as [st1| |] eqn:E; cbn [bind] in H;
      try discriminate.
    rewrite (IH _ _ H), (pwle_token_namp _ _ _ E). cbn [filter].
    destruct (ar_enabled tok); cbn [List.length]; lia.
Qed.


(** ** The dispatcher *)

Lemma pwle_bits_upper (p : wt_type12_pwle) :
  0 <= nsections p <= 255 -> pwle_bits p <= 18604.
Proof.
  intros Hn. unfold pwle_bits.
  assert (H1 : forall l, zsum (map pwle_section_bits l)
                         <= 72 * Z.of_nat (List.length l)).
  { induction l as [|s l IH]; cbn [map zsum fold_right List.length]; [lia|].
    unfold pwle_section_bits at 1.
    destruct (Z.land (flags s) WT_TYPE12_PWLE_AMP_REG_BIT =? 0);
      unfold zsum in IH; lia. }
  assert (H2 : pwle_metadata_bits p <= 120).
  { unfold pwle_metadata_bits.
    destruct (Z.land (feature p) WT_TYPE12_PWLE_METADATA_FLAG =? 0); [lia|].
    destruct (svc_id (svc_metadata p) =? WT_SVC_METADATA_ID);
      destruct (ep_id (ep_metadata p) =? WT_EP_METADATA_ID);
      destruct (ep_length (ep_metadata p) =? 1); lia. }
  specialize (H1 (firstn (Z.to_nat (nsections p)) (sections p))).
  pose proof (firstn_le_length (Z.to_nat (nsections p)) (sections p)) as H3.
  lia.
Qed.

Lemma pwle_parse_nsections pwle0 full_str p :
  wt_type12_pwle_parse pwle0 full_str = Ok p -> 0 <= nsections p <= 255.
Proof.
  intros H. destruct (pwle_parse_loop _ _ _ H) as (st & E & F).
  destruct (pwle_entry_segs _ _ _ E) as (_ & Hr).
  destruct (pwle_finish_flags _ _ F)
    as (_ & _ & _ & _ & _ & _ & _ & _ & Fn & _).
  unfold WT_MAX_SECTIONS in Hr. rewrite Fn. unfold u8.
  rewrite Z.mod_small by (change (2 ^ 8) with 256; lia). lia.
Qed.

(** X23 ([wt_type12_pwle_write]).  With the capacity 2302
    ([WT_TYPE12_PWLE_BYTES_MAX]) the encoder always succeeds and returns [4 *
    ceil (bits / 24)] bytes, where [bits] is 124 for the header, 48 or 72 per
    section and the width of the metadata: the capacity, which is not a
    multiple of 4, never limits the output. *)
Theorem pwle_write_size (p : wt_type12_pwle) :
  exists bs,
    wt_type12_pwle_write p WT_TYPE12_PWLE_BYTES_MAX =
      Ok (4 * ((pwle_bits p + 23) / 24), bs) /\
    Z.of_nat (List.length bs) = 4 * ((pwle_bits p + 23) / 24).
Proof. exact (pwle_write_size_aux p). Qed.

Lemma get_owt_data_count_aux (u : indeterminate) (full_str : string)
    (n : Z) (bs : list Z) :
  get_owt_data u full_str = Ok (n, bs) ->
  4 <= n <= 3104 /\ n mod 4 = 0 /\ Z.of_nat (List.length bs) = n.
Proof.
  unfold get_owt_data. destruct (owt_select (cstr full_str)).
  - (* Composite *)
    unfold wt_type10_comp_str_to_bin.
    destruct (wt_type10_comp_parse _ _) as [comp| |] eqn:Hp; cbn [bind];
      [|intros X; discriminate X|intros X; discriminate X].
    pose proof (comp_parse_wf _ _ _ Hp) as Hwf.
    rewrite (comp_to_buffer_prefix comp WT_TYPE12_PWLE_SINGLE_PACKED_MAX Hwf)
      by (unfold WT_TYPE12_PWLE_SINGLE_PACKED_MAX; cbn; lia).
    intros H. apply Ok_inj in H.
    pose proof (f_equal fst H) as Hn. pose proof (f_equal snd H) as Hbs.
    cbn [fst snd] in Hn, Hbs. clear H. subst bs.
    pose proof (comp_bytes_length comp Hwf) as Hl.
    pose proof (comp_size_mod comp) as Hm.
    assert (H4 : 4 <= comp_size comp).
    { destruct Hwf as (Hns & _). unfold comp_size, comp_durations,
        comp_ep_present.
      destruct (ep_id (comp_ep_metadata comp) =? WT_EP_METADATA_ID); lia. }
    unfold WT_TYPE12_PWLE_SINGLE_PACKED_MAX in *.
    rewrite length_firstn, Hn. clear Hp.
    assert (Hmod : n mod 4 = 0).
    { destruct (Z.min_spec (comp_size comp) 1152) as [[A B]|[A B]];
        rewrite B in Hn; subst n; [exact Hm|reflexivity]. }
    split; [lia|]. split; [exact Hmod|lia].
  - (* PWLE *)
    unfold wt_type12_pwle_str_to_bin.
    destruct (wt_type12_pwle_parse _ _) as [p| |] eqn:Hp; cbn [bind];
      [|intros X; discriminate X|intros X; discriminate X].
    destruct (pwle_write_size_aux p) as (bs' & E & Hl). rewrite E.
    intros H. apply Ok_inj in H.
    pose proof (f_equal fst H) as Hn. pose proof (f_equal snd H) as Hbs.
    cbn [fst snd] in Hn, Hbs. clear H. subst bs'.
    pose proof (pwle_bits_lower p).
    pose proof (pwle_bits_upper p (pwle_parse_nsections _ _ _ Hp)).
    subst n.
    split; [Z.div_mod_to_equations; lia|].
    split; [|exact Hl].
    rewrite Z.mul_comm. apply Z.mod_mul. lia.
Qed.

(** X24 ([get_owt_data]).  Whenever the dispatcher succeeds, the count it
    returns is the number of bytes stored, a multiple of 4 between 4 and 3104.
    *)
Theorem get_owt_data_count (u : indeterminate) (full_str : string)
    (n : Z) (bs : list Z) :
  get_owt_data u full_str = Ok (n, bs) ->
  4 <= n <= 3104 /\ n mod 4 = 0 /\ Z.of_nat (List.length bs) = n.
Proof.
  intros H.
  destruct (get_owt_data_count_aux u full_str n bs H) as (A & B & C).
  split; [exact A|]. split; [exact B|exact C].
Qed.

Lemma get_owt_data_count_witness :
  get_owt_data (mk_indeterminate no_bank (zero_pwle 0)) "1.100" =
    Ok (12, [0; 0; 1; 0;  0; 100; 1; 0;  0; 0; 0; 0]) /\
  4 <= 12 <= 3104 /\ 12 mod 4 = 0.
Proof.
  assert (H1 : get_owt_data (mk_indeterminate no_bank (zero_pwle 0)) "1.100" =
               Ok (12, [0; 0; 1; 0;  0; 100; 1; 0;  0; 0; 0; 0]))
    by (vm_compute; reflexivity).
  refine (conj H1 _).
  destruct (get_owt_data_count _ _ _ _ H1) as (A & B & _).
  exact (conj A B).
Defined.

(** ** Trigger configuration and upload *)

Lemma gpi_config_fields_aux (rising_edge : bool) (gpi : Z) :
  0 <= gpi ->
  gpi_config rising_edge gpi =
    (if rising_edge then 2 ^ 15 else 0) + 2 ^ 12 * (gpi mod 8) /\
  cfg_gpi (gpi_config rising_edge gpi) = gpi mod 8 /\
  cfg_rising (gpi_config rising_edge gpi) = rising_edge /\
  gpi_config rising_edge gpi mod 2 ^ 12 = 0.
Proof.
  intros Hg.
  assert (Hm : Z.land gpi WVFRM_GPI_MASK = gpi mod 8).
  { unfold WVFRM_GPI_MASK. change 7 with (Z.ones 3).
    rewrite Z.land_ones by lia. reflexivity. }
  assert (Hr : 0 <= gpi mod 8 < 8) by (apply Z.mod_pos_bound; lia).
  assert (E : gpi_config rising_edge gpi =
              (if rising_edge then 2 ^ 15 else 0) + 2 ^ 12 * (gpi mod 8)).
  { unfold gpi_config. rewrite Hm. set (g := gpi mod 8) in *.
    assert (Hc : g = 0 \/ g = 1 \/ g = 2 \/ g = 3 \/ g = 4 \/ g = 5 \/ g = 6
                 \/ g = 7) by lia.
    destruct rising_edge;
      destruct Hc as [->|[->|[->|[->|[->|[->|[->| ->]]]]]]]; reflexivity. }
  split; [exact E|]. rewrite E. set (g := gpi mod 8) in *.
  assert (Hc : g = 0 \/ g = 1 \/ g = 2 \/ g = 3 \/ g = 4 \/ g = 5 \/ g = 6
               \/ g = 7) by lia.
  destruct rising_edge;
    destruct Hc as [->|[->|[->|[->|[->|[->|[->| ->]]]]]]];
    repeat split; reflexivity.
Qed.

(** X25 ([gpi_config]).  The configuration word is [2^15] for a rising edge
    plus [2^12 * (gpi mod 8)]: the GPI number is kept modulo 8 in bits 12 to
    14, the edge in bit 15, and the low 12 bits are 0. *)
Theorem gpi_config_fields (rising_edge : bool) (gpi : Z) :
  0 <= gpi ->
  gpi_config rising_edge gpi =
    (if rising_edge then 2 ^ 15 else 0) + 2 ^ 12 * (gpi mod 8) /\
  cfg_gpi (gpi_config rising_edge gpi) = gpi mod 8 /\
  cfg_rising (gpi_config rising_edge gpi) = rising_edge /\
  gpi_config rising_edge gpi mod 2 ^ 12 = 0.
Proof. exact (gpi_config_fields_aux rising_edge gpi). Qed.

Lemma gpi_config_fields_witness :
  0 <= 3 /\ gpi_config true 3 = 0xB000 /\ cfg_gpi 0xB000 = 3 /\
  cfg_rising 0xB000 = true.
Proof.
  assert (H1 : 0 <= 3) by lia.
  refine (conj H1 _).
  destruct (gpi_config_fields true 3 H1) as (A & B & C & _).
  split; [exact A|]. split; [exact B|exact C].
Defined.

(** X26 ([owt_upload], [gpi_config]).  For a GPI argument other than 0 and
    [INT_MIN], the trigger button that the upload stores holds the absolute
    value of the argument modulo 8 as GPI number and a rising edge exactly
    when the argument is positive; a multiple of 8 is stored as GPI 0. *)
Theorem upload_button_decodes (gpi : Z) :
  INT_MIN < gpi < 2 ^ 31 -> gpi <> 0 ->
  exists cfg,
    upload_button gpi = Ok cfg /\
    cfg_gpi cfg = Z.abs gpi mod 8 /\
    cfg_rising cfg = (0 <? gpi) /\
    (Z.abs gpi < 8 -> cfg_gpi cfg = Z.abs gpi) /\
    (Z.abs gpi mod 8 = 0 -> cfg = if 0 <? gpi then 2 ^ 15 else 0).
Proof.
  intros Hr Hz. unfold upload_button, INT_MIN in *.
  destruct (Z.eqb_spec gpi 0) as [X|_]; [contradiction|]. cbn [negb].
  destruct (Z.eqb_spec gpi (- 2 ^ 31)) as [X|_]; [lia|].
  eexists. split; [reflexivity|].
  assert (Hu : u32 (Z.abs gpi) = Z.abs gpi).
  { unfold u32. apply Z.mod_small. change (2 ^ 32) with 4294967296.
    change (2 ^ 31) with 2147483648 in Hr. lia. }
  rewrite Hu.
  destruct (gpi_config_fields_aux (0 <=? gpi) (Z.abs gpi) ltac:(lia))
    as (E & A & B & _).
  assert (Hb : (0 <=? gpi) = (0 <? gpi)).
  { destruct (Z.leb_spec 0 gpi); destruct (Z.ltb_spec 0 gpi); try reflexivity;
      lia. }
  split; [exact A|]. split; [rewrite B; exact Hb|].
  split.
  - intros Hs. rewrite A. apply Z.mod_small. lia.
  - intros H0. rewrite E, H0, Hb. rewrite Z.mul_0_r, Z.add_0_r. reflexivity.
Qed.

Lemma upload_button_decodes_witness :
  INT_MIN < -2 < 2 ^ 31 /\ -2 <> 0 /\
  upload_button (-2) = Ok 0x2000 /\
  exists cfg, upload_button (-2) = Ok cfg /\ cfg_gpi cfg = 2 /\
              cfg_rising cfg = false.
Proof.
  assert (H1 : INT_MIN < -2 < 2 ^ 31) by (cbv; split; reflexivity).
  assert (H2 : -2 <> 0) by discriminate.
  refine (conj H1 (conj H2 (conj eq_refl _))).
  destruct (upload_button_decodes (-2) H1 H2) as (cfg & E & A & B & _).
  exists cfg. split; [exact E|]. split; [exact A|exact B].
Defined.

Lemma owt_upload_bounds_aux (EVIOCSFF : ff_effect -> option Z)
    (data : list Z) (num_bytes gpi : Z) (edit : bool) (effect : ff_effect) :
  0 <= num_bytes <= Z.of_nat (List.length data) -> num_bytes < 2 ^ 32 ->
  INT_MIN < gpi < 2 ^ 31 ->
  (num_bytes mod 2 = 1 ->
   owt_upload true EVIOCSFF data num_bytes gpi edit effect = Fault) /\
  (num_bytes mod 2 = 0 ->
   exists r e,
     owt_upload true EVIOCSFF data num_bytes gpi edit effect = Ok (r, e) /\
     custom_len (periodic e) = num_bytes / 2 /\
     ff_direction e = 0 /\
     upload_button gpi = Ok (trigger_button e) /\
     ((r = - ENXIO /\ custom_data (periodic e) = None) \/
      (r = ff_id e /\
       custom_data (periodic e) = Some (firstn (Z.to_nat num_bytes) data)))).
Proof.
  intros Hn Hn32 Hg. unfold owt_upload.
  assert (Hb : exists b, upload_button gpi = Ok b).
  { unfold upload_button, INT_MIN in *.
    destruct (negb (gpi =? 0)); [|eexists; reflexivity].
    destruct (Z.eqb_spec gpi (- 2 ^ 31)); [lia|eexists; reflexivity]. }
  destruct Hb as (b & Eb). rewrite Eb. cbn [bind negb].
  assert (Hu : u32 (num_bytes / 2) = num_bytes / 2).
  { unfold u32. apply Z.mod_small. change (2 ^ 32) with 4294967296 in *.
    Z.div_mod_to_equations. lia. }
  rewrite Hu.
  destruct (Z.ltb_spec (Z.of_nat (List.length data)) num_bytes) as [X|_];
    [lia|]. rewrite orb_false_r.
  split.
  - intros Hodd.
    destruct (Z.ltb_spec (2 * (num_bytes / 2)) num_bytes) as [_|X];
      [reflexivity|]. Z.div_mod_to_equations. lia.
  - intros Heven.
    destruct (Z.ltb_spec (2 * (num_bytes / 2)) num_bytes) as [X|_];
      [Z.div_mod_to_equations; lia|].
    match goal with
    | |- context [EVIOCSFF ?e] => destruct (EVIOCSFF e) as [id|]
    end.
    + eexists _, _. split; [reflexivity|].
      cbn [periodic custom_len custom_data set_custom ff_direction
           trigger_button ff_id].
      repeat split. right. split; reflexivity.
    + eexists _, _. split; [reflexivity|].
      cbn [periodic custom_len custom_data set_custom ff_direction
           trigger_button ff_id].
      repeat split. left. split; reflexivity.
Qed.

(** X27 ([owt_upload]).  When the allocation succeeds: with an odd byte count
    the copy of [num_bytes] bytes leaves the [2 * (num_bytes / 2)] bytes
    allocated; with an even count the effect gets [num_bytes / 2] as custom
    length, direction 0 and the trigger button of the GPI, and the call
    returns either [-ENXIO], the buffer freed, or the effect id with the first
    [num_bytes] bytes of the data as custom data. *)
Theorem owt_upload_copy_bounds (EVIOCSFF : ff_effect -> option Z)
    (data : list Z) (num_bytes gpi : Z) (edit : bool) (effect : ff_effect) :
  0 <= num_bytes <= Z.of_nat (List.length data) -> num_bytes < 2 ^ 32 ->
  INT_MIN < gpi < 2 ^ 31 ->
  (num_bytes mod 2 = 1 ->
   owt_upload true EVIOCSFF data num_bytes gpi edit effect = Fault) /\
  (num_bytes mod 2 = 0 ->
   exists r e,
     owt_upload true EVIOCSFF data num_bytes gpi edit effect = Ok (r, e) /\
     custom_len (periodic e) = num_bytes / 2 /\
     ff_direction e = 0 /\
     upload_button gpi = Ok (trigger_button e) /\
     ((r = - ENXIO /\ custom_data (periodic e) = None) \/
      (r = ff_id e /\
       custom_data (periodic e) = Some (firstn (Z.to_nat num_bytes) data)))).
Proof.
  intros Hn Hn32 Hg.
  destruct (owt_upload_bounds_aux EVIOCSFF data num_bytes gpi edit effect
              Hn Hn32 Hg) as (Hodd & Heven).
  split; [exact Hodd|exact Heven].
Qed.

Lemma owt_upload_copy_bounds_witness :
  0 <= 3 <= Z.of_nat (List.length [1; 2; 3; 4]) /\ 3 < 2 ^ 32 /\
  INT_MIN < 0 < 2 ^ 31 /\ 3 mod 2 = 1 /\
  owt_upload true (fun _ => Some 7) [1; 2; 3; 4] 3 0 false zero_effect
    = Fault.
Proof.
  assert (H1 : 0 <= 3 <= Z.of_nat (List.length [1; 2; 3; 4])) by (cbn; lia).
  assert (H2 : 3 < 2 ^ 32) by reflexivity.
  assert (H3 : INT_MIN < 0 < 2 ^ 31) by (cbv; split; reflexivity).
  assert (H4 : 3 mod 2 = 1) by reflexivity.
  refine (conj H1 (conj H2 (conj H3 (conj H4 _)))).
  exact (proj1 (owt_upload_copy_bounds (fun _ => Some 7) [1; 2; 3; 4] 3 0
                  false zero_effect H1 H2 H3) H4).
Defined.

(** X28 ([get_owt_data], [owt_upload]).  Every result of the compiler can be
    uploaded: the byte count is even, so the copy stays within the allocation,
    and the custom length is half the byte count. *)
Theorem owt_upload_after_compile (u : indeterminate) (full_str : string)
    (n : Z) (bs : list Z) (EVIOCSFF : ff_effect -> option Z) (gpi : Z)
    (edit : bool) (effect : ff_effect) :
  get_owt_data u full_str = Ok (n, bs) ->
  INT_MIN < gpi < 2 ^ 31 ->
  exists r e,
    owt_upload true EVIOCSFF bs n gpi edit effect = Ok (r, e) /\
    2 * custom_len (periodic e) = n /\
    (custom_data (periodic e) = Some bs \/
     (custom_data (periodic e) = None /\ r = - ENXIO)).
Proof.
  intros H Hg.
  destruct (get_owt_data_count_aux _ _ _ _ H) as (H4 & Hm & Hl).
  destruct (owt_upload_bounds_aux EVIOCSFF bs n gpi edit effect
              ltac:(lia) ltac:(change (2 ^ 32) with 4294967296; lia) Hg)
    as (_ & Hev).
  destruct Hev as (r & e & E & Hc & _ & _ & Hd);
    [Z.div_mod_to_equations; lia|].
  exists r, e. split; [exact E|]. split.
  - rewrite Hc. Z.div_mod_to_equations. lia.
  - destruct Hd as [[Hr Hd]|[_ Hd]]; [right; split; assumption|left].
    rewrite Hd. f_equal. apply firstn_all2. lia.
Qed.

Lemma owt_upload_after_compile_witness :
  get_owt_data (mk_indeterminate no_bank (zero_pwle 0)) "1.100" =
    Ok (12, [0; 0; 1; 0;  0; 100; 1; 0;  0; 0; 0; 0]) /\
  INT_MIN < 1 < 2 ^ 31 /\
  exists r e,
    owt_upload true (fun _ => Some 3) [0; 0; 1; 0;  0; 100; 1; 0;  0; 0; 0; 0]
      12 1 false zero_effect = Ok (r, e) /\
    2 * custom_len (periodic e) = 12.
Proof.
  assert (H1 : get_owt_data (mk_indeterminate no_bank (zero_pwle 0)) "1.100" =
               Ok (12, [0; 0; 1; 0;  0; 100; 1; 0;  0; 0; 0; 0]))
    by (vm_compute; reflexivity).
  assert (H2 : INT_MIN < 1 < 2 ^ 31) by (cbv; split; reflexivity).
  refine (conj H1 (conj H2 _)).
  destruct (owt_upload_after_compile _ _ _ _ (fun _ => Some 3) 1 false
              zero_effect H1 H2) as (r & e & E & L & _).
  exists r, e. split; [exact E|exact L].
Defined.

(** ** Fields in the bytes of an output *)

Lemma word_bytes_value (w : Z) :
  0 <= w < 2 ^ 24 ->
  w / 2 ^ 16 * 2 ^ 16 + (w / 2 ^ 8) mod 2 ^ 8 * 2 ^ 8 + w mod 2 ^ 8 = w.
Proof.
  intros Hw. change (2 ^ 24) with 16777216 in Hw.
  change (2 ^ 16) with 65536. change (2 ^ 8) with 256.
  Z.div_mod_to_equations. lia.
Qed.

Lemma word_at_app (m suf : list Z) (i w : Z) :
  Z.of_nat (List.length m) = 4 * i -> 0 <= w < 2 ^ 24 ->
  word_at (m ++ word_bytes w ++ suf) i = w.
Proof.
  intros Hm Hw. unfold word_at.
  assert (E : forall j, (j < 4)%nat ->
            nth (Z.to_nat (4 * i + Z.of_nat j)) (m ++ word_bytes w ++ suf) 0
            = nth j (word_bytes w) 0).
  { intros j Hj.
    replace (Z.to_nat (4 * i + Z.of_nat j)) with (List.length m + j)%nat by lia.
    rewrite app_nth2_plus. apply app_nth1. cbn [word_bytes List.length]. lia. }
  pose proof (E 1%nat ltac:(lia)) as E1. pose proof (E 2%nat ltac:(lia)) as E2.
  pose proof (E 3%nat ltac:(lia)) as E3.
  change (Z.of_nat 1) with 1 in E1. change (Z.of_nat 2) with 2 in E2.
  change (Z.of_nat 3) with 3 in E3. rewrite E1, E2, E3.
  cbn [word_bytes nth]. apply word_bytes_value. exact Hw.
Qed.

Lemma word_at_app_next (m suf : list Z) (i w1 w2 : Z) :
  Z.of_nat (List.length m) = 4 * i -> 0 <= w2 < 2 ^ 24 ->
  word_at (m ++ word_bytes w1 ++ word_bytes w2 ++ suf) (i + 1) = w2.
Proof.
  intros Hm Hw.
  rewrite (app_assoc m (word_bytes w1)).
  apply word_at_app; [|exact Hw].
  rewrite length_app. cbn [word_bytes List.length]. lia.
Qed.

(** A write that completes a word stores it first, whatever follows. *)
Lemma put_first_word (ch : dspmem_chunk) (nbits val : Z) :
  0 <= cachebits ch < 24 -> 24 - cachebits ch <= nbits ->
  data ch <> max ch ->
  exists ch' suf,
    put nbits val ch = Ok ch' /\
    0 <= cachebits ch' <= 24 /\
    mem ch' = mem ch ++ word_bytes (completed_word ch nbits val) ++ suf.
Proof.
  intros Hcb Hn Hd. unfold put.
  rewrite (write_word_step ch nbits val Hcb Hn Hd). cbv zeta.
  set (ch1 := stored ch (word_bytes (completed_word ch nbits val))).
  destruct (Z.eqb_spec (nbits - (24 - cachebits ch)) 0) as [E|E].
  - exists ch1, []. split; [reflexivity|].
    split; [subst ch1; cbn [stored cachebits]; lia|].
    subst ch1. cbn [stored mem]. rewrite app_nil_r. reflexivity.
  - destruct (dspmem_chunk_write_total ch1 (nbits - (24 - cachebits ch)) val)
      as [[r c] Hw]; [subst ch1; cbn [stored cachebits]; lia|lia|].
    rewrite Hw.
    destruct (write_rec_inv _ _ _ _ _ _ Hw) as (Hc & _ & suf & Hs);
      [subst ch1; cbn [stored cachebits]; lia|lia|].
    exists c, suf. split; [reflexivity|]. split; [exact Hc|].
    rewrite Hs. subst ch1. cbn [stored mem]. rewrite <- app_assoc.
    reflexivity.
Qed.

Lemma completed_word_top (ch : dspmem_chunk) (nbits val : Z) :
  0 <= cachebits ch < 24 -> 24 - cachebits ch <= nbits ->
  0 <= val < 2 ^ nbits ->
  completed_word ch nbits val / 2 ^ (24 - cachebits ch)
  = cache ch mod 2 ^ cachebits ch /\
  completed_word ch nbits val mod 2 ^ (24 - cachebits ch)
  = val / 2 ^ (nbits - (24 - cachebits ch)).
Proof.
  intros Hcb Hn Hv.
  rewrite completed_word_full by assumption. unfold full_word.
  set (k := cachebits ch) in *. set (r := nbits - (24 - k)).
  assert (Hq : 0 <= val / 2 ^ r < 2 ^ (24 - k)).
  { split; [apply Z.div_pos; lia|].
    apply Z.div_lt_upper_bound; [lia|].
    rewrite <- Z.pow_add_r by lia. replace (r + (24 - k)) with nbits by lia.
    lia. }
  assert (Hp : 0 < 2 ^ (24 - k)) by (apply Z.pow_pos_nonneg; lia).
  split.
  - rewrite Z.div_add_l by lia. rewrite (Z.div_small (val / 2 ^ r)) by lia.
    lia.
  - rewrite Z.add_comm, Z.mod_add by lia. apply Z.mod_small. lia.
Qed.

(** A write that leaves the word open keeps the pending bits above the
    bits it adds, whatever the accumulator holds above the pending bits. *)
Lemma put_pending (ch : dspmem_chunk) (nbits val : Z) :
  0 <= cachebits ch -> 0 <= nbits -> cachebits ch + nbits < 24 ->
  0 <= val < 2 ^ nbits ->
  exists c,
    put nbits val ch =
      Ok {| data := data ch; max := max ch; bytes := bytes ch; cache := c;
            cachebits := cachebits ch + nbits; mem := mem ch |} /\
    c mod 2 ^ (cachebits ch + nbits)
    = (cache ch mod 2 ^ cachebits ch) * 2 ^ nbits + val.
Proof.
  intros Hcb Hn Hlt Hv.
  unfold put, dspmem_chunk_write, write_fuel.
  rewrite write_rec_S. cbv zeta.
  rewrite Z.min_r by lia.
  destruct (Z.eqb_spec (cachebits ch + nbits) 24); [lia|].
  rewrite Z.sub_diag. change (0 =? 0) with true. cbv iota.
  rewrite Z.shiftr_0_r.
  eexists. split; [reflexivity|].
  set (k := cachebits ch) in *.
  rewrite <- Z.land_ones by lia.
  rewrite Z.land_lor_distr_l, !Z.land_ones by lia.
  assert (Hp : 0 < 2 ^ nbits) by (apply Z.pow_pos_nonneg; lia).
  assert (Hk : 2 ^ (k + nbits) <= 2 ^ 24) by (apply Z.pow_le_mono_r; lia).
  assert (Hv' : val < 2 ^ (k + nbits)).
  { apply Z.lt_le_trans with (2 ^ nbits); [lia|]. apply Z.pow_le_mono_r; lia. }
  rewrite (Z.mod_small val) by lia.
  unfold u32. rewrite Z.shiftl_mul_pow2 by lia.
  rewrite Z.mod_mod_divide
    by (exists (2 ^ (32 - (k + nbits)));
        rewrite <- Z.pow_add_r by lia; f_equal; lia).
  rewrite (Z.pow_add_r 2 k nbits) by lia.
  rewrite Z.mul_mod_distr_r by (try lia; apply Z.pow_nonzero; lia).
  apply lor_add; lia.
Qed.

Lemma field_fits_nonneg (fs : list (Z * Z)) :
  Forall field_fits fs -> Forall (fun f => 0 <= fst f) fs.
Proof.
  intros H. eapply Forall_impl; [|exact H]. intros f [Hf _]. exact Hf.
Qed.

(** The bits that are pending when a run of writes starts come out as the
    leading bits of the next word, provided the values written until that
    word is complete fit their widths. *)
Lemma pending_kept (fs : list (Z * Z)) :
  Forall field_fits fs ->
  forall ch ch',
    put_all fs ch = Ok ch' ->
    0 <= cachebits ch < 24 -> (max ch - data ch) mod 4 <> 0 ->
    if cachebits ch + field_bits fs <? 24
    then mem ch' = mem ch /\ data ch' = data ch /\ max ch' = max ch /\
         cachebits ch' = cachebits ch + field_bits fs /\
         (cache ch' mod 2 ^ cachebits ch') / 2 ^ field_bits fs
         = cache ch mod 2 ^ cachebits ch
    else exists w suf,
         mem ch' = mem ch ++ word_bytes w ++ suf /\ 0 <= w < 2 ^ 24 /\
         w / 2 ^ (24 - cachebits ch) = cache ch mod 2 ^ cachebits ch.
Proof.
  induction 1 as [|[n v] fs [Hn Hv] Hfs IH]; intros ch ch' H Hcb Hm.
  - cbn [put_all] in H. apply Ok_inj in H. subst ch'.
    change (field_bits []) with 0. rewrite Z.add_0_r.
    destruct (Z.ltb_spec (cachebits ch) 24); [|lia].
    repeat split; try reflexivity.
    change (2 ^ 0) with 1. apply Z.div_1_r.
  - cbn [fst snd] in Hn, Hv. rewrite field_bits_cons.
    pose proof (field_bits_nonneg fs (field_fits_nonneg fs Hfs)) as HB.
    set (k := cachebits ch) in *. set (B := field_bits fs) in *.
    assert (Hpn : 0 < 2 ^ n) by (apply Z.pow_pos_nonneg; lia).
    cbn [put_all] in H.
    destruct (Z.lt_ge_cases (k + n) 24) as [Hlt|Hge].
    + (* the word stays open *)
      pose proof (put_pending ch n v) as P. fold k in P.
      destruct P as (c & E & Hc); [lia|lia|lia|lia|].
      rewrite E in H. cbn [bind] in H.
      specialize (IH _ _ H). cbn [cachebits cache max data mem] in IH.
      specialize (IH ltac:(lia) Hm). fold B in IH.
      replace (k + (n + B)) with (k + n + B) by lia.
      destruct (Z.ltb_spec (k + n + B) 24) as [Hs|Hs].
      * destruct IH as (I1 & I2 & I3 & I4 & I5).
        repeat split; try assumption.
        rewrite Hc in I5.
        rewrite Z.pow_add_r, Z.mul_comm, <- Z.div_div by lia.
        rewrite I5. rewrite Z.div_add_l by lia.
        rewrite (Z.div_small v) by lia. lia.
      * destruct IH as (w & suf & I1 & I2 & I3).
        exists w, suf. split; [exact I1|]. split; [exact I2|].
        rewrite Hc in I3.
        replace (24 - k) with ((24 - (k + n)) + n) by lia.
        rewrite Z.pow_add_r, <- Z.div_div by lia.
        rewrite I3. rewrite Z.div_add_l by lia.
        rewrite (Z.div_small v) by lia. lia.
    + (* the write completes the word *)
      destruct (Z.ltb_spec (k + (n + B)) 24); [lia|].
      assert (Hd : data ch <> max ch).
      { intros X. apply Hm. rewrite X, Z.sub_diag. reflexivity. }
      pose proof (put_first_word ch n v) as P. fold k in P.
      destruct P as (c & suf & E & Hc & Hs); [lia|lia|exact Hd|].
      rewrite E in H. cbn [bind] in H.
      destruct (put_all_inv fs (field_fits_nonneg fs Hfs) c Hc)
        as (c' & E' & _ & _ & suf' & Hs').
      rewrite E' in H. apply Ok_inj in H. subst c'.
      exists (completed_word ch n v), (suf ++ suf').
      split; [rewrite Hs', Hs, <- !app_assoc; reflexivity|].
      split; [apply completed_word_range; fold k; lia|].
      apply completed_word_top; fold k; lia.
Qed.

(** A 24-bit write into an open word: the word is completed with the
    leading bits of the value and all of the value goes to the accumulator,
    of which the low bits are pending. *)
Lemma put_24 (ch : dspmem_chunk) (val : Z) :
  0 < cachebits ch < 24 -> data ch <> max ch ->
  put 24 val ch =
    Ok {| data := data ch + 4; max := max ch; bytes := bytes ch + 4;
          cache := val; cachebits := cachebits ch;
          mem := mem ch ++ word_bytes (completed_word ch 24 val) |}.
Proof.
  intros Hcb Hd. unfold put.
  rewrite (write_word_step ch 24 val) by (try lia; exact Hd). cbv zeta.
  replace (24 - (24 - cachebits ch)) with (cachebits ch) by lia.
  destruct (Z.eqb_spec (cachebits ch) 0); [lia|].
  unfold dspmem_chunk_write, write_fuel.
  rewrite write_rec_S. cbv zeta. cbn [stored cachebits data max bytes cache mem].
  rewrite Z.min_r by lia.
  destruct (Z.eqb_spec (0 + cachebits ch) 24); [lia|].
  rewrite Z.sub_diag. change (0 =? 0) with true. cbv iota.
  rewrite Z.shiftl_0_l, Z.shiftr_0_r.
  change (u32 0) with 0. rewrite Z.lor_0_l.
  cbn [word_bytes List.length]. rewrite Z.add_0_l.
  change (Z.of_nat 4) with 4. reflexivity.
Qed.

Lemma section_bits_words (l : list wt_type12_pwle_section) :
  exists q, 0 <= q /\ zsum (map pwle_section_bits l) = 24 * q.
Proof.
  induction l as [|s l (q & Hq & E)].
  - exists 0. split; [lia|reflexivity].
  - cbn [map zsum fold_right]. fold (zsum (map pwle_section_bits l)).
    rewrite E. unfold pwle_section_bits.
    destruct (Z.land (flags s) WT_TYPE12_PWLE_AMP_REG_BIT =? 0);
      [exists (2 + q)|exists (3 + q)]; lia.
Qed.

Lemma svc_block_split (p : wt_type12_pwle) :
  Z.land (feature p) WT_TYPE12_PWLE_METADATA_FLAG <> 0 ->
  svc_id (svc_metadata p) = WT_SVC_METADATA_ID ->
  ep_block_fits p ->
  exists pre post rest,
    pwle_fields p =
      pre ++ [(24, braking_time (svc_metadata p))] ++ post ++ rest /\
    Forall (fun f => 0 <= fst f) pre /\
    field_bits pre = braking_time_offset p /\
    Forall field_fits post /\ 20 <= field_bits post /\
    Forall (fun f => 0 <= fst f) rest.
Proof.
  intros Hf Hs Hep.
  unfold pwle_fields, pwle_metadata_fields.
  destruct (Z.land (feature p) WT_TYPE12_PWLE_METADATA_FLAG =? 0) eqn:Ez;
    [apply Z.eqb_eq in Ez; contradiction|].
  rewrite Hs. change (WT_SVC_METADATA_ID =? WT_SVC_METADATA_ID) with true.
  cbv iota.
  set (secs := flat_map pwle_section_fields
                 (firstn (Z.to_nat (nsections p)) (sections p))).
  exists ([(16, feature p); (8, WT_TYPE12_PWLE); (24, WT_TYPE12_HEADER_WORDS);
           (24, u32 (nsections p * 2 + nampsections p + 3))] ++
          [(24, wlength p); (8, pwle_repeat p); (12, wait p);
           (8, nsections p)] ++ secs ++
          [(8, WT_SVC_METADATA_ID); (8, svc_length (svc_metadata p));
           (8, svc_mode (svc_metadata p))]).
  assert (Hpre : Forall (fun f : Z * Z => 0 <= fst f) secs)
    by (apply pwle_section_fields_nonneg).
  assert (Hbits : field_bits
            ([(16, feature p); (8, WT_TYPE12_PWLE);
              (24, WT_TYPE12_HEADER_WORDS);
              (24, u32 (nsections p * 2 + nampsections p + 3))] ++
             [(24, wlength p); (8, pwle_repeat p); (12, wait p);
              (8, nsections p)] ++ secs ++
             [(8, WT_SVC_METADATA_ID); (8, svc_length (svc_metadata p));
              (8, svc_mode (svc_metadata p))])
            = braking_time_offset p).
  { rewrite !field_bits_app. subst secs. rewrite pwle_sections_bits.
    unfold braking_time_offset.
    change (field_bits [(16, feature p); (8, WT_TYPE12_PWLE);
                        (24, WT_TYPE12_HEADER_WORDS);
                        (24, u32 (nsections p * 2 + nampsections p + 3))])
      with 72.
    change (field_bits [(24, wlength p); (8, pwle_repeat p); (12, wait p);
                        (8, nsections p)]) with 52.
    change (field_bits [(8, WT_SVC_METADATA_ID);
                        (8, svc_length (svc_metadata p));
                        (8, svc_mode (svc_metadata p))]) with 24.
    lia. }
  assert (Hnn : Forall (fun f : Z * Z => 0 <= fst f)
            ([(16, feature p); (8, WT_TYPE12_PWLE);
              (24, WT_TYPE12_HEADER_WORDS);
              (24, u32 (nsections p * 2 + nampsections p + 3))] ++
             [(24, wlength p); (8, pwle_repeat p); (12, wait p);
              (8, nsections p)] ++ secs ++
             [(8, WT_SVC_METADATA_ID); (8, svc_length (svc_metadata p));
              (8, svc_mode (svc_metadata p))])).
  { apply Forall_app; split;
      [|apply Forall_app; split; [|apply Forall_app; split]];
      try exact Hpre;
      repeat (constructor; [cbn [fst]; lia|]); constructor. }
  destruct (Z.eqb_spec (ep_id (ep_metadata p)) WT_EP_METADATA_ID) as [Eid|Nid].
  - (* an EP block follows *)
    destruct Hep as [Hep|(Hl & Hp)]; [contradiction|].
    exists [(8, ep_id (ep_metadata p)); (8, ep_length (ep_metadata p));
            (8, ep_payload (ep_metadata p))].
    exists ((if ep_length (ep_metadata p) =? 1
             then [(24, ep_custom_threshold (ep_metadata p))] else []) ++
            [(24, WT_TYPE12_METADATA_TERMINATOR)]).
    split; [rewrite <- !app_assoc; reflexivity|].
    split; [exact Hnn|]. split; [exact Hbits|].
    split.
    + rewrite Eid. repeat constructor; cbn [fst snd]; try lia;
        unfold WT_EP_METADATA_ID; lia.
    + split; [unfold field_bits; cbn; lia|].
      destruct (ep_length (ep_metadata p) =? 1);
        repeat constructor; cbn [fst]; lia.
  - exists [(24, WT_TYPE12_METADATA_TERMINATOR)], [].
    split; [rewrite <- !app_assoc; reflexivity|].
    split; [exact Hnn|]. split; [exact Hbits|].
    split.
    + repeat constructor; cbn [fst snd]; try lia;
        unfold WT_TYPE12_METADATA_TERMINATOR; lia.
    + split; [unfold field_bits; cbn; lia|constructor].
Qed.

(** What the encoder emits where the braking time belongs. *)
Lemma pwle_write_braking_time (p : wt_type12_pwle) :
  Z.land (feature p) WT_TYPE12_PWLE_METADATA_FLAG <> 0 ->
  svc_id (svc_metadata p) = WT_SVC_METADATA_ID ->
  0 <= braking_time (svc_metadata p) < 2 ^ 24 ->
  ep_block_fits p ->
  exists n bs,
    wt_type12_pwle_write p WT_TYPE12_PWLE_BYTES_MAX = Ok (n, bs) /\
    bits_at bs (braking_time_offset p) 24 = braking_time (svc_metadata p).
Proof.
  intros Hf Hs Hbt Hep.
  destruct (svc_block_split p Hf Hs Hep)
    as (pre & post & rest & Efs & Hpre & Hoff & Hpost & H20 & Hrest).
  set (bt := braking_time (svc_metadata p)) in *.
  destruct (section_bits_words
              (firstn (Z.to_nat (nsections p)) (sections p)))
    as (q & Hq & Eq).
  assert (Eoff : braking_time_offset p = 24 * (6 + q) + 4)
    by (unfold braking_time_offset; rewrite Eq; lia).
  set (i := 6 + q) in *.
  unfold wt_type12_pwle_write. rewrite Efs.
  (* the fields before the braking time *)
  destruct (put_all_inv pre Hpre (dspmem_chunk_create WT_TYPE12_PWLE_BYTES_MAX))
    as (ch0 & E0 & _ & _); [cbn; lia|].
  pose proof (put_all_count pre Hpre _ _ E0) as C0.
  cbn [dspmem_chunk_create cachebits max data mem List.length] in C0.
  specialize (C0 ltac:(lia)). cbv zeta in C0.
  rewrite runs_out_unaligned in C0
    by (unfold WT_TYPE12_PWLE_BYTES_MAX; vm_compute; discriminate).
  rewrite Hoff, Eoff in C0. destruct C0 as (M0 & D0 & B0 & _ & L0).
  replace ((0 + (24 * i + 4)) / 24) with i in D0, L0
    by (Z.div_mod_to_equations; lia).
  replace ((0 + (24 * i + 4)) mod 24) with 4 in B0
    by (Z.div_mod_to_equations; lia).
  change (Z.of_nat 0) with 0 in L0. rewrite ?Z.add_0_l in *.
  rewrite put_all_app, E0. cbn [bind].
  rewrite put_all_app. cbn [put_all bind].
  rewrite put_24
    by (rewrite ?B0, ?D0, ?M0; unfold WT_TYPE12_PWLE_BYTES_MAX; lia).
  cbn [bind].
  set (w1 := completed_word ch0 24 bt).
  set (ch1 := {| data := data ch0 + 4; max := max ch0; bytes := bytes ch0 + 4;
                 cache := bt; cachebits := cachebits ch0;
                 mem := mem ch0 ++ word_bytes w1 |}).
  (* the fields that complete the next word *)
  rewrite put_all_app.
  destruct (put_all_inv post (field_fits_nonneg post Hpost) ch1)
    as (ch2 & E2 & Hc2 & _ & _); [subst ch1; cbn [cachebits]; lia|].
  rewrite E2. cbn [bind].
  pose proof (pending_kept post Hpost _ _ E2) as K.
  subst ch1. cbn [cachebits cache max data mem] in K.
  rewrite B0, D0, M0 in K.
  specialize (K ltac:(lia)
                ltac:(unfold WT_TYPE12_PWLE_BYTES_MAX;
                      Z.div_mod_to_equations; lia)).
  destruct (Z.ltb_spec (4 + field_bits post) 24); [lia|].
  destruct K as (w2 & suf2 & Em2 & Hw2 & Ht2).
  (* the rest and the flush *)
  destruct (put_all_inv rest Hrest ch2 Hc2) as (ch3 & E3 & Hc3 & _ & suf3 & Em3).
  rewrite E3. cbn [bind].
  destruct (put_flush_inv ch3 Hc3) as (ch4 & E4 & suf4 & Em4).
  rewrite E4. cbn [bind].
  eexists. eexists. split; [reflexivity|].
  rewrite Em4, Em3, Em2, <- !app_assoc.
  assert (Hw1 : 0 <= w1 < 2 ^ 24)
    by (apply completed_word_range; lia).
  destruct (completed_word_top ch0 24 bt) as (_ & Hlow); [lia|lia|lia|].
  fold w1 in Hlow. rewrite B0 in Hlow.
  change (24 - 4) with 20 in *. change (24 - 20) with 4 in Hlow.
  unfold bits_at. rewrite Eoff.
  replace ((24 * i + 4) / 24) with i by (Z.div_mod_to_equations; lia).
  replace ((24 * i + 4) mod 24) with 4 by (Z.div_mod_to_equations; lia).
  rewrite word_at_app by (try lia; exact Hw1).
  rewrite word_at_app_next by (try lia; exact Hw2).
  change (48 - 4 - 24) with 20.
  change (2 ^ 24) with 16777216 in *. change (2 ^ 20) with 1048576 in *.
  change (2 ^ 4) with 16 in *.
  clear - Hw1 Hw2 Hlow Ht2 Hbt.
  Z.div_mod_to_equations. lia.
Qed.

(** Where the claim C10 holds: when no EP block is written, or the EP
    length and payload fit their 8 bits, the 24 bits emitted for the
    braking time are k * 8. *)
Lemma pwle_braking_time_emitted pwle0 full_str p tokM tokK m k :
  wt_type12_pwle_parse pwle0 full_str = Ok p ->
  Z.land (feature p) WT_TYPE12_PWLE_METADATA_FLAG <> 0 ->
  nth_error (pwle_tokens full_str) 4 = Some tokM ->
  tok_spec tokM = PWLE_SPEC_SVC_MODE ->
  atoi (tok_str tokM) = Ok m -> 0 <= m <= 3 ->
  nth_error (pwle_tokens full_str) 5 = Some tokK ->
  tok_spec tokK = PWLE_SPEC_SVC_BRAKING_TIME ->
  atoi (tok_str tokK) = Ok k ->
  ep_block_fits p ->
  0 <= k <= 1000 /\
  exists n bs,
    wt_type12_pwle_str_to_bin pwle0 full_str = Ok (n, bs) /\
    bits_at bs (braking_time_offset p) 24 = k * 8.
Proof.
  intros H Hf HM HsM HaM Hm HK HsK HaK Hep.
  pose proof H as H'.
  unfold wt_type12_pwle_parse in H'. fold (pwle_tokens full_str) in H'.
  destruct (pwle_loop (pwle_tokens full_str) (pwle_entry pwle0))
    as [st| |] eqn:E; cbn [bind] in H'; try discriminate.
  destruct (pwle_loop_svc_block _ _ _ _ _ _ _ E eq_refl HM HsM HaM Hm HK HsK HaK)
    as (Hk & Hsvc).
  pose proof (pwle_finish_fields _ _ H') as (Fsvc & _ & _).
  rewrite Hsvc in Fsvc.
  split; [exact Hk|].
  destruct (pwle_write_braking_time p Hf) as (n & bs & Ew & Hb);
    try (rewrite Fsvc; cbn [svc_id braking_time]);
    [reflexivity|change (2 ^ 24) with 16777216; lia|exact Hep|].
  exists n, bs. unfold wt_type12_pwle_str_to_bin. rewrite H. cbn [bind].
  split; [exact Ew|]. rewrite Hb, Fsvc. reflexivity.
Qed.

(** The example of main.c compiled from an all-zero structure. *)
Lemma pwle_braking_time_emitted_example :
  exists n bs,
    wt_type12_pwle_str_to_bin (zero_pwle 0) pwle_svc_example = Ok (n, bs) /\
    bits_at bs 268 24 = 5 * 8.
Proof.
  assert (H1 : wt_type12_pwle_parse (zero_pwle 0) pwle_svc_example = Ok _)
    by (vm_compute; reflexivity).
  assert (H2 : Z.land 1024 WT_TYPE12_PWLE_METADATA_FLAG <> 0)
    by (vm_compute; discriminate).
  assert (H3 : nth_error (pwle_tokens pwle_svc_example) 4 = Some "M:1")
    by (vm_compute; reflexivity).
  assert (H4 : nth_error (pwle_tokens pwle_svc_example) 5 = Some "K:5")
    by (vm_compute; reflexivity).
  assert (H5 : tok_spec "M:1" = PWLE_SPEC_SVC_MODE) by reflexivity.
  assert (H6 : tok_spec "K:5" = PWLE_SPEC_SVC_BRAKING_TIME) by reflexivity.
  assert (H7 : atoi (tok_str "M:1") = Ok 1) by reflexivity.
  assert (H8 : atoi (tok_str "K:5") = Ok 5) by reflexivity.
  assert (H9 : 0 <= 1 <= 3) by lia.
  match type of H1 with _ = Ok ?p =>
    assert (H10 : ep_block_fits p) by (left; vm_compute; discriminate);
    destruct (pwle_braking_time_emitted (zero_pwle 0) pwle_svc_example p
                "M:1" "K:5" 1 5 H1 H2 H3 H5 H7 H9 H4 H6 H8 H10)
      as (_ & n & bs & E & Hb)
  end.
  exists n, bs. split; [exact E|exact Hb].
Qed.

(** A write that fills the open word exactly. *)
Lemma put_word_exact (ch : dspmem_chunk) (nbits val : Z) :
  0 <= cachebits ch < 24 -> nbits = 24 - cachebits ch ->
  data ch <> max ch ->
  put nbits val ch =
    Ok (stored ch (word_bytes (completed_word ch nbits val))).
Proof.
  intros Hcb Hn Hd. unfold put.
  rewrite (write_word_step ch nbits val) by (try lia; exact Hd). cbv zeta.
  replace (nbits - (24 - cachebits ch)) with 0 by lia.
  reflexivity.
Qed.

Lemma completed_word_aligned (ch : dspmem_chunk) (val : Z) :
  cachebits ch = 0 -> completed_word ch 24 val = val mod 2 ^ 24.
Proof.
  intros H. unfold completed_word. rewrite H.
  change (2 ^ 0) with 1. rewrite Z.mod_1_r, Z.mul_0_l, Z.lor_0_l.
  change (24 - (24 - 0)) with 0. change (2 ^ 0) with 1.
  rewrite Z.div_1_r. reflexivity.
Qed.

(** A write that leaves the word open changes the accumulator only. *)
Lemma put_open (ch : dspmem_chunk) (nbits val : Z) :
  0 <= cachebits ch -> 0 <= nbits -> cachebits ch + nbits < 24 ->
  exists c,
    put nbits val ch =
      Ok {| data := data ch; max := max ch; bytes := bytes ch; cache := c;
            cachebits := cachebits ch + nbits; mem := mem ch |}.
Proof.
  intros Hcb Hn Hlt.
  unfold put, dspmem_chunk_write, write_fuel.
  rewrite write_rec_S. cbv zeta.
  rewrite Z.min_r by lia.
  destruct (Z.eqb_spec (cachebits ch + nbits) 24); [lia|].
  rewrite Z.sub_diag. change (0 =? 0) with true. cbv iota.
  eexists. reflexivity.
Qed.

(** The first three words of an output that starts with fields of 16, 8,
    24 and 24 bits: the third word is the fourth field. *)
Lemma header_words (f t h s size : Z) (rest : list (Z * Z)) (ch : dspmem_chunk) :
  size <> 0 -> size <> 4 -> size <> 8 ->
  Forall (fun f => 0 <= fst f) rest ->
  put_all ([(16, f); (8, t); (24, h); (24, s)] ++ rest)
    (dspmem_chunk_create size) = Ok ch ->
  (0 <= cachebits ch <= 24) /\
  (exists w0 w1 suf,
     mem ch = word_bytes w0 ++ word_bytes w1 ++ word_bytes (s mod 2 ^ 24)
              ++ suf).
Proof.
  intros S0 S4 S8 Hrest H.
  rewrite put_all_app in H. cbn [put_all] in H.
  destruct (put_open (dspmem_chunk_create size) 16 f) as (c & E0);
    [cbn; lia|lia|cbn; lia|].
  rewrite E0 in H. cbn [bind] in H.
  set (ch1 := {| data := data (dspmem_chunk_create size);
                 max := max (dspmem_chunk_create size);
                 bytes := bytes (dspmem_chunk_create size); cache := c;
                 cachebits := cachebits (dspmem_chunk_create size) + 16;
                 mem := mem (dspmem_chunk_create size) |}) in *.
  rewrite (put_word_exact ch1 8 t) in H
    by (subst ch1; cbn [cachebits data max dspmem_chunk_create]; lia).
  cbn [bind] in H.
  set (w0 := completed_word ch1 8 t) in *.
  set (ch2 := stored ch1 (word_bytes w0)) in *.
  rewrite (put_word_exact ch2 24 h) in H
    by (subst ch2 ch1; unfold stored;
        cbn [cachebits data max dspmem_chunk_create word_bytes List.length];
        lia).
  cbn [bind] in H.
  set (w1 := completed_word ch2 24 h) in *.
  set (ch3 := stored ch2 (word_bytes w1)) in *.
  rewrite (put_word_exact ch3 24 s) in H
    by (subst ch3 ch2 ch1; unfold stored;
        cbn [cachebits data max dspmem_chunk_create word_bytes List.length];
        lia).
  cbn [bind] in H.
  rewrite (completed_word_aligned ch3 s) in H by reflexivity.
  set (ch4 := stored ch3 (word_bytes (s mod 2 ^ 24))) in *.
  destruct (put_all_inv rest Hrest ch4) as (c1 & E1 & Hc1 & _ & suf1 & Es1);
    [subst ch4; unfold stored; cbn [cachebits]; lia|].
  rewrite E1 in H. apply Ok_inj in H. subst c1.
  split; [exact Hc1|].
  exists w0, w1, suf1. rewrite Es1.
  subst ch4 ch3 ch2 ch1. unfold stored. cbn [mem dspmem_chunk_create app].
  rewrite <- !app_assoc. reflexivity.
Qed.

Lemma pwle_write_header (p : wt_type12_pwle) (n : Z) (bs : list Z) :
  wt_type12_pwle_write p WT_TYPE12_PWLE_BYTES_MAX = Ok (n, bs) ->
  exists w0 w1 suf,
    bs = word_bytes w0 ++ word_bytes w1 ++
         word_bytes (u32 (nsections p * 2 + nampsections p + 3) mod 2 ^ 24)
         ++ suf.
Proof.
  unfold wt_type12_pwle_write. intros H.
  destruct (put_all_inv (pwle_fields p) (pwle_fields_nonneg p)
              (dspmem_chunk_create WT_TYPE12_PWLE_BYTES_MAX))
    as (ch & E & Hc & _); [cbn; lia|].
  rewrite E in H. cbn [bind] in H.
  destruct (put_flush_inv ch Hc) as (c2 & E2 & suf2 & Es2).
  rewrite E2 in H. cbn [bind] in H.
  apply Ok_inj in H. apply (f_equal snd) in H. cbn [snd] in H.
  unfold pwle_fields in E.
  apply header_words in E; try (unfold WT_TYPE12_PWLE_BYTES_MAX; lia).
  - destruct E as (_ & w0 & w1 & suf & Em).
    exists w0, w1, (suf ++ suf2). rewrite <- H, Es2, Em.
    rewrite <- !app_assoc. reflexivity.
  - apply Forall_app; split; [|apply Forall_app; split].
    + repeat (constructor; [cbn [fst]; lia|]). constructor.
    + apply pwle_section_fields_nonneg.
    + apply pwle_metadata_fields_nonneg.
Qed.

(** X22 ([wt_type12_pwle_str_to_bin], [wt_type12_pwle_write]).  For a PWLE
    string that compiles, when [nampsections], which has no initialiser,
    holds an integer n0 with [0 <= n0 < 2^31] on entry (such a value is an
    exact [double], the increments and the sum are exact and the conversion
    to [uint32_t] is defined): bytes 8 to 11 of the output are a zero byte
    and the low 24 bits of [2 * (number of V tokens) + n0 + (number of AR
    tokens with a value other than 0) + 3], most significant byte first. *)
Theorem pwle_amp_section_count (pwle0 : wt_type12_pwle) (full_str : string)
    (n : Z) (bs : list Z) :
  wt_type12_pwle_str_to_bin pwle0 full_str = Ok (n, bs) ->
  0 <= nampsections pwle0 < 2 ^ 31 ->
  let ar := Z.of_nat (List.length (filter ar_enabled (pwle_tokens full_str))) in
  let size := 2 * count_spec PWLE_SPEC_VBT (pwle_tokens full_str)
              + nampsections pwle0 + ar + 3 in
  Z.of_nat (List.length bs) = n /\ 24 <= n /\
  nth 8 bs 0 = 0 /\ word_at bs 2 = size mod 2 ^ 24.
Proof.
  intros H Hn0 ar size. revert H.
  unfold wt_type12_pwle_str_to_bin.
  destruct (wt_type12_pwle_parse pwle0 full_str) as [p| |] eqn:Hp;
    cbn [bind]; [|intros X; discriminate X|intros X; discriminate X].
  (* the size of the output *)
  destruct (pwle_write_size_aux p) as (bs' & Ew & Hl).
  rewrite Ew. intros H. apply Ok_inj in H.
  pose proof (f_equal fst H) as Hfst. pose proof (f_equal snd H) as Hsnd.
  cbn [fst snd] in Hfst, Hsnd. clear H. subst bs'.
  pose proof (pwle_bits_lower p) as Hlow.
  assert (H24 : 24 <= n).
  { rewrite <- Hfst. clear - Hlow. Z.div_mod_to_equations. lia. }
  split; [rewrite Hl; exact Hfst|]. split; [exact H24|].
  (* the structure after the parse *)
  destruct (pwle_parse_loop _ _ _ Hp) as (st & E & F).
  pose proof (pwle_loop_namp _ _ _ E) as Hn.
  destruct (pwle_finish_flags _ _ F)
    as (_ & _ & _ & _ & _ & _ & _ & _ & Fs & Fn & _).
  assert (H0 : nampsections (v_pwle (pwle_entry pwle0)) = nampsections pwle0).
  { unfold pwle_entry. simpl_locals. reflexivity. }
  rewrite H0 in Hn. fold ar in Hn.
  destruct (pwle_entry_segs _ _ _ E) as (Hseg & Hr).
  unfold WT_MAX_SECTIONS in Hr.
  assert (Har : 0 <= ar <= WT_TYPE12_PWLE_TOTAL_VALS).
  { subst ar. split; [lia|].
    apply Z.le_trans with (Z.of_nat (List.length (pwle_tokens full_str))).
    - apply Nat2Z.inj_le. apply filter_length_le.
    - destruct (pwle_loop_order _ _ _ E) as (Hv & _);
        [cbn; unfold WT_TYPE12_PWLE_TOTAL_VALS; lia|].
      cbn [pwle_entry v_num_vals] in Hv. lia. }
  assert (Es : u32 (nsections p * 2 + nampsections p + 3) = size).
  { rewrite Fn, Hn, Fs. unfold u8.
    rewrite Z.mod_small by (change (2 ^ 8) with 256; lia).
    rewrite Hseg. unfold u32, size.
    unfold WT_TYPE12_PWLE_TOTAL_VALS in Har.
    change (2 ^ 31) with 2147483648 in Hn0.
    rewrite <- Hseg.
    rewrite Z.mod_small by (change (2 ^ 32) with 4294967296; lia). lia. }
  destruct (pwle_write_header p _ _ Ew) as (w0 & w1 & suf & Eb).
  rewrite Es in Eb. rewrite Eb.
  split.
  - reflexivity.
  - rewrite (app_assoc (word_bytes w0)).
    apply word_at_app; [reflexivity|].
    apply Z.mod_pos_bound. lia.
Qed.

Lemma pwle_amp_section_count_witness :
  exists n bs,
    wt_type12_pwle_str_to_bin (zero_pwle 5) scenario_b_relfreq = Ok (n, bs) /\
    0 <= nampsections (zero_pwle 5) < 2 ^ 31 /\
    nth 8 bs 0 = 0 /\ word_at bs 2 = 13.
Proof.
  eexists. eexists.
  assert (H1 : wt_type12_pwle_str_to_bin (zero_pwle 5) scenario_b_relfreq
               = Ok (_, _)) by (vm_compute; reflexivity).
  assert (H2 : 0 <= nampsections (zero_pwle 5) < 2 ^ 31) by (cbn; lia).
  refine (conj H1 (conj H2 _)).
  destruct (pwle_amp_section_count _ _ _ _ H1 H2) as (_ & _ & A & B).
  split; [exact A|exact B].
Defined.
